(** * RendaHomes: the on-chain bookkeeping of the Solidity contracts

    A shallow embedding of the contracts that carry the accounting logic
    of the repository

      - [contracts/HRMToken.sol]            (modules [HRM] and [Faucet])
      - [contracts/PropertyToken.sol]       (modules [PT] and [PTQ])
      - [RendaGovernance]                   (modules [Gov] and [GovQ])
      - [contracts/DisasterManagement.sol]  (modules [DM] and [DMQ])
      - [contracts/WrappedHRM.sol]          (module [WHRM])
      - [contracts/RealEstatePool.sol]      (module [Pool])

    Every public function becomes a function from the pre-state to a
    [result]: [Ok] carries the post-state, [Revert] carries the reason the
    EVM transaction was rolled back.  [uint256] values are [N] with the
    checked arithmetic of Solidity 0.8 written out; a Solidity [mapping] is a
    [gmap] read through a default (an absent key reads as the zero value).
    Events are not state and are left out; [nonReentrant] is left out as
    well, since the only external calls go to the token, which never calls
    back.

    The file has three parts: the contracts, the deployed system with its
    transactions and reachable worlds, and the properties: the invariant of
    the reachable worlds first, then one theorem per claim of the
    specification, then the properties of the rest of the code (X1, X2,
    ...). *)

From Stdlib Require Import NArith Lia.
From stdpp Require Import gmap strings list fin_maps.

Local Open Scope N_scope.

(** ** Transactions that revert *)

Inductive error : Type :=
| Require_failed (msg : string)   (* a failed [require(..., msg)] *)
| Panic_arith                     (* Panic(0x11): checked over/underflow *)
| Panic_div0.                     (* Panic(0x12): division by zero *)

Inductive result (A : Type) : Type :=
| Ok (a : A)
| Revert (e : error).
Arguments Ok {A} a.
Arguments Revert {A} e.

Definition bind {A B} (m : result A) (k : A -> result B) : result B :=
  match m with
  | Ok a => k a
  | Revert e => Revert e
  end.

Notation "'let!' x ':=' m 'in' k" := (bind m (fun x => k))
  (at level 10, x name, m at level 99, k at level 200,
   format "'[v' 'let!'  x  ':='  m  'in'  '/' k ']'").
Notation "'ensure' m ;; k" := (bind m (fun _ => k))
  (at level 10, m at level 99, k at level 200,
   format "'[v' 'ensure'  m  ;;  '/' k ']'").

Definition require (cond : bool) (msg : string) : result unit :=
  if cond then Ok tt else Revert (Require_failed msg).
Arguments require cond msg%_string.

Definition is_ok {A} (r : result A) : bool :=
  match r with Ok _ => true | Revert _ => false end.

(** ** [uint256] and [address] *)

Definition MAX_UINT256 : N := Eval vm_compute in 2 ^ 256 - 1.

Module U256.
Definition add (a b : N) : result N :=
  if a + b <=? MAX_UINT256 then Ok (a + b) else Revert Panic_arith.
Definition sub (a b : N) : result N :=
  if b <=? a then Ok (a - b) else Revert Panic_arith.
Definition mul (a b : N) : result N :=
  if a * b <=? MAX_UINT256 then Ok (a * b) else Revert Panic_arith.
Definition div (a b : N) : result N :=
  if b =? 0 then Revert Panic_div0 else Ok (a / b).
(** arithmetic inside an [unchecked { ... }] block wraps around *)
Definition wrap (a : N) : N := a mod (MAX_UINT256 + 1).
End U256.

Abbreviation address := N (only parsing).
Definition address0 : address := 0.

(** Reading a mapping: an absent key is the zero value. *)
Definition rd `{Countable K} {V} (d : V) (m : gmap K V) (k : K) : V :=
  default d (m !! k).

Definition ether : N := Eval vm_compute in 10 ^ 18.
Definition days : N := 86400.

(** ** HRMToken.sol

    [HRMToken is ERC20, ERC20Burnable, Ownable, Pausable].  The four base
    contracts are imported from the OpenZeppelin 4.x package (the release
    line that has [security/Pausable.sol] and the [_beforeTokenTransfer]
    hook); their internal functions [_transfer], [_mint], [_burn],
    [_approve], [_spendAllowance], [_pause] and [_unpause] are transcribed
    from that package, the rest is [HRMToken.sol].

    This module is the ledger.  The faucet variants [publicMint],
    [publicMintTo], [mintAmount] and [mintAmountTo], the whitelist and
    property-contract flags, [getTimeUntilNextMint] and [emergencyWithdraw]
    are in module [Faucet] further down.  Left out: [increaseAllowance] /
    [decreaseAllowance] (an [approve] of a computed value). *)
Module HRM.

Definition MAX_SUPPLY : N := 1000000000 * ether.
Definition INITIAL_SUPPLY : N := 100000000 * ether.

Record state : Type := mk {
  balances : gmap address N;               (* ERC20._balances *)
  allowances : gmap (address * address) N; (* ERC20._allowances *)
  totalSupply : N;                         (* ERC20._totalSupply *)
  paused : bool;                           (* Pausable._paused *)
  owner : address                          (* Ownable._owner *)
}.

Definition balanceOf (s : state) (a : address) : N := rd 0 (balances s) a.
Definition allowance (s : state) (o sp : address) : N :=
  rd 0 (allowances s) (o, sp).

Definition set_balance (a : address) (v : N) (s : state) : state :=
  mk (<[a := v]> (balances s)) (allowances s) (totalSupply s) (paused s)
     (owner s).
Definition set_allowance (o sp : address) (v : N) (s : state) : state :=
  mk (balances s) (<[(o, sp) := v]> (allowances s)) (totalSupply s)
     (paused s) (owner s).
Definition set_totalSupply (v : N) (s : state) : state :=
  mk (balances s) (allowances s) v (paused s) (owner s).
Definition set_paused (b : bool) (s : state) : state :=
  mk (balances s) (allowances s) (totalSupply s) b (owner s).
Definition set_owner (a : address) (s : state) : state :=
  mk (balances s) (allowances s) (totalSupply s) (paused s) a.

(** constructor: [_mint(msg.sender, INITIAL_SUPPLY)], owner = deployer *)
Definition init (deployer : address) : state :=
  mk {[ deployer := INITIAL_SUPPLY ]} ∅ INITIAL_SUPPLY false deployer.

Definition onlyOwner (s : state) (sender : address) : result unit :=
  require (sender =? owner s) "Ownable: caller is not the owner".

(** HRMToken.sol 191-198: the hook carries [whenNotPaused]; the body only
    calls the empty hook of the base contract. *)
Definition _beforeTokenTransfer (s : state) (from to : address) (amount : N)
  : result unit :=
  require (negb (paused s)) "Pausable: paused".

Definition _transfer (s : state) (from to : address) (amount : N)
  : result state :=
  ensure require (negb (from =? address0)) "ERC20: transfer from the zero address" ;;
  ensure require (negb (to =? address0)) "ERC20: transfer to the zero address" ;;
  ensure _beforeTokenTransfer s from to amount ;;
  let fromBalance := balanceOf s from in
  ensure require (amount <=? fromBalance) "ERC20: transfer amount exceeds balance" ;;
  let s1 := set_balance from (fromBalance - amount) s in
  Ok (set_balance to (U256.wrap (balanceOf s1 to + amount)) s1).

Definition _mint (s : state) (account : address) (amount : N) : result state :=
  ensure require (negb (account =? address0)) "ERC20: mint to the zero address" ;;
  ensure _beforeTokenTransfer s address0 account amount ;;
  let! ts := U256.add (totalSupply s) amount in
  let s1 := set_totalSupply ts s in
  Ok (set_balance account (U256.wrap (balanceOf s1 account + amount)) s1).

Definition _burn (s : state) (account : address) (amount : N) : result state :=
  ensure require (negb (account =? address0)) "ERC20: burn from the zero address" ;;
  ensure _beforeTokenTransfer s account address0 amount ;;
  let accountBalance := balanceOf s account in
  ensure require (amount <=? accountBalance) "ERC20: burn amount exceeds balance" ;;
  let s1 := set_balance account (accountBalance - amount) s in
  (* unchecked { _totalSupply -= amount; } : subtraction modulo 2^256 *)
  Ok (set_totalSupply
        (U256.wrap (totalSupply s1 + (MAX_UINT256 + 1) - amount)) s1).

Definition _approve (s : state) (o sp : address) (amount : N) : result state :=
  ensure require (negb (o =? address0)) "ERC20: approve from the zero address" ;;
  ensure require (negb (sp =? address0)) "ERC20: approve to the zero address" ;;
  Ok (set_allowance o sp amount s).

Definition _spendAllowance (s : state) (o sp : address) (amount : N)
  : result state :=
  let currentAllowance := allowance s o sp in
  if currentAllowance =? MAX_UINT256 then Ok s
  else
    ensure require (amount <=? currentAllowance) "ERC20: insufficient allowance" ;;
    _approve s o sp (currentAllowance - amount).

(** *** external functions *)

Definition transfer (s : state) (sender to : address) (amount : N)
  : result state :=
  _transfer s sender to amount.

Definition approve (s : state) (sender spender : address) (amount : N)
  : result state :=
  _approve s sender spender amount.

Definition transferFrom (s : state) (sender from to : address) (amount : N)
  : result state :=
  let! s1 := _spendAllowance s from sender amount in
  _transfer s1 from to amount.

(** HRMToken.sol 58-61 *)
Definition mint (s : state) (sender to : address) (amount : N) : result state :=
  let! sum := U256.add (totalSupply s) amount in
  ensure require (sum <=? MAX_SUPPLY) "HRM: Max supply exceeded" ;;
  _mint s to amount.

(** ERC20Burnable *)
Definition burn (s : state) (sender : address) (amount : N) : result state :=
  _burn s sender amount.

Definition burnFrom (s : state) (sender account : address) (amount : N)
  : result state :=
  let! s1 := _spendAllowance s account sender amount in
  _burn s1 account amount.

(** HRMToken.sol 177-186, with Pausable's [_pause] / [_unpause] *)
Definition pause (s : state) (sender : address) : result state :=
  ensure onlyOwner s sender ;;
  ensure require (negb (paused s)) "Pausable: paused" ;;
  Ok (set_paused true s).

Definition unpause (s : state) (sender : address) : result state :=
  ensure onlyOwner s sender ;;
  ensure require (paused s) "Pausable: not paused" ;;
  Ok (set_paused false s).

(** Ownable *)
Definition transferOwnership (s : state) (sender newOwner : address)
  : result state :=
  ensure onlyOwner s sender ;;
  ensure require (negb (newOwner =? address0))
    "Ownable: new owner is the zero address" ;;
  Ok (set_owner newOwner s).

Definition renounceOwnership (s : state) (sender : address) : result state :=
  ensure onlyOwner s sender ;;
  Ok (set_owner address0 s).

End HRM.

(** ** PropertyToken.sol *)
Module PT.

Inductive PropertyType := Residential | Commercial | Industrial | Mixed.
Inductive RiskLevel := Low | Medium | High.

Record Property : Type := mkProperty {
  id : N;
  metadataURI : string;
  totalValue : N;
  totalTokens : N;
  availableTokens : N;
  tokenPrice : N;
  propertyOwner : address;
  isActive : bool;
  isVerified : bool;
  createdAt : N;
  propertyType : PropertyType;
  riskLevel : RiskLevel
}.

Record Investment : Type := mkInvestment {
  investor : address;
  tokensOwned : N;
  investmentAmount : N;
  purchaseDate : N
}.

Record SellOrder : Type := mkSellOrder {
  so_id : N;
  so_propertyId : N;
  seller : address;
  tokensForSale : N;
  pricePerToken : N;
  totalPrice : N;
  so_isActive : bool;
  so_createdAt : N;
  expiresAt : N
}.

(** the zero values a mapping returns for a key never written *)
Definition Property0 : Property :=
  mkProperty 0 "" 0 0 0 0 address0 false false 0 Residential Low.
Definition Investment0 : Investment := mkInvestment address0 0 0 0.
Definition SellOrder0 : SellOrder := mkSellOrder 0 0 address0 0 0 0 false 0 0.

(** the part of the ERC721 / ERC721URIStorage storage that [listProperty]
    writes; the NFT transfer and approval functions are left out: the
    registry never reads the NFT owner again ([propertyOwner] is a field of
    its own) *)
Record ERC721 : Type := mkERC721 {
  nftOwners : gmap N address;
  nftBalances : gmap address N;
  tokenURIs : gmap N string
}.

Record state : Type := mk {
  tokenIdCounter : N;
  properties : gmap N Property;
  investments : gmap N (gmap address Investment);
  propertyInvestors : gmap N (list address);
  investorProperties : gmap address (list N);
  platformFeePercent : N;
  feeRecipient : address;
  sellOrders : gmap N SellOrder;
  propertySellOrders : gmap N (list N);
  userSellOrders : gmap address (list N);
  sellOrderCounter : N;
  nft : ERC721;
  owner : address;                  (* Ownable._owner *)
  self : address                    (* address(this) *)
}.

Definition MIN_INVESTMENT : N := 100 * ether.

(** constructor(_hrmToken, _feeRecipient), deployed at address [this] *)
Definition init (deployer this _feeRecipient : address) : state :=
  mk 0 ∅ ∅ ∅ ∅ 250 _feeRecipient ∅ ∅ ∅ 0 (mkERC721 ∅ ∅ ∅) deployer this.

(** *** storage reads *)
Definition getProperty (s : state) (propertyId : N) : Property :=
  rd Property0 (properties s) propertyId.
Definition holdings (s : state) (propertyId : N) : gmap address Investment :=
  rd ∅ (investments s) propertyId.
Definition getInvestment (s : state) (propertyId : N) (a : address)
  : Investment :=
  rd Investment0 (holdings s propertyId) a.
Definition getPropertyInvestors (s : state) (propertyId : N) : list address :=
  rd [] (propertyInvestors s) propertyId.
Definition getInvestorProperties (s : state) (a : address) : list N :=
  rd [] (investorProperties s) a.
Definition getSellOrder (s : state) (orderId : N) : SellOrder :=
  rd SellOrder0 (sellOrders s) orderId.
Definition getPropertySellOrders (s : state) (propertyId : N) : list N :=
  rd [] (propertySellOrders s) propertyId.
Definition getUserSellOrders (s : state) (a : address) : list N :=
  rd [] (userSellOrders s) a.

(** *** storage writes *)
Definition set_tokenIdCounter (v : N) (s : state) : state :=
  mk v (properties s) (investments s) (propertyInvestors s)
     (investorProperties s) (platformFeePercent s) (feeRecipient s)
     (sellOrders s) (propertySellOrders s) (userSellOrders s)
     (sellOrderCounter s) (nft s) (owner s) (self s).
Definition set_property (propertyId : N) (p : Property) (s : state) : state :=
  mk (tokenIdCounter s) (<[propertyId := p]> (properties s)) (investments s)
     (propertyInvestors s) (investorProperties s) (platformFeePercent s)
     (feeRecipient s) (sellOrders s) (propertySellOrders s)
     (userSellOrders s) (sellOrderCounter s) (nft s) (owner s) (self s).
Definition set_investment (propertyId : N) (a : address) (i : Investment)
    (s : state) : state :=
  mk (tokenIdCounter s) (properties s)
     (<[propertyId := <[a := i]> (holdings s propertyId)]> (investments s))
     (propertyInvestors s) (investorProperties s) (platformFeePercent s)
     (feeRecipient s) (sellOrders s) (propertySellOrders s)
     (userSellOrders s) (sellOrderCounter s) (nft s) (owner s) (self s).
Definition push_propertyInvestor (propertyId : N) (a : address) (s : state)
  : state :=
  mk (tokenIdCounter s) (properties s) (investments s)
     (<[propertyId := getPropertyInvestors s propertyId ++ [a]]>
        (propertyInvestors s))
     (investorProperties s) (platformFeePercent s) (feeRecipient s)
     (sellOrders s) (propertySellOrders s) (userSellOrders s)
     (sellOrderCounter s) (nft s) (owner s) (self s).
Definition push_investorProperty (a : address) (propertyId : N) (s : state)
  : state :=
  mk (tokenIdCounter s) (properties s) (investments s) (propertyInvestors s)
     (<[a := getInvestorProperties s a ++ [propertyId]]>
        (investorProperties s))
     (platformFeePercent s) (feeRecipient s) (sellOrders s)
     (propertySellOrders s) (userSellOrders s) (sellOrderCounter s) (nft s)
     (owner s) (self s).
Definition set_platformFeePercent (v : N) (s : state) : state :=
  mk (tokenIdCounter s) (properties s) (investments s) (propertyInvestors s)
     (investorProperties s) v (feeRecipient s) (sellOrders s)
     (propertySellOrders s) (userSellOrders s) (sellOrderCounter s) (nft s)
     (owner s) (self s).
Definition set_feeRecipient (v : address) (s : state) : state :=
  mk (tokenIdCounter s) (properties s) (investments s) (propertyInvestors s)
     (investorProperties s) (platformFeePercent s) v (sellOrders s)
     (propertySellOrders s) (userSellOrders s) (sellOrderCounter s) (nft s)
     (owner s) (self s).
Definition set_sellOrder (orderId : N) (o : SellOrder) (s : state) : state :=
  mk (tokenIdCounter s) (properties s) (investments s) (propertyInvestors s)
     (investorProperties s) (platformFeePercent s) (feeRecipient s)
     (<[orderId := o]> (sellOrders s)) (propertySellOrders s)
     (userSellOrders s) (sellOrderCounter s) (nft s) (owner s) (self s).
Definition push_propertySellOrder (propertyId orderId : N) (s : state)
  : state :=
  mk (tokenIdCounter s) (properties s) (investments s) (propertyInvestors s)
     (investorProperties s) (platformFeePercent s) (feeRecipient s)
     (sellOrders s)
     (<[propertyId := getPropertySellOrders s propertyId ++ [orderId]]>
        (propertySellOrders s))
     (userSellOrders s) (sellOrderCounter s) (nft s) (owner s) (self s).
Definition push_userSellOrder (a : address) (orderId : N) (s : state)
  : state :=
  mk (tokenIdCounter s) (properties s) (investments s) (propertyInvestors s)
     (investorProperties s) (platformFeePercent s) (feeRecipient s)
     (sellOrders s) (propertySellOrders s)
     (<[a := getUserSellOrders s a ++ [orderId]]> (userSellOrders s))
     (sellOrderCounter s) (nft s) (owner s) (self s).
Definition set_sellOrderCounter (v : N) (s : state) : state :=
  mk (tokenIdCounter s) (properties s) (investments s) (propertyInvestors s)
     (investorProperties s) (platformFeePercent s) (feeRecipient s)
     (sellOrders s) (propertySellOrders s) (userSellOrders s) v (nft s)
     (owner s) (self s).
Definition set_nft (v : ERC721) (s : state) : state :=
  mk (tokenIdCounter s) (properties s) (investments s) (propertyInvestors s)
     (investorProperties s) (platformFeePercent s) (feeRecipient s)
     (sellOrders s) (propertySellOrders s) (userSellOrders s)
     (sellOrderCounter s) v (owner s) (self s).
Definition set_owner (v : address) (s : state) : state :=
  mk (tokenIdCounter s) (properties s) (investments s) (propertyInvestors s)
     (investorProperties s) (platformFeePercent s) (feeRecipient s)
     (sellOrders s) (propertySellOrders s) (userSellOrders s)
     (sellOrderCounter s) (nft s) v (self s).

Definition set_availableTokens (v : N) (p : Property) : Property :=
  mkProperty (id p) (metadataURI p) (totalValue p) (totalTokens p) v
    (tokenPrice p) (propertyOwner p) (isActive p) (isVerified p)
    (createdAt p) (propertyType p) (riskLevel p).
Definition set_isVerified (v : bool) (p : Property) : Property :=
  mkProperty (id p) (metadataURI p) (totalValue p) (totalTokens p)
    (availableTokens p) (tokenPrice p) (propertyOwner p) (isActive p) v
    (createdAt p) (propertyType p) (riskLevel p).
Definition set_isActive (v : bool) (p : Property) : Property :=
  mkProperty (id p) (metadataURI p) (totalValue p) (totalTokens p)
    (availableTokens p) (tokenPrice p) (propertyOwner p) v (isVerified p)
    (createdAt p) (propertyType p) (riskLevel p).
Definition set_tokensOwned (v : N) (i : Investment) : Investment :=
  mkInvestment (investor i) v (investmentAmount i) (purchaseDate i).
Definition set_tokensForSale (v : N) (o : SellOrder) : SellOrder :=
  mkSellOrder (so_id o) (so_propertyId o) (seller o) v (pricePerToken o)
    (totalPrice o) (so_isActive o) (so_createdAt o) (expiresAt o).
Definition set_so_isActive (v : bool) (o : SellOrder) : SellOrder :=
  mkSellOrder (so_id o) (so_propertyId o) (seller o) (tokensForSale o)
    (pricePerToken o) (totalPrice o) v (so_createdAt o) (expiresAt o).

(** *** modifiers *)
Definition onlyOwner (s : state) (sender : address) : result unit :=
  require (sender =? owner s) "Ownable: caller is not the owner".
Definition propertyExists (s : state) (propertyId : N) : result unit :=
  require (propertyId <? tokenIdCounter s) "Property does not exist".
Definition propertyActive (s : state) (propertyId : N) : result unit :=
  require (isActive (getProperty s propertyId)) "Property not active".

(** ERC721 [_safeMint(to, tokenId)] followed by [_setTokenURI]; callers
    are externally owned accounts, so no receiver hook runs. *)
Definition _safeMint (e : ERC721) (to : address) (tokenId : N)
  : result ERC721 :=
  ensure require (negb (to =? address0)) "ERC721: mint to the zero address" ;;
  ensure require (negb (bool_decide (is_Some (nftOwners e !! tokenId))))
    "ERC721: token already minted" ;;
  Ok (mkERC721 (<[tokenId := to]> (nftOwners e))
        (<[to := U256.wrap (rd 0 (nftBalances e) to + 1)]> (nftBalances e))
        (tokenURIs e)).
Definition _setTokenURI (e : ERC721) (tokenId : N) (uri : string)
  : result ERC721 :=
  ensure require (bool_decide (is_Some (nftOwners e !! tokenId)))
    "ERC721URIStorage: URI set of nonexistent token" ;;
  Ok (mkERC721 (nftOwners e) (nftBalances e) (<[tokenId := uri]> (tokenURIs e))).

(** *** PropertyToken.sol 90-125 *)
Definition listProperty (s : state) (sender : address) (now : N)
    (uri : string) (totalValue_ totalTokens_ : N)
    (propertyType_ : PropertyType) (riskLevel_ : RiskLevel)
  : result (state * N) :=
  ensure require (0 <? totalValue_) "Invalid property value" ;;
  ensure require (0 <? totalTokens_) "Invalid token amount" ;;
  let propertyId := tokenIdCounter s in
  (* Counters.increment: unchecked { counter._value += 1; } *)
  let s1 := set_tokenIdCounter (U256.wrap (propertyId + 1)) s in
  let! tokenPrice_ := U256.div totalValue_ totalTokens_ in
  let s2 :=
    set_property propertyId
      (mkProperty propertyId uri totalValue_ totalTokens_ totalTokens_
         tokenPrice_ sender false false now propertyType_ riskLevel_) s1 in
  let! e1 := _safeMint (nft s2) sender propertyId in
  let! e2 := _setTokenURI e1 propertyId uri in
  Ok (set_nft e2 s2, propertyId).

(** *** PropertyToken.sol 130-134 *)
Definition verifyProperty (s : state) (sender : address) (propertyId : N)
  : result state :=
  ensure onlyOwner s sender ;;
  ensure propertyExists s propertyId ;;
  let s1 := set_property propertyId
              (set_isVerified true (getProperty s propertyId)) s in
  Ok (set_property propertyId
        (set_isActive true (getProperty s1 propertyId)) s1).

(** the investor bookkeeping shared by lines 163-171 and 429-437 *)
Definition credit_investment (s : state) (now : N) (propertyId : N)
    (who : address) (tokens netAmount : N) : result state :=
  let s1 :=
    if investor (getInvestment s propertyId who) =? address0
    then push_investorProperty who propertyId
           (push_propertyInvestor propertyId who s)
    else s in
  let inv := getInvestment s1 propertyId who in
  let! owned := U256.add (tokensOwned inv) tokens in
  let! paid := U256.add (investmentAmount inv) netAmount in
  Ok (set_investment propertyId who (mkInvestment who owned paid now) s1).

(** *** PropertyToken.sol 139-176.  The ledger calls are made by the
    contract, so their [msg.sender] is [self s]. *)
Definition purchaseTokens (tok : HRM.state) (s : state) (sender : address)
    (now : N) (propertyId tokens : N) : result (HRM.state * state) :=
  ensure propertyExists s propertyId ;;
  ensure propertyActive s propertyId ;;
  let property := getProperty s propertyId in
  ensure require (0 <? tokens) "Invalid token amount" ;;
  ensure require (tokens <=? availableTokens property)
    "Not enough tokens available" ;;
  let! cost := U256.mul tokens (tokenPrice property) in
  ensure require (MIN_INVESTMENT <=? cost) "Below minimum investment" ;;
  ensure require (cost <=? HRM.balanceOf tok sender)
    "Insufficient HRM balance" ;;
  let! scaled := U256.mul cost (platformFeePercent s) in
  let! fee := U256.div scaled 10000 in
  let! netAmount := U256.sub cost fee in
  let! tok1 := HRM.transferFrom tok (self s) sender (self s) cost in
  let! tok2 := HRM.transfer tok1 (self s) (feeRecipient s) fee in
  let! tok3 := HRM.transfer tok2 (self s) (propertyOwner property) netAmount in
  let! s1 := credit_investment s now propertyId sender tokens netAmount in
  let property1 := getProperty s1 propertyId in
  let! avail := U256.sub (availableTokens property1) tokens in
  Ok (tok3, set_property propertyId (set_availableTokens avail property1) s1).

(** the loop of lines 193-201 over the copied investor array *)
Fixpoint distribute_loop (tok : HRM.state) (s : state) (propertyId : N)
    (totalIncome totalDistributed : N) (investors : list address)
  : result HRM.state :=
  match investors with
  | [] => Ok tok
  | investor_ :: rest =>
      let owned := tokensOwned (getInvestment s propertyId investor_) in
      if 0 <? owned then
        let! scaled := U256.mul totalIncome owned in
        let! share := U256.div scaled totalDistributed in
        let! tok1 := HRM.transfer tok (self s) investor_ share in
        distribute_loop tok1 s propertyId totalIncome totalDistributed rest
      else
        distribute_loop tok s propertyId totalIncome totalDistributed rest
  end.

(** *** PropertyToken.sol 181-204 *)
Definition distributeRentalIncome (tok : HRM.state) (s : state)
    (sender : address) (propertyId totalIncome : N) : result HRM.state :=
  ensure onlyOwner s sender ;;
  ensure propertyExists s propertyId ;;
  let property := getProperty s propertyId in
  ensure require (0 <? totalIncome) "Invalid income amount" ;;
  ensure require (totalIncome <=? HRM.balanceOf tok (self s))
    "Insufficient contract balance" ;;
  let investors := getPropertyInvestors s propertyId in
  let! totalDistributed :=
    U256.sub (totalTokens property) (availableTokens property) in
  distribute_loop tok s propertyId totalIncome totalDistributed investors.

(** *** PropertyToken.sol 254-265 *)
Definition setPlatformFee (s : state) (sender : address) (newFeePercent : N)
  : result state :=
  ensure onlyOwner s sender ;;
  ensure require (newFeePercent <=? 1000) "Fee too high" ;;
  Ok (set_platformFeePercent newFeePercent s).

Definition setFeeRecipient (s : state) (sender newRecipient : address)
  : result state :=
  ensure onlyOwner s sender ;;
  ensure require (negb (newRecipient =? address0)) "Invalid address" ;;
  Ok (set_feeRecipient newRecipient s).

(** *** PropertyToken.sol 330-364 *)
Definition createSellOrder (s : state) (sender : address) (now : N)
    (propertyId tokensForSale_ pricePerToken_ durationDays : N)
  : result (state * N) :=
  ensure propertyExists s propertyId ;;
  ensure require (0 <? tokensForSale_) "Invalid token amount" ;;
  ensure require (0 <? pricePerToken_) "Invalid price" ;;
  ensure require ((0 <? durationDays) && (durationDays <=? 90))
    "Invalid duration" ;;
  let investment := getInvestment s propertyId sender in
  ensure require (tokensForSale_ <=? tokensOwned investment)
    "Insufficient tokens" ;;
  let orderId := sellOrderCounter s in
  let! next := U256.add orderId 1 in
  let s1 := set_sellOrderCounter next s in
  let! totalPrice_ := U256.mul tokensForSale_ pricePerToken_ in
  let! duration := U256.mul durationDays days in
  let! expiresAt_ := U256.add now duration in
  let s2 :=
    set_sellOrder orderId
      (mkSellOrder orderId propertyId sender tokensForSale_ pricePerToken_
         totalPrice_ true now expiresAt_) s1 in
  Ok (push_userSellOrder sender orderId
        (push_propertySellOrder propertyId orderId s2), orderId).

(** *** PropertyToken.sol 403-410 *)
Definition _processBuyOrderPayment (tok : HRM.state) (s : state)
    (sender : address) (totalCost : N) (seller_ : address)
  : result HRM.state :=
  let! scaled := U256.mul totalCost (platformFeePercent s) in
  let! fee := U256.div scaled 10000 in
  let! netAmount := U256.sub totalCost fee in
  let! tok1 := HRM.transferFrom tok (self s) sender (self s) totalCost in
  let! tok2 := HRM.transfer tok1 (self s) (feeRecipient s) fee in
  HRM.transfer tok2 (self s) seller_ netAmount.

(** *** PropertyToken.sol 415-438 *)
Definition _updateBuyOrderInvestments (s : state) (now : N)
    (propertyId : N) (seller_ buyer : address) (tokensToBuy totalCost : N)
  : result state :=
  let! scaled := U256.mul totalCost (platformFeePercent s) in
  let! fee := U256.div scaled 10000 in
  let! netAmount := U256.sub totalCost fee in
  let sellerInv := getInvestment s propertyId seller_ in
  let! left := U256.sub (tokensOwned sellerInv) tokensToBuy in
  let s1 := set_investment propertyId seller_
              (set_tokensOwned left sellerInv) s in
  credit_investment s1 now propertyId buyer tokensToBuy netAmount.

(** *** PropertyToken.sol 369-398 *)
Definition buyFromOrder (tok : HRM.state) (s : state) (sender : address)
    (now : N) (orderId tokensToBuy : N) : result (HRM.state * state) :=
  let order := getSellOrder s orderId in
  ensure require (so_isActive order) "Order not active" ;;
  ensure require (now <=? expiresAt order) "Order expired" ;;
  ensure require ((0 <? tokensToBuy) && (tokensToBuy <=? tokensForSale order))
    "Invalid token amount" ;;
  ensure require (negb (sender =? seller order)) "Cannot buy own order" ;;
  let sellerInvestment :=
    getInvestment s (so_propertyId order) (seller order) in
  ensure require (tokensToBuy <=? tokensOwned sellerInvestment)
    "Seller insufficient tokens" ;;
  let! totalCost := U256.mul tokensToBuy (pricePerToken order) in
  ensure require (totalCost <=? HRM.balanceOf tok sender)
    "Insufficient HRM balance" ;;
  let! tok1 := _processBuyOrderPayment tok s sender totalCost (seller order) in
  let! s1 := _updateBuyOrderInvestments s now (so_propertyId order)
               (seller order) sender tokensToBuy totalCost in
  let order1 := getSellOrder s1 orderId in
  let! left := U256.sub (tokensForSale order1) tokensToBuy in
  let order2 := set_tokensForSale left order1 in
  let order3 :=
    if tokensForSale order2 =? 0 then set_so_isActive false order2
    else order2 in
  Ok (tok1, set_sellOrder orderId order3 s1).

(** *** PropertyToken.sol 443-450 *)
Definition cancelSellOrder (s : state) (sender : address) (orderId : N)
  : result state :=
  let order := getSellOrder s orderId in
  ensure require ((seller order =? sender) || (sender =? owner s))
    "Not authorized" ;;
  ensure require (so_isActive order) "Order not active" ;;
  Ok (set_sellOrder orderId (set_so_isActive false order) s).

(** *** Ownable *)
Definition transferOwnership (s : state) (sender newOwner : address)
  : result state :=
  ensure onlyOwner s sender ;;
  ensure require (negb (newOwner =? address0))
    "Ownable: new owner is the zero address" ;;
  Ok (set_owner newOwner s).

Definition renounceOwnership (s : state) (sender : address) : result state :=
  ensure onlyOwner s sender ;;
  Ok (set_owner address0 s).

End PT.

(** ** RendaGovernance *)
Module Gov.

Record Proposal : Type := mkProposal {
  id : N;
  title : string;
  description : string;
  proposer : address;
  votesFor : N;
  votesAgainst : N;
  startTime : N;
  endTime : N;
  executed : bool;
  passed : bool
}.

Record Vote : Type := mkVote {
  hasVoted : bool;
  support : bool;
  votingPower : N
}.

Definition Proposal0 : Proposal := mkProposal 0 "" "" address0 0 0 0 0 false false.
Definition Vote0 : Vote := mkVote false false 0.

Record state : Type := mk {
  proposalCount : N;
  proposals : gmap N Proposal;
  votes : gmap (N * address) Vote
}.

Definition VOTING_PERIOD : N := 7 * days.
Definition MIN_VOTING_POWER : N := 100 * ether.
Definition QUORUM_PERCENTAGE : N := 20.

Definition init : state := mk 0 ∅ ∅.

Definition getProposal (s : state) (proposalId : N) : Proposal :=
  rd Proposal0 (proposals s) proposalId.
Definition getVote (s : state) (proposalId : N) (voter : address) : Vote :=
  rd Vote0 (votes s) (proposalId, voter).

Definition set_proposal (proposalId : N) (p : Proposal) (s : state) : state :=
  mk (proposalCount s) (<[proposalId := p]> (proposals s)) (votes s).
Definition set_vote (proposalId : N) (voter : address) (v : Vote) (s : state)
  : state :=
  mk (proposalCount s) (proposals s) (<[(proposalId, voter) := v]> (votes s)).
Definition set_proposalCount (v : N) (s : state) : state :=
  mk v (proposals s) (votes s).

Definition set_votesFor (v : N) (p : Proposal) : Proposal :=
  mkProposal (id p) (title p) (description p) (proposer p) v (votesAgainst p)
    (startTime p) (endTime p) (executed p) (passed p).
Definition set_votesAgainst (v : N) (p : Proposal) : Proposal :=
  mkProposal (id p) (title p) (description p) (proposer p) (votesFor p) v
    (startTime p) (endTime p) (executed p) (passed p).
Definition set_outcome (e r : bool) (p : Proposal) : Proposal :=
  mkProposal (id p) (title p) (description p) (proposer p) (votesFor p)
    (votesAgainst p) (startTime p) (endTime p) e r.

(** *** lines 52-71 *)
Definition createProposal (tok : HRM.state) (s : state) (sender : address)
    (now : N) (title_ description_ : string) : result state :=
  ensure require (MIN_VOTING_POWER <=? HRM.balanceOf tok sender)
    "Insufficient HRM balance to create proposal" ;;
  let! count := U256.add (proposalCount s) 1 in
  let s1 := set_proposalCount count s in
  let! endTime_ := U256.add now VOTING_PERIOD in
  Ok (set_proposal count
        (mkProposal count title_ description_ sender 0 0 now endTime_
           false false) s1).

(** *** lines 76-99 *)
Definition vote (tok : HRM.state) (s : state) (sender : address) (now : N)
    (proposalId : N) (support_ : bool) : result state :=
  ensure require ((0 <? proposalId) && (proposalId <=? proposalCount s))
    "Invalid proposal ID" ;;
  let proposal := getProposal s proposalId in
  ensure require (now <=? endTime proposal) "Voting period has ended" ;;
  ensure require (negb (hasVoted (getVote s proposalId sender)))
    "Already voted" ;;
  let votingPower_ := HRM.balanceOf tok sender in
  ensure require (MIN_VOTING_POWER <=? votingPower_)
    "Insufficient HRM balance to vote" ;;
  let s1 := set_vote proposalId sender (mkVote true support_ votingPower_) s in
  if support_ then
    let! v := U256.add (votesFor proposal) votingPower_ in
    Ok (set_proposal proposalId (set_votesFor v proposal) s1)
  else
    let! v := U256.add (votesAgainst proposal) votingPower_ in
    Ok (set_proposal proposalId (set_votesAgainst v proposal) s1).

(** *** lines 104-121 *)
Definition executeProposal (tok : HRM.state) (s : state) (sender : address)
    (now : N) (proposalId : N) : result state :=
  ensure require ((0 <? proposalId) && (proposalId <=? proposalCount s))
    "Invalid proposal ID" ;;
  let proposal := getProposal s proposalId in
  ensure require (endTime proposal <? now) "Voting period not ended" ;;
  ensure require (negb (executed proposal)) "Proposal already executed" ;;
  let! totalVotes := U256.add (votesFor proposal) (votesAgainst proposal) in
  let totalSupply := HRM.totalSupply tok in
  let! scaled := U256.mul totalSupply QUORUM_PERCENTAGE in
  let! quorum := U256.div scaled 100 in
  let passed_ :=
    (quorum <=? totalVotes) && (votesAgainst proposal <? votesFor proposal) in
  Ok (set_proposal proposalId (set_outcome true passed_ proposal) s).

End Gov.

(** ** DisasterManagement.sol *)
Module DM.

Inductive DisasterType := FLOOD | FIRE | EARTHQUAKE | HURRICANE | OTHER.
Inductive ClaimStatus := PENDING | APPROVED | REJECTED | PAID.

Definition ClaimStatus_eqb (a b : ClaimStatus) : bool :=
  match a, b with
  | PENDING, PENDING | APPROVED, APPROVED
  | REJECTED, REJECTED | PAID, PAID => true
  | _, _ => false
  end.

Record DisasterReport : Type := mkReport {
  id : N;
  propertyId : N;
  disasterType : DisasterType;
  description : string;
  reportedAt : N;
  reporter : address;
  verified : bool
}.

Record InsuranceClaim : Type := mkClaim {
  cl_id : N;
  cl_propertyId : N;
  disasterReportId : N;
  claimAmount : N;
  status : ClaimStatus;
  evidence : string;
  claimedAt : N;
  claimant : address;
  approvedAmount : N
}.

Definition DisasterReport0 : DisasterReport :=
  mkReport 0 0 FLOOD "" 0 address0 false.
Definition InsuranceClaim0 : InsuranceClaim :=
  mkClaim 0 0 0 0 PENDING "" 0 address0 0.

Record state : Type := mk {
  disasterReportCount : N;
  insuranceClaimCount : N;
  insuranceFund : N;
  disasterReports : gmap N DisasterReport;
  insuranceClaims : gmap N InsuranceClaim;
  propertyDisasters : gmap N (list N);
  authorizedReporters : gmap address bool;
  owner : address;                  (* Ownable._owner *)
  self : address                    (* address(this) *)
}.

(** constructor: [authorizedReporters[owner()] = true] *)
Definition init (deployer this : address) : state :=
  mk 0 0 0 ∅ ∅ ∅ {[ deployer := true ]} deployer this.

Definition getReport (s : state) (reportId : N) : DisasterReport :=
  rd DisasterReport0 (disasterReports s) reportId.
Definition getClaim (s : state) (claimId : N) : InsuranceClaim :=
  rd InsuranceClaim0 (insuranceClaims s) claimId.
Definition getPropertyDisasters (s : state) (propertyId_ : N) : list N :=
  rd [] (propertyDisasters s) propertyId_.

Definition set_insuranceFund (v : N) (s : state) : state :=
  mk (disasterReportCount s) (insuranceClaimCount s) v (disasterReports s)
     (insuranceClaims s) (propertyDisasters s) (authorizedReporters s)
     (owner s) (self s).
Definition set_disasterReportCount (v : N) (s : state) : state :=
  mk v (insuranceClaimCount s) (insuranceFund s) (disasterReports s)
     (insuranceClaims s) (propertyDisasters s) (authorizedReporters s)
     (owner s) (self s).
Definition set_insuranceClaimCount (v : N) (s : state) : state :=
  mk (disasterReportCount s) v (insuranceFund s) (disasterReports s)
     (insuranceClaims s) (propertyDisasters s) (authorizedReporters s)
     (owner s) (self s).
Definition set_report (reportId : N) (r : DisasterReport) (s : state) : state :=
  mk (disasterReportCount s) (insuranceClaimCount s) (insuranceFund s)
     (<[reportId := r]> (disasterReports s)) (insuranceClaims s)
     (propertyDisasters s) (authorizedReporters s) (owner s) (self s).
Definition set_claim (claimId : N) (c : InsuranceClaim) (s : state) : state :=
  mk (disasterReportCount s) (insuranceClaimCount s) (insuranceFund s)
     (disasterReports s) (<[claimId := c]> (insuranceClaims s))
     (propertyDisasters s) (authorizedReporters s) (owner s) (self s).
Definition push_propertyDisaster (propertyId_ reportId : N) (s : state)
  : state :=
  mk (disasterReportCount s) (insuranceClaimCount s) (insuranceFund s)
     (disasterReports s) (insuranceClaims s)
     (<[propertyId_ := getPropertyDisasters s propertyId_ ++ [reportId]]>
        (propertyDisasters s))
     (authorizedReporters s) (owner s) (self s).
Definition set_authorizedReporter (a : address) (v : bool) (s : state)
  : state :=
  mk (disasterReportCount s) (insuranceClaimCount s) (insuranceFund s)
     (disasterReports s) (insuranceClaims s) (propertyDisasters s)
     (<[a := v]> (authorizedReporters s)) (owner s) (self s).

Definition set_owner (a : address) (s : state) : state :=
  mk (disasterReportCount s) (insuranceClaimCount s) (insuranceFund s)
     (disasterReports s) (insuranceClaims s) (propertyDisasters s)
     (authorizedReporters s) a (self s).

Definition set_verified (v : bool) (r : DisasterReport) : DisasterReport :=
  mkReport (id r) (propertyId r) (disasterType r) (description r)
    (reportedAt r) (reporter r) v.
Definition set_status (v : ClaimStatus) (c : InsuranceClaim)
  : InsuranceClaim :=
  mkClaim (cl_id c) (cl_propertyId c) (disasterReportId c) (claimAmount c) v
    (evidence c) (claimedAt c) (claimant c) (approvedAmount c).
Definition set_approvedAmount (v : N) (c : InsuranceClaim) : InsuranceClaim :=
  mkClaim (cl_id c) (cl_propertyId c) (disasterReportId c) (claimAmount c)
    (status c) (evidence c) (claimedAt c) (claimant c) v.

Definition onlyOwner (s : state) (sender : address) : result unit :=
  require (sender =? owner s) "Ownable: caller is not the owner".

(** *** DisasterManagement.sol 76-83 *)
Definition depositInsuranceFund (tok : HRM.state) (s : state)
    (sender : address) (amount : N) : result (HRM.state * state) :=
  ensure require (0 <? amount) "Amount must be greater than 0" ;;
  let! tok1 := HRM.transferFrom tok (self s) sender (self s) amount in
  let! fund := U256.add (insuranceFund s) amount in
  Ok (tok1, set_insuranceFund fund s).

(** *** DisasterManagement.sol 88-112 *)
Definition reportDisaster (s : state) (sender : address) (now : N)
    (propertyId_ : N) (disasterType_ : DisasterType) (description_ : string)
  : result (state * N) :=
  ensure require (rd false (authorizedReporters s) sender || (sender =? owner s))
    "Not authorized to report disasters" ;;
  let! count := U256.add (disasterReportCount s) 1 in
  let s1 := set_disasterReportCount count s in
  let s2 := set_report count
              (mkReport count propertyId_ disasterType_ description_ now
                 sender false) s1 in
  Ok (push_propertyDisaster propertyId_ count s2, count).

(** *** DisasterManagement.sol 117-123 *)
Definition verifyDisaster (s : state) (sender : address) (reportId : N)
    (verified_ : bool) : result state :=
  ensure onlyOwner s sender ;;
  ensure require ((0 <? reportId) && (reportId <=? disasterReportCount s))
    "Invalid report ID" ;;
  Ok (set_report reportId (set_verified verified_ (getReport s reportId)) s).

(** *** DisasterManagement.sol 128-156 *)
Definition submitClaim (s : state) (sender : address) (now : N)
    (propertyId_ disasterReportId_ claimAmount_ : N) (evidence_ : string)
  : result (state * N) :=
  ensure require ((0 <? disasterReportId_)
                 && (disasterReportId_ <=? disasterReportCount s))
    "Invalid disaster report ID" ;;
  ensure require (verified (getReport s disasterReportId_))
    "Disaster report not verified" ;;
  ensure require (propertyId (getReport s disasterReportId_) =? propertyId_)
    "Property ID mismatch" ;;
  ensure require (0 <? claimAmount_) "Claim amount must be greater than 0" ;;
  let! count := U256.add (insuranceClaimCount s) 1 in
  let s1 := set_insuranceClaimCount count s in
  Ok (set_claim count
        (mkClaim count propertyId_ disasterReportId_ claimAmount_ PENDING
           evidence_ now sender 0) s1, count).

(** *** DisasterManagement.sol 161-179 *)
Definition processClaim (tok : HRM.state) (s : state) (sender : address)
    (claimId : N) (status_ : ClaimStatus) (approvedAmount_ : N)
  : result (HRM.state * state) :=
  ensure onlyOwner s sender ;;
  ensure require ((0 <? claimId) && (claimId <=? insuranceClaimCount s))
    "Invalid claim ID" ;;
  ensure require (ClaimStatus_eqb (status (getClaim s claimId)) PENDING)
    "Claim already processed" ;;
  let s1 := set_claim claimId (set_status status_ (getClaim s claimId)) s in
  let s2 := set_claim claimId
              (set_approvedAmount approvedAmount_ (getClaim s1 claimId)) s1 in
  if ClaimStatus_eqb status_ APPROVED && (0 <? approvedAmount_) then
    ensure require (approvedAmount_ <=? insuranceFund s2)
      "Insufficient insurance fund" ;;
    let! tok1 := HRM.transfer tok (self s2)
                   (claimant (getClaim s2 claimId)) approvedAmount_ in
    let! fund := U256.sub (insuranceFund s2) approvedAmount_ in
    let s3 := set_insuranceFund fund s2 in
    Ok (tok1, set_claim claimId (set_status PAID (getClaim s3 claimId)) s3)
  else Ok (tok, s2).

(** *** DisasterManagement.sol 247-256 *)
Definition authorizeReporter (s : state) (sender reporter_ : address)
  : result state :=
  ensure onlyOwner s sender ;;
  Ok (set_authorizedReporter reporter_ true s).
Definition revokeReporter (s : state) (sender reporter_ : address)
  : result state :=
  ensure onlyOwner s sender ;;
  Ok (set_authorizedReporter reporter_ false s).

(** *** Ownable *)
Definition transferOwnership (s : state) (sender newOwner : address)
  : result state :=
  ensure onlyOwner s sender ;;
  ensure require (negb (newOwner =? address0))
    "Ownable: new owner is the zero address" ;;
  Ok (set_owner newOwner s).

Definition renounceOwnership (s : state) (sender : address) : result state :=
  ensure onlyOwner s sender ;;
  Ok (set_owner address0 s).

End DM.

(** ** The deployed system and its transactions

    One token, one property registry, one governance contract and one
    disaster registry, all wired to the same token.  A transaction is a call
    of one public function by an externally owned account at some block
    timestamp; a reverted transaction leaves the world as it was. *)
Module Sys.

Record Config : Type := mkConfig {
  hrm_deployer : address;
  pt_deployer : address;
  pt_address : address;
  pt_feeRecipient : address;       (* constructor argument, unchecked *)
  dm_deployer : address;
  dm_address : address
}.

Record World : Type := mkWorld {
  hrm : HRM.state;
  pt : PT.state;
  gov : Gov.state;
  dm : DM.state
}.

Definition init (c : Config) : World :=
  mkWorld (HRM.init (hrm_deployer c))
          (PT.init (pt_deployer c) (pt_address c) (pt_feeRecipient c))
          Gov.init
          (DM.init (dm_deployer c) (dm_address c)).

Inductive Call : Type :=
(* HRMToken *)
| Transfer (to : address) (amount : N)
| Approve (spender : address) (amount : N)
| TransferFrom (from to : address) (amount : N)
| Mint (to : address) (amount : N)
| Burn (amount : N)
| BurnFrom (account : address) (amount : N)
| Pause
| Unpause
(* PropertyToken *)
| ListProperty (uri : string) (totalValue totalTokens : N)
    (ptype : PT.PropertyType) (risk : PT.RiskLevel)
| VerifyProperty (propertyId : N)
| PurchaseTokens (propertyId tokens : N)
| DistributeRentalIncome (propertyId totalIncome : N)
| SetPlatformFee (newFeePercent : N)
| SetFeeRecipient (newRecipient : address)
| CreateSellOrder (propertyId tokensForSale pricePerToken durationDays : N)
| BuyFromOrder (orderId tokensToBuy : N)
| CancelSellOrder (orderId : N)
(* RendaGovernance *)
| CreateProposal (title description : string)
| CastVote (proposalId : N) (support : bool)
| ExecuteProposal (proposalId : N)
(* DisasterManagement *)
| DepositInsuranceFund (amount : N)
| ReportDisaster (propertyId : N) (dtype : DM.DisasterType)
    (description : string)
| VerifyDisaster (reportId : N) (verified : bool)
| SubmitClaim (propertyId disasterReportId claimAmount : N)
    (evidence : string)
| ProcessClaim (claimId : N) (status : DM.ClaimStatus) (approvedAmount : N)
| AuthorizeReporter (reporter : address)
| RevokeReporter (reporter : address)
(* Ownable, on the token, the property registry and the disaster registry *)
| TokenTransferOwnership (newOwner : address)
| TokenRenounceOwnership
| RegistryTransferOwnership (newOwner : address)
| RegistryRenounceOwnership
| DisasterTransferOwnership (newOwner : address)
| DisasterRenounceOwnership.

Record Tx : Type := mkTx {
  sender : address;     (* msg.sender *)
  timestamp : N;        (* block.timestamp *)
  call : Call
}.

Definition with_hrm (w : World) (t : HRM.state) : World :=
  mkWorld t (pt w) (gov w) (dm w).
Definition with_pt (w : World) (s : PT.state) : World :=
  mkWorld (hrm w) s (gov w) (dm w).
Definition with_gov (w : World) (s : Gov.state) : World :=
  mkWorld (hrm w) (pt w) s (dm w).
Definition with_dm (w : World) (s : DM.state) : World :=
  mkWorld (hrm w) (pt w) (gov w) s.

Definition exec (w : World) (tx : Tx) : result World :=
  let from := sender tx in
  let now := timestamp tx in
  match call tx with
  | Transfer to amount =>
      let! t := HRM.transfer (hrm w) from to amount in Ok (with_hrm w t)
  | Approve spender amount =>
      let! t := HRM.approve (hrm w) from spender amount in Ok (with_hrm w t)
  | TransferFrom src to amount =>
      let! t := HRM.transferFrom (hrm w) from src to amount in
      Ok (with_hrm w t)
  | Mint to amount =>
      let! t := HRM.mint (hrm w) from to amount in Ok (with_hrm w t)
  | Burn amount =>
      let! t := HRM.burn (hrm w) from amount in Ok (with_hrm w t)
  | BurnFrom account amount =>
      let! t := HRM.burnFrom (hrm w) from account amount in
      Ok (with_hrm w t)
  | Pause => let! t := HRM.pause (hrm w) from in Ok (with_hrm w t)
  | Unpause => let! t := HRM.unpause (hrm w) from in Ok (with_hrm w t)
  | ListProperty uri v n ty r =>
      let! p := PT.listProperty (pt w) from now uri v n ty r in
      Ok (with_pt w p.1)
  | VerifyProperty propertyId =>
      let! s := PT.verifyProperty (pt w) from propertyId in Ok (with_pt w s)
  | PurchaseTokens propertyId tokens =>
      let! p := PT.purchaseTokens (hrm w) (pt w) from now propertyId tokens in
      Ok (with_pt (with_hrm w p.1) p.2)
  | DistributeRentalIncome propertyId totalIncome =>
      let! t := PT.distributeRentalIncome (hrm w) (pt w) from propertyId
                  totalIncome in
      Ok (with_hrm w t)
  | SetPlatformFee n =>
      let! s := PT.setPlatformFee (pt w) from n in Ok (with_pt w s)
  | SetFeeRecipient a =>
      let! s := PT.setFeeRecipient (pt w) from a in Ok (with_pt w s)
  | CreateSellOrder propertyId n price d =>
      let! p := PT.createSellOrder (pt w) from now propertyId n price d in
      Ok (with_pt w p.1)
  | BuyFromOrder orderId n =>
      let! p := PT.buyFromOrder (hrm w) (pt w) from now orderId n in
      Ok (with_pt (with_hrm w p.1) p.2)
  | CancelSellOrder orderId =>
      let! s := PT.cancelSellOrder (pt w) from orderId in Ok (with_pt w s)
  | CreateProposal title description =>
      let! s := Gov.createProposal (hrm w) (gov w) from now title
                  description in
      Ok (with_gov w s)
  | CastVote proposalId support =>
      let! s := Gov.vote (hrm w) (gov w) from now proposalId support in
      Ok (with_gov w s)
  | ExecuteProposal proposalId =>
      let! s := Gov.executeProposal (hrm w) (gov w) from now proposalId in
      Ok (with_gov w s)
  | DepositInsuranceFund amount =>
      let! p := DM.depositInsuranceFund (hrm w) (dm w) from amount in
      Ok (with_dm (with_hrm w p.1) p.2)
  | ReportDisaster propertyId ty d =>
      let! p := DM.reportDisaster (dm w) from now propertyId ty d in
      Ok (with_dm w p.1)
  | VerifyDisaster reportId v =>
      let! s := DM.verifyDisaster (dm w) from reportId v in Ok (with_dm w s)
  | SubmitClaim propertyId reportId amount ev =>
      let! p := DM.submitClaim (dm w) from now propertyId reportId amount ev in
      Ok (with_dm w p.1)
  | ProcessClaim claimId st amount =>
      let! p := DM.processClaim (hrm w) (dm w) from claimId st amount in
      Ok (with_dm (with_hrm w p.1) p.2)
  | AuthorizeReporter a =>
      let! s := DM.authorizeReporter (dm w) from a in Ok (with_dm w s)
  | RevokeReporter a =>
      let! s := DM.revokeReporter (dm w) from a in Ok (with_dm w s)
  | TokenTransferOwnership a =>
      let! t := HRM.transferOwnership (hrm w) from a in Ok (with_hrm w t)
  | TokenRenounceOwnership =>
      let! t := HRM.renounceOwnership (hrm w) from in Ok (with_hrm w t)
  | RegistryTransferOwnership a =>
      let! s := PT.transferOwnership (pt w) from a in Ok (with_pt w s)
  | RegistryRenounceOwnership =>
      let! s := PT.renounceOwnership (pt w) from in Ok (with_pt w s)
  | DisasterTransferOwnership a =>
      let! s := DM.transferOwnership (dm w) from a in Ok (with_dm w s)
  | DisasterRenounceOwnership =>
      let! s := DM.renounceOwnership (dm w) from in Ok (with_dm w s)
  end.

(** what the chain looks like after a transaction was submitted *)
Definition apply_tx (w : World) (tx : Tx) : World :=
  match exec w tx with
  | Ok w' => w'
  | Revert _ => w
  end.

Definition run (w : World) (txs : list Tx) : World :=
  foldl apply_tx w txs.

(** every [uint256] argument is below 2^256 *)
Definition args_in_range (c : Call) : bool :=
  match c with
  | Transfer _ n | Approve _ n | TransferFrom _ _ n | Mint _ n | Burn n
  | BurnFrom _ n | VerifyProperty n | SetPlatformFee n | CancelSellOrder n
  | CastVote n _ | ExecuteProposal n | DepositInsuranceFund n
  | ReportDisaster n _ _ | VerifyDisaster n _ =>
      n <=? MAX_UINT256
  | ListProperty _ a b _ _ | PurchaseTokens a b | DistributeRentalIncome a b
  | BuyFromOrder a b =>
      (a <=? MAX_UINT256) && (b <=? MAX_UINT256)
  | ProcessClaim a _ b => (a <=? MAX_UINT256) && (b <=? MAX_UINT256)
  | SubmitClaim a b c _ =>
      (a <=? MAX_UINT256) && (b <=? MAX_UINT256) && (c <=? MAX_UINT256)
  | CreateSellOrder a b c d =>
      (a <=? MAX_UINT256) && (b <=? MAX_UINT256) && (c <=? MAX_UINT256)
      && (d <=? MAX_UINT256)
  | Pause | Unpause | SetFeeRecipient _ | CreateProposal _ _
  | AuthorizeReporter _ | RevokeReporter _
  | TokenTransferOwnership _ | TokenRenounceOwnership
  | RegistryTransferOwnership _ | RegistryRenounceOwnership
  | DisasterTransferOwnership _ | DisasterRenounceOwnership => true
  end.

(** the callers are externally owned accounts: never the zero address and
    never one of the two contracts that hold tokens *)
Definition eoa (w : World) (a : address) : Prop :=
  a ≠ address0 ∧ a ≠ PT.self (pt w) ∧ a ≠ DM.self (dm w).

Definition valid_tx (w : World) (tx : Tx) : Prop :=
  eoa w (sender tx) ∧ timestamp tx ≤ MAX_UINT256
  ∧ args_in_range (call tx) = true.

Definition wf_config (c : Config) : Prop :=
  hrm_deployer c ≠ address0 ∧ pt_deployer c ≠ address0
  ∧ dm_deployer c ≠ address0
  ∧ pt_address c ≠ address0 ∧ dm_address c ≠ address0
  ∧ pt_address c ≠ dm_address c
  ∧ hrm_deployer c ≠ pt_address c ∧ hrm_deployer c ≠ dm_address c.

(** the decidable form of [valid_tx], and its use along a run *)
Definition valid_txb (w : World) (tx : Tx) : bool :=
  negb (sender tx =? address0) && negb (sender tx =? PT.self (pt w))
  && negb (sender tx =? DM.self (dm w))
  && (timestamp tx <=? MAX_UINT256) && args_in_range (call tx).

Fixpoint run_valid (w : World) (txs : list Tx) : bool :=
  match txs with
  | [] => true
  | tx :: rest => valid_txb w tx && run_valid (apply_tx w tx) rest
  end.

Inductive reachable : World -> Prop :=
| reach_init (c : Config) : wf_config c -> reachable (init c)
| reach_step (w w' : World) (tx : Tx) :
    reachable w -> valid_tx w tx -> exec w tx = Ok w' -> reachable w'.

End Sys.

(** ** A concrete deployment

    One administrator deploys everything; a landlord lists a property of
    1000 shares at 1 HRM each, three investors are funded and approve the
    registry, and two of them buy 200 and 100 shares. *)
Module Demo.

Definition admin : address := 1.
Definition treasury : address := 2.
Definition landlord : address := 3.
Definition alice : address := 4.
Definition bob : address := 5.
Definition carol : address := 6.
Definition registry : address := 100.
Definition disaster : address := 200.

Definition cfg : Sys.Config :=
  Sys.mkConfig admin admin registry treasury admin disaster.

Definition tx (who : address) (c : Sys.Call) : Sys.Tx :=
  Sys.mkTx who 1700000000 c.

Definition funding : list Sys.Tx :=
  [ tx admin (Sys.Transfer alice (1000 * ether));
    tx admin (Sys.Transfer bob (1000 * ether));
    tx admin (Sys.Transfer carol (1000 * ether)) ].

Definition listing : list Sys.Tx :=
  [ tx landlord (Sys.ListProperty "ipfs://villa" (1000 * ether) 1000
                   PT.Residential PT.Low);
    tx admin (Sys.VerifyProperty 0) ].

Definition approvals : list Sys.Tx :=
  [ tx alice (Sys.Approve registry (1000 * ether));
    tx bob (Sys.Approve registry (1000 * ether));
    tx carol (Sys.Approve registry (1000 * ether)) ].

Definition purchases : list Sys.Tx :=
  [ tx alice (Sys.PurchaseTokens 0 200);
    tx bob (Sys.PurchaseTokens 0 100) ].

(** funded investors, a verified property, nobody has approved anything *)
Definition w_listed : Sys.World :=
  Sys.run (Sys.init cfg) (funding ++ listing).

(** alice holds 200 shares and bob 100 *)
Definition w_sold : Sys.World :=
  Sys.run w_listed (approvals ++ purchases).

(** alice offers 150 of her 200 shares twice *)
Definition w_orders : Sys.World :=
  Sys.run w_sold
    [ tx alice (Sys.CreateSellOrder 0 150 ether 30);
      tx alice (Sys.CreateSellOrder 0 150 ether 30) ].

(** the registry holds 1000 units of rental income to hand out *)
Definition w_income : Sys.World :=
  Sys.run w_sold [ tx admin (Sys.Transfer registry 1000) ].

(** governance: the supply is burnt down to 1,000,000 HRM, dave and erin
    receive 90,000 and 20,000 HRM and vote for and against proposal 1 *)
Definition dave : address := 7.
Definition erin : address := 8.

Definition w_voted : Sys.World :=
  Sys.run (Sys.init cfg)
    [ tx admin (Sys.Burn (99000000 * ether));
      tx admin (Sys.Transfer dave (90000 * ether));
      tx admin (Sys.Transfer erin (20000 * ether));
      tx admin (Sys.CreateProposal "fees" "lower the platform fee");
      tx dave (Sys.CastVote 1 true);
      tx erin (Sys.CastVote 1 false) ].

Definition after_voting : N := 1700000000 + Gov.VOTING_PERIOD + 1.

(** insurance: a verified flood report on property 0, a pending claim of
    500 by the landlord, and 1000 deposited into the fund *)
Definition w_claim : Sys.World :=
  Sys.run w_sold
    [ tx admin (Sys.ReportDisaster 0 DM.FLOOD "river flood");
      tx admin (Sys.VerifyDisaster 1 true);
      tx landlord (Sys.SubmitClaim 0 1 500 "photographs");
      tx admin (Sys.Approve disaster 1000);
      tx admin (Sys.DepositInsuranceFund 1000) ].

(** the fee recipient lists a property of its own, which gets verified *)
Definition w_treasury_listing : Sys.World :=
  Sys.run w_sold
    [ tx treasury (Sys.ListProperty "ipfs://loft" (1000 * ether) 1000
                     PT.Commercial PT.Medium);
      tx admin (Sys.VerifyProperty 1) ].

(** the same, after the token owner paused the ledger *)
Definition w_claim_paused : Sys.World :=
  Sys.run w_claim [ tx admin Sys.Pause ].

(** a ledger with a given total supply, and a governance state whose only
    proposal closed at time 604800 with the given tallies *)
Definition ledger_of_supply (supply : N) : HRM.state :=
  HRM.mk {[ admin := supply ]} ∅ supply false admin.

Definition tally (votesFor votesAgainst : N) : Gov.state :=
  Gov.mk 1
    {[ 1 := Gov.mkProposal 1 "fees" "lower the platform fee" admin
              votesFor votesAgainst 0 604800 false false ]} ∅.

End Demo.

(** ** Vocabulary of the statements *)

(** shares still on offer in an order, and shares an account holds *)
Definition offered (w : Sys.World) (orderId : N) : N :=
  PT.tokensForSale (PT.getSellOrder (Sys.pt w) orderId).

Definition owned (w : Sys.World) (propertyId : N) (a : address) : N :=
  PT.tokensOwned (PT.getInvestment (Sys.pt w) propertyId a).

(** the platform fee on a cost, at a fee rate in basis points *)
Definition platform_fee (feeBps cost : N) : N := cost * feeBps / 10000.

(** [tx] is a fulfilment of order [o1] or of order [o2] *)
Definition fulfils (o1 o2 : N) (tx : Sys.Tx) : Prop :=
  exists n, Sys.call tx = Sys.BuyFromOrder o1 n
            \/ Sys.call tx = Sys.BuyFromOrder o2 n.

(** ** Sums over a mapping *)

Definition sumN `{Countable K} {V} (f : V -> N) (m : gmap K V) : N :=
  map_fold (fun _ v acc => f v + acc) 0 m.

Definition sum_list_N {A} (f : A -> N) (l : list A) : N :=
  foldr (fun a acc => f a + acc) 0 l.

(** ** Invariants and other notions used in the statements *)

(** The ledger is sound: the balances add up to the total supply, which
    stays within the cap.  This is what makes the [unchecked] additions of
    the ERC20 base exact. *)
Definition HRM_inv (s : HRM.state) : Prop :=
  sumN id (HRM.balances s) = HRM.totalSupply s
  /\ HRM.totalSupply s <= HRM.MAX_SUPPLY.

(** [keeps d tok tok']: going from [tok] to [tok'] did not debit account [d]
    nor raise any allowance that [d] granted, and kept the ledger sound. *)
Definition keeps (d : address) (tok tok' : HRM.state) : Prop :=
  HRM.balanceOf tok d <= HRM.balanceOf tok' d
  /\ (forall sp, HRM.allowance tok' d sp <= HRM.allowance tok d sp)
  /\ HRM_inv tok'.

(** The investor index [l] of a property enumerates, without repetition,
    the accounts that have a holding record in [m]; every record carries
    its own account, which is a caller of the registry. *)
Definition index_ok (self : address) (m : gmap address PT.Investment)
    (l : list address) : Prop :=
  NoDup l
  /\ (forall a, a ∈ l <-> is_Some (m !! a))
  /\ (forall a i, m !! a = Some i ->
        PT.investor i = a /\ a <> address0 /\ a <> self).

(** The property registry is well formed: the fee rate is capped, every
    property below the counter is stored and has its NFT, prices fit, the
    holdings of a property add up to its sold shares, a holding exists only
    once shares were sold, and the investor index matches the holdings. *)
Record PT_inv (s : PT.state) : Prop := mkPT_inv {
  pt_fee_cap : PT.platformFeePercent s <= 1000;
  pt_self_nonzero : PT.self s <> address0;
  pt_listed : forall pid,
    pid < PT.tokenIdCounter s -> is_Some (PT.properties s !! pid);
  pt_minted : forall pid,
    is_Some (PT.properties s !! pid)
    <-> is_Some (PT.nftOwners (PT.nft s) !! pid);
  pt_property : forall pid p,
    PT.properties s !! pid = Some p ->
    0 < PT.totalTokens p /\ PT.totalValue p <= MAX_UINT256
    /\ PT.tokenPrice p * PT.totalTokens p <= PT.totalValue p
    /\ PT.propertyOwner p <> address0 /\ PT.propertyOwner p <> PT.self s;
  pt_conservation : forall pid p,
    PT.properties s !! pid = Some p ->
    sumN PT.tokensOwned (PT.holdings s pid) + PT.availableTokens p
    = PT.totalTokens p;
  pt_unlisted : forall pid,
    PT.properties s !! pid = None -> PT.holdings s pid = ∅;
  pt_sold : forall pid p a,
    PT.properties s !! pid = Some p -> is_Some (PT.holdings s pid !! a) ->
    PT.availableTokens p < PT.totalTokens p;
  pt_index : forall pid,
    index_ok (PT.self s) (PT.holdings s pid) (PT.getPropertyInvestors s pid)
}.

(** [pt_frame s s']: nothing but the investment records and the two investor
    indexes differs between [s] and [s']. *)
Definition pt_frame (s s' : PT.state) : Prop :=
  PT.tokenIdCounter s' = PT.tokenIdCounter s
  /\ PT.properties s' = PT.properties s
  /\ PT.platformFeePercent s' = PT.platformFeePercent s
  /\ PT.feeRecipient s' = PT.feeRecipient s
  /\ PT.sellOrders s' = PT.sellOrders s
  /\ PT.propertySellOrders s' = PT.propertySellOrders s
  /\ PT.userSellOrders s' = PT.userSellOrders s
  /\ PT.sellOrderCounter s' = PT.sellOrderCounter s
  /\ PT.nft s' = PT.nft s
  /\ PT.owner s' = PT.owner s
  /\ PT.self s' = PT.self s.

(** what one investor of property [pid] is owed out of [totalIncome] when
    [sold] shares are in investors' hands *)
Definition payout (s : PT.state) (pid totalIncome sold : N) (a : address) : N :=
  let owned := PT.tokensOwned (PT.getInvestment s pid a) in
  if 0 <? owned then totalIncome * owned / sold else 0.

(** what a distribution over the index [l] pays in total, and what account
    [a] receives from it *)
Definition total_paid (s : PT.state) (pid totalIncome sold : N)
    (l : list address) : N :=
  sum_list_N (payout s pid totalIncome sold) l.

Definition received (s : PT.state) (pid totalIncome sold : N)
    (l : list address) (a : address) : N :=
  sum_list_N (fun x => if decide (x = a) then payout s pid totalIncome sold x
                       else 0) l.

(** The disaster registry is well formed: its fund counter is backed by its
    token balance, it never granted an allowance, and every claim up to the
    counter is stored with an externally owned claimant. *)
Record DM_inv (tok : HRM.state) (d : DM.state) : Prop := mkDM_inv {
  dm_self_nonzero : DM.self d <> address0;
  dm_funded : DM.insuranceFund d <= HRM.balanceOf tok (DM.self d);
  dm_no_allowance : forall sp, HRM.allowance tok (DM.self d) sp = 0;
  dm_claims_listed : forall cid,
    0 < cid -> cid <= DM.insuranceClaimCount d ->
    is_Some (DM.insuranceClaims d !! cid);
  dm_claimant : forall cid c,
    DM.insuranceClaims d !! cid = Some c ->
    DM.claimant c <> address0 /\ DM.claimant c <> DM.self d
}.

(** The invariant of the deployed system. *)
Record Inv (w : Sys.World) : Prop := mkInv {
  inv_hrm : HRM_inv (Sys.hrm w);
  inv_pt : PT_inv (Sys.pt w);
  inv_dm : DM_inv (Sys.hrm w) (Sys.dm w);
  inv_distinct : PT.self (Sys.pt w) <> DM.self (Sys.dm w)
}.

(** Two orders of one seller on one property that together offer more
    than the seller holds stay that way under fulfilments of either. *)
Definition overcommitted (o1 o2 pid : N) (sl : address) (w : Sys.World) : Prop :=
  PT.seller (PT.getSellOrder (Sys.pt w) o1) = sl
  /\ PT.seller (PT.getSellOrder (Sys.pt w) o2) = sl
  /\ PT.so_propertyId (PT.getSellOrder (Sys.pt w) o1) = pid
  /\ PT.so_propertyId (PT.getSellOrder (Sys.pt w) o2) = pid
  /\ owned w pid sl < offered w o1 + offered w o2.

(** ** The rest of the contracts

    The query functions of the registries, the faucet of the token, and the
    two contracts that hold tokens for their users, [WrappedHRM] and
    [RealEstatePool]. *)

(** *** Memory arrays

    A memory array is a list; a write at an index outside the array is
    Panic(0x32).  [error] has no constructor for that panic, so it is
    carried as a reason of its own. *)
Definition Panic_index : error := Require_failed "Panic(0x32)".

Definition write_at {A} (arr : list A) (index : N) (x : A) : result (list A) :=
  if index <? N.of_nat (length arr)
  then Ok (<[N.to_nat index := x]> arr)
  else Revert Panic_index.

(** the values [from], [from + 1], ..., [from + len - 1] that the counter of
    a [for] loop takes *)
Definition rangeN (from len : N) : list N :=
  (fun k => from + N.of_nat k) <$> seq 0 (N.to_nat len).

(** ** PropertyToken.sol, the query functions *)
Module PTQ.

(** *** PropertyToken.sol 209-217 *)
Definition getProperty (s : PT.state) (propertyId : N) : result PT.Property :=
  ensure PT.propertyExists s propertyId ;;
  Ok (PT.getProperty s propertyId).




(** the loop of lines 537-539 *)
Fixpoint copy_loop (s : PT.state) (offset : N) (indexes : list N)
    (properties_ : list PT.Property) : result (list PT.Property) :=
  match indexes with
  | [] => Ok properties_
  | i :: rest =>
      let! k := U256.sub i offset in
      let! properties1 := write_at properties_ k (PT.getProperty s i) in
      copy_loop s offset rest properties1
  end.

(** *** PropertyToken.sol 523-540 *)
Definition getAllProperties (s : PT.state) (offset limit : N)
  : result (list PT.Property) :=
  let totalProperties := PT.tokenIdCounter s in
  ensure require (offset <? totalProperties) "Offset out of bounds" ;;
  let! end0 := U256.add offset limit in
  let end_ := if totalProperties <? end0 then totalProperties else end0 in
  let! len := U256.sub end_ offset in
  copy_loop s offset (rangeN offset len)
    (replicate (N.to_nat len) PT.Property0).

Record Portfolio : Type := mkPortfolio {
  propertyIds : list N;
  tokensOwned : list N;
  investmentAmounts : list N;
  totalInvested : N
}.

(** the loop of lines 560-568, [i] running over the positions of
    [investorProps] *)
Fixpoint portfolio_loop (s : PT.state) (investor : address)
    (investorProps : list N) (i : N) (acc : Portfolio) : result Portfolio :=
  match investorProps with
  | [] => Ok acc
  | propId :: rest =>
      let investment := PT.getInvestment s propId investor in
      let! ids := write_at (propertyIds acc) i propId in
      let! owned := write_at (tokensOwned acc) i (PT.tokensOwned investment) in
      let! amounts := write_at (investmentAmounts acc) i
                        (PT.investmentAmount investment) in
      let! total := U256.add (totalInvested acc)
                      (PT.investmentAmount investment) in
      let! i1 := U256.add i 1 in
      portfolio_loop s investor rest i1 (mkPortfolio ids owned amounts total)
  end.

(** *** PropertyToken.sol 545-569 *)
Definition getInvestorPortfolio (s : PT.state) (investor : address)
  : result Portfolio :=
  let investorProps := PT.getInvestorProperties s investor in
  let n := length investorProps in
  portfolio_loop s investor investorProps 0
    (mkPortfolio (replicate n 0) (replicate n 0) (replicate n 0) 0).

Record Stats : Type := mkStats {
  totalProperties : N;
  activeProperties : N;
  totalValueLocked : N;
  totalTokensSold : N;
  totalInvestors : N
}.

(** the loop of lines 587-594 *)
Fixpoint stats_loop (s : PT.state) (indexes : list N) (acc : Stats)
  : result Stats :=
  match indexes with
  | [] => Ok acc
  | i :: rest =>
      let prop := PT.getProperty s i in
      if PT.isActive prop && PT.isVerified prop then
        let! active := U256.add (activeProperties acc) 1 in
        let! locked := U256.add (totalValueLocked acc) (PT.totalValue prop) in
        let! sold := U256.sub (PT.totalTokens prop) (PT.availableTokens prop) in
        let! tokens := U256.add (totalTokensSold acc) sold in
        stats_loop s rest
          (mkStats (totalProperties acc) active locked tokens
             (totalInvestors acc))
      else stats_loop s rest acc
  end.

(** *** PropertyToken.sol 574-598 *)
Definition getPlatformStats (s : PT.state) : result Stats :=
  let total := PT.tokenIdCounter s in
  let! acc := stats_loop s (rangeN 0 total) (mkStats total 0 0 0 0) in
  let! investors := U256.div (totalTokensSold acc) 10 in
  Ok (mkStats (totalProperties acc) (activeProperties acc)
        (totalValueLocked acc) (totalTokensSold acc) investors).

End PTQ.

(** ** RendaGovernance and DisasterManagement.sol, the query functions *)
Module GovQ.

(** *** lines 126-153 *)
Definition getProposal (s : Gov.state) (proposalId : N) : result Gov.Proposal :=
  ensure require ((0 <? proposalId) && (proposalId <=? Gov.proposalCount s))
    "Invalid proposal ID" ;;
  Ok (Gov.getProposal s proposalId).

(** *** lines 158-160 *)
Definition hasVoted (s : Gov.state) (proposalId : N) (voter : address) : bool :=
  Gov.hasVoted (Gov.getVote s proposalId voter).

End GovQ.

Module DMQ.

(** *** DisasterManagement.sol 191-212 *)
Definition getDisasterReport (s : DM.state) (reportId : N)
  : result DM.DisasterReport :=
  ensure require ((0 <? reportId) && (reportId <=? DM.disasterReportCount s))
    "Invalid report ID" ;;
  Ok (DM.getReport s reportId).

(** *** DisasterManagement.sol 217-242 *)
Definition getInsuranceClaim (s : DM.state) (claimId : N)
  : result DM.InsuranceClaim :=
  ensure require ((0 <? claimId) && (claimId <=? DM.insuranceClaimCount s))
    "Invalid claim ID" ;;
  Ok (DM.getClaim s claimId).

End DMQ.

(** ** HRMToken.sol, the faucet and the administration

    The state of the token beside its ledger.  The four faucet functions
    are [payable]: the value sent arrives on the balance of the contract
    before the body runs and is sent back at the end; the callers are
    externally owned accounts, whose receipt of native currency cannot
    fail. *)
Module Faucet.

Definition MINT_COOLDOWN : N := 3600.
Definition PUBLIC_MINT_AMOUNT : N := 5000 * ether.

Record state : Type := mk {
  ledger : HRM.state;
  whitelist : gmap address bool;
  propertyContracts : gmap address bool;
  lastMintTime : gmap address N;
  publicMintingEnabled : bool;
  native : N                        (* address(this).balance *)
}.

(** constructor, lines 50-53, on top of that of the ledger *)
Definition init (deployer : address) : state :=
  mk (HRM.init deployer) {[ deployer := true ]} ∅ ∅ true 0.

Definition set_ledger (v : HRM.state) (s : state) : state :=
  mk v (whitelist s) (propertyContracts s) (lastMintTime s)
     (publicMintingEnabled s) (native s).
Definition set_whitelist (a : address) (v : bool) (s : state) : state :=
  mk (ledger s) (<[a := v]> (whitelist s)) (propertyContracts s)
     (lastMintTime s) (publicMintingEnabled s) (native s).
Definition set_propertyContract (a : address) (v : bool) (s : state) : state :=
  mk (ledger s) (whitelist s) (<[a := v]> (propertyContracts s))
     (lastMintTime s) (publicMintingEnabled s) (native s).
Definition set_lastMintTime (a : address) (v : N) (s : state) : state :=
  mk (ledger s) (whitelist s) (propertyContracts s)
     (<[a := v]> (lastMintTime s)) (publicMintingEnabled s) (native s).
Definition set_publicMintingEnabled (v : bool) (s : state) : state :=
  mk (ledger s) (whitelist s) (propertyContracts s) (lastMintTime s) v
     (native s).
Definition set_native (v : N) (s : state) : state :=
  mk (ledger s) (whitelist s) (propertyContracts s) (lastMintTime s)
     (publicMintingEnabled s) v.

(** a [payable] call: [msg.value] is credited before the body runs *)
Definition receive (value : N) (s : state) : state :=
  set_native (native s + value) s.

(** [if (msg.value > 0) payable(msg.sender).transfer(msg.value);] *)
Definition refund (value : N) (s : state) : result state :=
  if 0 <? value then
    let! left := U256.sub (native s) value in
    Ok (set_native left s)
  else Ok s.

(** *** HRMToken.sol 66-79 *)
Definition publicMint (s : state) (sender : address) (now value : N)
  : result state :=
  let s := receive value s in
  let! sum := U256.add (HRM.totalSupply (ledger s)) PUBLIC_MINT_AMOUNT in
  ensure require (sum <=? HRM.MAX_SUPPLY) "HRM: Max supply exceeded" ;;
  let! l := HRM._mint (ledger s) sender PUBLIC_MINT_AMOUNT in
  let s1 := set_lastMintTime sender now (set_ledger l s) in
  refund value s1.

(** *** HRMToken.sol 84-98 *)
Definition publicMintTo (s : state) (sender : address) (now value : N)
    (to : address) : result state :=
  let s := receive value s in
  ensure require (negb (to =? address0)) "HRM: Cannot mint to zero address" ;;
  let! sum := U256.add (HRM.totalSupply (ledger s)) PUBLIC_MINT_AMOUNT in
  ensure require (sum <=? HRM.MAX_SUPPLY) "HRM: Max supply exceeded" ;;
  let! l := HRM._mint (ledger s) to PUBLIC_MINT_AMOUNT in
  let s1 := set_lastMintTime to now (set_ledger l s) in
  refund value s1.

(** *** HRMToken.sol 103-115 *)
Definition mintAmount (s : state) (sender : address) (now value : N)
    (amount : N) : result state :=
  let s := receive value s in
  ensure require (0 <? amount) "HRM: Amount must be greater than 0" ;;
  let! sum := U256.add (HRM.totalSupply (ledger s)) amount in
  ensure require (sum <=? HRM.MAX_SUPPLY) "HRM: Max supply exceeded" ;;
  let! l := HRM._mint (ledger s) sender amount in
  let s1 := set_lastMintTime sender now (set_ledger l s) in
  refund value s1.

(** *** HRMToken.sol 120-133 *)
Definition mintAmountTo (s : state) (sender : address) (now value : N)
    (to : address) (amount : N) : result state :=
  let s := receive value s in
  ensure require (negb (to =? address0)) "HRM: Cannot mint to zero address" ;;
  ensure require (0 <? amount) "HRM: Amount must be greater than 0" ;;
  let! sum := U256.add (HRM.totalSupply (ledger s)) amount in
  ensure require (sum <=? HRM.MAX_SUPPLY) "HRM: Max supply exceeded" ;;
  let! l := HRM._mint (ledger s) to amount in
  let s1 := set_lastMintTime to now (set_ledger l s) in
  refund value s1.

Definition onlyOwner (s : state) (sender : address) : result unit :=
  HRM.onlyOwner (ledger s) sender.

(** *** HRMToken.sol 138-172 *)
Definition addToWhitelist (s : state) (sender account : address)
  : result state :=
  ensure onlyOwner s sender ;; Ok (set_whitelist account true s).
Definition removeFromWhitelist (s : state) (sender account : address)
  : result state :=
  ensure onlyOwner s sender ;; Ok (set_whitelist account false s).
Definition addPropertyContract (s : state) (sender contractAddr : address)
  : result state :=
  ensure onlyOwner s sender ;; Ok (set_propertyContract contractAddr true s).
Definition removePropertyContract (s : state) (sender contractAddr : address)
  : result state :=
  ensure onlyOwner s sender ;; Ok (set_propertyContract contractAddr false s).
Definition togglePublicMinting (s : state) (sender : address) : result state :=
  ensure onlyOwner s sender ;;
  Ok (set_publicMintingEnabled (negb (publicMintingEnabled s)) s).

(** *** HRMToken.sol 203-214 *)
Definition getTimeUntilNextMint (s : state) (now : N) (user : address)
  : result N :=
  if rd 0 (lastMintTime s) user =? 0 then Ok 0
  else
    let! nextMintTime := U256.add (rd 0 (lastMintTime s) user) MINT_COOLDOWN in
    if nextMintTime <=? now then Ok 0
    else U256.sub nextMintTime now.

(** *** HRMToken.sol 219-221: the whole native balance goes to the owner *)
Definition emergencyWithdraw (s : state) (sender : address) : result state :=
  ensure onlyOwner s sender ;; Ok (set_native 0 s).

(** the modifier of lines 41-48, which no function carries *)
Definition canPublicMint (s : state) (sender : address) (now : N)
  : result unit :=
  ensure require (publicMintingEnabled s) "HRM: Public minting disabled" ;;
  let! next := U256.add (rd 0 (lastMintTime s) sender) MINT_COOLDOWN in
  require (next <=? now) "HRM: Must wait before next mint".

End Faucet.

(** ** WrappedHRM.sol

    [WrappedHRM is ERC20, Ownable, ReentrancyGuard]: the plain ERC20 base of
    the OpenZeppelin 4.x package, with no pause and no cap. *)
Module WHRM.

Record state : Type := mk {
  balances : gmap address N;               (* ERC20._balances *)
  allowances : gmap (address * address) N; (* ERC20._allowances *)
  totalSupply : N;                         (* ERC20._totalSupply *)
  owner : address;                         (* Ownable._owner *)
  self : address                           (* address(this) *)
}.

Definition init (deployer this : address) : state := mk ∅ ∅ 0 deployer this.

Definition balanceOf (s : state) (a : address) : N := rd 0 (balances s) a.
Definition allowance (s : state) (o sp : address) : N :=
  rd 0 (allowances s) (o, sp).

Definition set_balance (a : address) (v : N) (s : state) : state :=
  mk (<[a := v]> (balances s)) (allowances s) (totalSupply s) (owner s)
     (self s).
Definition set_allowance (o sp : address) (v : N) (s : state) : state :=
  mk (balances s) (<[(o, sp) := v]> (allowances s)) (totalSupply s) (owner s)
     (self s).
Definition set_totalSupply (v : N) (s : state) : state :=
  mk (balances s) (allowances s) v (owner s) (self s).

Definition _transfer (s : state) (from to : address) (amount : N)
  : result state :=
  ensure require (negb (from =? address0)) "ERC20: transfer from the zero address" ;;
  ensure require (negb (to =? address0)) "ERC20: transfer to the zero address" ;;
  let fromBalance := balanceOf s from in
  ensure require (amount <=? fromBalance) "ERC20: transfer amount exceeds balance" ;;
  let s1 := set_balance from (fromBalance - amount) s in
  Ok (set_balance to (U256.wrap (balanceOf s1 to + amount)) s1).

Definition _mint (s : state) (account : address) (amount : N) : result state :=
  ensure require (negb (account =? address0)) "ERC20: mint to the zero address" ;;
  let! ts := U256.add (totalSupply s) amount in
  let s1 := set_totalSupply ts s in
  Ok (set_balance account (U256.wrap (balanceOf s1 account + amount)) s1).

Definition _burn (s : state) (account : address) (amount : N) : result state :=
  ensure require (negb (account =? address0)) "ERC20: burn from the zero address" ;;
  let accountBalance := balanceOf s account in
  ensure require (amount <=? accountBalance) "ERC20: burn amount exceeds balance" ;;
  let s1 := set_balance account (accountBalance - amount) s in
  (* unchecked { _totalSupply -= amount; } : subtraction modulo 2^256 *)
  Ok (set_totalSupply
        (U256.wrap (totalSupply s1 + (MAX_UINT256 + 1) - amount)) s1).

Definition _approve (s : state) (o sp : address) (amount : N) : result state :=
  ensure require (negb (o =? address0)) "ERC20: approve from the zero address" ;;
  ensure require (negb (sp =? address0)) "ERC20: approve to the zero address" ;;
  Ok (set_allowance o sp amount s).

Definition _spendAllowance (s : state) (o sp : address) (amount : N)
  : result state :=
  let currentAllowance := allowance s o sp in
  if currentAllowance =? MAX_UINT256 then Ok s
  else
    ensure require (amount <=? currentAllowance) "ERC20: insufficient allowance" ;;
    _approve s o sp (currentAllowance - amount).

Definition transfer (s : state) (sender to : address) (amount : N)
  : result state :=
  _transfer s sender to amount.

Definition approve (s : state) (sender spender : address) (amount : N)
  : result state :=
  _approve s sender spender amount.

Definition transferFrom (s : state) (sender from to : address) (amount : N)
  : result state :=
  let! s1 := _spendAllowance s from sender amount in
  _transfer s1 from to amount.

(** *** WrappedHRM.sol 25-35.  The return value of the token's
    [transferFrom] is not looked at; the token reverts instead of
    returning [false]. *)
Definition wrap (tok : HRM.state) (s : state) (sender : address) (amount : N)
  : result (HRM.state * state) :=
  ensure require (0 <? amount) "Amount must be greater than 0" ;;
  let! tok1 := HRM.transferFrom tok (self s) sender (self s) amount in
  let! s1 := _mint s sender amount in
  Ok (tok1, s1).

(** *** WrappedHRM.sol 40-51 *)
Definition unwrap (tok : HRM.state) (s : state) (sender : address) (amount : N)
  : result (HRM.state * state) :=
  ensure require (0 <? amount) "Amount must be greater than 0" ;;
  ensure require (amount <=? balanceOf s sender) "Insufficient wHRM balance" ;;
  let! s1 := _burn s sender amount in
  let! tok1 := HRM.transfer tok (self s) sender amount in
  Ok (tok1, s1).

(** *** WrappedHRM.sol 56-58 *)
Definition getHRMBalance (tok : HRM.state) (s : state) : N :=
  HRM.balanceOf tok (self s).

End WHRM.

(** ** RealEstatePool.sol *)
Module Pool.

Record PoolInfo : Type := mkPoolInfo {
  totalHRMDeposited : N;
  totalPropertyTokens : N;
  rewardRate : N;
  lastUpdateTime : N
}.

Record UserInfo : Type := mkUserInfo {
  hrmDeposited : N;
  propertyTokensOwned : N;
  rewardsEarned : N;
  lastClaimTime : N
}.

Definition UserInfo0 : UserInfo := mkUserInfo 0 0 0 0.

Record state : Type := mk {
  poolInfo : PoolInfo;
  userInfo : gmap address UserInfo;
  owner : address;                  (* Ownable._owner *)
  self : address                    (* address(this) *)
}.

(** constructor, lines 37-42, run at time [now] *)
Definition init (deployer this : address) (now : N) : state :=
  mk (mkPoolInfo 0 0 5 now) ∅ deployer this.

Definition getUser (s : state) (a : address) : UserInfo :=
  rd UserInfo0 (userInfo s) a.

Definition set_user (a : address) (u : UserInfo) (s : state) : state :=
  mk (poolInfo s) (<[a := u]> (userInfo s)) (owner s) (self s).
Definition set_poolInfo (p : PoolInfo) (s : state) : state :=
  mk p (userInfo s) (owner s) (self s).

Definition set_hrmDeposited (v : N) (u : UserInfo) : UserInfo :=
  mkUserInfo v (propertyTokensOwned u) (rewardsEarned u) (lastClaimTime u).
Definition set_rewardsEarned (v : N) (u : UserInfo) : UserInfo :=
  mkUserInfo (hrmDeposited u) (propertyTokensOwned u) v (lastClaimTime u).
Definition set_lastClaimTime (v : N) (u : UserInfo) : UserInfo :=
  mkUserInfo (hrmDeposited u) (propertyTokensOwned u) (rewardsEarned u) v.
Definition set_totalHRMDeposited (v : N) (p : PoolInfo) : PoolInfo :=
  mkPoolInfo v (totalPropertyTokens p) (rewardRate p) (lastUpdateTime p).
Definition set_rewardRate (v : N) (p : PoolInfo) : PoolInfo :=
  mkPoolInfo (totalHRMDeposited p) (totalPropertyTokens p) v
    (lastUpdateTime p).

Definition onlyOwner (s : state) (sender : address) : result unit :=
  require (sender =? owner s) "Ownable: caller is not the owner".

(** *** RealEstatePool.sol 47-60 *)
Definition depositHRM (tok : HRM.state) (s : state) (sender : address)
    (amount : N) : result (HRM.state * state) :=
  ensure require (0 <? amount) "Amount must be greater than 0" ;;
  let! tok1 := HRM.transferFrom tok (self s) sender (self s) amount in
  let! deposited := U256.add (hrmDeposited (getUser s sender)) amount in
  let s1 := set_user sender (set_hrmDeposited deposited (getUser s sender)) s in
  let! total := U256.add (totalHRMDeposited (poolInfo s1)) amount in
  Ok (tok1, set_poolInfo (set_totalHRMDeposited total (poolInfo s1)) s1).

(** *** RealEstatePool.sol 65-77 *)
Definition withdrawHRM (tok : HRM.state) (s : state) (sender : address)
    (amount : N) : result (HRM.state * state) :=
  ensure require (amount <=? hrmDeposited (getUser s sender))
    "Insufficient deposited amount" ;;
  let! deposited := U256.sub (hrmDeposited (getUser s sender)) amount in
  let s1 := set_user sender (set_hrmDeposited deposited (getUser s sender)) s in
  let! total := U256.sub (totalHRMDeposited (poolInfo s1)) amount in
  let s2 := set_poolInfo (set_totalHRMDeposited total (poolInfo s1)) s1 in
  let! tok1 := HRM.transfer tok (self s) sender amount in
  Ok (tok1, s2).

(** *** RealEstatePool.sol 82-91 *)
Definition calculateRewards (s : state) (now : N) (userAddress : address)
  : result N :=
  let user := getUser s userAddress in
  if hrmDeposited user =? 0 then Ok 0
  else
    let! timeElapsed := U256.sub now (lastClaimTime user) in
    let! scaled := U256.mul (hrmDeposited user) (rewardRate (poolInfo s)) in
    let! yearlyReward := U256.div scaled 100 in
    let! accrued := U256.mul yearlyReward timeElapsed in
    let! reward := U256.div accrued (365 * days) in
    U256.add reward (rewardsEarned user).

(** *** RealEstatePool.sol 96-110 *)
Definition claimRewards (tok : HRM.state) (s : state) (sender : address)
    (now : N) : result (HRM.state * state) :=
  let! rewards := calculateRewards s now sender in
  ensure require (0 <? rewards) "No rewards to claim" ;;
  let s1 := set_user sender (set_rewardsEarned 0 (getUser s sender)) s in
  let s2 := set_user sender (set_lastClaimTime now (getUser s1 sender)) s1 in
  ensure require (rewards <=? HRM.balanceOf tok (self s))
    "Insufficient reward pool" ;;
  let! tok1 := HRM.transfer tok (self s) sender rewards in
  Ok (tok1, s2).

(** *** RealEstatePool.sol 115-125 *)
Definition getPoolStats (s : state) : N * N * N :=
  (totalHRMDeposited (poolInfo s), totalPropertyTokens (poolInfo s),
   rewardRate (poolInfo s)).

(** *** RealEstatePool.sol 130-132 *)
Definition updateRewardRate (s : state) (sender : address) (newRate : N)
  : result state :=
  ensure onlyOwner s sender ;;
  Ok (set_poolInfo (set_rewardRate newRate (poolInfo s)) s).

End Pool.

(** ** The deployment with the wrapper and the pool

    The system of [Sys], with one [WrappedHRM] and one [RealEstatePool]
    wired to the same token.  The faucet functions of the token move the
    ledger exactly as [mint] does, which is a call of [Sys] already. *)
Module Ext.

Record Config : Type := mkConfig {
  base_config : Sys.Config;
  whrm_deployer : address;
  whrm_address : address;
  pool_deployer : address;
  pool_address : address;
  pool_deployed_at : N
}.

Record World : Type := mkWorld {
  base : Sys.World;
  whrm : WHRM.state;
  pool : Pool.state
}.

Definition init (c : Config) : World :=
  mkWorld (Sys.init (base_config c))
          (WHRM.init (whrm_deployer c) (whrm_address c))
          (Pool.init (pool_deployer c) (pool_address c) (pool_deployed_at c)).

Inductive Call : Type :=
| Base (c : Sys.Call)
(* WrappedHRM *)
| Wrap (amount : N)
| Unwrap (amount : N)
| WTransfer (to : address) (amount : N)
| WApprove (spender : address) (amount : N)
| WTransferFrom (from to : address) (amount : N)
(* RealEstatePool *)
| DepositHRM (amount : N)
| WithdrawHRM (amount : N)
| ClaimRewards
| UpdateRewardRate (newRate : N).

Record Tx : Type := mkTx {
  sender : address;     (* msg.sender *)
  timestamp : N;        (* block.timestamp *)
  call : Call
}.

Definition hrm (w : World) : HRM.state := Sys.hrm (base w).

Definition with_base (w : World) (b : Sys.World) : World :=
  mkWorld b (whrm w) (pool w).
Definition with_hrm (w : World) (t : HRM.state) : World :=
  mkWorld (Sys.with_hrm (base w) t) (whrm w) (pool w).
Definition with_whrm (w : World) (x : WHRM.state) : World :=
  mkWorld (base w) x (pool w).
Definition with_pool (w : World) (p : Pool.state) : World :=
  mkWorld (base w) (whrm w) p.

Definition exec (w : World) (tx : Tx) : result World :=
  let from := sender tx in
  let now := timestamp tx in
  match call tx with
  | Base c =>
      let! b := Sys.exec (base w) (Sys.mkTx from now c) in Ok (with_base w b)
  | Wrap amount =>
      let! p := WHRM.wrap (hrm w) (whrm w) from amount in
      Ok (with_whrm (with_hrm w p.1) p.2)
  | Unwrap amount =>
      let! p := WHRM.unwrap (hrm w) (whrm w) from amount in
      Ok (with_whrm (with_hrm w p.1) p.2)
  | WTransfer to amount =>
      let! x := WHRM.transfer (whrm w) from to amount in Ok (with_whrm w x)
  | WApprove spender amount =>
      let! x := WHRM.approve (whrm w) from spender amount in
      Ok (with_whrm w x)
  | WTransferFrom src to amount =>
      let! x := WHRM.transferFrom (whrm w) from src to amount in
      Ok (with_whrm w x)
  | DepositHRM amount =>
      let! p := Pool.depositHRM (hrm w) (pool w) from amount in
      Ok (with_pool (with_hrm w p.1) p.2)
  | WithdrawHRM amount =>
      let! p := Pool.withdrawHRM (hrm w) (pool w) from amount in
      Ok (with_pool (with_hrm w p.1) p.2)
  | ClaimRewards =>
      let! p := Pool.claimRewards (hrm w) (pool w) from now in
      Ok (with_pool (with_hrm w p.1) p.2)
  | UpdateRewardRate newRate =>
      let! p := Pool.updateRewardRate (pool w) from newRate in
      Ok (with_pool w p)
  end.

Definition apply_tx (w : World) (tx : Tx) : World :=
  match exec w tx with
  | Ok w' => w'
  | Revert _ => w
  end.

Definition run (w : World) (txs : list Tx) : World :=
  foldl apply_tx w txs.

Definition args_in_range (c : Call) : bool :=
  match c with
  | Base c => Sys.args_in_range c
  | Wrap n | Unwrap n | WTransfer _ n | WApprove _ n | WTransferFrom _ _ n
  | DepositHRM n | WithdrawHRM n | UpdateRewardRate n => n <=? MAX_UINT256
  | ClaimRewards => true
  end.

(** the callers are externally owned accounts: none of the contracts *)
Definition valid_txb (w : World) (tx : Tx) : bool :=
  negb (sender tx =? address0)
  && negb (sender tx =? PT.self (Sys.pt (base w)))
  && negb (sender tx =? DM.self (Sys.dm (base w)))
  && negb (sender tx =? WHRM.self (whrm w))
  && negb (sender tx =? Pool.self (pool w))
  && (timestamp tx <=? MAX_UINT256) && args_in_range (call tx).

Definition valid_tx (w : World) (tx : Tx) : Prop := valid_txb w tx = true.

Definition wf_config (c : Config) : Prop :=
  Sys.wf_config (base_config c)
  /\ whrm_address c <> address0 /\ pool_address c <> address0
  /\ whrm_address c <> pool_address c
  /\ whrm_address c <> Sys.pt_address (base_config c)
  /\ whrm_address c <> Sys.dm_address (base_config c)
  /\ pool_address c <> Sys.pt_address (base_config c)
  /\ pool_address c <> Sys.dm_address (base_config c)
  /\ Sys.hrm_deployer (base_config c) <> whrm_address c
  /\ Sys.hrm_deployer (base_config c) <> pool_address c.

Fixpoint run_valid (w : World) (txs : list Tx) : bool :=
  match txs with
  | [] => true
  | tx :: rest => valid_txb w tx && run_valid (apply_tx w tx) rest
  end.

Inductive reachable : World -> Prop :=
| reach_init (c : Config) : wf_config c -> reachable (init c)
| reach_step (w w' : World) (tx : Tx) :
    reachable w -> valid_tx w tx -> exec w tx = Ok w' -> reachable w'.

End Ext.

(** ** Invariants of the wrapper and of the pool *)

(** Every wrapped token is backed: the wrapped balances add up to the
    wrapped supply, which the wrapper holds in tokens; the wrapper never
    granted an allowance. *)
Record WHRM_inv (tok : HRM.state) (x : WHRM.state) : Prop := mkWHRM_inv {
  wh_self_nonzero : WHRM.self x <> address0;
  wh_sum : sumN id (WHRM.balances x) = WHRM.totalSupply x;
  wh_backed : WHRM.totalSupply x <= HRM.balanceOf tok (WHRM.self x);
  wh_no_allowance : forall sp, HRM.allowance tok (WHRM.self x) sp = 0
}.

(** The deposits recorded for the users add up to the recorded total. *)
Definition Pool_inv (p : Pool.state) : Prop :=
  sumN Pool.hrmDeposited (Pool.userInfo p)
  = Pool.totalHRMDeposited (Pool.poolInfo p).

Record Ext_inv (w : Ext.World) : Prop := mkExt_inv {
  ext_base : Inv (Ext.base w);
  ext_whrm : WHRM_inv (Ext.hrm w) (Ext.whrm w);
  ext_pool : Pool_inv (Ext.pool w);
  ext_pool_nonzero : Pool.self (Ext.pool w) <> address0;
  ext_distinct :
    WHRM.self (Ext.whrm w) <> Pool.self (Ext.pool w)
    /\ WHRM.self (Ext.whrm w) <> PT.self (Sys.pt (Ext.base w))
    /\ WHRM.self (Ext.whrm w) <> DM.self (Sys.dm (Ext.base w))
    /\ Pool.self (Ext.pool w) <> PT.self (Sys.pt (Ext.base w))
    /\ Pool.self (Ext.pool w) <> DM.self (Sys.dm (Ext.base w))
}.

(** ** Notions used in the statements about the rest of the code *)

(** [p'] is a later state of the listed property [p]: the terms of the
    listing are the same, no flag was cleared, and no share came back. *)
Definition evolves (p p' : PT.Property) : Prop :=
  PT.id p' = PT.id p /\ PT.metadataURI p' = PT.metadataURI p
  /\ PT.totalValue p' = PT.totalValue p /\ PT.totalTokens p' = PT.totalTokens p
  /\ PT.tokenPrice p' = PT.tokenPrice p
  /\ PT.propertyOwner p' = PT.propertyOwner p
  /\ PT.createdAt p' = PT.createdAt p
  /\ PT.propertyType p' = PT.propertyType p /\ PT.riskLevel p' = PT.riskLevel p
  /\ (PT.isVerified p = true -> PT.isVerified p' = true)
  /\ (PT.isActive p = true -> PT.isActive p' = true)
  /\ PT.availableTokens p' <= PT.availableTokens p.

(** Both flags of every listed property are equal: a listing clears both
    and a verification sets both. *)
Definition Flags_inv (s : PT.state) : Prop :=
  forall pid p, PT.properties s !! pid = Some p ->
    PT.isActive p = PT.isVerified p.

(** [o'] is a later state of the sell order [o]: seller, property, price and
    expiry are the same, the shares on offer did not grow, and a closed
    order did not reopen. *)
Definition order_evolves (o o' : PT.SellOrder) : Prop :=
  PT.so_id o' = PT.so_id o /\ PT.so_propertyId o' = PT.so_propertyId o
  /\ PT.seller o' = PT.seller o /\ PT.pricePerToken o' = PT.pricePerToken o
  /\ PT.totalPrice o' = PT.totalPrice o
  /\ PT.so_createdAt o' = PT.so_createdAt o /\ PT.expiresAt o' = PT.expiresAt o
  /\ PT.tokensForSale o' <= PT.tokensForSale o
  /\ (PT.so_isActive o = false -> PT.so_isActive o' = false).

(** The order book is well formed: the stored orders are the ones numbered
    below the counter, each under its own number, and an open order offers
    at least one share. *)
Definition Orders_inv (s : PT.state) : Prop :=
  forall oid,
    (oid < PT.sellOrderCounter s <-> is_Some (PT.sellOrders s !! oid))
    /\ forall o, PT.sellOrders s !! oid = Some o ->
         PT.so_id o = oid
         /\ (PT.so_isActive o = true -> 0 < PT.tokensForSale o).


(** The ledger of the wrapped token read as a token ledger that is never
    paused, and back: the two ERC20 bases differ in the pause hook only. *)
Definition as_ledger (x : WHRM.state) : HRM.state :=
  HRM.mk (WHRM.balances x) (WHRM.allowances x) (WHRM.totalSupply x) false
    (WHRM.owner x).

Definition of_ledger (x : WHRM.state) (l : HRM.state) : WHRM.state :=
  WHRM.mk (HRM.balances l) (HRM.allowances l) (HRM.totalSupply l)
    (WHRM.owner x) (WHRM.self x).

Definition lift_ledger (x : WHRM.state) (r : result HRM.state)
  : result WHRM.state :=
  match r with
  | Ok l => Ok (of_ledger x l)
  | Revert e => Revert e
  end.

(** a property that counts in the platform statistics *)
Definition live (s : PT.state) (i : N) : bool :=
  PT.isActive (PT.getProperty s i) && PT.isVerified (PT.getProperty s i).

(** The property list of every investor enumerates, without repetition,
    the properties in which the investor has a holding record. *)
Definition Portfolio_inv (s : PT.state) : Prop :=
  forall a,
    NoDup (PT.getInvestorProperties s a)
    /\ forall pid,
         pid ∈ PT.getInvestorProperties s a
         <-> is_Some (PT.holdings s pid !! a).

(** [tx] gives its sender shares of property [pid]: it is a purchase of
    shares of [pid] or the fulfilment of an order on [pid]. *)
Definition acquires (s : PT.state) (tx : Sys.Tx) (pid : N) : Prop :=
  (exists n, Sys.call tx = Sys.PurchaseTokens pid n)
  \/ (exists oid n, Sys.call tx = Sys.BuyFromOrder oid n
                    /\ PT.so_propertyId (PT.getSellOrder s oid) = pid).

(** What the transaction [tx] from [s] to [s'] does to the property list
    of investor [a]: nothing, and then [a] has the holding records it had;
    or [a] is the sender and gets its first shares of a property, which
    is put at the end of the list. *)
Definition portfolio_step (s s' : PT.state) (tx : Sys.Tx) (a : address)
  : Prop :=
  (PT.getInvestorProperties s' a = PT.getInvestorProperties s a
   /\ forall pid, is_Some (PT.holdings s' pid !! a)
                  <-> is_Some (PT.holdings s pid !! a))
  \/ exists pid,
       a = Sys.sender tx /\ acquires s tx pid
       /\ PT.holdings s pid !! a = None
       /\ is_Some (PT.holdings s' pid !! a)
       /\ PT.getInvestorProperties s' a = PT.getInvestorProperties s a ++ [pid]
       /\ forall pid', pid' <> pid ->
            (is_Some (PT.holdings s' pid' !! a)
             <-> is_Some (PT.holdings s pid' !! a)).

(** ** Concrete states for the rest of the code

    The deployment of [Demo] with a wrapper and a pool.  Alice wraps 100
    HRM; then alice deposits 100 HRM and bob 1 HRM in the pool. *)
Module DemoX.

Definition wrapper : address := 300.
Definition pool : address := 400.

Definition cfg : Ext.Config :=
  Ext.mkConfig Demo.cfg Demo.admin wrapper Demo.admin pool 1700000000.

Definition tx (who : address) (c : Ext.Call) : Ext.Tx :=
  Ext.mkTx who 1700000000 c.

Definition w_funded : Ext.World :=
  Ext.run (Ext.init cfg)
    [ tx Demo.admin (Ext.Base (Sys.Transfer Demo.alice (1000 * ether)));
      tx Demo.admin (Ext.Base (Sys.Transfer Demo.bob (1000 * ether))) ].

Definition w_approved : Ext.World :=
  Ext.run w_funded
    [ tx Demo.alice (Ext.Base (Sys.Approve wrapper (100 * ether))) ].

Definition w_wrapped : Ext.World :=
  Ext.run w_approved [ tx Demo.alice (Ext.Wrap (100 * ether)) ].

Definition w_pool_approved : Ext.World :=
  Ext.run w_wrapped
    [ tx Demo.alice (Ext.Base (Sys.Approve pool (100 * ether)));
      tx Demo.bob (Ext.Base (Sys.Approve pool ether)) ].

Definition w_pooled : Ext.World :=
  Ext.run w_pool_approved
    [ tx Demo.alice (Ext.DepositHRM (100 * ether));
      tx Demo.bob (Ext.DepositHRM ether) ].

(** the first sell order of alice is cancelled *)
Definition w_cancelled : Sys.World :=
  Sys.run Demo.w_orders [ Demo.tx Demo.alice (Sys.CancelSellOrder 0) ].

(** a proposal that nobody has voted on yet, and the proposal of
    [Demo.w_voted] executed after its window *)
Definition w_proposed : Sys.World :=
  Sys.run (Sys.init Demo.cfg)
    [ Demo.tx Demo.admin (Sys.Burn (99000000 * ether));
      Demo.tx Demo.admin (Sys.Transfer Demo.dave (90000 * ether));
      Demo.tx Demo.admin (Sys.CreateProposal "fees" "lower the platform fee") ].

Definition w_executed : Sys.World :=
  Sys.run Demo.w_voted
    [ Sys.mkTx Demo.admin Demo.after_voting (Sys.ExecuteProposal 1) ].

End DemoX.

(** * Properties *)

(** ** The revert monad *)

Lemma bind_Ok {A B} (m : result A) (k : A -> result B) (b : B) :
  bind m k = Ok b <-> exists a, m = Ok a /\ k a = Ok b.
Proof.
  destruct m as [a|e]; simpl; split.
  - intros Hk. exists a. split; [reflexivity | exact Hk].
  - intros (a' & Ha & Hk). congruence.
  - discriminate.
  - intros (a' & Ha & _). discriminate.
Qed.

Lemma bind_Revert {A B} (m : result A) (k : A -> result B) (e : error) :
  bind m k = Revert e <->
  m = Revert e \/ exists a, m = Ok a /\ k a = Revert e.
Proof.
  destruct m as [a|e']; simpl; split.
  - intros Hk. right. exists a. split; [reflexivity | exact Hk].
  - intros [Hm | (a' & Ha & Hk)]; congruence.
  - intros [= ->]. left. reflexivity.
  - intros [Hm | (a' & Ha & _)]; congruence.
Qed.

Lemma require_Ok (c : bool) (msg : string) (u : unit) :
  require c msg = Ok u <-> c = true.
Proof. destruct c, u; simpl; split; congruence. Qed.

Lemma require_true (msg : string) : require true msg = Ok tt.
Proof. reflexivity. Qed.

Lemma require_false (msg : string) :
  require false msg = Revert (Require_failed msg).
Proof. reflexivity. Qed.

Lemma is_ok_Ok {A} (r : result A) : is_ok r = true <-> exists a, r = Ok a.
Proof.
  destruct r as [a|e]; simpl; split; try discriminate; eauto.
  intros (a & Ha). discriminate.
Qed.

Lemma is_ok_Revert {A} (r : result A) :
  is_ok r = false <-> exists e, r = Revert e.
Proof.
  destruct r as [a|e]; simpl; split; try discriminate; eauto.
  intros (e & He). discriminate.
Qed.

(** Peel one successful step off a hypothesis [H : bind m k = Ok b]. *)
Ltac ok_step H :=
  let a := fresh "r" in
  let Ha := fresh "Hok" in
  apply bind_Ok in H; destruct H as (a & Ha & H);
  try (apply require_Ok in Ha).

Ltac ok_steps H := repeat ok_step H.

Lemma U256_add_Ok a b c : U256.add a b = Ok c <-> c = a + b /\ a + b <= MAX_UINT256.
Proof.
  unfold U256.add. destruct (N.leb_spec (a + b) MAX_UINT256); split.
  - intros [= <-]. split; [reflexivity | assumption].
  - intros [-> _]. reflexivity.
  - discriminate.
  - intros [_ ?]. lia.
Qed.

Lemma U256_sub_Ok a b c : U256.sub a b = Ok c <-> c = a - b /\ b <= a.
Proof.
  unfold U256.sub. destruct (N.leb_spec b a); split.
  - intros [= <-]. split; [reflexivity | assumption].
  - intros [-> _]. reflexivity.
  - discriminate.
  - intros [_ ?]. lia.
Qed.

Lemma U256_mul_Ok a b c : U256.mul a b = Ok c <-> c = a * b /\ a * b <= MAX_UINT256.
Proof.
  unfold U256.mul. destruct (N.leb_spec (a * b) MAX_UINT256); split.
  - intros [= <-]. split; [reflexivity | assumption].
  - intros [-> _]. reflexivity.
  - discriminate.
  - intros [_ ?]. lia.
Qed.

Lemma U256_div_Ok a b c : U256.div a b = Ok c <-> c = a / b /\ b <> 0.
Proof.
  unfold U256.div. destruct (N.eqb_spec b 0); split.
  - discriminate.
  - intros [_ ?]. contradiction.
  - intros [= <-]. split; [reflexivity | assumption].
  - intros [-> _]. reflexivity.
Qed.

Lemma U256_wrap_small a : a <= MAX_UINT256 -> U256.wrap a = a.
Proof. intros Ha. unfold U256.wrap. apply N.mod_small. lia. Qed.

Lemma U256_wrap_sub a b :
  b <= a -> a <= MAX_UINT256 -> U256.wrap (a + (MAX_UINT256 + 1) - b) = a - b.
Proof.
  intros Hb Ha. unfold U256.wrap.
  replace (a + (MAX_UINT256 + 1) - b) with ((a - b) + 1 * (MAX_UINT256 + 1)) by lia.
  rewrite N.Div0.mod_add. apply N.mod_small. lia.
Qed.

(** ** Reading and writing mappings *)

Lemma rd_insert_eq `{Countable K} {V} (d v : V) (m : gmap K V) (k : K) :
  rd d (<[k := v]> m) k = v.
Proof. unfold rd. by rewrite lookup_insert_eq. Qed.

Lemma rd_insert_ne `{Countable K} {V} (d v : V) (m : gmap K V) (k k' : K) :
  k <> k' -> rd d (<[k := v]> m) k' = rd d m k'.
Proof. intros Hne. unfold rd. by rewrite lookup_insert_ne. Qed.

Lemma rd_Some `{Countable K} {V} (d v : V) (m : gmap K V) (k : K) :
  m !! k = Some v -> rd d m k = v.
Proof. intros Hk. unfold rd. by rewrite Hk. Qed.

Lemma rd_None `{Countable K} {V} (d : V) (m : gmap K V) (k : K) :
  m !! k = None -> rd d m k = d.
Proof. intros Hk. unfold rd. by rewrite Hk. Qed.

(** ** Sums over mappings *)

Section sums.
Context `{Countable K} {V : Type} (f : V -> N).
Implicit Types m : gmap K V.

Lemma sumN_empty : sumN f (∅ : gmap K V) = 0.
Proof. unfold sumN. apply map_fold_empty. Qed.

Lemma sumN_insert_None m k v :
  m !! k = None -> sumN f (<[k := v]> m) = f v + sumN f m.
Proof.
  intros Hk. unfold sumN.
  apply (map_fold_insert_L (fun _ v acc => f v + acc)); [|exact Hk].
  intros. lia.
Qed.

Lemma sumN_delete m k v :
  m !! k = Some v -> sumN f m = f v + sumN f (delete k m).
Proof.
  intros Hk. unfold sumN.
  apply (map_fold_delete_L (fun _ v acc => f v + acc)); [|exact Hk].
  intros. lia.
Qed.

Lemma sumN_insert_Some m k v0 v :
  m !! k = Some v0 -> sumN f (<[k := v]> m) + f v0 = f v + sumN f m.
Proof.
  intros Hk. rewrite (sumN_delete m k v0 Hk).
  rewrite <- insert_delete_eq.
  rewrite sumN_insert_None by apply lookup_delete_eq. lia.
Qed.

(** writing [v] over a slot that read as [d], where [f d = 0] *)
Lemma sumN_insert_rd m k d v :
  f d = 0 -> sumN f (<[k := v]> m) + f (rd d m k) = f v + sumN f m.
Proof.
  intros Hd. unfold rd. destruct (m !! k) as [v0|] eqn:Hk; simpl.
  - by apply sumN_insert_Some.
  - rewrite Hd, sumN_insert_None by done. lia.
Qed.

Lemma sumN_lookup_le m k v : m !! k = Some v -> f v <= sumN f m.
Proof. intros Hk. rewrite (sumN_delete m k v Hk). lia. Qed.

Lemma sumN_rd_le m k d : f d = 0 -> f (rd d m k) <= sumN f m.
Proof.
  intros Hd. unfold rd. destruct (m !! k) as [v0|] eqn:Hk; simpl.
  - by eapply sumN_lookup_le.
  - lia.
Qed.

Lemma sumN_rd_le2 m k1 k2 d :
  f d = 0 -> k1 <> k2 -> f (rd d m k1) + f (rd d m k2) <= sumN f m.
Proof.
  intros Hd Hne. unfold rd at 1.
  destruct (m !! k1) as [v1|] eqn:Hk1; simpl.
  - rewrite (sumN_delete m k1 v1 Hk1).
    assert (rd d m k2 = rd d (delete k1 m) k2) as ->.
    { unfold rd. by rewrite lookup_delete_ne. }
    pose proof (sumN_rd_le (delete k1 m) k2 d Hd). lia.
  - rewrite Hd. pose proof (sumN_rd_le m k2 d Hd). lia.
Qed.

(** a duplicate-free list that enumerates the keys of [m] sums to the
    same total *)
Lemma sumN_enum m d (l : list K) :
  NoDup l -> (forall k, k ∈ l <-> is_Some (m !! k)) ->
  sum_list_N (fun k => f (rd d m k)) l = sumN f m.
Proof.
  intros Hnd. revert m. induction Hnd as [|k l Hk Hnd IH]; intros m Hdom.
  - assert (m = ∅) as ->.
    { apply map_empty. intros k. apply eq_None_not_Some. rewrite <- Hdom.
      apply not_elem_of_nil. }
    by rewrite sumN_empty.
  - destruct (Hdom k) as [[v Hv] _]; [apply list_elem_of_here|].
    simpl. rewrite (sumN_delete m k v Hv), (rd_Some _ _ _ _ Hv). f_equal.
    rewrite <- (IH (delete k m)).
    + clear IH Hdom. induction l as [|k' l IHl]; [done|]. simpl.
      apply not_elem_of_cons in Hk as [Hne Hk]. apply NoDup_cons in Hnd as [_ Hnd].
      rewrite IHl by done. f_equal. unfold rd. by rewrite lookup_delete_ne.
    + intros k'. rewrite lookup_delete. case_decide as Hd'; subst.
      * split; [done|]. intros [? ?]. done.
      * rewrite <- Hdom. rewrite elem_of_cons. split; [tauto|].
        intros [->|?]; [contradiction|assumption].
Qed.
End sums.

(** ** The token ledger *)

Lemma MAX_SUPPLY_fits : HRM.MAX_SUPPLY * 10000 <= MAX_UINT256.
Proof. vm_compute. discriminate. Qed.

Lemma MAX_SUPPLY_le : HRM.MAX_SUPPLY <= MAX_UINT256.
Proof. pose proof MAX_SUPPLY_fits. lia. Qed.

Lemma balanceOf_set_balance s a v a' :
  HRM.balanceOf (HRM.set_balance a v s) a'
  = if decide (a = a') then v else HRM.balanceOf s a'.
Proof.
  unfold HRM.balanceOf, HRM.set_balance; simpl. case_decide; subst.
  - apply rd_insert_eq.
  - by apply rd_insert_ne.
Qed.

Lemma balanceOf_le_supply s a :
  HRM_inv s -> HRM.balanceOf s a <= HRM.totalSupply s.
Proof.
  intros [Hsum _]. rewrite <- Hsum.
  apply (sumN_rd_le id (HRM.balances s) a 0). reflexivity.
Qed.

Lemma balanceOf_le_supply2 s a b :
  HRM_inv s -> a <> b ->
  HRM.balanceOf s a + HRM.balanceOf s b <= HRM.totalSupply s.
Proof.
  intros [Hsum _] Hne. rewrite <- Hsum.
  apply (sumN_rd_le2 id (HRM.balances s) a b 0); [reflexivity | exact Hne].
Qed.

Lemma sum_set_balance s a v :
  sumN id (HRM.balances (HRM.set_balance a v s)) + HRM.balanceOf s a
  = v + sumN id (HRM.balances s).
Proof.
  unfold HRM.set_balance, HRM.balanceOf; simpl.
  apply (sumN_insert_rd id (HRM.balances s) a 0 v). reflexivity.
Qed.

(** What a successful [_transfer] did. *)
Lemma _transfer_Ok s from to amount s' :
  HRM_inv s ->
  HRM._transfer s from to amount = Ok s' ->
  from <> address0 /\ to <> address0 /\ HRM.paused s = false
  /\ amount <= HRM.balanceOf s from
  /\ (forall a, HRM.balanceOf s' a + (if decide (a = from) then amount else 0)
                = HRM.balanceOf s a + (if decide (a = to) then amount else 0))
  /\ HRM.allowances s' = HRM.allowances s
  /\ HRM.totalSupply s' = HRM.totalSupply s
  /\ HRM.paused s' = HRM.paused s /\ HRM.owner s' = HRM.owner s
  /\ HRM_inv s'.
Proof.
  intros Hinv H. unfold HRM._transfer, HRM._beforeTokenTransfer in H.
  ok_steps H. injection H as <-.
  apply negb_true_iff, N.eqb_neq in Hok, Hok0. apply negb_true_iff in Hok1.
  apply N.leb_le in Hok2.
  set (b := HRM.balanceOf s from) in *.
  set (s1 := HRM.set_balance from (b - amount) s).
  pose proof MAX_SUPPLY_le as HM. pose proof Hinv as [Hsum Hcap].
  assert (Hfit : HRM.balanceOf s1 to + amount <= HRM.totalSupply s).
  { unfold s1. rewrite balanceOf_set_balance. case_decide as Hd.
    - subst to. pose proof (balanceOf_le_supply s from Hinv). fold b in H. lia.
    - pose proof (balanceOf_le_supply2 s from to Hinv Hd). fold b in H. lia. }
  rewrite U256_wrap_small by lia.
  assert (Hbal : forall a,
    HRM.balanceOf (HRM.set_balance to (HRM.balanceOf s1 to + amount) s1) a
      + (if decide (a = from) then amount else 0)
    = HRM.balanceOf s a + (if decide (a = to) then amount else 0)).
  { intros a. rewrite balanceOf_set_balance. unfold s1.
    rewrite !balanceOf_set_balance. fold b.
    repeat case_decide; subst; try congruence; try lia; fold b; lia. }
  repeat split; try assumption; try reflexivity.
  - simpl.
    pose proof (sum_set_balance s1 to (HRM.balanceOf s1 to + amount)) as E1.
    pose proof (sum_set_balance s from (b - amount)) as E2. fold s1 in E2.
    fold b in E2. simpl in *. lia.
Qed.

(** When [_transfer] goes through. *)
Lemma _transfer_succeeds s from to amount :
  from <> address0 -> to <> address0 -> HRM.paused s = false ->
  amount <= HRM.balanceOf s from ->
  exists s', HRM._transfer s from to amount = Ok s'.
Proof.
  intros Hf Ht Hp Ha. unfold HRM._transfer, HRM._beforeTokenTransfer.
  apply N.eqb_neq in Hf, Ht. apply N.leb_le in Ha.
  rewrite Hf, Ht, Hp, Ha. simpl. eauto.
Qed.

Lemma _transfer_paused s from to amount :
  HRM.paused s = true ->
  HRM._transfer s from to amount <> Ok s /\
  forall s', HRM._transfer s from to amount <> Ok s'.
Proof.
  intros Hp.
  assert (forall s', HRM._transfer s from to amount <> Ok s') as Hall.
  { intros s' H. unfold HRM._transfer, HRM._beforeTokenTransfer in H.
    rewrite Hp in H. ok_steps H. discriminate. }
  split; [apply Hall | exact Hall].
Qed.

Lemma allowance_set_allowance s o sp v o' sp' :
  HRM.allowance (HRM.set_allowance o sp v s) o' sp'
  = if decide ((o, sp) = (o', sp')) then v else HRM.allowance s o' sp'.
Proof.
  unfold HRM.allowance, HRM.set_allowance; simpl. case_decide as Hd.
  - rewrite <- Hd. apply rd_insert_eq.
  - by apply rd_insert_ne.
Qed.

Lemma _approve_Ok s o sp amount s' :
  HRM._approve s o sp amount = Ok s' ->
  o <> address0 /\ sp <> address0 /\ s' = HRM.set_allowance o sp amount s.
Proof.
  intros H. unfold HRM._approve in H. ok_steps H. injection H as <-.
  apply negb_true_iff, N.eqb_neq in Hok, Hok0. auto.
Qed.

Lemma _spendAllowance_Ok s o sp amount s' :
  amount <= MAX_UINT256 ->
  HRM._spendAllowance s o sp amount = Ok s' ->
  amount <= HRM.allowance s o sp
  /\ HRM.balances s' = HRM.balances s
  /\ HRM.totalSupply s' = HRM.totalSupply s
  /\ HRM.paused s' = HRM.paused s /\ HRM.owner s' = HRM.owner s
  /\ (forall o' sp', (o', sp') <> (o, sp) ->
        HRM.allowance s' o' sp' = HRM.allowance s o' sp')
  /\ HRM.allowance s' o sp <= HRM.allowance s o sp.
Proof.
  unfold HRM._spendAllowance. intros Hrange H.
  destruct (N.eqb_spec (HRM.allowance s o sp) MAX_UINT256) as [Hmax|Hmax].
  - injection H as <-. repeat split; try reflexivity; lia.
  - ok_steps H. apply N.leb_le in Hok. injection H as <-.
    repeat split; try assumption; try reflexivity.
    + intros o' sp' Hne. rewrite allowance_set_allowance.
      case_decide as Hd; [|reflexivity]. congruence.
    + rewrite allowance_set_allowance.
      case_decide as Hd; [lia|contradiction].
Qed.

Lemma HRM_inv_same_ledger s s' :
  HRM.balances s' = HRM.balances s -> HRM.totalSupply s' = HRM.totalSupply s ->
  HRM_inv s -> HRM_inv s'.
Proof. unfold HRM_inv. intros -> ->. tauto. Qed.

Lemma balanceOf_same_ledger s s' a :
  HRM.balances s' = HRM.balances s -> HRM.balanceOf s' a = HRM.balanceOf s a.
Proof. unfold HRM.balanceOf. by intros ->. Qed.

Lemma _mint_Ok s account amount s' :
  HRM_inv s ->
  HRM.totalSupply s + amount <= HRM.MAX_SUPPLY ->
  HRM._mint s account amount = Ok s' ->
  account <> address0 /\ HRM.paused s = false
  /\ (forall a, HRM.balanceOf s' a
                = HRM.balanceOf s a + (if decide (a = account) then amount else 0))
  /\ HRM.allowances s' = HRM.allowances s
  /\ HRM.totalSupply s' = HRM.totalSupply s + amount
  /\ HRM.paused s' = HRM.paused s /\ HRM.owner s' = HRM.owner s
  /\ HRM_inv s'.
Proof.
  intros Hinv Hcap H. unfold HRM._mint, HRM._beforeTokenTransfer in H.
  ok_steps H. injection H as <-.
  apply negb_true_iff, N.eqb_neq in Hok. apply negb_true_iff in Hok0.
  apply U256_add_Ok in Hok1 as [-> _].
  pose proof MAX_SUPPLY_le as HM. pose proof Hinv as [Hsum _].
  pose proof (balanceOf_le_supply s account Hinv) as Hle.
  set (s1 := HRM.set_totalSupply (HRM.totalSupply s + amount) s).
  assert (HRM.balanceOf s1 account = HRM.balanceOf s account) as Hb by reflexivity.
  rewrite Hb, U256_wrap_small by lia.
  repeat split; try assumption; try reflexivity.
  - intros a. rewrite balanceOf_set_balance. case_decide; subst.
    + rewrite decide_True by reflexivity. reflexivity.
    + rewrite decide_False by congruence. unfold s1, HRM.balanceOf; simpl. lia.
  - simpl.
    pose proof (sum_set_balance s account (HRM.balanceOf s account + amount)) as E.
    simpl in E. lia.
Qed.

Lemma _burn_Ok s account amount s' :
  HRM_inv s ->
  HRM._burn s account amount = Ok s' ->
  account <> address0 /\ HRM.paused s = false
  /\ amount <= HRM.balanceOf s account
  /\ (forall a, HRM.balanceOf s' a + (if decide (a = account) then amount else 0)
                = HRM.balanceOf s a)
  /\ HRM.allowances s' = HRM.allowances s
  /\ HRM.totalSupply s' + amount = HRM.totalSupply s
  /\ HRM.paused s' = HRM.paused s /\ HRM.owner s' = HRM.owner s
  /\ HRM_inv s'.
Proof.
  intros Hinv H. unfold HRM._burn, HRM._beforeTokenTransfer in H.
  ok_steps H. injection H as <-.
  apply negb_true_iff, N.eqb_neq in Hok. apply negb_true_iff in Hok0.
  apply N.leb_le in Hok1.
  pose proof MAX_SUPPLY_le as HM. pose proof Hinv as [Hsum Hcap].
  pose proof (balanceOf_le_supply s account Hinv) as Hle.
  set (b := HRM.balanceOf s account) in *.
  set (s1 := HRM.set_balance account (b - amount) s).
  change (HRM.totalSupply s1) with (HRM.totalSupply s).
  rewrite U256_wrap_sub by lia.
  repeat split; try assumption; try reflexivity.
  - intros a. unfold HRM.set_totalSupply, HRM.balanceOf at 1; simpl.
    change (rd 0 (<[account := b - amount]> (HRM.balances s)) a)
      with (HRM.balanceOf s1 a).
    unfold s1. rewrite balanceOf_set_balance. case_decide; subst.
    + rewrite decide_True by reflexivity. fold b. lia.
    + rewrite decide_False by congruence. lia.
  - simpl. lia.
  - simpl. pose proof (sum_set_balance s account (b - amount)) as E.
    fold b in E. simpl in E. lia.
  - simpl. lia.
Qed.

Lemma mint_Ok s sender to amount s' :
  HRM_inv s ->
  HRM.mint s sender to amount = Ok s' ->
  to <> address0 /\ HRM.paused s = false
  /\ (forall a, HRM.balanceOf s' a
                = HRM.balanceOf s a + (if decide (a = to) then amount else 0))
  /\ HRM.allowances s' = HRM.allowances s
  /\ HRM.totalSupply s' = HRM.totalSupply s + amount
  /\ HRM.paused s' = HRM.paused s /\ HRM.owner s' = HRM.owner s
  /\ HRM_inv s'.
Proof.
  intros Hinv H. unfold HRM.mint in H.
  apply bind_Ok in H as (sum & Hsum & H). apply U256_add_Ok in Hsum as [-> _].
  apply bind_Ok in H as ([] & Hcap & H). apply require_Ok, N.leb_le in Hcap.
  by apply _mint_Ok.
Qed.

Lemma keeps_refl d tok : HRM_inv tok -> keeps d tok tok.
Proof. intros Hinv. repeat split; try apply Hinv; intros; lia. Qed.

Lemma keeps_trans d t1 t2 t3 : keeps d t1 t2 -> keeps d t2 t3 -> keeps d t1 t3.
Proof.
  intros (Hb1 & Ha1 & _) (Hb2 & Ha2 & Hi). repeat split; try apply Hi.
  - lia.
  - intros sp. specialize (Ha1 sp). specialize (Ha2 sp). lia.
Qed.

Lemma allowance_same s s' o sp :
  HRM.allowances s' = HRM.allowances s -> HRM.allowance s' o sp = HRM.allowance s o sp.
Proof. unfold HRM.allowance. by intros ->. Qed.

Lemma _transfer_keeps d s from to amount s' :
  HRM_inv s -> from <> d ->
  HRM._transfer s from to amount = Ok s' -> keeps d s s'.
Proof.
  intros Hinv Hne H.
  apply _transfer_Ok in H as (_ & _ & _ & _ & Hbal & Hal & _ & _ & _ & Hinv');
    [|exact Hinv].
  repeat split; try apply Hinv'.
  - specialize (Hbal d). rewrite decide_False in Hbal by congruence.
    case_decide; lia.
  - intros sp. rewrite (allowance_same _ _ _ _ Hal). lia.
Qed.

Lemma transferFrom_Ok s sender from to amount s' :
  HRM_inv s -> amount <= MAX_UINT256 ->
  HRM.transferFrom s sender from to amount = Ok s' ->
  from <> address0 /\ to <> address0 /\ HRM.paused s = false
  /\ amount <= HRM.balanceOf s from
  /\ amount <= HRM.allowance s from sender
  /\ (forall a, HRM.balanceOf s' a + (if decide (a = from) then amount else 0)
                = HRM.balanceOf s a + (if decide (a = to) then amount else 0))
  /\ (forall o sp, HRM.allowance s' o sp <= HRM.allowance s o sp)
  /\ HRM.totalSupply s' = HRM.totalSupply s
  /\ HRM.paused s' = HRM.paused s /\ HRM.owner s' = HRM.owner s
  /\ HRM_inv s'.
Proof.
  intros Hinv Hr H. unfold HRM.transferFrom in H.
  apply bind_Ok in H as (s1 & Hsp & H).
  apply _spendAllowance_Ok in Hsp as (Hal & Hb & Hts & Hp & Ho & Hoth & Hle);
    [|exact Hr].
  apply _transfer_Ok in H
    as (Hf & Ht & Hp' & Hamt & Hbal & Hal' & Hts' & Hp'' & Ho' & Hinv');
    [|by eapply HRM_inv_same_ledger].
  rewrite (balanceOf_same_ledger s s1 from Hb) in Hamt.
  repeat split; try assumption; try congruence; try apply Hinv'.
  - intros a. rewrite (Hbal a). by rewrite (balanceOf_same_ledger s s1 a Hb).
  - intros o sp. rewrite (allowance_same _ _ _ _ Hal').
    destruct (decide ((o, sp) = (from, sender))) as [[= -> ->]|Hne].
    + exact Hle.
    + rewrite Hoth by exact Hne. lia.
Qed.

Lemma transferFrom_keeps d s sender from to amount s' :
  HRM_inv s -> amount <= MAX_UINT256 ->
  (from = d -> HRM.allowance s d sender = 0) ->
  HRM.transferFrom s sender from to amount = Ok s' -> keeps d s s'.
Proof.
  intros Hinv Hr Hzero H.
  apply transferFrom_Ok in H
    as (_ & _ & _ & _ & Hal & Hbal & Hall & _ & _ & _ & Hinv'); try assumption.
  repeat split; try apply Hinv'; [|intros sp; apply Hall].
  specialize (Hbal d). destruct (decide (d = from)) as [->|Hne].
  - rewrite Hzero in Hal by reflexivity. case_decide; lia.
  - case_decide; lia.
Qed.

Lemma mint_keeps d s sender to amount s' :
  HRM_inv s -> HRM.mint s sender to amount = Ok s' -> keeps d s s'.
Proof.
  intros Hinv H.
  apply mint_Ok in H as (_ & _ & Hbal & Hal & _ & _ & _ & Hinv'); [|exact Hinv].
  repeat split; try apply Hinv'.
  - rewrite Hbal. lia.
  - intros sp. rewrite (allowance_same _ _ _ _ Hal). lia.
Qed.

Lemma burn_keeps d s sender amount s' :
  HRM_inv s -> sender <> d -> HRM.burn s sender amount = Ok s' -> keeps d s s'.
Proof.
  intros Hinv Hne H. unfold HRM.burn in H.
  apply _burn_Ok in H as (_ & _ & _ & Hbal & Hal & _ & _ & _ & Hinv');
    [|exact Hinv].
  repeat split; try apply Hinv'.
  - specialize (Hbal d). rewrite decide_False in Hbal by congruence. lia.
  - intros sp. rewrite (allowance_same _ _ _ _ Hal). lia.
Qed.

Lemma burnFrom_keeps d s sender account amount s' :
  HRM_inv s -> amount <= MAX_UINT256 ->
  (account = d -> HRM.allowance s d sender = 0) ->
  HRM.burnFrom s sender account amount = Ok s' -> keeps d s s'.
Proof.
  intros Hinv Hr Hzero H. unfold HRM.burnFrom in H.
  apply bind_Ok in H as (s1 & Hsp & H).
  apply _spendAllowance_Ok in Hsp as (Hal & Hb & Hts & _ & _ & Hoth & Hle);
    [|exact Hr].
  apply _burn_Ok in H as (_ & _ & _ & Hbal & Hal' & _ & _ & _ & Hinv');
    [|by eapply HRM_inv_same_ledger].
  repeat split; try apply Hinv'.
  - specialize (Hbal d). rewrite (balanceOf_same_ledger s s1 d Hb) in Hbal.
    destruct (decide (d = account)) as [->|Hne].
    + rewrite Hzero in Hal by reflexivity. lia.
    + lia.
  - intros sp. rewrite (allowance_same _ _ _ _ Hal').
    destruct (decide ((d, sp) = (account, sender))) as [[= -> ->]|Hne].
    + exact Hle.
    + rewrite Hoth by exact Hne. lia.
Qed.

(** ** The property registry: well-formed states *)

Lemma index_ok_insert_new self m l a i :
  index_ok self m l -> m !! a = None ->
  PT.investor i = a -> a <> address0 -> a <> self ->
  index_ok self (<[a := i]> m) (l ++ [a]).
Proof.
  intros (Hnd & Hdom & Hrec) Hnew Hi Ha Hs. repeat split.
  - apply NoDup_app. repeat split; [exact Hnd | | apply NoDup_singleton].
    intros x Hx Hx'. apply list_elem_of_singleton in Hx'. subst x.
    apply Hdom in Hx as [? ?]. congruence.
  - rewrite elem_of_app, list_elem_of_singleton, lookup_insert_is_Some, Hdom.
    intros [?| ->]; [right|left]; try done. split; [|done].
    intros ->. destruct H as [? ?]. congruence.
  - rewrite elem_of_app, list_elem_of_singleton, lookup_insert_is_Some, Hdom.
    intros [?|[_ ?]]; auto.
  - apply lookup_insert_Some in H as [[<- <-]|[_ H]]; [done|].
    by apply (Hrec a0 i0).
  - apply lookup_insert_Some in H as [[<- <-]|[_ H]]; [done|].
    by apply (Hrec a0 i0).
  - apply lookup_insert_Some in H as [[<- <-]|[_ H]]; [done|].
    by apply (Hrec a0 i0).
Qed.

Lemma index_ok_insert_old self m l a i :
  index_ok self m l -> is_Some (m !! a) -> PT.investor i = a ->
  index_ok self (<[a := i]> m) l.
Proof.
  intros (Hnd & Hdom & Hrec) [i0 Hold] Hi.
  destruct (Hrec a i0 Hold) as (_ & Ha & Hs). repeat split.
  - exact Hnd.
  - rewrite lookup_insert_is_Some, Hdom. intros ?.
    destruct (decide (a = a0)); [left|right]; done.
  - rewrite lookup_insert_is_Some, Hdom. intros [<-|[_ ?]]; eauto.
  - apply lookup_insert_Some in H as [[<- <-]|[_ H]]; [done|].
    by apply (Hrec a0 i1).
  - apply lookup_insert_Some in H as [[<- <-]|[_ H]]; [done|].
    by apply (Hrec a0 i1).
  - apply lookup_insert_Some in H as [[<- <-]|[_ H]]; [done|].
    by apply (Hrec a0 i1).
Qed.

Lemma holdings_set_investment s pid a i pid' :
  PT.holdings (PT.set_investment pid a i s) pid'
  = if decide (pid = pid') then <[a := i]> (PT.holdings s pid)
    else PT.holdings s pid'.
Proof.
  unfold PT.holdings at 1, PT.set_investment; simpl. case_decide; subst.
  - apply rd_insert_eq.
  - by apply rd_insert_ne.
Qed.

Lemma getInvestment_set_investment s pid a i pid' a' :
  PT.getInvestment (PT.set_investment pid a i s) pid' a'
  = if decide (pid = pid' /\ a = a') then i else PT.getInvestment s pid' a'.
Proof.
  unfold PT.getInvestment. rewrite holdings_set_investment.
  destruct (decide (pid = pid')) as [->|Hp].
  - destruct (decide (a = a')) as [->|Ha].
    + rewrite decide_True by done. apply rd_insert_eq.
    + rewrite decide_False by tauto. by apply rd_insert_ne.
  - rewrite decide_False by tauto. reflexivity.
Qed.

Lemma investors_push s pid a pid' :
  PT.getPropertyInvestors (PT.push_propertyInvestor pid a s) pid'
  = if decide (pid = pid') then PT.getPropertyInvestors s pid ++ [a]
    else PT.getPropertyInvestors s pid'.
Proof.
  unfold PT.getPropertyInvestors at 1, PT.push_propertyInvestor; simpl.
  case_decide; subst.
  - apply rd_insert_eq.
  - by apply rd_insert_ne.
Qed.

Lemma getProperty_set_property s pid p pid' :
  PT.getProperty (PT.set_property pid p s) pid'
  = if decide (pid = pid') then p else PT.getProperty s pid'.
Proof.
  unfold PT.getProperty, PT.set_property; simpl. case_decide; subst.
  - apply rd_insert_eq.
  - by apply rd_insert_ne.
Qed.

Lemma getProperty_Some s pid :
  is_Some (PT.properties s !! pid) ->
  PT.properties s !! pid = Some (PT.getProperty s pid).
Proof. intros [p Hp]. unfold PT.getProperty. by rewrite (rd_Some _ _ _ _ Hp). Qed.

Lemma getInvestment_absent s pid a :
  PT.holdings s pid !! a = None -> PT.getInvestment s pid a = PT.Investment0.
Proof. intros Hn. unfold PT.getInvestment. by apply rd_None. Qed.

Lemma getInvestment_present s pid a i :
  PT.holdings s pid !! a = Some i -> PT.getInvestment s pid a = i.
Proof. intros Hn. unfold PT.getInvestment. by apply rd_Some. Qed.

(** The test [investments[id][a].investor == address(0)] of the source
    decides whether [a] already has a holding. *)
Lemma investor_test self s pid a :
  index_ok self (PT.holdings s pid) (PT.getPropertyInvestors s pid) ->
  a <> address0 ->
  (PT.investor (PT.getInvestment s pid a) =? address0) = true
  <-> PT.holdings s pid !! a = None.
Proof.
  intros (_ & _ & Hrec) Ha. rewrite N.eqb_eq.
  destruct (PT.holdings s pid !! a) as [i|] eqn:Hl.
  - rewrite (getInvestment_present _ _ _ _ Hl).
    destruct (Hrec a i Hl) as (Hi & _ & _).
    split; [intros; congruence | discriminate].
  - rewrite (getInvestment_absent _ _ _ Hl). split; reflexivity.
Qed.

Lemma pt_frame_refl s : pt_frame s s.
Proof. repeat split. Qed.

Lemma pt_frame_trans s1 s2 s3 : pt_frame s1 s2 -> pt_frame s2 s3 -> pt_frame s1 s3.
Proof. unfold pt_frame. intros H1 H2. intuition congruence. Qed.

Lemma credit_investment_Ok self s now pid who tokens net s' :
  index_ok self (PT.holdings s pid) (PT.getPropertyInvestors s pid) ->
  who <> address0 ->
  PT.credit_investment s now pid who tokens net = Ok s' ->
  let old := PT.getInvestment s pid who in
  PT.tokensOwned old + tokens <= MAX_UINT256
  /\ PT.investmentAmount old + net <= MAX_UINT256
  /\ PT.holdings s' pid
     = <[who := PT.mkInvestment who (PT.tokensOwned old + tokens)
                  (PT.investmentAmount old + net) now]> (PT.holdings s pid)
  /\ PT.getPropertyInvestors s' pid
     = (if decide (is_Some (PT.holdings s pid !! who))
        then PT.getPropertyInvestors s pid
        else PT.getPropertyInvestors s pid ++ [who])
  /\ (forall pid', pid' <> pid ->
        PT.holdings s' pid' = PT.holdings s pid'
        /\ PT.getPropertyInvestors s' pid' = PT.getPropertyInvestors s pid')
  /\ pt_frame s s'.
Proof.
  intros Hinv Hwho H old. unfold PT.credit_investment in H.
  pose proof (investor_test self s pid who Hinv Hwho) as Htest.
  destruct (PT.investor (PT.getInvestment s pid who) =? address0) eqn:Ht.
  - (* first holding of [who] in this property *)
    assert (PT.holdings s pid !! who = None) as Hnone by (by apply Htest).
    set (s1 := PT.push_investorProperty who pid
                 (PT.push_propertyInvestor pid who s)) in H.
    assert (PT.getInvestment s1 pid who = old) as Hold by reflexivity.
    rewrite Hold in H.
    apply bind_Ok in H as (owned & Ho & H). apply U256_add_Ok in Ho as [-> Ho].
    apply bind_Ok in H as (paid & Hp & H). apply U256_add_Ok in Hp as [-> Hp].
    injection H as <-. repeat split; try assumption.
    + rewrite holdings_set_investment, decide_True by reflexivity. reflexivity.
    + rewrite decide_False by (rewrite Hnone; by intros [? ?]).
      change (PT.getPropertyInvestors
                (PT.set_investment pid who
                   (PT.mkInvestment who (PT.tokensOwned old + tokens)
                      (PT.investmentAmount old + net) now) s1) pid)
        with (PT.getPropertyInvestors (PT.push_propertyInvestor pid who s) pid).
      rewrite investors_push, decide_True by reflexivity. reflexivity.
    + rewrite holdings_set_investment, decide_False by congruence. reflexivity.
    + change (PT.getPropertyInvestors
                (PT.set_investment pid who
                   (PT.mkInvestment who (PT.tokensOwned old + tokens)
                      (PT.investmentAmount old + net) now) s1) pid')
        with (PT.getPropertyInvestors (PT.push_propertyInvestor pid who s) pid').
      rewrite investors_push, decide_False by congruence. reflexivity.
  - (* [who] already holds a record *)
    assert (is_Some (PT.holdings s pid !! who)) as Hsome.
    { apply not_eq_None_Some. intros Hn. apply Htest in Hn. congruence. }
    fold old in H.
    apply bind_Ok in H as (owned & Ho & H). apply U256_add_Ok in Ho as [-> Ho].
    apply bind_Ok in H as (paid & Hp & H). apply U256_add_Ok in Hp as [-> Hp].
    injection H as <-. repeat split; try assumption.
    + rewrite holdings_set_investment, decide_True by reflexivity. reflexivity.
    + rewrite decide_True by exact Hsome. reflexivity.
    + rewrite holdings_set_investment, decide_False by congruence. reflexivity.
Qed.

(** Re-establishing the registry invariant after the records of one
    property [pid] were rewritten. *)
Lemma PT_inv_step s s' pid :
  PT_inv s ->
  PT.platformFeePercent s' <= 1000 ->
  PT.self s' = PT.self s ->
  PT.tokenIdCounter s' = PT.tokenIdCounter s ->
  PT.nft s' = PT.nft s ->
  (forall pid', pid' <> pid ->
     PT.properties s' !! pid' = PT.properties s !! pid'
     /\ PT.holdings s' pid' = PT.holdings s pid'
     /\ PT.getPropertyInvestors s' pid' = PT.getPropertyInvestors s pid') ->
  (exists p p',
     PT.properties s !! pid = Some p /\ PT.properties s' !! pid = Some p'
     /\ PT.totalTokens p' = PT.totalTokens p
     /\ PT.totalValue p' = PT.totalValue p
     /\ PT.tokenPrice p' = PT.tokenPrice p
     /\ PT.propertyOwner p' = PT.propertyOwner p
     /\ sumN PT.tokensOwned (PT.holdings s' pid) + PT.availableTokens p'
        = PT.totalTokens p'
     /\ (forall a, is_Some (PT.holdings s' pid !! a) ->
           PT.availableTokens p' < PT.totalTokens p')) ->
  index_ok (PT.self s) (PT.holdings s' pid) (PT.getPropertyInvestors s' pid) ->
  PT_inv s'.
Proof.
  intros Hinv Hfee Hself Hctr Hnft Hother
    (p & p' & Hp & Hp' & Htot & Hval & Hprice & Hown & Hsum & Hsold) Hidx.
  constructor.
  - exact Hfee.
  - rewrite Hself. apply Hinv.
  - intros pid' Hlt. rewrite Hctr in Hlt.
    destruct (decide (pid' = pid)) as [->|Hne]; [by rewrite Hp'|].
    destruct (Hother pid' Hne) as (-> & _ & _). by apply Hinv.
  - intros pid'. rewrite Hnft, <- (pt_minted s Hinv).
    destruct (decide (pid' = pid)) as [->|Hne]; [by rewrite Hp, Hp'|].
    destruct (Hother pid' Hne) as (-> & _ & _). reflexivity.
  - intros pid' q Hq. rewrite Hself.
    destruct (decide (pid' = pid)) as [->|Hne].
    + rewrite Hp' in Hq. injection Hq as <-.
      rewrite Htot, Hval, Hprice, Hown. by apply (pt_property s Hinv pid).
    + destruct (Hother pid' Hne) as (E & _ & _). rewrite E in Hq.
      by apply (pt_property s Hinv pid').
  - intros pid' q Hq.
    destruct (decide (pid' = pid)) as [->|Hne].
    + rewrite Hp' in Hq. injection Hq as <-. exact Hsum.
    + destruct (Hother pid' Hne) as (E & -> & _). rewrite E in Hq.
      by apply (pt_conservation s Hinv pid').
  - intros pid' Hq.
    destruct (decide (pid' = pid)) as [->|Hne]; [congruence|].
    destruct (Hother pid' Hne) as (E & -> & _). rewrite E in Hq.
    by apply (pt_unlisted s Hinv pid').
  - intros pid' q a Hq Ha.
    destruct (decide (pid' = pid)) as [->|Hne].
    + rewrite Hp' in Hq. injection Hq as <-. by apply (Hsold a).
    + destruct (Hother pid' Hne) as (E & Eh & _). rewrite E in Hq.
      rewrite Eh in Ha. by apply (pt_sold s Hinv pid' q a).
  - intros pid'. rewrite Hself.
    destruct (decide (pid' = pid)) as [->|Hne]; [exact Hidx|].
    destruct (Hother pid' Hne) as (_ & -> & ->). apply Hinv.
Qed.

(** ** Payments: [transferFrom] into the registry, then two forwards *)

Lemma payment_Ok tok self payer r1 r2 cost fee net tok1 tok2 tok3 :
  HRM_inv tok -> cost <= MAX_UINT256 -> fee + net = cost ->
  HRM.transferFrom tok self payer self cost = Ok tok1 ->
  HRM.transfer tok1 self r1 fee = Ok tok2 ->
  HRM.transfer tok2 self r2 net = Ok tok3 ->
  HRM.paused tok = false
  /\ payer <> address0 /\ self <> address0 /\ r1 <> address0 /\ r2 <> address0
  /\ cost <= HRM.balanceOf tok payer
  /\ cost <= HRM.allowance tok payer self
  /\ (forall a,
        HRM.balanceOf tok3 a + (if decide (a = payer) then cost else 0)
        = HRM.balanceOf tok a + (if decide (a = r1) then fee else 0)
          + (if decide (a = r2) then net else 0))
  /\ (forall o sp, HRM.allowance tok3 o sp <= HRM.allowance tok o sp)
  /\ HRM.totalSupply tok3 = HRM.totalSupply tok
  /\ HRM.paused tok3 = HRM.paused tok /\ HRM.owner tok3 = HRM.owner tok
  /\ HRM_inv tok3.
Proof.
  intros Hinv Hr Hsplit H1 H2 H3.
  apply transferFrom_Ok in H1
    as (Hp0 & Hs0 & Hpa & Hb & Hal & Hbal1 & Hall1 & Hts1 & Hpa1 & Ho1 & Hinv1);
    try assumption.
  unfold HRM.transfer in H2, H3.
  apply _transfer_Ok in H2
    as (_ & Hr1 & _ & _ & Hbal2 & Hal2 & Hts2 & Hpa2 & Ho2 & Hinv2);
    [|exact Hinv1].
  apply _transfer_Ok in H3
    as (_ & Hr2 & _ & _ & Hbal3 & Hal3 & Hts3 & Hpa3 & Ho3 & Hinv3);
    [|exact Hinv2].
  repeat split; try assumption; try congruence; try apply Hinv3.
  - intros a. specialize (Hbal1 a). specialize (Hbal2 a). specialize (Hbal3 a).
    repeat case_decide; subst; try congruence; lia.
  - intros o sp. rewrite (allowance_same _ _ _ _ Hal3),
      (allowance_same _ _ _ _ Hal2). apply Hall1.
Qed.

Lemma payment_keeps d tok self payer r1 r2 cost fee net tok1 tok2 tok3 :
  HRM_inv tok -> cost <= MAX_UINT256 -> fee + net = cost ->
  payer <> d -> self <> d ->
  HRM.transferFrom tok self payer self cost = Ok tok1 ->
  HRM.transfer tok1 self r1 fee = Ok tok2 ->
  HRM.transfer tok2 self r2 net = Ok tok3 ->
  keeps d tok tok3.
Proof.
  intros Hinv Hr Hsplit Hp Hs H1 H2 H3.
  destruct (payment_Ok _ _ _ _ _ _ _ _ _ _ _ Hinv Hr Hsplit H1 H2 H3)
    as (_ & _ & _ & _ & _ & _ & _ & Hbal & Hall & _ & _ & _ & Hinv3).
  repeat split; try apply Hinv3; [|intros sp; apply Hall].
  specialize (Hbal d). rewrite decide_False in Hbal by congruence.
  repeat case_decide; lia.
Qed.

Lemma fee_le cost bps : bps <= 10000 -> cost * bps / 10000 <= cost.
Proof.
  intros Hb. apply N.Div0.div_le_upper_bound. nia.
Qed.

(** ** [purchaseTokens] *)

Lemma purchaseTokens_Ok tok s sender now pid tokens tok' s' :
  PT_inv s -> sender <> address0 ->
  PT.purchaseTokens tok s sender now pid tokens = Ok (tok', s') ->
  let p := PT.getProperty s pid in
  let cost := tokens * PT.tokenPrice p in
  let fee := cost * PT.platformFeePercent s / 10000 in
  let net := cost - fee in
  PT.properties s !! pid = Some p /\ PT.isActive p = true
  /\ 0 < tokens /\ tokens <= PT.availableTokens p
  /\ cost <= MAX_UINT256
  /\ PT.MIN_INVESTMENT <= cost /\ cost <= HRM.balanceOf tok sender
  /\ fee + net = cost
  /\ (exists tok1 tok2,
        HRM.transferFrom tok (PT.self s) sender (PT.self s) cost = Ok tok1
        /\ HRM.transfer tok1 (PT.self s) (PT.feeRecipient s) fee = Ok tok2
        /\ HRM.transfer tok2 (PT.self s) (PT.propertyOwner p) net = Ok tok')
  /\ (exists s1,
        PT.credit_investment s now pid sender tokens net = Ok s1
        /\ s' = PT.set_property pid
                  (PT.set_availableTokens (PT.availableTokens p - tokens) p) s1).
Proof.
  intros Hinv Hsender H p cost fee net. unfold PT.purchaseTokens in H.
  apply bind_Ok in H as ([] & Hex & H).
  apply require_Ok, N.ltb_lt in Hex.
  apply bind_Ok in H as ([] & Hact & H). apply require_Ok in Hact.
  apply bind_Ok in H as ([] & Hpos & H). apply require_Ok, N.ltb_lt in Hpos.
  apply bind_Ok in H as ([] & Hav & H). apply require_Ok, N.leb_le in Hav.
  apply bind_Ok in H as (cost' & Hc & H). apply U256_mul_Ok in Hc as [-> Hc].
  apply bind_Ok in H as ([] & Hmin & H). apply require_Ok, N.leb_le in Hmin.
  apply bind_Ok in H as ([] & Hbal & H). apply require_Ok, N.leb_le in Hbal.
  apply bind_Ok in H as (sc & Hsc & H). apply U256_mul_Ok in Hsc as [-> Hsc].
  apply bind_Ok in H as (fee' & Hf & H). apply U256_div_Ok in Hf as [-> _].
  apply bind_Ok in H as (net' & Hn & H). apply U256_sub_Ok in Hn as [-> Hn].
  apply bind_Ok in H as (tok1 & H1 & H).
  apply bind_Ok in H as (tok2 & H2 & H).
  apply bind_Ok in H as (tok3 & H3 & H).
  apply bind_Ok in H as (s1 & Hcr & H).
  apply bind_Ok in H as (avail & Hsub & H). apply U256_sub_Ok in Hsub as [-> Hsub].
  injection H as <- <-.
  fold p in Hact, Hav, Hc, Hmin, Hbal, Hsc, Hn, H1, H2, H3, Hcr |- *.
  fold cost in Hc, Hmin, Hbal, Hsc, Hn, H1, H2, H3, Hcr |- *.
  fold fee in Hn, H2, H3, Hcr |- *. fold net in H3, Hcr |- *.
  pose proof (getProperty_Some s pid (pt_listed s Hinv pid Hex)) as Hp.
  fold p in Hp.
  destruct (credit_investment_Ok _ _ _ _ _ _ _ _
              (pt_index s Hinv pid) Hsender Hcr)
    as (_ & _ & _ & _ & _ & Hfr).
  assert (PT.getProperty s1 pid = p) as Hp1.
  { unfold PT.getProperty. destruct Hfr as (_ & -> & _). reflexivity. }
  rewrite Hp1 in *.
  repeat split; try assumption.
  - unfold net. lia.
  - exists tok1, tok2. auto.
  - exists s1. auto.
Qed.

Lemma credit_investment_index self s now pid who tokens net s' :
  index_ok self (PT.holdings s pid) (PT.getPropertyInvestors s pid) ->
  who <> address0 -> who <> self ->
  PT.credit_investment s now pid who tokens net = Ok s' ->
  index_ok self (PT.holdings s' pid) (PT.getPropertyInvestors s' pid)
  /\ sumN PT.tokensOwned (PT.holdings s' pid)
     = sumN PT.tokensOwned (PT.holdings s pid) + tokens
  /\ PT.tokensOwned (PT.getInvestment s' pid who)
     = PT.tokensOwned (PT.getInvestment s pid who) + tokens
  /\ (forall a, a <> who ->
        PT.getInvestment s' pid a = PT.getInvestment s pid a).
Proof.
  intros Hidx Hwho Hself H.
  destruct (credit_investment_Ok _ _ _ _ _ _ _ _ Hidx Hwho H)
    as (_ & _ & Hh & Hl & _ & _).
  rewrite Hh, Hl. split; [|split; [|split]].
  - case_decide as Hd.
    + by apply index_ok_insert_old.
    + apply index_ok_insert_new; try done. by apply eq_None_not_Some.
  - pose proof (sumN_insert_rd PT.tokensOwned (PT.holdings s pid) who
                  PT.Investment0
                  (PT.mkInvestment who
                     (PT.tokensOwned (PT.getInvestment s pid who) + tokens)
                     (PT.investmentAmount (PT.getInvestment s pid who) + net)
                     now) eq_refl) as E.
    simpl in E. unfold PT.getInvestment in *. lia.
  - unfold PT.getInvestment at 1. rewrite Hh, rd_insert_eq. reflexivity.
  - intros a Ha. unfold PT.getInvestment at 1. rewrite Hh.
    by rewrite rd_insert_ne.
Qed.

Lemma holdings_set_property s pid p pid' :
  PT.holdings (PT.set_property pid p s) pid' = PT.holdings s pid'.
Proof. reflexivity. Qed.

Lemma purchaseTokens_inv tok s sender now pid tokens tok' s' :
  PT_inv s -> sender <> address0 -> sender <> PT.self s ->
  PT.purchaseTokens tok s sender now pid tokens = Ok (tok', s') ->
  PT_inv s'.
Proof.
  intros Hinv Hsender Hself H.
  destruct (purchaseTokens_Ok _ _ _ _ _ _ _ _ Hinv Hsender H)
    as (Hp & _ & Hpos & Hav & _ & _ & _ & _ & _ & (s1 & Hcr & ->)).
  destruct (credit_investment_Ok _ _ _ _ _ _ _ _
              (pt_index s Hinv pid) Hsender Hcr)
    as (_ & _ & _ & _ & Hoth & Hfr).
  destruct (credit_investment_index _ _ _ _ _ _ _ _
              (pt_index s Hinv pid) Hsender Hself Hcr) as (Hidx & Hsum & _).
  destruct Hfr as (Hctr & Hprops & Hfee & _ & _ & _ & _ & _ & Hnft & _ & Hsf).
  apply (PT_inv_step s _ pid Hinv); simpl.
  - rewrite Hfee. apply Hinv.
  - exact Hsf.
  - exact Hctr.
  - exact Hnft.
  - intros pid' Hne. rewrite lookup_insert_ne, Hprops by congruence.
    split; [reflexivity|]. rewrite holdings_set_property. by apply Hoth.
  - eexists _, _. split; [exact Hp|]. rewrite lookup_insert_eq.
    split; [reflexivity|]. simpl.
    pose proof (pt_conservation s Hinv pid _ Hp).
    destruct (pt_property s Hinv pid _ Hp) as (Htot & _).
    repeat split.
    + rewrite holdings_set_property, Hsum. lia.
    + intros _ _. lia.
  - exact Hidx.
Qed.

(** ** [buyFromOrder] *)

Lemma buyFromOrder_Ok tok s sender now oid n tok' s' :
  PT.buyFromOrder tok s sender now oid n = Ok (tok', s') ->
  let o := PT.getSellOrder s oid in
  let pid := PT.so_propertyId o in
  let inv := PT.getInvestment s pid (PT.seller o) in
  let cost := n * PT.pricePerToken o in
  let fee := cost * PT.platformFeePercent s / 10000 in
  let net := cost - fee in
  PT.so_isActive o = true /\ now <= PT.expiresAt o
  /\ 0 < n /\ n <= PT.tokensForSale o
  /\ sender <> PT.seller o
  /\ n <= PT.tokensOwned inv
  /\ cost <= MAX_UINT256 /\ cost <= HRM.balanceOf tok sender
  /\ fee + net = cost
  /\ (exists tok1 tok2,
        HRM.transferFrom tok (PT.self s) sender (PT.self s) cost = Ok tok1
        /\ HRM.transfer tok1 (PT.self s) (PT.feeRecipient s) fee = Ok tok2
        /\ HRM.transfer tok2 (PT.self s) (PT.seller o) net = Ok tok')
  /\ (exists s1,
        PT.credit_investment
          (PT.set_investment pid (PT.seller o)
             (PT.set_tokensOwned (PT.tokensOwned inv - n) inv) s)
          now pid sender n net = Ok s1
        /\ s' = PT.set_sellOrder oid
                  (let o2 := PT.set_tokensForSale (PT.tokensForSale o - n)
                               (PT.getSellOrder s1 oid) in
                   if PT.tokensForSale o2 =? 0
                   then PT.set_so_isActive false o2 else o2) s1
        /\ PT.getSellOrder s1 oid = o).
Proof.
  intros H o pid inv cost fee net. unfold PT.buyFromOrder in H.
  fold o in H. fold pid in H. fold inv in H.
  apply bind_Ok in H as ([] & Hact & H). apply require_Ok in Hact.
  apply bind_Ok in H as ([] & Hexp & H). apply require_Ok, N.leb_le in Hexp.
  apply bind_Ok in H as ([] & Hn & H).
  apply require_Ok, andb_true_iff in Hn as [Hpos Hn].
  apply N.ltb_lt in Hpos. apply N.leb_le in Hn.
  apply bind_Ok in H as ([] & Hne & H).
  apply require_Ok, negb_true_iff, N.eqb_neq in Hne.
  apply bind_Ok in H as ([] & Hown & H). apply require_Ok, N.leb_le in Hown.
  apply bind_Ok in H as (cost' & Hc & H). apply U256_mul_Ok in Hc as [-> Hc].
  apply bind_Ok in H as ([] & Hbal & H). apply require_Ok, N.leb_le in Hbal.
  apply bind_Ok in H as (tok1' & Hpay & H).
  apply bind_Ok in H as (s1 & Hupd & H).
  apply bind_Ok in H as (left & Hsub & H). apply U256_sub_Ok in Hsub as [-> Hsub].
  injection H as <- <-.
  fold cost in Hc, Hbal, Hpay, Hupd.
  unfold PT._processBuyOrderPayment in Hpay.
  apply bind_Ok in Hpay as (sc & Hsc & Hpay). apply U256_mul_Ok in Hsc as [-> Hsc].
  apply bind_Ok in Hpay as (fee' & Hf & Hpay). apply U256_div_Ok in Hf as [-> _].
  apply bind_Ok in Hpay as (net' & Hnet & Hpay).
  apply U256_sub_Ok in Hnet as [-> Hnet].
  apply bind_Ok in Hpay as (tok1 & H1 & Hpay).
  apply bind_Ok in Hpay as (tok2 & H2 & H3).
  fold fee in Hnet, H2, H3. fold net in H3.
  unfold PT._updateBuyOrderInvestments in Hupd.
  apply bind_Ok in Hupd as (sc' & Hsc' & Hupd). apply U256_mul_Ok in Hsc' as [-> _].
  apply bind_Ok in Hupd as (fee'' & Hf' & Hupd). apply U256_div_Ok in Hf' as [-> _].
  apply bind_Ok in Hupd as (net'' & Hnet' & Hupd).
  apply U256_sub_Ok in Hnet' as [-> _].
  apply bind_Ok in Hupd as (left' & Hleft & Hupd).
  apply U256_sub_Ok in Hleft as [-> _].
  fold inv in Hupd. fold fee in Hupd. fold net in Hupd.
  assert (PT.getSellOrder s1 oid = o) as Ho1.
  { unfold PT.credit_investment in Hupd.
    apply bind_Ok in Hupd as (? & _ & Hupd).
    apply bind_Ok in Hupd as (? & _ & Hupd). injection Hupd as <-.
    unfold PT.getSellOrder; simpl. by case_match. }
  repeat split; try assumption.
  - unfold net. lia.
  - exists tok1, tok2. auto.
  - exists s1. rewrite Ho1. auto.
Qed.

Lemma set_investment_frame s pid a i : pt_frame s (PT.set_investment pid a i s).
Proof. repeat split. Qed.

Lemma seller_record s pid a n :
  0 < n -> n <= PT.tokensOwned (PT.getInvestment s pid a) ->
  PT.holdings s pid !! a = Some (PT.getInvestment s pid a).
Proof.
  intros Hpos Hn. unfold PT.getInvestment in *. unfold rd in *.
  destruct (PT.holdings s pid !! a); [reflexivity|]. simpl in Hn. lia.
Qed.

Lemma buyFromOrder_inv tok s sender now oid n tok' s' :
  PT_inv s -> sender <> address0 -> sender <> PT.self s ->
  PT.buyFromOrder tok s sender now oid n = Ok (tok', s') ->
  PT_inv s'.
Proof.
  intros Hinv Hsender Hself H.
  destruct (buyFromOrder_Ok _ _ _ _ _ _ _ _ H)
    as (_ & _ & Hpos & _ & Hne & Hown & _ & _ & _ & _ & (s1 & Hcr & -> & _)).
  set (o := PT.getSellOrder s oid) in *. set (pid := PT.so_propertyId o) in *.
  set (sl := PT.seller o) in *. set (inv := PT.getInvestment s pid sl) in *.
  set (sm := PT.set_investment pid sl
               (PT.set_tokensOwned (PT.tokensOwned inv - n) inv) s) in *.
  pose proof (seller_record s pid sl n Hpos Hown) as Hrec. fold inv in Hrec.
  assert (is_Some (PT.properties s !! pid)) as [p Hp].
  { apply not_eq_None_Some. intros Hn. apply (pt_unlisted s Hinv) in Hn.
    rewrite Hn, lookup_empty in Hrec. discriminate. }
  destruct (pt_index s Hinv pid) as (Hnd & Hdom & Hhold).
  destruct (Hhold sl inv Hrec) as (Hi & _ & _).
  assert (Hidx_m : index_ok (PT.self s) (PT.holdings sm pid)
                     (PT.getPropertyInvestors sm pid)).
  { unfold sm. rewrite holdings_set_investment, decide_True by reflexivity.
    apply index_ok_insert_old; [apply Hinv | by rewrite Hrec | exact Hi]. }
  assert (Hsum_m : sumN PT.tokensOwned (PT.holdings sm pid) + n
                   = sumN PT.tokensOwned (PT.holdings s pid)).
  { unfold sm. rewrite holdings_set_investment, decide_True by reflexivity.
    pose proof (sumN_insert_Some PT.tokensOwned (PT.holdings s pid) sl inv
                  (PT.set_tokensOwned (PT.tokensOwned inv - n) inv) Hrec) as E.
    simpl in E. lia. }
  destruct (credit_investment_Ok _ _ _ _ _ _ _ _ Hidx_m Hsender Hcr)
    as (_ & _ & _ & _ & Hoth & Hfr).
  destruct (credit_investment_index _ _ _ _ _ _ _ _ Hidx_m Hsender Hself Hcr)
    as (Hidx & Hsum & _).
  pose proof (pt_frame_trans _ _ _ (set_investment_frame s pid sl _) Hfr)
    as (Hctr & Hprops & Hfee & _ & _ & _ & _ & _ & Hnft & _ & Hsf).
  apply (PT_inv_step s _ pid Hinv); simpl.
  - rewrite Hfee. apply Hinv.
  - exact Hsf.
  - exact Hctr.
  - exact Hnft.
  - intros pid' Hne'. rewrite Hprops. split; [reflexivity|].
    destruct (Hoth pid' Hne') as [E1 E2].
    change (PT.holdings (PT.set_sellOrder oid _ s1) pid') with (PT.holdings s1 pid').
    change (PT.getPropertyInvestors (PT.set_sellOrder oid _ s1) pid')
      with (PT.getPropertyInvestors s1 pid').
    rewrite E1, E2. unfold sm.
    rewrite holdings_set_investment, decide_False by congruence. done.
  - exists p, p. rewrite Hprops. repeat split; try assumption.
    + change (PT.holdings (PT.set_sellOrder oid _ s1) pid)
        with (PT.holdings s1 pid).
      rewrite Hsum. pose proof (pt_conservation s Hinv pid p Hp). lia.
    + intros _ _. apply (pt_sold s Hinv pid p sl Hp). by rewrite Hrec.
  - exact Hidx.
Qed.

(** ** The remaining registry operations keep the invariant *)

Lemma listProperty_Ok s sender now uri v n ty r s' pid :
  PT.listProperty s sender now uri v n ty r = Ok (s', pid) ->
  0 < v /\ 0 < n /\ pid = PT.tokenIdCounter s
  /\ sender <> address0
  /\ PT.nftOwners (PT.nft s) !! pid = None
  /\ PT.tokenIdCounter s' = U256.wrap (pid + 1)
  /\ PT.properties s'
     = <[pid := PT.mkProperty pid uri v n n (v / n) sender false false now ty r]>
         (PT.properties s)
  /\ PT.nftOwners (PT.nft s') = <[pid := sender]> (PT.nftOwners (PT.nft s))
  /\ PT.investments s' = PT.investments s
  /\ PT.propertyInvestors s' = PT.propertyInvestors s
  /\ PT.platformFeePercent s' = PT.platformFeePercent s
  /\ PT.self s' = PT.self s.
Proof.
  intros H. unfold PT.listProperty in H.
  apply bind_Ok in H as ([] & Hv & H). apply require_Ok, N.ltb_lt in Hv.
  apply bind_Ok in H as ([] & Hn & H). apply require_Ok, N.ltb_lt in Hn.
  apply bind_Ok in H as (price & Hd & H). apply U256_div_Ok in Hd as [-> _].
  apply bind_Ok in H as (e1 & Hm & H).
  apply bind_Ok in H as (e2 & Hu & H). injection H as <- <-.
  unfold PT._safeMint in Hm.
  apply bind_Ok in Hm as ([] & Hto & Hm).
  apply require_Ok, negb_true_iff, N.eqb_neq in Hto.
  apply bind_Ok in Hm as ([] & Hfresh & Hm).
  apply require_Ok, negb_true_iff, bool_decide_eq_false in Hfresh.
  apply eq_None_not_Some in Hfresh. injection Hm as <-.
  unfold PT._setTokenURI in Hu.
  apply bind_Ok in Hu as ([] & _ & Hu). injection Hu as <-.
  simpl in *. repeat split; assumption.
Qed.

Lemma listProperty_inv s sender now uri v n ty r s' pid :
  PT_inv s -> sender <> PT.self s -> v <= MAX_UINT256 ->
  PT.listProperty s sender now uri v n ty r = Ok (s', pid) ->
  PT_inv s'.
Proof.
  intros Hinv Hself Hv H.
  apply listProperty_Ok in H
    as (Hv0 & Hn0 & -> & Hs0 & Hfresh & Hctr & Hprops & Hnft & Hinvs & Hidx
        & Hfee & Hsf).
  set (pid := PT.tokenIdCounter s) in *.
  assert (PT.properties s !! pid = None) as Hnew.
  { apply eq_None_not_Some. rewrite (pt_minted s Hinv), Hfresh.
    by intros [? ?]. }
  assert (forall q, PT.holdings s' q = PT.holdings s q) as Hh.
  { intros q. unfold PT.holdings. by rewrite Hinvs. }
  assert (forall q, PT.getPropertyInvestors s' q = PT.getPropertyInvestors s q)
    as Hl.
  { intros q. unfold PT.getPropertyInvestors. by rewrite Hidx. }
  constructor.
  - rewrite Hfee. apply Hinv.
  - rewrite Hsf. apply Hinv.
  - intros q Hq. rewrite Hctr in Hq. rewrite Hprops.
    apply lookup_insert_is_Some. destruct (decide (pid = q)); [by left|right].
    split; [done|]. apply (pt_listed s Hinv).
    assert (U256.wrap (pid + 1) <= pid + 1).
    { unfold U256.wrap. apply N.Div0.mod_le. }
    fold pid. lia.
  - intros q. rewrite Hprops, Hnft, !lookup_insert_is_Some.
    rewrite (pt_minted s Hinv q). tauto.
  - intros q p Hq. rewrite Hsf. rewrite Hprops in Hq.
    apply lookup_insert_Some in Hq as [[<- <-]|[_ Hq]].
    + simpl. repeat split; try assumption.
      rewrite N.mul_comm. apply N.Div0.mul_div_le.
    + by apply (pt_property s Hinv q).
  - intros q p Hq. rewrite Hh. rewrite Hprops in Hq.
    apply lookup_insert_Some in Hq as [[<- <-]|[_ Hq]].
    + simpl. rewrite (pt_unlisted s Hinv pid Hnew), sumN_empty. lia.
    + by apply (pt_conservation s Hinv q).
  - intros q Hq. rewrite Hh. rewrite Hprops in Hq.
    apply lookup_insert_None in Hq as [Hq _]. by apply (pt_unlisted s Hinv).
  - intros q p a Hq Ha. rewrite Hh in Ha. rewrite Hprops in Hq.
    apply lookup_insert_Some in Hq as [[<- <-]|[_ Hq]].
    + rewrite (pt_unlisted s Hinv pid Hnew), lookup_empty in Ha.
      by destruct Ha.
    + by apply (pt_sold s Hinv q p a).
  - intros q. rewrite Hsf, Hh, Hl. apply Hinv.
Qed.

Lemma verifyProperty_Ok s sender pid s' :
  PT.verifyProperty s sender pid = Ok s' ->
  sender = PT.owner s /\ pid < PT.tokenIdCounter s
  /\ s' = PT.set_property pid
            (PT.set_isActive true (PT.set_isVerified true (PT.getProperty s pid)))
            (PT.set_property pid (PT.set_isVerified true (PT.getProperty s pid)) s).
Proof.
  intros H. unfold PT.verifyProperty in H.
  apply bind_Ok in H as ([] & Ho & H). apply require_Ok, N.eqb_eq in Ho.
  apply bind_Ok in H as ([] & Hex & H). apply require_Ok, N.ltb_lt in Hex.
  injection H as <-. rewrite getProperty_set_property, decide_True by reflexivity.
  auto.
Qed.

Lemma verifyProperty_inv s sender pid s' :
  PT_inv s -> PT.verifyProperty s sender pid = Ok s' -> PT_inv s'.
Proof.
  intros Hinv H. apply verifyProperty_Ok in H as (_ & Hex & ->).
  pose proof (getProperty_Some s pid (pt_listed s Hinv pid Hex)) as Hp.
  apply (PT_inv_step s _ pid Hinv); simpl; try reflexivity.
  - apply Hinv.
  - intros pid' Hne. rewrite !lookup_insert_ne by congruence. done.
  - eexists _, _. split; [exact Hp|]. rewrite lookup_insert_eq.
    split; [reflexivity|]. simpl. repeat split.
    + by apply (pt_conservation s Hinv pid).
    + intros a Ha. by apply (pt_sold s Hinv pid _ a Hp).
  - apply Hinv.
Qed.

(** An operation that leaves properties, investments, the investor index,
    the NFT ledger and the registry's own address alone. *)
Lemma PT_inv_frame s s' :
  PT_inv s ->
  PT.platformFeePercent s' <= 1000 ->
  PT.tokenIdCounter s' = PT.tokenIdCounter s ->
  PT.properties s' = PT.properties s ->
  PT.investments s' = PT.investments s ->
  PT.propertyInvestors s' = PT.propertyInvestors s ->
  PT.nft s' = PT.nft s -> PT.self s' = PT.self s ->
  PT_inv s'.
Proof.
  intros Hinv Hfee Hctr Hprops Hinvs Hidx Hnft Hsf.
  assert (forall q, PT.holdings s' q = PT.holdings s q) as Hh.
  { intros q. unfold PT.holdings. by rewrite Hinvs. }
  assert (forall q, PT.getPropertyInvestors s' q = PT.getPropertyInvestors s q)
    as Hl.
  { intros q. unfold PT.getPropertyInvestors. by rewrite Hidx. }
  constructor.
  - exact Hfee.
  - rewrite Hsf. apply Hinv.
  - intros q. rewrite Hctr, Hprops. apply Hinv.
  - intros q. rewrite Hprops, Hnft. apply Hinv.
  - intros q p. rewrite Hprops, Hsf. apply Hinv.
  - intros q p. rewrite Hprops, Hh. apply Hinv.
  - intros q. rewrite Hprops, Hh. apply Hinv.
  - intros q p a. rewrite Hprops, Hh. apply Hinv.
  - intros q. rewrite Hsf, Hh, Hl. apply Hinv.
Qed.

Lemma setPlatformFee_inv s sender n s' :
  PT_inv s -> PT.setPlatformFee s sender n = Ok s' -> PT_inv s'.
Proof.
  intros Hinv H. unfold PT.setPlatformFee in H.
  apply bind_Ok in H as ([] & _ & H).
  apply bind_Ok in H as ([] & Hn & H). apply require_Ok, N.leb_le in Hn.
  injection H as <-. by apply (PT_inv_frame s).
Qed.

Lemma setFeeRecipient_inv s sender a s' :
  PT_inv s -> PT.setFeeRecipient s sender a = Ok s' -> PT_inv s'.
Proof.
  intros Hinv H. unfold PT.setFeeRecipient in H.
  apply bind_Ok in H as ([] & _ & H). apply bind_Ok in H as ([] & _ & H).
  injection H as <-. apply (PT_inv_frame s); try done. apply Hinv.
Qed.

Lemma createSellOrder_frame s sender now pid n price d s' oid :
  PT.createSellOrder s sender now pid n price d = Ok (s', oid) ->
  PT.investments s' = PT.investments s
  /\ PT.properties s' = PT.properties s
  /\ PT.propertyInvestors s' = PT.propertyInvestors s
  /\ PT.tokenIdCounter s' = PT.tokenIdCounter s
  /\ PT.platformFeePercent s' = PT.platformFeePercent s
  /\ PT.nft s' = PT.nft s /\ PT.self s' = PT.self s
  /\ n <= PT.tokensOwned (PT.getInvestment s pid sender)
  /\ oid = PT.sellOrderCounter s
  /\ PT.seller (PT.getSellOrder s' oid) = sender
  /\ PT.so_propertyId (PT.getSellOrder s' oid) = pid
  /\ PT.tokensForSale (PT.getSellOrder s' oid) = n
  /\ PT.so_isActive (PT.getSellOrder s' oid) = true
  /\ (forall oid', oid' <> oid -> PT.getSellOrder s' oid' = PT.getSellOrder s oid').
Proof.
  intros H. unfold PT.createSellOrder in H.
  apply bind_Ok in H as ([] & _ & H). apply bind_Ok in H as ([] & _ & H).
  apply bind_Ok in H as ([] & _ & H). apply bind_Ok in H as ([] & _ & H).
  apply bind_Ok in H as ([] & Hown & H). apply require_Ok, N.leb_le in Hown.
  apply bind_Ok in H as (? & _ & H). apply bind_Ok in H as (? & _ & H).
  apply bind_Ok in H as (? & _ & H). apply bind_Ok in H as (? & _ & H).
  injection H as <- <-. unfold PT.getSellOrder; simpl.
  rewrite !rd_insert_eq; simpl. repeat split; try assumption.
  intros oid' Hne. by rewrite rd_insert_ne.
Qed.

Lemma createSellOrder_inv s sender now pid n price d s' oid :
  PT_inv s -> PT.createSellOrder s sender now pid n price d = Ok (s', oid) ->
  PT_inv s'.
Proof.
  intros Hinv H.
  apply createSellOrder_frame in H as (? & ? & ? & ? & Hfee & ? & ? & _).
  apply (PT_inv_frame s); try done. rewrite Hfee. apply Hinv.
Qed.

Lemma cancelSellOrder_frame s sender oid s' :
  PT.cancelSellOrder s sender oid = Ok s' ->
  s' = PT.set_sellOrder oid (PT.set_so_isActive false (PT.getSellOrder s oid)) s
  /\ (PT.seller (PT.getSellOrder s oid) = sender \/ sender = PT.owner s)
  /\ PT.so_isActive (PT.getSellOrder s oid) = true.
Proof.
  intros H. unfold PT.cancelSellOrder in H.
  apply bind_Ok in H as ([] & Hauth & H).
  apply require_Ok, orb_true_iff in Hauth. rewrite !N.eqb_eq in Hauth.
  apply bind_Ok in H as ([] & Hact & H). apply require_Ok in Hact.
  injection H as <-. auto.
Qed.

Lemma cancelSellOrder_inv s sender oid s' :
  PT_inv s -> PT.cancelSellOrder s sender oid = Ok s' -> PT_inv s'.
Proof.
  intros Hinv H. apply cancelSellOrder_frame in H as (-> & _).
  apply (PT_inv_frame s); try done. apply Hinv.
Qed.

(** ** Rental income *)

Lemma received_not_in s pid I D l a :
  a ∉ l -> received s pid I D l a = 0.
Proof.
  unfold received. induction l as [|x l IH]; [reflexivity|].
  intros Hn. apply not_elem_of_cons in Hn as [Hne Hn]. simpl.
  rewrite decide_False by congruence. rewrite IH by exact Hn. reflexivity.
Qed.

Lemma received_in s pid I D l a :
  NoDup l -> a ∈ l -> received s pid I D l a = payout s pid I D a.
Proof.
  unfold received. induction 1 as [|x l Hx Hnd IH]; intros Hin.
  - by apply elem_of_nil in Hin.
  - simpl. apply elem_of_cons in Hin as [->|Hin].
    + rewrite decide_True by reflexivity.
      pose proof (received_not_in s pid I D l x Hx) as E. unfold received in E.
      rewrite E. lia.
    + rewrite decide_False by (intros ->; contradiction).
      rewrite IH by exact Hin. reflexivity.
Qed.

Lemma distribute_loop_Ok tok s pid I D l tok' :
  HRM_inv tok ->
  PT.distribute_loop tok s pid I D l = Ok tok' ->
  (forall a,
      HRM.balanceOf tok' a
      + (if decide (a = PT.self s) then total_paid s pid I D l else 0)
      = HRM.balanceOf tok a + received s pid I D l a)
  /\ HRM.allowances tok' = HRM.allowances tok
  /\ HRM.totalSupply tok' = HRM.totalSupply tok
  /\ HRM.paused tok' = HRM.paused tok /\ HRM.owner tok' = HRM.owner tok
  /\ HRM_inv tok'
  /\ ((exists a, a ∈ l /\ 0 < PT.tokensOwned (PT.getInvestment s pid a)) -> D <> 0).
Proof.
  revert tok. induction l as [|x l IH]; intros tok Hinv H; simpl in H.
  - injection H as <-. repeat split; try apply Hinv.
    + intros a. unfold total_paid, received; simpl. case_decide; lia.
    + intros (a & Ha & _). by apply elem_of_nil in Ha.
  - unfold total_paid, received in *; simpl. unfold payout at 1 3.
    destruct (0 <? PT.tokensOwned (PT.getInvestment s pid x)) eqn:Hpos.
    + apply bind_Ok in H as (sc & Hsc & H). apply U256_mul_Ok in Hsc as [-> _].
      apply bind_Ok in H as (share & Hd & H). apply U256_div_Ok in Hd as [-> HD].
      apply bind_Ok in H as (tok1 & Ht & H). unfold HRM.transfer in Ht.
      apply _transfer_Ok in Ht
        as (_ & _ & _ & _ & Hbal & Hal & Hts & Hp & Ho & Hinv1); [|exact Hinv].
      destruct (IH tok1 Hinv1 H) as (Hbal' & Hal' & Hts' & Hp' & Ho' & Hinv' & _).
      repeat split; try congruence; try apply Hinv'.
      intros a. specialize (Hbal a). specialize (Hbal' a).
      repeat case_decide; subst; try congruence; lia.
    + destruct (IH tok Hinv H) as (Hbal' & Hal' & Hts' & Hp' & Ho' & Hinv' & HD).
      repeat split; try congruence; try apply Hinv'.
      * intros a. specialize (Hbal' a). repeat case_decide; lia.
      * intros (a & Ha & Hown). apply HD. exists a. split; [|exact Hown].
        apply elem_of_cons in Ha as [->|Ha]; [|exact Ha].
        apply N.ltb_lt in Hown. congruence.
Qed.

Lemma distributeRentalIncome_Ok tok s sender pid I tok' :
  PT.distributeRentalIncome tok s sender pid I = Ok tok' ->
  let p := PT.getProperty s pid in
  sender = PT.owner s /\ pid < PT.tokenIdCounter s /\ 0 < I
  /\ I <= HRM.balanceOf tok (PT.self s)
  /\ PT.availableTokens p <= PT.totalTokens p
  /\ PT.distribute_loop tok s pid I
       (PT.totalTokens p - PT.availableTokens p)
       (PT.getPropertyInvestors s pid) = Ok tok'.
Proof.
  intros H p. unfold PT.distributeRentalIncome in H.
  apply bind_Ok in H as ([] & Ho & H). apply require_Ok, N.eqb_eq in Ho.
  apply bind_Ok in H as ([] & Hex & H). apply require_Ok, N.ltb_lt in Hex.
  apply bind_Ok in H as ([] & Hpos & H). apply require_Ok, N.ltb_lt in Hpos.
  apply bind_Ok in H as ([] & Hbal & H). apply require_Ok, N.leb_le in Hbal.
  apply bind_Ok in H as (D & Hsub & H). apply U256_sub_Ok in Hsub as [-> Hsub].
  auto 10.
Qed.

Lemma distributeRentalIncome_keeps d tok s sender pid I tok' :
  HRM_inv tok -> PT.self s <> d ->
  PT.distributeRentalIncome tok s sender pid I = Ok tok' -> keeps d tok tok'.
Proof.
  intros Hinv Hne H.
  apply distributeRentalIncome_Ok in H as (_ & _ & _ & _ & _ & H).
  apply distribute_loop_Ok in H as (Hbal & Hal & _ & _ & _ & Hinv' & _);
    [|exact Hinv].
  repeat split; try apply Hinv'.
  - specialize (Hbal d). rewrite decide_False in Hbal by congruence. lia.
  - intros sp. rewrite (allowance_same _ _ _ _ Hal). lia.
Qed.

(** ** The disaster registry: well-formed states *)

Lemma DM_inv_keeps tok tok' d :
  DM_inv tok d -> keeps (DM.self d) tok tok' -> DM_inv tok' d.
Proof.
  intros Hinv (Hb & Ha & _). constructor; try apply Hinv.
  - pose proof (dm_funded _ _ Hinv). lia.
  - intros sp. specialize (Ha sp). rewrite (dm_no_allowance _ _ Hinv) in Ha. lia.
Qed.

Lemma DM_inv_frame tok d d' :
  DM_inv tok d ->
  DM.self d' = DM.self d -> DM.insuranceFund d' = DM.insuranceFund d ->
  DM.insuranceClaimCount d' = DM.insuranceClaimCount d ->
  DM.insuranceClaims d' = DM.insuranceClaims d ->
  DM_inv tok d'.
Proof.
  intros Hinv Hs Hf Hc Hcl. constructor; rewrite ?Hs, ?Hf, ?Hc, ?Hcl; apply Hinv.
Qed.

Lemma depositInsuranceFund_Ok tok d sender amount tok' d' :
  DM.depositInsuranceFund tok d sender amount = Ok (tok', d') ->
  0 < amount
  /\ HRM.transferFrom tok (DM.self d) sender (DM.self d) amount = Ok tok'
  /\ DM.insuranceFund d + amount <= MAX_UINT256
  /\ d' = DM.set_insuranceFund (DM.insuranceFund d + amount) d.
Proof.
  intros H. unfold DM.depositInsuranceFund in H.
  apply bind_Ok in H as ([] & Hpos & H). apply require_Ok, N.ltb_lt in Hpos.
  apply bind_Ok in H as (tok1 & Ht & H).
  apply bind_Ok in H as (fund & Hf & H). apply U256_add_Ok in Hf as [-> Hf].
  injection H as <- <-. auto.
Qed.

Lemma depositInsuranceFund_inv tok d sender amount tok' d' :
  HRM_inv tok -> DM_inv tok d -> sender <> DM.self d -> amount <= MAX_UINT256 ->
  DM.depositInsuranceFund tok d sender amount = Ok (tok', d') ->
  HRM_inv tok' /\ DM_inv tok' d'
  /\ forall x, x <> DM.self d -> keeps x tok tok' \/ x = sender.
Proof.
  intros Hinv Hd Hne Hr H.
  apply depositInsuranceFund_Ok in H as (_ & Ht & _ & ->).
  pose proof Ht as Ht'.
  apply transferFrom_Ok in Ht
    as (_ & _ & _ & _ & _ & Hbal & Hall & _ & _ & _ & Hinv'); try assumption.
  split; [exact Hinv'|]. split.
  - constructor; simpl; try apply Hd.
    + specialize (Hbal (DM.self d)).
      rewrite decide_False, decide_True in Hbal by congruence.
      pose proof (dm_funded _ _ Hd). lia.
    + intros sp. specialize (Hall (DM.self d) sp).
      rewrite (dm_no_allowance _ _ Hd) in Hall. lia.
  - intros x Hx. destruct (decide (x = sender)) as [->|Hxs]; [by right|left].
    repeat split; try apply Hinv'; [|intros sp; apply Hall].
    specialize (Hbal x). rewrite !decide_False in Hbal by congruence. lia.
Qed.

Lemma getClaim_set_claim d cid c cid' :
  DM.getClaim (DM.set_claim cid c d) cid'
  = if decide (cid = cid') then c else DM.getClaim d cid'.
Proof.
  unfold DM.getClaim, DM.set_claim; simpl. case_decide; subst.
  - apply rd_insert_eq.
  - by apply rd_insert_ne.
Qed.

Lemma ClaimStatus_eqb_eq a b : DM.ClaimStatus_eqb a b = true <-> a = b.
Proof. destruct a, b; simpl; split; congruence. Qed.

(** What a successful [processClaim] did: either the payout branch or the
    plain status update. *)
Lemma processClaim_Ok tok d sender cid st amt tok' d' :
  DM.processClaim tok d sender cid st amt = Ok (tok', d') ->
  let c := DM.getClaim d cid in
  sender = DM.owner d /\ 0 < cid /\ cid <= DM.insuranceClaimCount d
  /\ DM.status c = DM.PENDING
  /\ ((st = DM.APPROVED /\ 0 < amt
       /\ amt <= DM.insuranceFund d
       /\ HRM.transfer tok (DM.self d) (DM.claimant c) amt = Ok tok'
       /\ d' = DM.set_claim cid
                 (DM.set_status DM.PAID
                    (DM.set_approvedAmount amt (DM.set_status st c)))
                 (DM.set_insuranceFund (DM.insuranceFund d - amt)
                    (DM.set_claim cid
                       (DM.set_approvedAmount amt (DM.set_status st c))
                       (DM.set_claim cid (DM.set_status st c) d))))
      \/ ((st <> DM.APPROVED \/ amt = 0)
          /\ tok' = tok
          /\ d' = DM.set_claim cid
                    (DM.set_approvedAmount amt (DM.set_status st c))
                    (DM.set_claim cid (DM.set_status st c) d))).
Proof.
  intros H c. unfold DM.processClaim in H.
  apply bind_Ok in H as ([] & Ho & H). apply require_Ok, N.eqb_eq in Ho.
  apply bind_Ok in H as ([] & Hid & H).
  apply require_Ok, andb_true_iff in Hid as [Hid1 Hid2].
  apply N.ltb_lt in Hid1. apply N.leb_le in Hid2.
  apply bind_Ok in H as ([] & Hpend & H).
  apply require_Ok, ClaimStatus_eqb_eq in Hpend.
  fold c in H, Hpend.
  rewrite !getClaim_set_claim, !decide_True in H by reflexivity.
  repeat split; try assumption.
  destruct (DM.ClaimStatus_eqb st DM.APPROVED && (0 <? amt)) eqn:Hbr.
  - apply andb_true_iff in Hbr as [Hst Hamt].
    apply ClaimStatus_eqb_eq in Hst. apply N.ltb_lt in Hamt.
    apply bind_Ok in H as ([] & Hfund & H). apply require_Ok, N.leb_le in Hfund.
    apply bind_Ok in H as (tok1 & Ht & H).
    apply bind_Ok in H as (fund & Hsub & H). apply U256_sub_Ok in Hsub as [-> _].
    injection H as <- <-. left.
    change (DM.getClaim
              (DM.set_insuranceFund (DM.insuranceFund d - amt)
                 (DM.set_claim cid
                    (DM.set_approvedAmount amt (DM.set_status st c))
                    (DM.set_claim cid (DM.set_status st c) d))) cid)
      with (DM.getClaim
              (DM.set_claim cid
                 (DM.set_approvedAmount amt (DM.set_status st c))
                 (DM.set_claim cid (DM.set_status st c) d)) cid).
    rewrite getClaim_set_claim, decide_True by reflexivity.
    simpl in *. auto 10.
  - injection H as <- <-. right. split; [|auto].
    apply andb_false_iff in Hbr as [Hst|Hamt].
    + left. intros ->. by destruct (DM.ClaimStatus_eqb DM.APPROVED DM.APPROVED) eqn:E.
    + right. apply N.ltb_ge in Hamt. lia.
Qed.

Lemma approve_keeps d s sender sp amount s' :
  HRM_inv s -> sender <> d -> HRM.approve s sender sp amount = Ok s' ->
  keeps d s s'.
Proof.
  intros Hinv Hne H. apply _approve_Ok in H as (_ & _ & ->).
  repeat split; try apply Hinv.
  - reflexivity.
  - intros sp'. rewrite allowance_set_allowance.
    case_decide as Hd; [congruence|lia].
Qed.

Lemma pause_keeps d s sender s' :
  HRM_inv s -> HRM.pause s sender = Ok s' -> keeps d s s'.
Proof.
  intros Hinv H. unfold HRM.pause in H.
  apply bind_Ok in H as ([] & _ & H). apply bind_Ok in H as ([] & _ & H).
  injection H as <-. repeat split; try apply Hinv; [reflexivity|intros; reflexivity].
Qed.

Lemma unpause_keeps d s sender s' :
  HRM_inv s -> HRM.unpause s sender = Ok s' -> keeps d s s'.
Proof.
  intros Hinv H. unfold HRM.unpause in H.
  apply bind_Ok in H as ([] & _ & H). apply bind_Ok in H as ([] & _ & H).
  injection H as <-. repeat split; try apply Hinv; [reflexivity|intros; reflexivity].
Qed.

Lemma purchaseTokens_keeps d tok s sender now pid tokens tok' s' :
  HRM_inv tok -> PT_inv s -> sender <> address0 -> sender <> d ->
  PT.self s <> d ->
  PT.purchaseTokens tok s sender now pid tokens = Ok (tok', s') ->
  keeps d tok tok'.
Proof.
  intros Hinv Hpt Hs0 Hsd Hself H.
  destruct (purchaseTokens_Ok _ _ _ _ _ _ _ _ Hpt Hs0 H)
    as (_ & _ & _ & _ & Hc & _ & _ & Hsplit & (tok1 & tok2 & H1 & H2 & H3) & _).
  exact (payment_keeps d _ _ _ _ _ _ _ _ _ _ _ Hinv Hc Hsplit Hsd Hself H1 H2 H3).
Qed.

Lemma buyFromOrder_keeps d tok s sender now oid n tok' s' :
  HRM_inv tok -> sender <> d -> PT.self s <> d ->
  PT.buyFromOrder tok s sender now oid n = Ok (tok', s') ->
  keeps d tok tok'.
Proof.
  intros Hinv Hsd Hself H.
  destruct (buyFromOrder_Ok _ _ _ _ _ _ _ _ H)
    as (_ & _ & _ & _ & _ & _ & Hc & _ & Hsplit
        & (tok1 & tok2 & H1 & H2 & H3) & _).
  exact (payment_keeps d _ _ _ _ _ _ _ _ _ _ _ Hinv Hc Hsplit Hsd Hself H1 H2 H3).
Qed.

Lemma submitClaim_inv tok d sender now pid rid amount ev d' cid :
  DM_inv tok d -> sender <> address0 -> sender <> DM.self d ->
  DM.submitClaim d sender now pid rid amount ev = Ok (d', cid) ->
  DM_inv tok d'.
Proof.
  intros Hinv Hs0 Hsd H. unfold DM.submitClaim in H.
  apply bind_Ok in H as ([] & _ & H). apply bind_Ok in H as ([] & _ & H).
  apply bind_Ok in H as ([] & _ & H). apply bind_Ok in H as ([] & _ & H).
  apply bind_Ok in H as (count & Hc & H). apply U256_add_Ok in Hc as [-> _].
  injection H as <- <-. constructor; simpl; try apply Hinv.
  - intros cid Hpos Hle. apply lookup_insert_is_Some.
    destruct (decide (DM.insuranceClaimCount d + 1 = cid)); [by left|right].
    split; [done|]. apply (dm_claims_listed _ _ Hinv); lia.
  - intros cid c Hc. apply lookup_insert_Some in Hc as [[_ <-]|[_ Hc]].
    + simpl. auto.
    + by apply (dm_claimant _ _ Hinv cid).
Qed.

Lemma getClaim_Some d cid :
  is_Some (DM.insuranceClaims d !! cid) ->
  DM.insuranceClaims d !! cid = Some (DM.getClaim d cid).
Proof. intros [c Hc]. unfold DM.getClaim. by rewrite (rd_Some _ _ _ _ Hc). Qed.

Lemma processClaim_inv tok d sender cid st amt tok' d' :
  HRM_inv tok -> DM_inv tok d ->
  DM.processClaim tok d sender cid st amt = Ok (tok', d') ->
  HRM_inv tok' /\ DM_inv tok' d'
  /\ forall x, x <> DM.self d -> keeps x tok tok'.
Proof.
  intros Hinv Hd H.
  apply processClaim_Ok in H as (_ & Hpos & Hle & _ & Hcase).
  pose proof (getClaim_Some d cid (dm_claims_listed _ _ Hd cid Hpos Hle)) as Hc.
  destruct (dm_claimant _ _ Hd cid _ Hc) as (Hc0 & Hcs).
  set (c := DM.getClaim d cid) in *.
  assert (Hclaims : forall c',
    DM.claimant c' = DM.claimant c ->
    forall cid' c'', <[cid := c']> (DM.insuranceClaims d) !! cid' = Some c'' ->
    DM.claimant c'' <> address0 /\ DM.claimant c'' <> DM.self d).
  { intros c' Hcl cid' c'' Hl.
    apply lookup_insert_Some in Hl as [[_ <-]|[_ Hl]].
    - rewrite Hcl. auto.
    - by apply (dm_claimant _ _ Hd cid'). }
  destruct Hcase as [(-> & Hamt & Hfund & Ht & ->)|(_ & -> & ->)].
  - unfold HRM.transfer in Ht. pose proof Ht as Ht'.
    apply _transfer_Ok in Ht
      as (_ & _ & _ & _ & Hbal & Hal & _ & _ & _ & Hinv'); [|exact Hinv].
    split; [exact Hinv'|]. split.
    + constructor; simpl; try apply Hd.
      * specialize (Hbal (DM.self d)).
        rewrite decide_True in Hbal by reflexivity.
        rewrite decide_False in Hbal by congruence.
        pose proof (dm_funded _ _ Hd). lia.
      * intros sp. rewrite (allowance_same _ _ _ _ Hal). apply Hd.
      * intros cid' Hp' Hl'. rewrite !lookup_insert_is_Some.
        destruct (decide (cid = cid')); [by left|right]. split; [done|].
        right. split; [done|]. right. split; [done|].
        by apply (dm_claims_listed _ _ Hd).
      * intros cid' c'' Hl. rewrite !insert_insert_eq in Hl.
        eapply Hclaims; [|exact Hl]. reflexivity.
    + intros x Hx. by apply (_transfer_keeps x) in Ht'.
  - split; [exact Hinv|]. split.
    + constructor; simpl; try apply Hd.
      * intros cid' Hp' Hl'. rewrite !lookup_insert_is_Some.
        destruct (decide (cid = cid')); [by left|right]. split; [done|].
        right. split; [done|]. by apply (dm_claims_listed _ _ Hd).
      * intros cid' c'' Hl. rewrite !insert_insert_eq in Hl.
        eapply Hclaims; [|exact Hl]. reflexivity.
    + intros x _. by apply keeps_refl.
Qed.

(** ** The invariant of the deployed system *)

Lemma Inv_init c : Sys.wf_config c -> Inv (Sys.init c).
Proof.
  intros (Hh & Hp & Hd & Hpa & Hda & Hne & _).
  constructor; simpl.
  - split; simpl.
    + unfold sumN. rewrite map_fold_singleton. unfold id. lia.
    + vm_compute. discriminate.
  - constructor; simpl; try done.
    + intros pid Hlt. lia.
    + intros pid. rewrite !lookup_empty. done.
    + intros pid. unfold PT.holdings, PT.getPropertyInvestors, rd; simpl.
      rewrite !lookup_empty; simpl. repeat split.
      * apply NoDup_nil_2.
      * intros Hin. by apply elem_of_nil in Hin.
      * rewrite lookup_empty. by intros [? ?].
      * rewrite lookup_empty in H. discriminate.
      * rewrite lookup_empty in H. discriminate.
      * rewrite lookup_empty in H. discriminate.
  - constructor; simpl; try done.
    + lia.
    + intros cid Hpos Hle. lia.
  - exact Hne.
Qed.

(** A ledger-only step that does not touch the disaster registry's funds. *)
Lemma Inv_ledger w tok' :
  Inv w -> keeps (DM.self (Sys.dm w)) (Sys.hrm w) tok' ->
  Inv (Sys.with_hrm w tok').
Proof.
  intros Hinv Hk. constructor; simpl; try apply Hinv.
  - apply Hk.
  - apply (DM_inv_keeps (Sys.hrm w)); [apply Hinv | exact Hk].
Qed.

Lemma Inv_registry w s' :
  Inv w -> PT_inv s' -> PT.self s' = PT.self (Sys.pt w) ->
  Inv (Sys.with_pt w s').
Proof.
  intros Hinv Hpt Hself. constructor; simpl; try apply Hinv.
  - exact Hpt.
  - rewrite Hself. apply Hinv.
Qed.

Lemma Inv_step w tx w' :
  Inv w -> Sys.valid_tx w tx -> Sys.exec w tx = Ok w' -> Inv w'.
Proof.
  intros Hinv ((Hs0 & Hspt & Hsdm) & Hnow & Hargs) H.
  destruct tx as [sender now c]. simpl in *.
  pose proof (inv_hrm w Hinv) as Hh. pose proof (inv_pt w Hinv) as Hp.
  pose proof (inv_dm w Hinv) as Hd. pose proof (inv_distinct w Hinv) as Hne.
  unfold Sys.exec in H; simpl in H.
  destruct c; simpl in Hargs;
    rewrite ?andb_true_iff, ?N.leb_le in Hargs;
    apply bind_Ok in H as (r & Hr & H); injection H as <-.
  - (* transfer *)
    apply Inv_ledger; [exact Hinv|]. unfold HRM.transfer in Hr.
    by apply (_transfer_keeps _ _ _ _ _ _ Hh Hsdm Hr).
  - (* approve *)
    apply Inv_ledger; [exact Hinv|]. by apply (approve_keeps _ _ _ _ _ _ Hh Hsdm Hr).
  - (* transferFrom *)
    apply Inv_ledger; [exact Hinv|].
    eapply (transferFrom_keeps (DM.self (Sys.dm w))); [exact Hh|exact Hargs| |exact Hr].
    intros _. apply Hd.
  - (* mint *)
    apply Inv_ledger; [exact Hinv|]. by apply (mint_keeps _ _ _ _ _ _ Hh Hr).
  - (* burn *)
    apply Inv_ledger; [exact Hinv|]. by apply (burn_keeps _ _ _ _ _ Hh Hsdm Hr).
  - (* burnFrom *)
    apply Inv_ledger; [exact Hinv|].
    eapply (burnFrom_keeps (DM.self (Sys.dm w))); [exact Hh|exact Hargs| |exact Hr].
    intros _. apply Hd.
  - (* pause *)
    apply Inv_ledger; [exact Hinv|]. by apply (pause_keeps _ _ _ _ Hh Hr).
  - (* unpause *)
    apply Inv_ledger; [exact Hinv|]. by apply (unpause_keeps _ _ _ _ Hh Hr).
  - (* listProperty *)
    destruct r as [s' pid]. destruct Hargs as [Hv _].
    pose proof (listProperty_Ok _ _ _ _ _ _ _ _ _ _ Hr)
      as (_ & _ & _ & _ & _ & _ & _ & _ & _ & _ & _ & Hsf).
    apply Inv_registry; [exact Hinv| |exact Hsf].
    by apply (listProperty_inv _ _ _ _ _ _ _ _ _ _ Hp Hspt Hv Hr).
  - (* verifyProperty *)
    pose proof (verifyProperty_Ok _ _ _ _ Hr) as (_ & _ & ->).
    apply Inv_registry; [exact Hinv| |reflexivity].
    by apply (verifyProperty_inv _ _ _ _ Hp Hr).
  - (* purchaseTokens *)
    destruct r as [tok' s'].
    pose proof (purchaseTokens_inv _ _ _ _ _ _ _ _ Hp Hs0 Hspt Hr) as Hp'.
    pose proof (purchaseTokens_keeps (DM.self (Sys.dm w)) _ _ _ _ _ _ _ _
                  Hh Hp Hs0 Hsdm Hne Hr) as Hk.
    assert (PT.self s' = PT.self (Sys.pt w)) as Hsf.
    { destruct (purchaseTokens_Ok _ _ _ _ _ _ _ _ Hp Hs0 Hr)
        as (_ & _ & _ & _ & _ & _ & _ & _ & _ & (s1 & Hcr & ->)).
      destruct (credit_investment_Ok _ _ _ _ _ _ _ _
                  (pt_index _ Hp _) Hs0 Hcr) as (_ & _ & _ & _ & _ & Hfr).
      simpl. apply Hfr. }
    apply (Inv_registry (Sys.with_hrm w tok')); [|exact Hp'|exact Hsf].
    by apply Inv_ledger.
  - (* distributeRentalIncome *)
    apply Inv_ledger; [exact Hinv|].
    by apply (distributeRentalIncome_keeps _ _ _ _ _ _ _ Hh Hne Hr).
  - (* setPlatformFee *)
    pose proof (setPlatformFee_inv _ _ _ _ Hp Hr) as Hp'.
    apply Inv_registry; [exact Hinv|exact Hp'|].
    unfold PT.setPlatformFee in Hr.
    apply bind_Ok in Hr as ([] & _ & Hr). apply bind_Ok in Hr as ([] & _ & Hr).
    by injection Hr as <-.
  - (* setFeeRecipient *)
    pose proof (setFeeRecipient_inv _ _ _ _ Hp Hr) as Hp'.
    apply Inv_registry; [exact Hinv|exact Hp'|].
    unfold PT.setFeeRecipient in Hr.
    apply bind_Ok in Hr as ([] & _ & Hr). apply bind_Ok in Hr as ([] & _ & Hr).
    by injection Hr as <-.
  - (* createSellOrder *)
    destruct r as [s' oid].
    pose proof (createSellOrder_inv _ _ _ _ _ _ _ _ _ Hp Hr) as Hp'.
    apply Inv_registry; [exact Hinv|exact Hp'|].
    by apply createSellOrder_frame in Hr as (_ & _ & _ & _ & _ & _ & ? & _).
  - (* buyFromOrder *)
    destruct r as [tok' s'].
    pose proof (buyFromOrder_inv _ _ _ _ _ _ _ _ Hp Hs0 Hspt Hr) as Hp'.
    pose proof (buyFromOrder_keeps (DM.self (Sys.dm w)) _ _ _ _ _ _ _ _
                  Hh Hsdm Hne Hr) as Hk.
    assert (PT.self s' = PT.self (Sys.pt w)) as Hsf.
    { destruct (buyFromOrder_Ok _ _ _ _ _ _ _ _ Hr)
        as (_ & _ & _ & _ & _ & _ & _ & _ & _ & _ & (s1 & Hcr & -> & _)).
      unfold PT.credit_investment in Hcr.
      apply bind_Ok in Hcr as (? & _ & Hcr).
      apply bind_Ok in Hcr as (? & _ & Hcr). injection Hcr as <-.
      simpl. by case_match. }
    apply (Inv_registry (Sys.with_hrm w tok')); [|exact Hp'|exact Hsf].
    by apply Inv_ledger.
  - (* cancelSellOrder *)
    pose proof (cancelSellOrder_inv _ _ _ _ Hp Hr) as Hp'.
    apply Inv_registry; [exact Hinv|exact Hp'|].
    by apply cancelSellOrder_frame in Hr as (-> & _).
  - (* createProposal *) constructor; simpl; apply Hinv.
  - (* vote *) constructor; simpl; apply Hinv.
  - (* executeProposal *) constructor; simpl; apply Hinv.
  - (* depositInsuranceFund *)
    destruct r as [tok' d'].
    pose proof (depositInsuranceFund_Ok _ _ _ _ _ _ Hr) as (_ & _ & _ & Hd').
    destruct (depositInsuranceFund_inv _ _ _ _ _ _ Hh Hd Hsdm Hargs Hr)
      as (Hh' & Hdm' & _).
    constructor; simpl; try assumption. rewrite Hd'. simpl. exact Hne.
  - (* reportDisaster *)
    destruct r as [d' rid]. unfold DM.reportDisaster in Hr.
    apply bind_Ok in Hr as ([] & _ & Hr). apply bind_Ok in Hr as (? & _ & Hr).
    injection Hr as <- <-. constructor; simpl; try apply Hinv.
    by apply (DM_inv_frame _ (Sys.dm w)).
  - (* verifyDisaster *)
    unfold DM.verifyDisaster in Hr.
    apply bind_Ok in Hr as ([] & _ & Hr). apply bind_Ok in Hr as ([] & _ & Hr).
    injection Hr as <-. constructor; simpl; try apply Hinv.
    by apply (DM_inv_frame _ (Sys.dm w)).
  - (* submitClaim *)
    destruct r as [d' cid].
    pose proof (submitClaim_inv _ _ _ _ _ _ _ _ _ _ Hd Hs0 Hsdm Hr) as Hd'.
    constructor; simpl; try apply Hinv; [exact Hd'|].
    unfold DM.submitClaim in Hr.
    apply bind_Ok in Hr as ([] & _ & Hr). apply bind_Ok in Hr as ([] & _ & Hr).
    apply bind_Ok in Hr as ([] & _ & Hr). apply bind_Ok in Hr as ([] & _ & Hr).
    apply bind_Ok in Hr as (? & _ & Hr). injection Hr as <- <-. simpl. exact Hne.
  - (* processClaim *)
    destruct r as [tok' d'].
    destruct (processClaim_inv _ _ _ _ _ _ _ _ Hh Hd Hr) as (Hh' & Hd' & _).
    constructor; simpl; try assumption.
    apply processClaim_Ok in Hr as (_ & _ & _ & _ & Hcase).
    destruct Hcase as [(_ & _ & _ & _ & ->)|(_ & _ & ->)]; simpl; exact Hne.
  - (* authorizeReporter *)
    unfold DM.authorizeReporter in Hr. apply bind_Ok in Hr as ([] & _ & Hr).
    injection Hr as <-. constructor; simpl; try apply Hinv.
    by apply (DM_inv_frame _ (Sys.dm w)).
  - (* revokeReporter *)
    unfold DM.revokeReporter in Hr. apply bind_Ok in Hr as ([] & _ & Hr).
    injection Hr as <-. constructor; simpl; try apply Hinv.
    by apply (DM_inv_frame _ (Sys.dm w)).
  - (* token: transferOwnership *)
    unfold HRM.transferOwnership in Hr.
    apply bind_Ok in Hr as ([] & _ & Hr). apply bind_Ok in Hr as ([] & _ & Hr).
    injection Hr as <-. apply Inv_ledger; [exact Hinv|].
    repeat split; try apply Hh; [reflexivity|intros; reflexivity].
  - (* token: renounceOwnership *)
    unfold HRM.renounceOwnership in Hr. apply bind_Ok in Hr as ([] & _ & Hr).
    injection Hr as <-. apply Inv_ledger; [exact Hinv|].
    repeat split; try apply Hh; [reflexivity|intros; reflexivity].
  - (* registry: transferOwnership *)
    unfold PT.transferOwnership in Hr.
    apply bind_Ok in Hr as ([] & _ & Hr). apply bind_Ok in Hr as ([] & _ & Hr).
    injection Hr as <-. apply Inv_registry; [exact Hinv| |reflexivity].
    apply (PT_inv_frame (Sys.pt w)); try done. apply Hp.
  - (* registry: renounceOwnership *)
    unfold PT.renounceOwnership in Hr. apply bind_Ok in Hr as ([] & _ & Hr).
    injection Hr as <-. apply Inv_registry; [exact Hinv| |reflexivity].
    apply (PT_inv_frame (Sys.pt w)); try done. apply Hp.
  - (* disaster registry: transferOwnership *)
    unfold DM.transferOwnership in Hr.
    apply bind_Ok in Hr as ([] & _ & Hr). apply bind_Ok in Hr as ([] & _ & Hr).
    injection Hr as <-. constructor; simpl; try apply Hinv.
    by apply (DM_inv_frame _ (Sys.dm w)).
  - (* disaster registry: renounceOwnership *)
    unfold DM.renounceOwnership in Hr. apply bind_Ok in Hr as ([] & _ & Hr).
    injection Hr as <-. constructor; simpl; try apply Hinv.
    by apply (DM_inv_frame _ (Sys.dm w)).
Qed.

Theorem reachable_Inv w : Sys.reachable w -> Inv w.
Proof.
  induction 1 as [c Hc | w w' tx _ IH Hv He].
  - by apply Inv_init.
  - by apply (Inv_step w tx w').
Qed.

(** ** Effects on holdings, with no assumption on the state *)

Lemma credit_investment_effects s now pid who tokens net s' :
  PT.credit_investment s now pid who tokens net = Ok s' ->
  PT.getInvestment s' pid who
  = PT.mkInvestment who
      (PT.tokensOwned (PT.getInvestment s pid who) + tokens)
      (PT.investmentAmount (PT.getInvestment s pid who) + net) now
  /\ (forall pid' a, ~ (pid' = pid /\ a = who) ->
        PT.getInvestment s' pid' a = PT.getInvestment s pid' a)
  /\ PT.properties s' = PT.properties s
  /\ PT.sellOrders s' = PT.sellOrders s.
Proof.
  intros H. unfold PT.credit_investment in H.
  set (s1 := if PT.investor (PT.getInvestment s pid who) =? address0
             then PT.push_investorProperty who pid
                    (PT.push_propertyInvestor pid who s)
             else s) in H.
  assert (forall q a, PT.getInvestment s1 q a = PT.getInvestment s q a) as Hg.
  { intros q a. unfold s1. by case_match. }
  assert (PT.properties s1 = PT.properties s) as Hp by (unfold s1; by case_match).
  assert (PT.sellOrders s1 = PT.sellOrders s) as Ho by (unfold s1; by case_match).
  apply bind_Ok in H as (owned & Hown & H). apply U256_add_Ok in Hown as [-> _].
  apply bind_Ok in H as (paid & Hpaid & H). apply U256_add_Ok in Hpaid as [-> _].
  injection H as <-. rewrite !Hg. repeat split; try assumption.
  - rewrite getInvestment_set_investment, decide_True by done. reflexivity.
  - intros q a Hne. rewrite getInvestment_set_investment.
    rewrite decide_False by (intros [-> ->]; tauto). apply Hg.
Qed.

Lemma purchaseTokens_effects tok s sender now pid tokens tok' s' :
  PT.purchaseTokens tok s sender now pid tokens = Ok (tok', s') ->
  PT.tokensOwned (PT.getInvestment s' pid sender)
  = PT.tokensOwned (PT.getInvestment s pid sender) + tokens
  /\ (forall pid' a, ~ (pid' = pid /\ a = sender) ->
        PT.getInvestment s' pid' a = PT.getInvestment s pid' a)
  /\ PT.availableTokens (PT.getProperty s' pid) + tokens
     = PT.availableTokens (PT.getProperty s pid)
  /\ PT.totalTokens (PT.getProperty s' pid) = PT.totalTokens (PT.getProperty s pid)
  /\ (forall pid', pid' <> pid -> PT.getProperty s' pid' = PT.getProperty s pid').
Proof.
  intros H. unfold PT.purchaseTokens in H.
  do 12 (apply bind_Ok in H as (? & _ & H)).
  apply bind_Ok in H as (tok3 & _ & H).
  apply bind_Ok in H as (s1 & Hcr & H).
  apply bind_Ok in H as (avail & Hsub & H). apply U256_sub_Ok in Hsub as [-> Hsub].
  injection H as <- <-.
  apply credit_investment_effects in Hcr as (Hme & Hoth & Hprops & _).
  assert (forall q, PT.getProperty s1 q = PT.getProperty s q) as Hg.
  { intros q. unfold PT.getProperty. by rewrite Hprops. }
  rewrite Hg in *. repeat split.
  - change (PT.getInvestment (PT.set_property _ _ s1) pid sender)
      with (PT.getInvestment s1 pid sender). by rewrite Hme.
  - intros q a Hne. by apply Hoth.
  - rewrite getProperty_set_property, decide_True by reflexivity. simpl. lia.
  - rewrite getProperty_set_property, decide_True by reflexivity. reflexivity.
  - intros q Hne. rewrite getProperty_set_property, decide_False by congruence.
    apply Hg.
Qed.

Lemma buyFromOrder_effects tok s sender now oid n tok' s' :
  PT.buyFromOrder tok s sender now oid n = Ok (tok', s') ->
  let o := PT.getSellOrder s oid in
  let pid := PT.so_propertyId o in
  sender <> PT.seller o /\ 0 < n
  /\ n <= PT.tokensOwned (PT.getInvestment s pid (PT.seller o))
  /\ n <= PT.tokensForSale o
  /\ PT.tokensOwned (PT.getInvestment s' pid (PT.seller o))
     = PT.tokensOwned (PT.getInvestment s pid (PT.seller o)) - n
  /\ PT.tokensOwned (PT.getInvestment s' pid sender)
     = PT.tokensOwned (PT.getInvestment s pid sender) + n
  /\ (forall pid' a, ~ (pid' = pid /\ (a = sender \/ a = PT.seller o)) ->
        PT.getInvestment s' pid' a = PT.getInvestment s pid' a)
  /\ PT.properties s' = PT.properties s
  /\ PT.seller (PT.getSellOrder s' oid) = PT.seller o
  /\ PT.so_propertyId (PT.getSellOrder s' oid) = pid
  /\ PT.tokensForSale (PT.getSellOrder s' oid) = PT.tokensForSale o - n
  /\ (forall oid', oid' <> oid -> PT.getSellOrder s' oid' = PT.getSellOrder s oid').
Proof.
  intros H o pid.
  destruct (buyFromOrder_Ok _ _ _ _ _ _ _ _ H)
    as (_ & _ & Hpos & Hn & Hne & Hown & _ & _ & _ & _ & (s1 & Hcr & -> & Ho1)).
  fold o in Hn, Hne, Hown, Hcr, Ho1. fold pid in Hown, Hcr.
  apply credit_investment_effects in Hcr as (Hme & Hoth & Hprops & Hso).
  rewrite Ho1. cbv zeta. fold o.
  set (o3 := if PT.tokensForSale (PT.set_tokensForSale (PT.tokensForSale o - n) o) =? 0
             then PT.set_so_isActive false
                    (PT.set_tokensForSale (PT.tokensForSale o - n) o)
             else PT.set_tokensForSale (PT.tokensForSale o - n) o).
  assert (Hg : forall q a,
    PT.getInvestment (PT.set_sellOrder oid o3 s1) q a = PT.getInvestment s1 q a)
    by reflexivity.
  assert (Ho3 : PT.getSellOrder (PT.set_sellOrder oid o3 s1) oid = o3).
  { unfold PT.getSellOrder, PT.set_sellOrder; simpl. apply rd_insert_eq. }
  assert (Hf : PT.seller o3 = PT.seller o /\ PT.so_propertyId o3 = pid
               /\ PT.tokensForSale o3 = PT.tokensForSale o - n).
  { unfold o3. by case_match. }
  destruct Hf as (Hf1 & Hf2 & Hf3).
  rewrite !Hg, Ho3. repeat split; try assumption.
  - rewrite Hoth by (intros [_ E]; congruence).
    rewrite getInvestment_set_investment, decide_True by done. reflexivity.
  - rewrite Hme. simpl.
    rewrite getInvestment_set_investment, decide_False by (intros [_ E]; congruence).
    reflexivity.
  - intros q a Hq. rewrite Hg, Hoth by tauto.
    rewrite getInvestment_set_investment, decide_False by (intros [<- <-]; tauto).
    reflexivity.
  - intros oid' Hne'. unfold PT.getSellOrder, PT.set_sellOrder; simpl.
    rewrite rd_insert_ne by congruence. by rewrite Hso.
Qed.

Lemma buyFromOrder_overcommitted tok s sender now oid n :
  let o := PT.getSellOrder s oid in
  PT.tokensOwned (PT.getInvestment s (PT.so_propertyId o) (PT.seller o)) < n ->
  exists e, PT.buyFromOrder tok s sender now oid n = Revert e.
Proof.
  intros o Hlt. apply is_ok_Revert.
  destruct (PT.buyFromOrder tok s sender now oid n) as [[tok' s']|e] eqn:H;
    [|reflexivity].
  apply buyFromOrder_effects in H as (_ & _ & Hown & _). fold o in Hown. lia.
Qed.

(** ** Claims about the order book *)

Lemma exec_buyFromOrder w sender now oid n :
  Sys.exec w (Sys.mkTx sender now (Sys.BuyFromOrder oid n))
  = (let! p := PT.buyFromOrder (Sys.hrm w) (Sys.pt w) sender now oid n in
     Ok (Sys.with_pt (Sys.with_hrm w p.1) p.2)).
Proof. reflexivity. Qed.

Lemma apply_tx_Revert w tx e : Sys.exec w tx = Revert e -> Sys.apply_tx w tx = w.
Proof. intros H. unfold Sys.apply_tx. by rewrite H. Qed.

Lemma apply_tx_Ok w tx w' : Sys.exec w tx = Ok w' -> Sys.apply_tx w tx = w'.
Proof. intros H. unfold Sys.apply_tx. by rewrite H. Qed.

Lemma overcommitted_fulfil o1 o2 pid sl w tx :
  o1 <> o2 -> overcommitted o1 o2 pid sl w -> fulfils o1 o2 tx ->
  overcommitted o1 o2 pid sl (Sys.apply_tx w tx).
Proof.
  intros Hne (Hs1 & Hs2 & Hp1 & Hp2 & Hlt) (n & Hcall).
  destruct tx as [sender now c]. simpl in Hcall.
  unfold Sys.apply_tx.
  destruct (Sys.exec w (Sys.mkTx sender now c)) as [w'|e] eqn:He;
    [|by repeat split].
  unfold overcommitted, owned, offered in *.
  destruct Hcall as [-> | ->]; rewrite exec_buyFromOrder in He;
    apply bind_Ok in He as ([tok' s'] & Hb & He); injection He as <-; simpl;
    apply buyFromOrder_effects in Hb
      as (_ & _ & Hown & Hoff & Hsl & _ & _ & _ & Hsel & Hpid & Hleft & Hoth).
  - rewrite Hs1, Hp1 in *. rewrite (Hoth o2) by congruence.
    rewrite Hsel, Hpid, Hleft, Hsl. repeat split; try assumption. lia.
  - rewrite Hs2, Hp2 in *. rewrite (Hoth o1) by congruence.
    rewrite Hsel, Hpid, Hleft, Hsl. repeat split; try assumption. lia.
Qed.

(** C1.  A fulfilment that asks for more shares than the seller holds at
    that moment reverts and leaves the world untouched, whatever the order
    still offers; hence two orders of one seller on one property whose
    offers together exceed the seller's holding can never both be filled
    completely by fulfilments, in any order and by any buyers. *)
Theorem C1_overcommitted_orders_never_both_filled :
  (forall w sender now oid n,
      let o := PT.getSellOrder (Sys.pt w) oid in
      owned w (PT.so_propertyId o) (PT.seller o) < n ->
      (exists e,
          Sys.exec w (Sys.mkTx sender now (Sys.BuyFromOrder oid n)) = Revert e)
      /\ Sys.apply_tx w (Sys.mkTx sender now (Sys.BuyFromOrder oid n)) = w)
  /\ (forall w o1 o2 pid sl txs,
        o1 <> o2 ->
        PT.seller (PT.getSellOrder (Sys.pt w) o1) = sl ->
        PT.seller (PT.getSellOrder (Sys.pt w) o2) = sl ->
        PT.so_propertyId (PT.getSellOrder (Sys.pt w) o1) = pid ->
        PT.so_propertyId (PT.getSellOrder (Sys.pt w) o2) = pid ->
        owned w pid sl < offered w o1 + offered w o2 ->
        Forall (fulfils o1 o2) txs ->
        let w' := Sys.run w txs in
        owned w' pid sl < offered w' o1 + offered w' o2
        /\ ~ (offered w' o1 = 0 /\ offered w' o2 = 0)).
Proof.
  split.
  - intros w sender now oid n o Hlt.
    destruct (buyFromOrder_overcommitted (Sys.hrm w) (Sys.pt w) sender now oid n Hlt)
      as (e & He).
    assert (Sys.exec w (Sys.mkTx sender now (Sys.BuyFromOrder oid n)) = Revert e)
      as Hex by (rewrite exec_buyFromOrder, He; reflexivity).
    split; [by exists e | by apply (apply_tx_Revert _ _ e)].
  - intros w o1 o2 pid sl txs Hne Hs1 Hs2 Hp1 Hp2 Hlt Htxs w'.
    assert (overcommitted o1 o2 pid sl w') as (_ & _ & _ & _ & Hlt').
    { unfold w', Sys.run. clear w'.
      assert (overcommitted o1 o2 pid sl w) as Hov by done.
      clear Hs1 Hs2 Hp1 Hp2 Hlt. revert w Hov.
      induction Htxs as [|tx txs Htx _ IH]; intros w Hov; [exact Hov|].
      simpl. apply IH. by apply overcommitted_fulfil. }
    split; [exact Hlt'|]. intros [E1 E2]. rewrite E1, E2 in Hlt'. lia.
Qed.

Lemma C1_witness :
  (let w1 := Sys.run Demo.w_orders
               [Demo.tx Demo.carol (Sys.BuyFromOrder 0 150)] in
   owned w1 0 Demo.alice = 50 /\ offered w1 1 = 150
   /\ Sys.apply_tx w1 (Demo.tx Demo.carol (Sys.BuyFromOrder 1 150)) = w1)
  /\ (let w' := Sys.run Demo.w_orders
                  [Demo.tx Demo.carol (Sys.BuyFromOrder 0 150);
                   Demo.tx Demo.carol (Sys.BuyFromOrder 1 150);
                   Demo.tx Demo.bob (Sys.BuyFromOrder 1 50)] in
      owned w' 0 Demo.alice < offered w' 0 + offered w' 1
      /\ ~ (offered w' 0 = 0 /\ offered w' 1 = 0)).
Proof.
  split.
  - split; [vm_compute; reflexivity|]. split; [vm_compute; reflexivity|].
    apply (proj1 C1_overcommitted_orders_never_both_filled).
    vm_compute. reflexivity.
  - apply (proj2 C1_overcommitted_orders_never_both_filled
             Demo.w_orders 0 1 0 Demo.alice).
    + discriminate.
    + vm_compute. reflexivity.
    + vm_compute. reflexivity.
    + vm_compute. reflexivity.
    + vm_compute. reflexivity.
    + vm_compute. reflexivity.
    + repeat constructor; eexists; (by left) || (by right).
Defined.

(** ** Claims about verification *)

(** C8.  For an existing property and the administrator as caller,
    [verifyProperty] succeeds, and calling it once more succeeds again and
    returns the very same world: both calls end with the property active
    and verified, and nothing else moves on the second call. *)
Theorem C8_verifyProperty_idempotent :
  forall w sender now now' pid,
    sender = PT.owner (Sys.pt w) ->
    pid < PT.tokenIdCounter (Sys.pt w) ->
    exists w1,
      Sys.exec w (Sys.mkTx sender now (Sys.VerifyProperty pid)) = Ok w1
      /\ Sys.exec w1 (Sys.mkTx sender now' (Sys.VerifyProperty pid)) = Ok w1
      /\ PT.isActive (PT.getProperty (Sys.pt w1) pid) = true
      /\ PT.isVerified (PT.getProperty (Sys.pt w1) pid) = true.
Proof.
  intros w sender now now' pid Hown Hex.
  apply N.eqb_eq in Hown. apply N.ltb_lt in Hex.
  unfold Sys.exec; simpl. unfold PT.verifyProperty, PT.onlyOwner, PT.propertyExists.
  rewrite Hown, Hex; simpl. eexists. split; [reflexivity|]. simpl.
  rewrite Hown, Hex; simpl.
  rewrite !getProperty_set_property, !decide_True by reflexivity.
  repeat split. unfold Sys.with_pt, PT.set_property; simpl.
  rewrite !insert_insert_eq. reflexivity.
Qed.

Lemma C8_witness :
  exists w1,
    Sys.exec Demo.w_sold (Demo.tx Demo.admin (Sys.VerifyProperty 0)) = Ok w1
    /\ Sys.exec w1 (Sys.mkTx Demo.admin 1800000000 (Sys.VerifyProperty 0)) = Ok w1
    /\ PT.isActive (PT.getProperty (Sys.pt w1) 0) = true
    /\ PT.isVerified (PT.getProperty (Sys.pt w1) 0) = true.
Proof.
  apply (C8_verifyProperty_idempotent Demo.w_sold Demo.admin 1700000000
           1800000000 0).
  - vm_compute. reflexivity.
  - vm_compute. reflexivity.
Defined.

(** ** Runs *)

Lemma valid_txb_true w tx : Sys.valid_txb w tx = true -> Sys.valid_tx w tx.
Proof.
  unfold Sys.valid_txb, Sys.valid_tx, Sys.eoa.
  rewrite !andb_true_iff, !negb_true_iff, !N.eqb_neq, N.leb_le. tauto.
Qed.

Lemma reachable_apply_tx w tx :
  Sys.reachable w -> Sys.valid_tx w tx -> Sys.reachable (Sys.apply_tx w tx).
Proof.
  intros Hr Hv. unfold Sys.apply_tx.
  destruct (Sys.exec w tx) as [w'|e] eqn:He; [|exact Hr].
  by apply (Sys.reach_step w w' tx).
Qed.

Lemma reachable_run w txs :
  Sys.reachable w -> Sys.run_valid w txs = true -> Sys.reachable (Sys.run w txs).
Proof.
  revert w. induction txs as [|tx txs IH]; intros w Hr Hv; [exact Hr|].
  simpl in Hv. apply andb_true_iff in Hv as [Hv1 Hv2].
  unfold Sys.run; simpl. apply IH; [|exact Hv2].
  apply reachable_apply_tx; [exact Hr|]. by apply valid_txb_true.
Qed.

Lemma wf_cfg : Sys.wf_config Demo.cfg.
Proof. repeat split; discriminate. Qed.

Lemma reachable_w_listed : Sys.reachable Demo.w_listed.
Proof.
  apply reachable_run; [apply Sys.reach_init, wf_cfg|]. vm_compute. reflexivity.
Qed.

Lemma reachable_w_sold : Sys.reachable Demo.w_sold.
Proof.
  apply reachable_run; [apply reachable_w_listed|]. vm_compute. reflexivity.
Qed.

Lemma reachable_w_orders : Sys.reachable Demo.w_orders.
Proof.
  apply reachable_run; [apply reachable_w_sold|]. vm_compute. reflexivity.
Qed.

Lemma reachable_w_income : Sys.reachable Demo.w_income.
Proof.
  apply reachable_run; [apply reachable_w_sold|]. vm_compute. reflexivity.
Qed.

Lemma reachable_w_voted : Sys.reachable Demo.w_voted.
Proof.
  apply reachable_run; [apply Sys.reach_init, wf_cfg|]. vm_compute. reflexivity.
Qed.

(** ** Claims about governance *)

(** C5 (as the code has it).  After the voting window, on a proposal not
    yet executed, [executeProposal] records
    [passed = (votesFor + votesAgainst >= quorum) && (votesFor > votesAgainst)]
    where [quorum = totalSupply * QUORUM_PERCENTAGE / 100] is 20% of the
    total supply.  With a supply of 1,000,000 the quorum is 200,000: tallies
    of 60,000 / 20,000 and of 90,000 / 20,000 both resolve to
    [passed = false]; 180,000 / 20,000 resolves to [passed = true]. *)
Theorem C5_executeProposal_quorum_is_20_percent :
  (forall tok s sender now pid,
      let p := Gov.getProposal s pid in
      0 < pid -> pid <= Gov.proposalCount s ->
      Gov.endTime p < now -> Gov.executed p = false ->
      Gov.votesFor p + Gov.votesAgainst p <= MAX_UINT256 ->
      HRM.totalSupply tok * Gov.QUORUM_PERCENTAGE <= MAX_UINT256 ->
      Gov.executeProposal tok s sender now pid
      = Ok (Gov.set_proposal pid
              (Gov.set_outcome true
                 ((HRM.totalSupply tok * 20 / 100
                     <=? Gov.votesFor p + Gov.votesAgainst p)
                  && (Gov.votesAgainst p <? Gov.votesFor p)) p) s))
  /\ (forall f a,
        (f, a) = (60000, 20000) \/ (f, a) = (90000, 20000) ->
        exists s',
          Gov.executeProposal (Demo.ledger_of_supply 1000000) (Demo.tally f a)
            Demo.carol 604801 1 = Ok s'
          /\ Gov.executed (Gov.getProposal s' 1) = true
          /\ Gov.passed (Gov.getProposal s' 1) = false)
  /\ (exists s',
        Gov.executeProposal (Demo.ledger_of_supply 1000000)
          (Demo.tally 180000 20000) Demo.carol 604801 1 = Ok s'
        /\ Gov.executed (Gov.getProposal s' 1) = true
        /\ Gov.passed (Gov.getProposal s' 1) = true).
Proof.
  split; [|split].
  - intros tok s sender now pid p Hpos Hle Hend Hex Hv Hq.
    unfold Gov.executeProposal. fold p.
    apply N.ltb_lt in Hpos, Hend. apply N.leb_le in Hle, Hv, Hq.
    unfold U256.add, U256.mul. rewrite Hpos, Hle, Hend, Hex, Hv, Hq. simpl.
    reflexivity.
  - intros f a [[= -> ->]|[= -> ->]]; eexists; (split; [vm_compute; reflexivity|]);
      split; vm_compute; reflexivity.
  - eexists. split; [vm_compute; reflexivity|]. split; vm_compute; reflexivity.
Qed.

Lemma C5_witness :
  Gov.executeProposal (Demo.ledger_of_supply 1000000) (Demo.tally 90000 20000)
    Demo.carol 604801 1
  = Ok (Gov.set_proposal 1
          (Gov.set_outcome true false
             (Gov.getProposal (Demo.tally 90000 20000) 1))
          (Demo.tally 90000 20000)).
Proof.
  apply (proj1 C5_executeProposal_quorum_is_20_percent
           (Demo.ledger_of_supply 1000000) (Demo.tally 90000 20000)
           Demo.carol 604801 1); vm_compute; reflexivity || discriminate.
Defined.

(** The claim as the specification words it (a 10% quorum, 90,000 for and
    20,000 against out of 1,000,000 passing) fails: on the raw tallies, and
    also in a reachable world where the same figures are whole HRM. *)
Lemma C5_counterexample :
  (exists s',
      Gov.executeProposal (Demo.ledger_of_supply 1000000)
        (Demo.tally 90000 20000) Demo.carol 604801 1 = Ok s'
      /\ Gov.passed (Gov.getProposal s' 1) = false
      /\ (1000000 * 1000 / 10000 <=? 90000 + 20000) && (20000 <? 90000) = true)
  /\ (Sys.reachable Demo.w_voted
      /\ HRM.totalSupply (Sys.hrm Demo.w_voted) = 1000000 * ether
      /\ Gov.votesFor (Gov.getProposal (Sys.gov Demo.w_voted) 1) = 90000 * ether
      /\ Gov.votesAgainst (Gov.getProposal (Sys.gov Demo.w_voted) 1)
         = 20000 * ether
      /\ exists w',
          Sys.exec Demo.w_voted
            (Sys.mkTx Demo.carol Demo.after_voting (Sys.ExecuteProposal 1))
          = Ok w'
          /\ Gov.executed (Gov.getProposal (Sys.gov w') 1) = true
          /\ Gov.passed (Gov.getProposal (Sys.gov w') 1) = false).
Proof.
  split.
  - eexists. split; [vm_compute; reflexivity|]. split; vm_compute; reflexivity.
  - split; [apply reachable_w_voted|]. repeat (split; [vm_compute; reflexivity|]).
    eexists. split; [vm_compute; reflexivity|]. split; vm_compute; reflexivity.
Qed.

(** ** Claims about the pause switch *)

Lemma paused_hook s from to amount :
  HRM.paused s = true ->
  HRM._beforeTokenTransfer s from to amount
  = Revert (Require_failed "Pausable: paused").
Proof. intros Hp. unfold HRM._beforeTokenTransfer. by rewrite Hp. Qed.

Lemma not_Ok_Revert {A} (r : result A) :
  (forall a, r <> Ok a) -> exists e, r = Revert e.
Proof. destruct r as [a|e]; [intros H; by destruct (H a) | eauto]. Qed.

Lemma _mint_paused s account amount :
  HRM.paused s = true -> exists e, HRM._mint s account amount = Revert e.
Proof.
  intros Hp. apply not_Ok_Revert. intros s' H. unfold HRM._mint in H.
  apply bind_Ok in H as ([] & _ & H). apply bind_Ok in H as ([] & Hh & _).
  rewrite (paused_hook _ _ _ _ Hp) in Hh. discriminate.
Qed.

Lemma _burn_paused s account amount :
  HRM.paused s = true -> exists e, HRM._burn s account amount = Revert e.
Proof.
  intros Hp. apply not_Ok_Revert. intros s' H. unfold HRM._burn in H.
  apply bind_Ok in H as ([] & _ & H). apply bind_Ok in H as ([] & Hh & _).
  rewrite (paused_hook _ _ _ _ Hp) in Hh. discriminate.
Qed.

Lemma _transfer_paused_Revert s from to amount :
  HRM.paused s = true -> exists e, HRM._transfer s from to amount = Revert e.
Proof.
  intros Hp. apply not_Ok_Revert. by apply _transfer_paused.
Qed.

Lemma _spendAllowance_paused s o sp amount s' :
  HRM._spendAllowance s o sp amount = Ok s' -> HRM.paused s' = HRM.paused s.
Proof.
  unfold HRM._spendAllowance.
  destruct (HRM.allowance s o sp =? MAX_UINT256); [by intros [= <-]|].
  intros H. apply bind_Ok in H as ([] & _ & H). unfold HRM._approve in H.
  apply bind_Ok in H as ([] & _ & H). apply bind_Ok in H as ([] & _ & H).
  by injection H as <-.
Qed.

(** C4 (as the code has it).  While the pause flag is set, [transfer],
    [transferFrom], [mint], [burn] and [burnFrom] all revert, because the
    paused-guarded hook [_beforeTokenTransfer] runs on every balance
    movement, issuing and destroying included; [approve] still succeeds
    whenever neither the owner nor the spender is the zero address. *)
Theorem C4_pause_blocks_every_balance_movement :
  forall s,
    HRM.paused s = true ->
    (forall sender to amount,
        exists e, HRM.transfer s sender to amount = Revert e)
    /\ (forall sender from to amount,
          exists e, HRM.transferFrom s sender from to amount = Revert e)
    /\ (forall sender to amount,
          exists e, HRM.mint s sender to amount = Revert e)
    /\ (forall sender amount, exists e, HRM.burn s sender amount = Revert e)
    /\ (forall sender account amount,
          exists e, HRM.burnFrom s sender account amount = Revert e)
    /\ (forall sender spender amount,
          sender <> address0 -> spender <> address0 ->
          HRM.approve s sender spender amount
          = Ok (HRM.set_allowance sender spender amount s)).
Proof.
  intros s Hp. repeat split.
  - intros sender to amount. by apply _transfer_paused_Revert.
  - intros sender from to amount. apply not_Ok_Revert. intros s' H.
    unfold HRM.transferFrom in H. apply bind_Ok in H as (s1 & Hsp & H).
    apply _spendAllowance_paused in Hsp.
    destruct (_transfer_paused_Revert s1 from to amount) as (e & He);
      congruence.
  - intros sender to amount. apply not_Ok_Revert. intros s' H.
    unfold HRM.mint in H. apply bind_Ok in H as (? & _ & H).
    apply bind_Ok in H as ([] & _ & H).
    destruct (_mint_paused s to amount Hp) as (e & He). congruence.
  - intros sender amount. by apply _burn_paused.
  - intros sender account amount. apply not_Ok_Revert. intros s' H.
    unfold HRM.burnFrom in H. apply bind_Ok in H as (s1 & Hsp & H).
    apply _spendAllowance_paused in Hsp.
    destruct (_burn_paused s1 account amount) as (e & He); congruence.
  - intros sender spender amount Hs Hsp. unfold HRM.approve, HRM._approve.
    apply N.eqb_neq in Hs, Hsp. by rewrite Hs, Hsp.
Qed.

Lemma C4_witness :
  exists sp,
    HRM.pause (HRM.init Demo.admin) Demo.admin = Ok sp
    /\ (exists e, HRM.transfer sp Demo.admin Demo.alice 1 = Revert e)
    /\ HRM.approve sp Demo.alice Demo.registry 5
       = Ok (HRM.set_allowance Demo.alice Demo.registry 5 sp).
Proof.
  eexists. split; [vm_compute; reflexivity|].
  match goal with |- (exists e, HRM.transfer ?sp _ _ _ = _) /\ _ =>
    assert (HRM.paused sp = true) as Hp by (vm_compute; reflexivity);
    pose proof (C4_pause_blocks_every_balance_movement sp Hp)
      as (Ht & _ & _ & _ & _ & Ha)
  end.
  split; [apply Ht|]. apply Ha; discriminate.
Defined.

(** The claim as the specification words it fails: on a paused ledger
    [mint] and [burn] revert although the same calls go through on the
    same ledger before the pause. *)
Lemma C4_counterexample :
  exists sp,
    HRM.pause (HRM.init Demo.admin) Demo.admin = Ok sp
    /\ HRM.paused sp = true
    /\ is_ok (HRM.mint (HRM.init Demo.admin) Demo.alice Demo.alice (5000 * ether))
       = true
    /\ HRM.mint sp Demo.alice Demo.alice (5000 * ether)
       = Revert (Require_failed "Pausable: paused")
    /\ is_ok (HRM.burn (HRM.init Demo.admin) Demo.admin ether) = true
    /\ HRM.burn sp Demo.admin ether = Revert (Require_failed "Pausable: paused").
Proof.
  eexists. split; [vm_compute; reflexivity|].
  repeat split; vm_compute; reflexivity.
Qed.

(** ** Claims about insurance claims *)

Lemma reachable_w_claim : Sys.reachable Demo.w_claim.
Proof.
  apply reachable_run; [apply reachable_w_sold|]. vm_compute. reflexivity.
Qed.

Lemma reachable_w_claim_paused : Sys.reachable Demo.w_claim_paused.
Proof.
  apply reachable_run; [apply reachable_w_claim|]. vm_compute. reflexivity.
Qed.

Lemma exec_processClaim w sender now cid st amt :
  Sys.exec w (Sys.mkTx sender now (Sys.ProcessClaim cid st amt))
  = (let! p := DM.processClaim (Sys.hrm w) (Sys.dm w) sender cid st amt in
     Ok (Sys.with_dm (Sys.with_hrm w p.1) p.2)).
Proof. reflexivity. Qed.

Lemma processClaim_not_pending tok d sender cid st amt :
  DM.status (DM.getClaim d cid) <> DM.PENDING ->
  exists e, DM.processClaim tok d sender cid st amt = Revert e.
Proof.
  intros Hnp. apply not_Ok_Revert. intros [tok' d'] H.
  apply processClaim_Ok in H as (_ & _ & _ & Hp & _). contradiction.
Qed.

(** C6 (as the code has it).  In every reachable world, for a pending claim
    and the administrator calling [processClaim(claimId, APPROVED, amount)]
    with [amount > 0]: the call reverts when the insurance fund is below
    [amount] and also when the token ledger is paused; in every other case
    it succeeds, the claimant's balance grows by exactly [amount], the
    registry's balance and the fund counter both shrink by exactly
    [amount], and the claim ends as PAID with [approvedAmount = amount].
    On a claim that is not pending, [processClaim] reverts whatever the
    caller and the arguments. *)
Theorem C6_processClaim_approved_payout :
  (forall w, Sys.reachable w ->
   forall now cid amt,
     let d := Sys.dm w in
     let c := DM.getClaim d cid in
     let tx := Sys.mkTx (DM.owner d) now (Sys.ProcessClaim cid DM.APPROVED amt) in
     0 < cid -> cid <= DM.insuranceClaimCount d ->
     DM.status c = DM.PENDING -> 0 < amt ->
     (DM.insuranceFund d < amt \/ HRM.paused (Sys.hrm w) = true ->
      exists e, Sys.exec w tx = Revert e)
     /\ (amt <= DM.insuranceFund d -> HRM.paused (Sys.hrm w) = false ->
         exists w',
           Sys.exec w tx = Ok w'
           /\ HRM.balanceOf (Sys.hrm w') (DM.claimant c)
              = HRM.balanceOf (Sys.hrm w) (DM.claimant c) + amt
           /\ HRM.balanceOf (Sys.hrm w') (DM.self d) + amt
              = HRM.balanceOf (Sys.hrm w) (DM.self d)
           /\ DM.insuranceFund (Sys.dm w') + amt = DM.insuranceFund d
           /\ DM.status (DM.getClaim (Sys.dm w') cid) = DM.PAID
           /\ DM.approvedAmount (DM.getClaim (Sys.dm w') cid) = amt))
  /\ (forall w sender now cid st amt,
        DM.status (DM.getClaim (Sys.dm w) cid) <> DM.PENDING ->
        exists e,
          Sys.exec w (Sys.mkTx sender now (Sys.ProcessClaim cid st amt))
          = Revert e).
Proof.
  split.
  - intros w Hreach now cid amt d c tx Hpos Hle Hpend Hamt.
    pose proof (reachable_Inv w Hreach) as Hinv.
    pose proof (inv_hrm w Hinv) as Hh. pose proof (inv_dm w Hinv) as Hd.
    fold d in Hd.
    pose proof (getClaim_Some d cid (dm_claims_listed _ _ Hd cid Hpos Hle)) as Hc.
    fold c in Hc. destruct (dm_claimant _ _ Hd cid c Hc) as (Hc0 & Hcs).
    split.
    + intros Hbad. apply not_Ok_Revert. intros w' H. unfold tx in H.
      rewrite exec_processClaim in H.
      apply bind_Ok in H as ([tok' d'] & H & _). fold d in H.
      apply processClaim_Ok in H as (_ & _ & _ & _ & Hcase). fold c in Hcase.
      destruct Hcase as [(_ & _ & Hfund & Ht & _)|([Hst|Hz] & _)];
        [|congruence|lia].
      destruct Hbad as [Hlt|Hp]; [lia|].
      destruct (_transfer_paused_Revert (Sys.hrm w) (DM.self d) (DM.claimant c)
                  amt Hp) as (e & He).
      unfold HRM.transfer in Ht. congruence.
    + intros Hfund Hp.
      destruct (_transfer_succeeds (Sys.hrm w) (DM.self d) (DM.claimant c) amt)
        as (tok' & Ht); try assumption.
      { apply Hd. }
      { pose proof (dm_funded _ _ Hd). lia. }
      pose proof Ht as Ht'.
      apply _transfer_Ok in Ht' as (_ & _ & _ & _ & Hbal & _); [|exact Hh].
      unfold tx. rewrite exec_processClaim. fold d.
      unfold DM.processClaim, DM.onlyOwner.
      rewrite N.eqb_refl; simpl.
      apply N.ltb_lt in Hpos as Hpos'. apply N.leb_le in Hle as Hle'.
      rewrite Hpos', Hle'; simpl. fold c. rewrite Hpend; simpl.
      apply N.ltb_lt in Hamt as Hamt'. rewrite Hamt'; simpl.
      apply N.leb_le in Hfund as Hfund'. rewrite Hfund'; simpl.
      rewrite !getClaim_set_claim, !decide_True by reflexivity. simpl.
      unfold HRM.transfer in *. rewrite Ht; simpl.
      unfold U256.sub. rewrite Hfund'; simpl.
      eexists. split; [reflexivity|]. simpl.
      rewrite getClaim_set_claim, decide_True by reflexivity. simpl.
      pose proof (Hbal (DM.claimant c)) as B1. pose proof (Hbal (DM.self d)) as B2.
      rewrite decide_False, decide_True in B1 by congruence.
      rewrite decide_True, decide_False in B2 by congruence.
      repeat split; try lia.
      unfold DM.getClaim; simpl. rewrite rd_insert_eq. reflexivity.
  - intros w sender now cid st amt Hnp.
    destruct (processClaim_not_pending (Sys.hrm w) (Sys.dm w) sender cid st amt Hnp)
      as (e & He).
    exists e. rewrite exec_processClaim, He. reflexivity.
Qed.

Lemma C6_witness :
  (exists w',
      Sys.exec Demo.w_claim
        (Sys.mkTx (DM.owner (Sys.dm Demo.w_claim)) 1700000000
           (Sys.ProcessClaim 1 DM.APPROVED 500)) = Ok w'
      /\ HRM.balanceOf (Sys.hrm w') Demo.landlord
         = HRM.balanceOf (Sys.hrm Demo.w_claim) Demo.landlord + 500
      /\ DM.insuranceFund (Sys.dm w') = 500
      /\ DM.status (DM.getClaim (Sys.dm w') 1) = DM.PAID)
  /\ (exists e,
        Sys.exec Demo.w_claim_paused
          (Sys.mkTx (DM.owner (Sys.dm Demo.w_claim_paused)) 1700000000
             (Sys.ProcessClaim 1 DM.APPROVED 500)) = Revert e).
Proof.
  assert (forall a b : N, (a <? b) = true -> a < b) as Hlt
    by (intros a b; apply N.ltb_lt).
  assert (forall a b : N, (a <=? b) = true -> a <= b) as Hle
    by (intros a b; apply N.leb_le).
  split.
  - pose proof (proj1 C6_processClaim_approved_payout Demo.w_claim
                  reachable_w_claim 1700000000 1 500) as H.
    cbv zeta in H. destruct H as (_ & Hpay).
    + apply Hlt. vm_compute. reflexivity.
    + apply Hle. vm_compute. reflexivity.
    + vm_compute. reflexivity.
    + apply Hlt. vm_compute. reflexivity.
    + destruct Hpay as (w' & He & Hc & _ & Hf & Hs & _).
      * apply Hle. vm_compute. reflexivity.
      * vm_compute. reflexivity.
      * exists w'. split; [exact He|]. split; [exact Hc|]. split; [|exact Hs].
        assert (DM.insuranceFund (Sys.dm Demo.w_claim) = 1000) as E
          by (vm_compute; reflexivity).
        rewrite E in Hf. lia.
  - pose proof (proj1 C6_processClaim_approved_payout Demo.w_claim_paused
                  reachable_w_claim_paused 1700000000 1 500) as H.
    cbv zeta in H. destruct H as (Hrev & _).
    + apply Hlt. vm_compute. reflexivity.
    + apply Hle. vm_compute. reflexivity.
    + vm_compute. reflexivity.
    + apply Hlt. vm_compute. reflexivity.
    + apply Hrev. right. vm_compute. reflexivity.
Defined.

(** The claim as the specification words it fails: a pending claim, a fund
    of 1000, an approved amount of 500, and yet no payout, because the
    ledger is paused. *)
Lemma C6_counterexample :
  Sys.reachable Demo.w_claim_paused
  /\ DM.status (DM.getClaim (Sys.dm Demo.w_claim_paused) 1) = DM.PENDING
  /\ DM.insuranceFund (Sys.dm Demo.w_claim_paused) = 1000
  /\ Sys.exec Demo.w_claim_paused
       (Demo.tx Demo.admin (Sys.ProcessClaim 1 DM.APPROVED 500))
     = Revert (Require_failed "Pausable: paused")
  /\ Sys.apply_tx Demo.w_claim_paused
       (Demo.tx Demo.admin (Sys.ProcessClaim 1 DM.APPROVED 500))
     = Demo.w_claim_paused.
Proof.
  split; [apply reachable_w_claim_paused|].
  split; [vm_compute; reflexivity|]. split; [vm_compute; reflexivity|].
  split; vm_compute; reflexivity.
Qed.

(** ** Claims about the fee split *)

Lemma reachable_w_treasury_listing : Sys.reachable Demo.w_treasury_listing.
Proof.
  apply reachable_run; [apply reachable_w_sold|]. vm_compute. reflexivity.
Qed.

Lemma purchaseTokens_payment tok s sender now pid tokens tok' s' :
  PT.purchaseTokens tok s sender now pid tokens = Ok (tok', s') ->
  let p := PT.getProperty s pid in
  let cost := tokens * PT.tokenPrice p in
  let fee := platform_fee (PT.platformFeePercent s) cost in
  let net := cost - fee in
  cost <= MAX_UINT256 /\ fee + net = cost
  /\ exists tok1 tok2,
       HRM.transferFrom tok (PT.self s) sender (PT.self s) cost = Ok tok1
       /\ HRM.transfer tok1 (PT.self s) (PT.feeRecipient s) fee = Ok tok2
       /\ HRM.transfer tok2 (PT.self s) (PT.propertyOwner p) net = Ok tok'.
Proof.
  intros H p cost fee net. unfold PT.purchaseTokens in H.
  do 4 (apply bind_Ok in H as ([] & _ & H)).
  apply bind_Ok in H as (cost' & Hc & H). apply U256_mul_Ok in Hc as [-> Hc].
  do 2 (apply bind_Ok in H as ([] & _ & H)).
  apply bind_Ok in H as (sc & Hsc & H). apply U256_mul_Ok in Hsc as [-> _].
  apply bind_Ok in H as (fee' & Hf & H). apply U256_div_Ok in Hf as [-> _].
  apply bind_Ok in H as (net' & Hn & H). apply U256_sub_Ok in Hn as [-> Hn].
  apply bind_Ok in H as (tok1 & H1 & H).
  apply bind_Ok in H as (tok2 & H2 & H).
  apply bind_Ok in H as (tok3 & H3 & H).
  apply bind_Ok in H as (s1 & _ & H).
  apply bind_Ok in H as (avail & _ & H). injection H as <- <-.
  fold p in Hc, Hn, H1, H2, H3. fold cost in Hc, Hn, H1, H2, H3.
  split; [exact Hc|]. split; [unfold net, fee, platform_fee; lia|].
  exists tok1, tok2. auto.
Qed.

Lemma exec_purchaseTokens w sender now pid tokens :
  Sys.exec w (Sys.mkTx sender now (Sys.PurchaseTokens pid tokens))
  = (let! p := PT.purchaseTokens (Sys.hrm w) (Sys.pt w) sender now pid tokens in
     Ok (Sys.with_pt (Sys.with_hrm w p.1) p.2)).
Proof. reflexivity. Qed.

(** C7 (as the code has it).  In every reachable world, a successful
    purchase or order fulfilment of cost [C] computes
    [fee = floor(C * feeBps / 10000)] and [net = C - fee], so that
    [fee + net = C]; every account's balance then changes by exactly
    [+ fee] if it is the fee recipient, [+ net] if it is the property owner
    (the seller, for a fulfilment) and [- C] if it is the buyer.  So the
    fee recipient gains exactly [fee] when it is neither the buyer nor the
    owner/seller, and the owner/seller gains exactly [net] when it is
    neither the buyer nor the fee recipient. *)
Theorem C7_fee_split_exact :
  forall w, Sys.reachable w ->
    (forall sender now pid tokens w',
        Sys.exec w (Sys.mkTx sender now (Sys.PurchaseTokens pid tokens)) = Ok w' ->
        let p := PT.getProperty (Sys.pt w) pid in
        let C := tokens * PT.tokenPrice p in
        let fee := platform_fee (PT.platformFeePercent (Sys.pt w)) C in
        let net := C - fee in
        let r := PT.feeRecipient (Sys.pt w) in
        let o := PT.propertyOwner p in
        let bal := HRM.balanceOf (Sys.hrm w) in
        let bal' := HRM.balanceOf (Sys.hrm w') in
        fee + net = C
        /\ (forall a, bal' a + (if decide (a = sender) then C else 0)
                      = bal a + (if decide (a = r) then fee else 0)
                        + (if decide (a = o) then net else 0))
        /\ (r <> sender -> r <> o -> bal' r = bal r + fee)
        /\ (o <> sender -> o <> r -> bal' o = bal o + net))
    /\ (forall sender now oid n w',
          Sys.exec w (Sys.mkTx sender now (Sys.BuyFromOrder oid n)) = Ok w' ->
          let ord := PT.getSellOrder (Sys.pt w) oid in
          let C := n * PT.pricePerToken ord in
          let fee := platform_fee (PT.platformFeePercent (Sys.pt w)) C in
          let net := C - fee in
          let r := PT.feeRecipient (Sys.pt w) in
          let o := PT.seller ord in
          let bal := HRM.balanceOf (Sys.hrm w) in
          let bal' := HRM.balanceOf (Sys.hrm w') in
          fee + net = C
          /\ (forall a, bal' a + (if decide (a = sender) then C else 0)
                        = bal a + (if decide (a = r) then fee else 0)
                          + (if decide (a = o) then net else 0))
          /\ (r <> sender -> r <> o -> bal' r = bal r + fee)
          /\ (o <> sender -> o <> r -> bal' o = bal o + net)).
Proof.
  intros w Hreach. pose proof (inv_hrm w (reachable_Inv w Hreach)) as Hh.
  assert (Hgen : forall (C fee net : N) sender r o tok',
    (forall a, HRM.balanceOf tok' a + (if decide (a = sender) then C else 0)
               = HRM.balanceOf (Sys.hrm w) a + (if decide (a = r) then fee else 0)
                 + (if decide (a = o) then net else 0)) ->
    (r <> sender -> r <> o ->
     HRM.balanceOf tok' r = HRM.balanceOf (Sys.hrm w) r + fee)
    /\ (o <> sender -> o <> r ->
        HRM.balanceOf tok' o = HRM.balanceOf (Sys.hrm w) o + net)).
  { intros C fee net sender r o tok' Hb. split; intros H1 H2.
    - specialize (Hb r). repeat case_decide; try congruence; lia.
    - specialize (Hb o). repeat case_decide; try congruence; lia. }
  split.
  - intros sender now pid tokens w' He p C fee net r o bal bal'.
    rewrite exec_purchaseTokens in He.
    apply bind_Ok in He as ([tok' s'] & Hp & He). injection He as <-.
    apply purchaseTokens_payment in Hp
      as (Hc & Hsplit & tok1 & tok2 & H1 & H2 & H3).
    destruct (payment_Ok _ _ _ _ _ _ _ _ _ _ _ Hh Hc Hsplit H1 H2 H3)
      as (_ & _ & _ & _ & _ & _ & _ & Hbal & _).
    split; [exact Hsplit|]. split; [exact Hbal|]. by apply (Hgen C).
  - intros sender now oid n w' He ord C fee net r o bal bal'.
    rewrite exec_buyFromOrder in He.
    apply bind_Ok in He as ([tok' s'] & Hb & He). injection He as <-.
    destruct (buyFromOrder_Ok _ _ _ _ _ _ _ _ Hb)
      as (_ & _ & _ & _ & _ & _ & Hc & _ & Hsplit
          & (tok1 & tok2 & H1 & H2 & H3) & _).
    destruct (payment_Ok _ _ _ _ _ _ _ _ _ _ _ Hh Hc Hsplit H1 H2 H3)
      as (_ & _ & _ & _ & _ & _ & _ & Hbal & _).
    split; [exact Hsplit|]. split; [exact Hbal|]. by apply (Hgen C).
Qed.

Lemma C7_witness :
  exists w',
    Sys.exec Demo.w_sold (Demo.tx Demo.carol (Sys.PurchaseTokens 0 150)) = Ok w'
    /\ HRM.balanceOf (Sys.hrm w') Demo.treasury
       = HRM.balanceOf (Sys.hrm Demo.w_sold) Demo.treasury
         + platform_fee 250 (150 * ether)
    /\ HRM.balanceOf (Sys.hrm w') Demo.landlord
       = HRM.balanceOf (Sys.hrm Demo.w_sold) Demo.landlord
         + (150 * ether - platform_fee 250 (150 * ether)).
Proof.
  assert (exists w',
    Sys.exec Demo.w_sold (Demo.tx Demo.carol (Sys.PurchaseTokens 0 150)) = Ok w')
    as (w' & He) by (eexists; vm_compute; reflexivity).
  pose proof (proj1 (C7_fee_split_exact Demo.w_sold reachable_w_sold)
                Demo.carol 1700000000 0 150 w' He) as H.
  cbv zeta in H. destruct H as (_ & _ & Hr & Ho).
  exists w'. split; [exact He|]. split.
  - apply Hr; vm_compute; discriminate.
  - apply Ho; vm_compute; discriminate.
Defined.

(** The claim as the specification words it fails when the fee recipient
    is also the owner of the property being bought: it then gains the whole
    cost, not the fee. *)
Lemma C7_counterexample :
  Sys.reachable Demo.w_treasury_listing
  /\ PT.feeRecipient (Sys.pt Demo.w_treasury_listing) = Demo.treasury
  /\ PT.propertyOwner (PT.getProperty (Sys.pt Demo.w_treasury_listing) 1)
     = Demo.treasury
  /\ platform_fee (PT.platformFeePercent (Sys.pt Demo.w_treasury_listing))
       (200 * ether) = 5 * ether
  /\ exists w',
       Sys.exec Demo.w_treasury_listing
         (Demo.tx Demo.alice (Sys.PurchaseTokens 1 200)) = Ok w'
       /\ HRM.balanceOf (Sys.hrm w') Demo.treasury
          = HRM.balanceOf (Sys.hrm Demo.w_treasury_listing) Demo.treasury
            + 200 * ether
       /\ HRM.balanceOf (Sys.hrm w') Demo.treasury
          <> HRM.balanceOf (Sys.hrm Demo.w_treasury_listing) Demo.treasury
             + 5 * ether.
Proof.
  split; [apply reachable_w_treasury_listing|].
  split; [vm_compute; reflexivity|]. split; [vm_compute; reflexivity|].
  split; [vm_compute; reflexivity|].
  eexists. split; [vm_compute; reflexivity|].
  split; [vm_compute; reflexivity|]. vm_compute. discriminate.
Qed.

(** ** Claims about share purchases *)

Lemma transferFrom_succeeds s sender from to amount :
  from <> address0 -> to <> address0 -> sender <> address0 ->
  HRM.paused s = false ->
  amount <= HRM.balanceOf s from -> amount <= HRM.allowance s from sender ->
  exists s', HRM.transferFrom s sender from to amount = Ok s'.
Proof.
  intros Hf Ht Hs Hp Hb Ha. unfold HRM.transferFrom, HRM._spendAllowance.
  destruct (HRM.allowance s from sender =? MAX_UINT256); simpl.
  - by apply _transfer_succeeds.
  - apply N.leb_le in Ha as Ha'. rewrite Ha'; simpl. unfold HRM._approve.
    apply N.eqb_neq in Hf as Hf', Hs as Hs'. rewrite Hf', Hs'; simpl.
    by apply _transfer_succeeds.
Qed.

Lemma payment_succeeds tok self payer r1 r2 cost fee net :
  HRM_inv tok -> cost <= MAX_UINT256 -> fee + net = cost ->
  payer <> address0 -> self <> address0 -> payer <> self ->
  r1 <> address0 -> r2 <> address0 ->
  HRM.paused tok = false ->
  cost <= HRM.balanceOf tok payer -> cost <= HRM.allowance tok payer self ->
  exists tok1 tok2 tok3,
    HRM.transferFrom tok self payer self cost = Ok tok1
    /\ HRM.transfer tok1 self r1 fee = Ok tok2
    /\ HRM.transfer tok2 self r2 net = Ok tok3.
Proof.
  intros Hinv Hr Hsplit Hp0 Hs0 Hps Hr1 Hr2 Hpa Hb Ha.
  destruct (transferFrom_succeeds tok self payer self cost) as (tok1 & H1);
    try assumption.
  pose proof H1 as H1'.
  apply transferFrom_Ok in H1'
    as (_ & _ & _ & _ & _ & Hbal1 & _ & _ & Hpa1 & _ & Hinv1); try assumption.
  pose proof (Hbal1 self) as B1.
  rewrite decide_False, decide_True in B1 by congruence.
  destruct (_transfer_succeeds tok1 self r1 fee) as (tok2 & H2);
    try assumption; [congruence|lia|].
  pose proof H2 as H2'.
  apply _transfer_Ok in H2' as (_ & _ & _ & _ & Hbal2 & _ & _ & Hpa2 & _);
    [|exact Hinv1].
  pose proof (Hbal2 self) as B2. rewrite decide_True in B2 by reflexivity.
  destruct (_transfer_succeeds tok2 self r2 net) as (tok3 & H3);
    try assumption; [congruence| |].
  { case_decide; lia. }
  exists tok1, tok2, tok3. auto.
Qed.

Lemma purchaseTokens_checks tok s sender now pid tokens tok' s' :
  PT.purchaseTokens tok s sender now pid tokens = Ok (tok', s') ->
  let p := PT.getProperty s pid in
  let cost := tokens * PT.tokenPrice p in
  let net := cost - platform_fee (PT.platformFeePercent s) cost in
  pid < PT.tokenIdCounter s /\ PT.isActive p = true
  /\ tokens <= PT.availableTokens p
  /\ PT.MIN_INVESTMENT <= cost /\ cost <= HRM.balanceOf tok sender
  /\ PT.investmentAmount (PT.getInvestment s pid sender) + net <= MAX_UINT256.
Proof.
  intros H p cost net.
  pose proof (purchaseTokens_payment _ _ _ _ _ _ _ _ H) as (_ & _ & _).
  unfold PT.purchaseTokens in H.
  apply bind_Ok in H as ([] & Hex & H). apply require_Ok, N.ltb_lt in Hex.
  apply bind_Ok in H as ([] & Hact & H). apply require_Ok in Hact.
  apply bind_Ok in H as ([] & _ & H).
  apply bind_Ok in H as ([] & Hav & H). apply require_Ok, N.leb_le in Hav.
  apply bind_Ok in H as (cost' & Hc & H). apply U256_mul_Ok in Hc as [-> Hc].
  apply bind_Ok in H as ([] & Hmin & H). apply require_Ok, N.leb_le in Hmin.
  apply bind_Ok in H as ([] & Hbal & H). apply require_Ok, N.leb_le in Hbal.
  apply bind_Ok in H as (sc & Hsc & H). apply U256_mul_Ok in Hsc as [-> _].
  apply bind_Ok in H as (fee' & Hf & H). apply U256_div_Ok in Hf as [-> _].
  apply bind_Ok in H as (net' & Hn & H). apply U256_sub_Ok in Hn as [-> _].
  do 3 (apply bind_Ok in H as (? & _ & H)).
  apply bind_Ok in H as (s1 & Hcr & _).
  unfold PT.credit_investment in Hcr.
  apply bind_Ok in Hcr as (? & _ & Hcr).
  apply bind_Ok in Hcr as (paid & Hpaid & _).
  apply U256_add_Ok in Hpaid as [_ Hpaid].
  assert (PT.investmentAmount (PT.getInvestment s pid sender) + net
          <= MAX_UINT256) as Hamt.
  { revert Hpaid. by case_match. }
  repeat split; assumption.
Qed.

Lemma bind_of_Ok {A B} (m : result A) (k : A -> result B) (a : A) :
  m = Ok a -> bind m k = k a.
Proof. by intros ->. Qed.

Lemma bind_require {B} (c : bool) (msg : string) (k : unit -> result B) :
  c = true -> bind (require c msg) k = k tt.
Proof. by intros ->. Qed.

Lemma credit_investment_succeeds s now pid who tokens net :
  PT.tokensOwned (PT.getInvestment s pid who) + tokens <= MAX_UINT256 ->
  PT.investmentAmount (PT.getInvestment s pid who) + net <= MAX_UINT256 ->
  exists s1,
    PT.credit_investment s now pid who tokens net = Ok s1
    /\ PT.properties s1 = PT.properties s.
Proof.
  intros Ho Hp. unfold PT.credit_investment.
  set (s1 := if PT.investor (PT.getInvestment s pid who) =? address0
             then PT.push_investorProperty who pid
                    (PT.push_propertyInvestor pid who s)
             else s).
  assert (PT.getInvestment s1 pid who = PT.getInvestment s pid who) as ->
    by (unfold s1; by case_match).
  assert (PT.properties s1 = PT.properties s) as Hprops
    by (unfold s1; by case_match).
  rewrite (bind_of_Ok _ _ _ (proj2 (U256_add_Ok _ _ _) (conj eq_refl Ho))).
  rewrite (bind_of_Ok _ _ _ (proj2 (U256_add_Ok _ _ _) (conj eq_refl Hp))).
  eexists. split; [reflexivity|]. exact Hprops.
Qed.

Lemma MIN_INVESTMENT_pos : 0 < PT.MIN_INVESTMENT.
Proof. vm_compute. reflexivity. Qed.

Lemma purchaseTokens_succeeds tok s sender now pid tokens :
  HRM_inv tok -> PT_inv s -> sender <> address0 -> sender <> PT.self s ->
  let p := PT.getProperty s pid in
  let cost := tokens * PT.tokenPrice p in
  let net := cost - platform_fee (PT.platformFeePercent s) cost in
  pid < PT.tokenIdCounter s -> PT.isActive p = true ->
  tokens <= PT.availableTokens p ->
  PT.MIN_INVESTMENT <= cost -> cost <= HRM.balanceOf tok sender ->
  cost <= HRM.allowance tok sender (PT.self s) ->
  HRM.paused tok = false -> PT.feeRecipient s <> address0 ->
  PT.investmentAmount (PT.getInvestment s pid sender) + net <= MAX_UINT256 ->
  exists tok' s', PT.purchaseTokens tok s sender now pid tokens = Ok (tok', s').
Proof.
  intros Hh Hinv Hs0 Hss p cost net Hex Hact Hav Hmin Hbal Hal Hpa Hfr Hamt.
  pose proof (getProperty_Some s pid (pt_listed s Hinv pid Hex)) as Hp.
  fold p in Hp.
  destruct (pt_property s Hinv pid p Hp) as (Htot & Hval & Hprice & Ho0 & _).
  pose proof (pt_conservation s Hinv pid p Hp) as Hcons.
  pose proof (pt_fee_cap s Hinv) as Hfee.
  pose proof MIN_INVESTMENT_pos as Hmin0.
  pose proof MAX_SUPPLY_fits as Hfits.
  pose proof (balanceOf_le_supply tok sender Hh) as Hsup.
  destruct Hh as [Hsum Hcap]. pose proof (conj Hsum Hcap) as Hh.
  assert (0 < tokens) as Hpos by (unfold cost in Hmin; nia).
  assert (0 < PT.tokenPrice p) as Hpr by (unfold cost in Hmin; nia).
  assert (PT.totalTokens p <= MAX_UINT256) as Htotal by nia.
  assert (cost <= MAX_UINT256) as Hc by (unfold cost; nia).
  assert (cost * PT.platformFeePercent s <= MAX_UINT256) as Hsc by nia.
  assert (platform_fee (PT.platformFeePercent s) cost <= cost) as Hfle.
  { apply fee_le. lia. }
  assert (platform_fee (PT.platformFeePercent s) cost + net = cost) as Hsplit
    by (unfold net; lia).
  destruct (payment_succeeds tok (PT.self s) sender (PT.feeRecipient s)
              (PT.propertyOwner p) cost
              (platform_fee (PT.platformFeePercent s) cost) net)
    as (tok1 & tok2 & tok3 & H1 & H2 & H3); try assumption.
  { apply Hinv. }
  assert (PT.tokensOwned (PT.getInvestment s pid sender) + tokens
          <= MAX_UINT256) as Hown.
  { pose proof (sumN_rd_le PT.tokensOwned (PT.holdings s pid) sender
                  PT.Investment0 eq_refl) as Hle.
    unfold PT.getInvestment. lia. }
  destruct (credit_investment_succeeds s now pid sender tokens net Hown Hamt)
    as (s1 & Hcr & Hprops).
  assert (PT.getProperty s1 pid = p) as Hp1.
  { unfold PT.getProperty. by rewrite Hprops. }
  unfold PT.purchaseTokens, PT.propertyExists, PT.propertyActive.
  fold p.
  rewrite (bind_require _ _ _ (proj2 (N.ltb_lt _ _) Hex)).
  rewrite (bind_require _ _ _ Hact).
  rewrite (bind_require _ _ _ (proj2 (N.ltb_lt _ _) Hpos)).
  rewrite (bind_require _ _ _ (proj2 (N.leb_le _ _) Hav)).
  rewrite (bind_of_Ok _ _ cost (proj2 (U256_mul_Ok _ _ _) (conj eq_refl Hc))).
  rewrite (bind_require _ _ _ (proj2 (N.leb_le _ _) Hmin)).
  rewrite (bind_require _ _ _ (proj2 (N.leb_le _ _) Hbal)).
  rewrite (bind_of_Ok _ _ _ (proj2 (U256_mul_Ok _ _ _) (conj eq_refl Hsc))).
  unfold U256.div at 1. simpl (10000 =? 0). cbv iota.
  rewrite (bind_of_Ok _ _ (platform_fee (PT.platformFeePercent s) cost)
             eq_refl).
  rewrite (bind_of_Ok _ _ net (proj2 (U256_sub_Ok _ _ _) (conj eq_refl Hfle))).
  rewrite (bind_of_Ok _ _ _ H1), (bind_of_Ok _ _ _ H2), (bind_of_Ok _ _ _ H3).
  rewrite (bind_of_Ok _ _ _ Hcr). rewrite Hp1.
  rewrite (bind_of_Ok _ _ _ (proj2 (U256_sub_Ok _ _ _) (conj eq_refl Hav))).
  eauto.
Qed.

(** C2 (as the code has it).  [purchaseTokens] fails whenever the property
    is inactive, the requested share count exceeds [availableTokens], the
    cost [tokens * tokenPrice] is below [MIN_INVESTMENT], or the buyer's
    balance is below the cost; a failed call leaves the whole world,
    balances, available shares and holdings included, exactly as it was.
    These four are not the only failures: in a reachable world the call
    of an externally owned account fails exactly when the property does not
    exist or is inactive, the share count exceeds the available shares, the
    cost is below the floor, the buyer's balance or the buyer's allowance
    to the registry is below the cost, the ledger is paused, the fee
    recipient is the zero address, or the buyer's cumulative
    [investmentAmount] would overflow. *)
Theorem C2_purchaseTokens_failure :
  (forall w sender now pid tokens,
      let p := PT.getProperty (Sys.pt w) pid in
      let cost := tokens * PT.tokenPrice p in
      PT.isActive p = false \/ PT.availableTokens p < tokens
      \/ cost < PT.MIN_INVESTMENT \/ HRM.balanceOf (Sys.hrm w) sender < cost ->
      exists e,
        Sys.exec w (Sys.mkTx sender now (Sys.PurchaseTokens pid tokens))
        = Revert e)
  /\ (forall w sender now pid tokens e,
        let tx := Sys.mkTx sender now (Sys.PurchaseTokens pid tokens) in
        Sys.exec w tx = Revert e ->
        Sys.apply_tx w tx = w)
  /\ (forall w, Sys.reachable w ->
      forall sender now pid tokens,
        Sys.eoa w sender ->
        let p := PT.getProperty (Sys.pt w) pid in
        let cost := tokens * PT.tokenPrice p in
        let net := cost - platform_fee (PT.platformFeePercent (Sys.pt w)) cost in
        (exists e,
            Sys.exec w (Sys.mkTx sender now (Sys.PurchaseTokens pid tokens))
            = Revert e)
        <-> (PT.tokenIdCounter (Sys.pt w) <= pid
             \/ PT.isActive p = false
             \/ PT.availableTokens p < tokens
             \/ cost < PT.MIN_INVESTMENT
             \/ HRM.balanceOf (Sys.hrm w) sender < cost
             \/ HRM.allowance (Sys.hrm w) sender (PT.self (Sys.pt w)) < cost
             \/ HRM.paused (Sys.hrm w) = true
             \/ PT.feeRecipient (Sys.pt w) = address0
             \/ MAX_UINT256
                < PT.investmentAmount (PT.getInvestment (Sys.pt w) pid sender)
                  + net)).
Proof.
  assert (Hfail : forall w sender now pid tokens,
    (forall tok' s',
        PT.purchaseTokens (Sys.hrm w) (Sys.pt w) sender now pid tokens
        <> Ok (tok', s')) ->
    exists e,
      Sys.exec w (Sys.mkTx sender now (Sys.PurchaseTokens pid tokens)) = Revert e).
  { intros w sender now pid tokens Hno. apply not_Ok_Revert. intros w' He.
    rewrite exec_purchaseTokens in He.
    apply bind_Ok in He as ([tok' s'] & Hp & _). by apply (Hno tok' s'). }
  split; [|split].
  - intros w sender now pid tokens p cost Hbad. apply Hfail. intros tok' s' H.
    apply purchaseTokens_checks in H as (_ & Hact & Hav & Hmin & Hbal & _).
    fold p in Hact, Hav, Hmin, Hbal. fold cost in Hmin, Hbal.
    destruct Hbad as [Hb|[Hb|[Hb|Hb]]]; [congruence|lia|lia|lia].
  - intros w sender now pid tokens e tx He. by apply (apply_tx_Revert _ _ e).
  - intros w Hreach sender now pid tokens (Hs0 & Hss & _) p cost net.
    pose proof (reachable_Inv w Hreach) as Hinv.
    pose proof (inv_hrm w Hinv) as Hh. pose proof (inv_pt w Hinv) as Hp.
    split.
    + intros (e & He).
      destruct (N.le_gt_cases (PT.tokenIdCounter (Sys.pt w)) pid) as [?|Hex];
        [tauto|].
      destruct (PT.isActive p) eqn:Hact; [|tauto].
      destruct (N.lt_ge_cases (PT.availableTokens p) tokens) as [?|Hav]; [tauto|].
      destruct (N.lt_ge_cases cost PT.MIN_INVESTMENT) as [?|Hmin]; [tauto|].
      destruct (N.lt_ge_cases (HRM.balanceOf (Sys.hrm w) sender) cost)
        as [?|Hbal]; [tauto|].
      destruct (N.lt_ge_cases
                  (HRM.allowance (Sys.hrm w) sender (PT.self (Sys.pt w))) cost)
        as [?|Hal]; [tauto|].
      destruct (HRM.paused (Sys.hrm w)) eqn:Hpa; [tauto|].
      destruct (N.eq_dec (PT.feeRecipient (Sys.pt w)) address0) as [?|Hfr];
        [tauto|].
      destruct (N.lt_ge_cases MAX_UINT256
                  (PT.investmentAmount (PT.getInvestment (Sys.pt w) pid sender)
                   + net)) as [?|Hamt]; [tauto|].
      exfalso.
      destruct (purchaseTokens_succeeds (Sys.hrm w) (Sys.pt w) sender now pid
                  tokens Hh Hp Hs0 Hss Hex Hact Hav Hmin Hbal Hal Hpa Hfr Hamt)
        as (tok' & s' & Hok).
      rewrite exec_purchaseTokens, Hok in He. discriminate.
    + intros Hbad. apply Hfail. intros tok' s' H.
      pose proof (purchaseTokens_checks _ _ _ _ _ _ _ _ H)
        as (Hex & Hact & Hav & Hmin & Hbal & Hamt).
      apply purchaseTokens_payment in H
        as (Hc & Hsplit & tok1 & tok2 & H1 & H2 & H3).
      destruct (payment_Ok _ _ _ _ _ _ _ _ _ _ _ Hh Hc Hsplit H1 H2 H3)
        as (Hpa & _ & _ & Hfr & _ & _ & Hal & _).
      fold p in Hact, Hav, Hmin, Hbal, Hamt, Hal.
      fold cost in Hmin, Hbal, Hamt, Hal. fold net in Hamt.
      destruct Hbad as [?|[?|[?|[?|[?|[?|[?|[?|?]]]]]]]];
        try congruence; lia.
Qed.

Lemma C2_witness :
  (exists e,
      Sys.exec Demo.w_sold (Demo.tx Demo.bob (Sys.PurchaseTokens 0 5000))
      = Revert e)
  /\ (exists e,
        Sys.exec Demo.w_listed (Demo.tx Demo.alice (Sys.PurchaseTokens 0 200))
        = Revert e).
Proof.
  split.
  - apply (proj1 C2_purchaseTokens_failure Demo.w_sold Demo.bob 1700000000 0 5000).
    right. left. vm_compute. reflexivity.
  - apply (proj2 (proj2 C2_purchaseTokens_failure) Demo.w_listed
             reachable_w_listed Demo.alice 1700000000 0 200).
    + repeat split; discriminate.
    + do 5 right. left. vm_compute. reflexivity.
Defined.

(** The claim as the specification words it ("fails exactly when") fails:
    the property is active, 200 shares are available, the cost of 200 HRM
    is above the floor and within alice's balance of 1000 HRM, and still the
    purchase reverts, because alice never approved the registry. *)
Lemma C2_counterexample :
  let w := Demo.w_listed in
  let p := PT.getProperty (Sys.pt w) 0 in
  Sys.reachable w
  /\ PT.isActive p = true
  /\ 200 <= PT.availableTokens p
  /\ PT.MIN_INVESTMENT <= 200 * PT.tokenPrice p
  /\ 200 * PT.tokenPrice p <= HRM.balanceOf (Sys.hrm w) Demo.alice
  /\ Sys.exec w (Demo.tx Demo.alice (Sys.PurchaseTokens 0 200))
     = Revert (Require_failed "ERC20: insufficient allowance").
Proof.
  cbv zeta. split; [apply reachable_w_listed|].
  split; [vm_compute; reflexivity|]. split; [vm_compute; discriminate|].
  split; [vm_compute; discriminate|]. split; [vm_compute; discriminate|].
  vm_compute. reflexivity.
Qed.

(** ** Claims about rental income *)

Lemma payout_eq s pid I D a :
  payout s pid I D a = I * PT.tokensOwned (PT.getInvestment s pid a) / D.
Proof.
  unfold payout. destruct (N.ltb_spec 0 (PT.tokensOwned (PT.getInvestment s pid a)));
    [reflexivity|].
  assert (PT.tokensOwned (PT.getInvestment s pid a) = 0) as -> by lia.
  rewrite N.mul_0_r. symmetry. apply N.Div0.div_0_l.
Qed.

Lemma sum_floor_le (I D : N) {A} (f : A -> N) (l : list A) :
  sum_list_N (fun x => I * f x / D) l <= I * sum_list_N f l / D.
Proof.
  destruct (N.eq_dec D 0) as [->|HD].
  - assert (sum_list_N (fun x => I * f x / 0) l = 0) as ->; [|apply N.le_0_l].
    induction l as [|x l IH]; [reflexivity|]. simpl.
    rewrite IH. by destruct (I * f x).
  - induction l as [|x l IH]; simpl.
    + apply N.le_0_l.
    + apply N.div_le_lower_bound; [exact HD|].
      pose proof (N.Div0.mul_div_le (I * f x) D).
      pose proof (N.Div0.mul_div_le (I * sum_list_N f l) D).
      nia.
Qed.

Lemma total_paid_le s pid I l :
  PT_inv s -> l = PT.getPropertyInvestors s pid ->
  forall p, PT.properties s !! pid = Some p ->
  total_paid s pid I (PT.totalTokens p - PT.availableTokens p) l <= I.
Proof.
  intros Hinv -> p Hp. unfold total_paid.
  set (D := PT.totalTokens p - PT.availableTokens p).
  destruct (pt_index s Hinv pid) as (Hnd & Hdom & _).
  pose proof (sumN_enum PT.tokensOwned (PT.holdings s pid) PT.Investment0
                (PT.getPropertyInvestors s pid) Hnd Hdom) as Hsum.
  pose proof (pt_conservation s Hinv pid p Hp) as Hcons.
  assert (forall l,
    sum_list_N (payout s pid I D) l
    = sum_list_N (fun a => I * PT.tokensOwned (PT.getInvestment s pid a) / D) l)
    as ->.
  { induction l as [|x l IH]; [reflexivity|].
    simpl. by rewrite IH, payout_eq. }
  etransitivity; [apply sum_floor_le|].
  unfold PT.getInvestment. rewrite Hsum.
  replace (sumN PT.tokensOwned (PT.holdings s pid)) with D by (unfold D; lia).
  destruct (N.eq_dec D 0) as [->|HD].
  - rewrite N.mul_0_r. simpl. apply N.le_0_l.
  - rewrite N.div_mul by exact HD. reflexivity.
Qed.

Lemma exec_distribute w sender now pid I :
  Sys.exec w (Sys.mkTx sender now (Sys.DistributeRentalIncome pid I))
  = (let! t := PT.distributeRentalIncome (Sys.hrm w) (Sys.pt w) sender pid I in
     Ok (Sys.with_hrm w t)).
Proof. reflexivity. Qed.

(** C3.  In every reachable world, a successful
    [distributeRentalIncome(propertyId, totalIncome)] credits every investor
    of the property's index who holds shares with exactly
    [floor(totalIncome * tokensOwned / (totalTokens - availableTokens))];
    the index has no repetition, so nobody is paid twice; accounts outside
    the index or without shares get nothing; the registry is debited the
    sum of the payouts, which never exceeds [totalIncome].  With 300 sold
    shares held 200 / 100 and an income of 1000 the payouts are 666 and
    333. *)
Theorem C3_distributeRentalIncome_pro_rata :
  (forall w, Sys.reachable w ->
   forall sender now pid totalIncome w',
     Sys.exec w (Sys.mkTx sender now (Sys.DistributeRentalIncome pid totalIncome))
     = Ok w' ->
     let p := PT.getProperty (Sys.pt w) pid in
     let sold := PT.totalTokens p - PT.availableTokens p in
     let index := PT.getPropertyInvestors (Sys.pt w) pid in
     let bal := HRM.balanceOf (Sys.hrm w) in
     let bal' := HRM.balanceOf (Sys.hrm w') in
     let paid := total_paid (Sys.pt w) pid totalIncome sold index in
     NoDup index
     /\ (forall a, a ∈ index -> 0 < owned w pid a ->
           bal' a = bal a + totalIncome * owned w pid a / sold)
     /\ (forall a, a <> PT.self (Sys.pt w) -> a ∉ index \/ owned w pid a = 0 ->
           bal' a = bal a)
     /\ bal' (PT.self (Sys.pt w)) + paid = bal (PT.self (Sys.pt w))
     /\ paid <= totalIncome
     /\ Sys.pt w' = Sys.pt w)
  /\ (owned Demo.w_income 0 Demo.alice = 200
      /\ owned Demo.w_income 0 Demo.bob = 100
      /\ PT.totalTokens (PT.getProperty (Sys.pt Demo.w_income) 0)
         - PT.availableTokens (PT.getProperty (Sys.pt Demo.w_income) 0) = 300
      /\ exists w',
          Sys.exec Demo.w_income
            (Demo.tx Demo.admin (Sys.DistributeRentalIncome 0 1000)) = Ok w'
          /\ HRM.balanceOf (Sys.hrm w') Demo.alice
             = HRM.balanceOf (Sys.hrm Demo.w_income) Demo.alice + 666
          /\ HRM.balanceOf (Sys.hrm w') Demo.bob
             = HRM.balanceOf (Sys.hrm Demo.w_income) Demo.bob + 333
          /\ HRM.balanceOf (Sys.hrm w') Demo.registry + 999
             = HRM.balanceOf (Sys.hrm Demo.w_income) Demo.registry).
Proof.
  split.
  - intros w Hreach sender now pid I w' He p sold index bal bal' paid.
    pose proof (reachable_Inv w Hreach) as Hinv.
    pose proof (inv_hrm w Hinv) as Hh. pose proof (inv_pt w Hinv) as Hp.
    rewrite exec_distribute in He.
    apply bind_Ok in He as (tok' & Hd & He). injection He as <-.
    apply distributeRentalIncome_Ok in Hd as (_ & Hex & _ & _ & _ & Hloop).
    fold p in Hloop. fold sold in Hloop. fold index in Hloop.
    apply distribute_loop_Ok in Hloop as (Hbal & _); [|exact Hh].
    fold paid in Hbal.
    destruct (pt_index _ Hp pid) as (Hnd & Hdom & Hrec). fold index in Hnd, Hdom.
    assert (Hself : PT.self (Sys.pt w) ∉ index).
    { intros Hin. apply Hdom in Hin as [i Hi].
      destruct (Hrec _ _ Hi) as (_ & _ & Hne). by apply Hne. }
    split; [exact Hnd|]. split; [|split; [|split; [|split]]].
    + intros a Hin Hown. specialize (Hbal a).
      rewrite decide_False in Hbal by (intros ->; contradiction).
      rewrite (received_in _ _ _ _ _ _ Hnd Hin), payout_eq in Hbal.
      unfold bal', bal, owned. simpl. lia.
    + intros a Hne Hout. specialize (Hbal a).
      rewrite decide_False in Hbal by exact Hne.
      assert (received (Sys.pt w) pid I sold index a = 0) as Hz.
      { destruct (decide (a ∈ index)) as [Hin|Hnin].
        - destruct Hout as [?|Hzero]; [contradiction|].
          rewrite (received_in _ _ _ _ _ _ Hnd Hin), payout_eq.
          unfold owned in Hzero. rewrite Hzero, N.mul_0_r.
          apply N.Div0.div_0_l.
        - by apply received_not_in. }
      unfold bal', bal. simpl. lia.
    + specialize (Hbal (PT.self (Sys.pt w))).
      rewrite decide_True in Hbal by reflexivity.
      rewrite (received_not_in _ _ _ _ _ _ Hself) in Hbal.
      unfold bal', bal. simpl. lia.
    + apply (total_paid_le (Sys.pt w) pid I index Hp eq_refl p).
      apply getProperty_Some. by apply (pt_listed _ Hp).
    + reflexivity.
  - split; [vm_compute; reflexivity|]. split; [vm_compute; reflexivity|].
    split; [vm_compute; reflexivity|].
    eexists. split; [vm_compute; reflexivity|].
    split; [vm_compute; reflexivity|]. split; vm_compute; reflexivity.
Qed.

Lemma C3_witness :
  exists w',
    Sys.exec Demo.w_income
      (Demo.tx Demo.admin (Sys.DistributeRentalIncome 0 1000)) = Ok w'
    /\ HRM.balanceOf (Sys.hrm w') Demo.alice
       = HRM.balanceOf (Sys.hrm Demo.w_income) Demo.alice
         + 1000 * owned Demo.w_income 0 Demo.alice / 300.
Proof.
  assert (exists w',
    Sys.exec Demo.w_income
      (Demo.tx Demo.admin (Sys.DistributeRentalIncome 0 1000)) = Ok w')
    as (w' & He) by (eexists; vm_compute; reflexivity).
  pose proof (proj1 C3_distributeRentalIncome_pro_rata Demo.w_income
                reachable_w_income Demo.admin 1700000000 0 1000 w' He) as H.
  cbv zeta in H. destruct H as (_ & Hpaid & _).
  exists w'. split; [exact He|].
  apply (Hpaid Demo.alice).
  - vm_compute. apply list_elem_of_here.
  - vm_compute. reflexivity.
Defined.

(** ** Claims about share conservation *)

Lemma sum_list_insert_out `{Countable K} {V} (f : V -> N) (d x : V)
    (m : gmap K V) (i : K) (l : list K) :
  i ∉ l ->
  sum_list_N (fun k => f (rd d (<[i := x]> m) k)) l
  = sum_list_N (fun k => f (rd d m k)) l.
Proof.
  induction l as [|k l IH]; [reflexivity|]. intros Hn.
  apply not_elem_of_cons in Hn as [Hne Hn]. simpl.
  rewrite IH by exact Hn. by rewrite rd_insert_ne.
Qed.

Lemma sum_list_insert_in `{Countable K} {V} (f : V -> N) (d x : V)
    (m : gmap K V) (i : K) (l : list K) :
  f d = 0 -> m !! i = None -> NoDup l -> i ∈ l ->
  sum_list_N (fun k => f (rd d (<[i := x]> m) k)) l
  = f x + sum_list_N (fun k => f (rd d m k)) l.
Proof.
  intros Hd Hi. induction 1 as [|k l Hk Hnd IH]; intros Hin.
  - by apply elem_of_nil in Hin.
  - simpl. destruct (decide (k = i)) as [->|Hne].
    + rewrite rd_insert_eq, (rd_None _ _ _ Hi), Hd.
      rewrite sum_list_insert_out by exact Hk. lia.
    + apply elem_of_cons in Hin as [->|Hin]; [contradiction|].
      rewrite rd_insert_ne by congruence. rewrite IH by exact Hin. lia.
Qed.

(** A duplicate-free list that contains every key whose value counts sums
    to the same total as the mapping itself. *)
Lemma sumN_cover `{Countable K} {V} (f : V -> N) (d : V) (m : gmap K V)
    (l : list K) :
  f d = 0 -> NoDup l -> (forall k, f (rd d m k) <> 0 -> k ∈ l) ->
  sum_list_N (fun k => f (rd d m k)) l = sumN f m.
Proof.
  intros Hd Hnd. induction m as [|i x m Hi IH] using map_ind; intros Hcov.
  - rewrite sumN_empty. clear Hcov Hnd. induction l as [|k l IHl]; [done|].
    simpl. rewrite IHl. unfold rd. rewrite lookup_empty. simpl. by rewrite Hd.
  - rewrite sumN_insert_None by exact Hi.
    assert (sum_list_N (fun k => f (rd d m k)) l = sumN f m) as <-.
    { apply IH. intros k Hk. apply Hcov.
      destruct (decide (i = k)) as [->|Hne].
      - rewrite (rd_None _ _ _ Hi), Hd in Hk. done.
      - by rewrite rd_insert_ne. }
    destruct (decide (i ∈ l)) as [Hin|Hnin].
    + by apply sum_list_insert_in.
    + rewrite sum_list_insert_out by exact Hnin.
      destruct (N.eq_dec (f x) 0) as [->|Hx]; [reflexivity|].
      exfalso. apply Hnin, Hcov. by rewrite rd_insert_eq.
Qed.

Lemma exec_createSellOrder w sender now pid n price d :
  Sys.exec w (Sys.mkTx sender now (Sys.CreateSellOrder pid n price d))
  = (let! p := PT.createSellOrder (Sys.pt w) sender now pid n price d in
     Ok (Sys.with_pt w p.1)).
Proof. reflexivity. Qed.

Lemma exec_cancelSellOrder w sender now oid :
  Sys.exec w (Sys.mkTx sender now (Sys.CancelSellOrder oid))
  = (let! s := PT.cancelSellOrder (Sys.pt w) sender oid in
     Ok (Sys.with_pt w s)).
Proof. reflexivity. Qed.

(** A fulfilment that meets the conditions of [buyFromOrder] goes
    through. *)
Lemma buyFromOrder_succeeds tok s sender now oid n :
  HRM_inv tok -> PT_inv s -> sender <> address0 -> sender <> PT.self s ->
  let o := PT.getSellOrder s oid in
  let pid := PT.so_propertyId o in
  let cost := n * PT.pricePerToken o in
  let net := cost - platform_fee (PT.platformFeePercent s) cost in
  PT.so_isActive o = true -> now <= PT.expiresAt o ->
  0 < n -> n <= PT.tokensForSale o -> sender <> PT.seller o ->
  n <= PT.tokensOwned (PT.getInvestment s pid (PT.seller o)) ->
  cost <= HRM.balanceOf tok sender ->
  cost <= HRM.allowance tok sender (PT.self s) ->
  HRM.paused tok = false -> PT.feeRecipient s <> address0 ->
  PT.tokensOwned (PT.getInvestment s pid sender) + n <= MAX_UINT256 ->
  PT.investmentAmount (PT.getInvestment s pid sender) + net <= MAX_UINT256 ->
  exists tok' s', PT.buyFromOrder tok s sender now oid n = Ok (tok', s').
Proof.
  intros Hh Hinv Hs0 Hss o pid cost net Hact Hexp Hpos Hn Hne Hown Hbal Hal
    Hpa Hfr Hfit Hamt.
  set (sl := PT.seller o) in *.
  set (inv := PT.getInvestment s pid sl) in *.
  pose proof (seller_record s pid sl n Hpos Hown) as Hrec. fold inv in Hrec.
  destruct (pt_index s Hinv pid) as (_ & _ & Hhold).
  destruct (Hhold sl inv Hrec) as (_ & Hsl0 & _).
  pose proof (pt_fee_cap s Hinv) as Hfee.
  pose proof MAX_SUPPLY_fits as Hfits.
  pose proof (balanceOf_le_supply tok sender Hh) as Hsup.
  destruct Hh as [Hsum Hcap]. pose proof (conj Hsum Hcap) as Hh.
  assert (cost <= MAX_UINT256) as Hc by lia.
  assert (cost * PT.platformFeePercent s <= MAX_UINT256) as Hsc by nia.
  assert (platform_fee (PT.platformFeePercent s) cost <= cost) as Hfle.
  { apply fee_le. lia. }
  assert (platform_fee (PT.platformFeePercent s) cost + net = cost) as Hsplit
    by (unfold net; lia).
  destruct (payment_succeeds tok (PT.self s) sender (PT.feeRecipient s) sl cost
              (platform_fee (PT.platformFeePercent s) cost) net)
    as (tok1 & tok2 & tok3 & H1 & H2 & H3); try assumption.
  { apply Hinv. }
  set (sm := PT.set_investment pid sl
               (PT.set_tokensOwned (PT.tokensOwned inv - n) inv) s).
  assert (PT.getInvestment sm pid sender = PT.getInvestment s pid sender)
    as Hgm.
  { unfold sm. rewrite getInvestment_set_investment, decide_False;
      [reflexivity | intros [_ ?]; congruence]. }
  destruct (credit_investment_succeeds sm now pid sender n net) as (s1 & Hcr & _).
  { by rewrite Hgm. }
  { by rewrite Hgm. }
  assert (PT.getSellOrder s1 oid = o) as Ho1.
  { apply credit_investment_effects in Hcr as (_ & _ & _ & Hso).
    unfold PT.getSellOrder. by rewrite Hso. }
  unfold PT.buyFromOrder. cbv zeta. fold o. fold sl. fold pid. fold inv.
  rewrite (bind_require _ _ _ Hact).
  rewrite (bind_require _ _ _ (proj2 (N.leb_le _ _) Hexp)).
  rewrite bind_require
    by (rewrite andb_true_iff, N.ltb_lt, N.leb_le; by split).
  rewrite bind_require by (apply negb_true_iff, N.eqb_neq; exact Hne).
  rewrite (bind_require _ _ _ (proj2 (N.leb_le _ _) Hown)).
  rewrite (bind_of_Ok _ _ cost (proj2 (U256_mul_Ok _ _ _) (conj eq_refl Hc))).
  rewrite (bind_require _ _ _ (proj2 (N.leb_le _ _) Hbal)).
  unfold PT._processBuyOrderPayment, PT._updateBuyOrderInvestments.
  rewrite !(bind_of_Ok _ _ _ (proj2 (U256_mul_Ok _ _ _) (conj eq_refl Hsc))).
  unfold U256.div. simpl (10000 =? 0). cbv iota.
  rewrite !(bind_of_Ok _ _ (platform_fee (PT.platformFeePercent s) cost)
              eq_refl).
  rewrite !(bind_of_Ok _ _ net (proj2 (U256_sub_Ok _ _ _) (conj eq_refl Hfle))).
  rewrite (bind_of_Ok _ _ _ H1), (bind_of_Ok _ _ _ H2), (bind_of_Ok _ _ _ H3).
  cbv zeta. fold inv.
  rewrite (bind_of_Ok _ _ _ (proj2 (U256_sub_Ok _ _ _) (conj eq_refl Hown))).
  fold sm. rewrite (bind_of_Ok _ _ _ Hcr). rewrite Ho1.
  rewrite (bind_of_Ok _ _ _ (proj2 (U256_sub_Ok _ _ _) (conj eq_refl Hn))).
  eauto.
Qed.

(** C9.  In every reachable world and for every listed property, the
    shares recorded in investors' holdings add up to
    [totalTokens - availableTokens], whether summed over the stored records
    or over any duplicate-free list of accounts that covers every account
    with shares.  Creating or cancelling an order changes no holding and no
    property; a purchase adds the bought shares to the buyer's holding
    alone and takes as many from [availableTokens]; a fulfilment takes the
    shares from the seller's holding and adds them to the buyer's, a
    different account, touching no other holding and no property.  Such
    fulfilments exist: in a reachable world a [buyFromOrder] that meets the
    conditions of the code (open unexpired order, amount within the offer
    and within the seller's holding, a buyer other than the seller with the
    balance and the allowance for the price, token not paused) succeeds. *)
Theorem C9_share_conservation :
  (forall w, Sys.reachable w ->
   forall pid p,
     PT.properties (Sys.pt w) !! pid = Some p ->
     PT.availableTokens p <= PT.totalTokens p
     /\ sumN PT.tokensOwned (PT.holdings (Sys.pt w) pid)
        = PT.totalTokens p - PT.availableTokens p
     /\ forall accounts,
         NoDup accounts ->
         (forall a, owned w pid a <> 0 -> a ∈ accounts) ->
         sum_list_N (owned w pid) accounts
         = PT.totalTokens p - PT.availableTokens p)
  /\ (forall w sender now w' c,
        (exists pid n price d, c = Sys.CreateSellOrder pid n price d)
        \/ (exists oid, c = Sys.CancelSellOrder oid) ->
        Sys.exec w (Sys.mkTx sender now c) = Ok w' ->
        (forall pid a, PT.getInvestment (Sys.pt w') pid a
                       = PT.getInvestment (Sys.pt w) pid a)
        /\ PT.properties (Sys.pt w') = PT.properties (Sys.pt w))
  /\ (forall w sender now pid tokens w',
        Sys.exec w (Sys.mkTx sender now (Sys.PurchaseTokens pid tokens)) = Ok w' ->
        owned w' pid sender = owned w pid sender + tokens
        /\ (forall pid' a, ~ (pid' = pid /\ a = sender) ->
              PT.getInvestment (Sys.pt w') pid' a
              = PT.getInvestment (Sys.pt w) pid' a)
        /\ PT.availableTokens (PT.getProperty (Sys.pt w') pid) + tokens
           = PT.availableTokens (PT.getProperty (Sys.pt w) pid)
        /\ PT.totalTokens (PT.getProperty (Sys.pt w') pid)
           = PT.totalTokens (PT.getProperty (Sys.pt w) pid)
        /\ (forall pid', pid' <> pid ->
              PT.getProperty (Sys.pt w') pid' = PT.getProperty (Sys.pt w) pid'))
  /\ (forall w sender now oid n w',
        Sys.exec w (Sys.mkTx sender now (Sys.BuyFromOrder oid n)) = Ok w' ->
        let o := PT.getSellOrder (Sys.pt w) oid in
        let pid := PT.so_propertyId o in
        sender <> PT.seller o
        /\ owned w' pid (PT.seller o) + n = owned w pid (PT.seller o)
        /\ owned w' pid sender = owned w pid sender + n
        /\ (forall pid' a, ~ (pid' = pid /\ (a = sender \/ a = PT.seller o)) ->
              PT.getInvestment (Sys.pt w') pid' a
              = PT.getInvestment (Sys.pt w) pid' a)
        /\ PT.properties (Sys.pt w') = PT.properties (Sys.pt w))
  /\ (forall w sender now oid n,
        Sys.reachable w ->
        sender <> address0 -> sender <> PT.self (Sys.pt w) ->
        let o := PT.getSellOrder (Sys.pt w) oid in
        let pid := PT.so_propertyId o in
        let cost := n * PT.pricePerToken o in
        PT.so_isActive o = true -> now <= PT.expiresAt o ->
        0 < n -> n <= PT.tokensForSale o -> sender <> PT.seller o ->
        n <= owned w pid (PT.seller o) ->
        cost <= HRM.balanceOf (Sys.hrm w) sender ->
        cost <= HRM.allowance (Sys.hrm w) sender (PT.self (Sys.pt w)) ->
        HRM.paused (Sys.hrm w) = false ->
        PT.feeRecipient (Sys.pt w) <> address0 ->
        owned w pid sender + n <= MAX_UINT256 ->
        PT.investmentAmount (PT.getInvestment (Sys.pt w) pid sender)
        + (cost - platform_fee (PT.platformFeePercent (Sys.pt w)) cost)
        <= MAX_UINT256 ->
        exists w',
          Sys.exec w (Sys.mkTx sender now (Sys.BuyFromOrder oid n)) = Ok w').
Proof.
  split; [|split; [|split; [|split]]].
  - intros w Hreach pid p Hp.
    pose proof (inv_pt w (reachable_Inv w Hreach)) as Hinv.
    pose proof (pt_conservation _ Hinv pid p Hp) as Hcons.
    split; [lia|]. split; [lia|].
    intros accounts Hnd Hcov. unfold owned, PT.getInvestment.
    rewrite (sumN_cover PT.tokensOwned PT.Investment0
               (PT.holdings (Sys.pt w) pid) accounts eq_refl Hnd Hcov).
    lia.
  - intros w sender now w' c [(pid & n & price & d & ->)|(oid & ->)] He.
    + rewrite exec_createSellOrder in He.
      apply bind_Ok in He as ([s' o] & Hc & He). injection He as <-.
      apply createSellOrder_frame in Hc as (Hi & Hp & _). simpl.
      split; [|exact Hp]. intros q a. unfold PT.getInvestment, PT.holdings.
      by rewrite Hi.
    + rewrite exec_cancelSellOrder in He.
      apply bind_Ok in He as (s' & Hc & He). injection He as <-.
      apply cancelSellOrder_frame in Hc as (-> & _). by split.
  - intros w sender now pid tokens w' He. rewrite exec_purchaseTokens in He.
    apply bind_Ok in He as ([tok' s'] & Hp & He). injection He as <-.
    by apply purchaseTokens_effects in Hp.
  - intros w sender now oid n w' He o pid. rewrite exec_buyFromOrder in He.
    apply bind_Ok in He as ([tok' s'] & Hb & He). injection He as <-.
    apply buyFromOrder_effects in Hb
      as (Hne & _ & Hown & _ & Hsl & Hbu & Hoth & Hprops & _).
    fold o in Hne, Hown, Hsl, Hbu, Hoth. fold pid in Hown, Hsl, Hbu, Hoth.
    unfold owned; simpl. repeat split; try assumption. lia.
  - intros w sender now oid n Hreach Hs0 Hss o pid cost Hact Hexp Hpos Hn Hne
      Hown Hbal Hal Hpa Hfr Hfit Hamt.
    pose proof (reachable_Inv w Hreach) as Hinv.
    destruct (buyFromOrder_succeeds (Sys.hrm w) (Sys.pt w) sender now oid n
                (inv_hrm w Hinv) (inv_pt w Hinv) Hs0 Hss Hact Hexp Hpos Hn Hne
                Hown Hbal Hal Hpa Hfr Hfit Hamt) as (tok' & s' & Hb).
    rewrite exec_buyFromOrder, Hb. by eexists.
Qed.

Lemma C9_witness :
  sum_list_N (owned Demo.w_orders 0) [Demo.alice; Demo.bob; Demo.carol]
  = 1000 - 700
  /\ exists w',
       Sys.exec Demo.w_orders (Demo.tx Demo.carol (Sys.BuyFromOrder 0 150))
       = Ok w'
       /\ owned w' 0 Demo.alice = 50
       /\ owned w' 0 Demo.bob = 100
       /\ owned w' 0 Demo.carol = 150
       /\ PT.availableTokens (PT.getProperty (Sys.pt w') 0) = 700
       /\ sum_list_N (owned w' 0) [Demo.alice; Demo.bob; Demo.carol]
          = 1000 - 700.
Proof.
  split.
  - destruct (proj1 C9_share_conservation Demo.w_orders reachable_w_orders 0
                (PT.getProperty (Sys.pt Demo.w_orders) 0)) as (_ & _ & Hsum).
    + vm_compute. reflexivity.
    + apply Hsum.
      * repeat constructor; vm_compute;
          intros Hin;
          repeat (apply elem_of_cons in Hin as [Hin|Hin]; try discriminate);
          by apply elem_of_nil in Hin.
      * intros a Ha.
        destruct (decide (a = Demo.alice)) as [->|Ha1];
          [apply list_elem_of_here|].
        destruct (decide (a = Demo.bob)) as [->|Ha2];
          [apply list_elem_of_further, list_elem_of_here|].
        exfalso. apply Ha. unfold owned, PT.getInvestment.
        assert (PT.holdings (Sys.pt Demo.w_orders) 0
                = <[Demo.bob := PT.mkInvestment Demo.bob 100
                                  (97500000000000000000) 1700000000]>
                    (<[Demo.alice := PT.mkInvestment Demo.alice 200
                                       (195000000000000000000) 1700000000]> ∅))
          as -> by (vm_compute; reflexivity).
        rewrite !rd_insert_ne by congruence. reflexivity.
  - pose proof (proj2 (proj2 (proj2 (proj2 C9_share_conservation)))
                  Demo.w_orders Demo.carol 1700000000 0 150 reachable_w_orders)
      as Hfill.
    cbv zeta in Hfill.
    destruct Hfill as [w' He];
      [vm_compute; first [reflexivity | discriminate | intros ?; discriminate] .. |].
    exists w'. split; [exact He|].
    vm_compute in He. injection He as <-.
    split; [vm_compute; reflexivity|]. split; [vm_compute; reflexivity|].
    split; [vm_compute; reflexivity|]. split; vm_compute; reflexivity.
Defined.

(** ** Claims about division safety *)

Lemma require_not_div0 c msg : require c msg <> Revert Panic_div0.
Proof. by destruct c. Qed.

Lemma _transfer_not_div0 s from to amount :
  HRM._transfer s from to amount <> Revert Panic_div0.
Proof.
  unfold HRM._transfer, HRM._beforeTokenTransfer.
  destruct (negb (from =? address0)); [|discriminate]. simpl.
  destruct (negb (to =? address0)); [|discriminate]. simpl.
  destruct (negb (HRM.paused s)); [|discriminate]. simpl.
  destruct (amount <=? HRM.balanceOf s from); discriminate.
Qed.

Lemma distribute_loop_div0 tok s pid I D l :
  PT.distribute_loop tok s pid I D l = Revert Panic_div0 ->
  D = 0 /\ exists a, a ∈ l /\ 0 < PT.tokensOwned (PT.getInvestment s pid a).
Proof.
  revert tok. induction l as [|x l IH]; intros tok H; simpl in H; [discriminate|].
  destruct (N.ltb_spec 0 (PT.tokensOwned (PT.getInvestment s pid x))) as [Hpos|_].
  - destruct (N.eq_dec D 0) as [->|HD].
    + split; [reflexivity|]. exists x. split; [apply list_elem_of_here|exact Hpos].
    + apply bind_Revert in H as [H|(sc & _ & H)].
      { unfold U256.mul in H. by case_match. }
      apply bind_Revert in H as [H|(share & _ & H)].
      { unfold U256.div in H. apply N.eqb_neq in HD. rewrite HD in H. discriminate. }
      apply bind_Revert in H as [H|(tok1 & _ & H)].
      { by apply _transfer_not_div0 in H. }
      destruct (IH tok1 H) as (-> & _). contradiction.
  - destruct (IH tok H) as (HD & a & Ha & Hown).
    split; [exact HD|]. exists a. split; [by apply list_elem_of_further|exact Hown].
Qed.

(** C10.  In every reachable world the investor index of a property is
    non-empty only if some of its shares were sold
    ([availableTokens < totalTokens]); equivalently, while nothing was sold
    the index is empty and the loop of [distributeRentalIncome] has nothing
    to iterate over.  Consequently no call of [distributeRentalIncome],
    whoever makes it and whatever its arguments, reverts with a division
    by zero. *)
Theorem C10_distribution_never_divides_by_zero :
  forall w, Sys.reachable w ->
  forall pid,
    let p := PT.getProperty (Sys.pt w) pid in
    (PT.getPropertyInvestors (Sys.pt w) pid <> [] ->
     PT.availableTokens p < PT.totalTokens p)
    /\ (PT.availableTokens p = PT.totalTokens p ->
        PT.getPropertyInvestors (Sys.pt w) pid = [])
    /\ (forall sender now totalIncome,
          Sys.exec w (Sys.mkTx sender now
                        (Sys.DistributeRentalIncome pid totalIncome))
          <> Revert Panic_div0).
Proof.
  intros w Hreach pid p.
  pose proof (inv_pt w (reachable_Inv w Hreach)) as Hinv.
  destruct (pt_index _ Hinv pid) as (_ & Hdom & _).
  assert (Hne : PT.getPropertyInvestors (Sys.pt w) pid <> [] ->
                PT.availableTokens p < PT.totalTokens p).
  { intros Hl.
    destruct (PT.getPropertyInvestors (Sys.pt w) pid) as [|a l] eqn:El;
      [contradiction|].
    assert (is_Some (PT.holdings (Sys.pt w) pid !! a)) as Ha.
    { apply Hdom. apply list_elem_of_here. }
    destruct (PT.properties (Sys.pt w) !! pid) as [q|] eqn:Hq.
    - assert (p = q) as -> by (unfold p, PT.getProperty; by rewrite (rd_Some _ _ _ _ Hq)).
      by apply (pt_sold _ Hinv pid q a).
    - rewrite (pt_unlisted _ Hinv pid Hq), lookup_empty in Ha. by destruct Ha. }
  split; [exact Hne|]. split.
  - intros Heq. destruct (PT.getPropertyInvestors (Sys.pt w) pid) eqn:El;
      [reflexivity|].
    assert (PT.availableTokens p < PT.totalTokens p) by (by apply Hne). lia.
  - intros sender now I He. rewrite exec_distribute in He.
    apply bind_Revert in He as [He|(t & _ & He)]; [|discriminate].
    unfold PT.distributeRentalIncome in He.
    apply bind_Revert in He as [He|([] & _ & He)];
      [by apply require_not_div0 in He|].
    apply bind_Revert in He as [He|([] & _ & He)];
      [by apply require_not_div0 in He|].
    apply bind_Revert in He as [He|([] & _ & He)];
      [by apply require_not_div0 in He|].
    apply bind_Revert in He as [He|([] & _ & He)];
      [by apply require_not_div0 in He|].
    apply bind_Revert in He as [He|(D & HD & He)].
    { unfold U256.sub in He. by case_match. }
    apply U256_sub_Ok in HD as [-> Hle]. fold p in Hle, He.
    apply distribute_loop_div0 in He as (HD0 & a & Ha & _).
    assert (PT.availableTokens p < PT.totalTokens p).
    { apply Hne. intros El. rewrite El in Ha. by apply elem_of_nil in Ha. }
    lia.
Qed.

Lemma C10_witness :
  PT.availableTokens (PT.getProperty (Sys.pt Demo.w_sold) 0)
  < PT.totalTokens (PT.getProperty (Sys.pt Demo.w_sold) 0)
  /\ PT.getPropertyInvestors (Sys.pt Demo.w_treasury_listing) 1 = [].
Proof.
  split.
  - apply (proj1 (C10_distribution_never_divides_by_zero Demo.w_sold
                    reachable_w_sold 0)).
    vm_compute. discriminate.
  - apply (proj1 (proj2 (C10_distribution_never_divides_by_zero
                           Demo.w_treasury_listing
                           reachable_w_treasury_listing 1))).
    vm_compute. reflexivity.
Defined.

(** ** The rest of the code

    The concrete worlds used below are reachable. *)

Ltac by_eval :=
  vm_compute; first [ reflexivity | discriminate | intros ?; discriminate ].

Lemma Ext_valid_txb_true w tx : Ext.valid_txb w tx = true -> Ext.valid_tx w tx.
Proof. intros H. exact H. Qed.

Lemma Ext_reachable_run w txs :
  Ext.reachable w -> Ext.run_valid w txs = true -> Ext.reachable (Ext.run w txs).
Proof.
  revert w. induction txs as [|tx txs IH]; intros w Hr Hv; [exact Hr|].
  simpl in Hv. apply andb_true_iff in Hv as [Hv1 Hv2].
  unfold Ext.run; simpl. apply IH; [|exact Hv2].
  unfold Ext.apply_tx. destruct (Ext.exec w tx) as [w'|e] eqn:He; [|exact Hr].
  by apply (Ext.reach_step w w' tx).
Qed.

Lemma wf_cfgX : Ext.wf_config DemoX.cfg.
Proof. split; [apply wf_cfg|]. repeat split; discriminate. Qed.

Lemma reachable_w_funded : Ext.reachable DemoX.w_funded.
Proof.
  apply Ext_reachable_run; [apply Ext.reach_init, wf_cfgX|].
  vm_compute. reflexivity.
Qed.

Lemma reachable_w_approved : Ext.reachable DemoX.w_approved.
Proof.
  apply Ext_reachable_run; [apply reachable_w_funded|]. vm_compute. reflexivity.
Qed.

Lemma reachable_w_wrapped : Ext.reachable DemoX.w_wrapped.
Proof.
  apply Ext_reachable_run; [apply reachable_w_approved|]. vm_compute. reflexivity.
Qed.

Lemma reachable_w_pool_approved : Ext.reachable DemoX.w_pool_approved.
Proof.
  apply Ext_reachable_run; [apply reachable_w_wrapped|]. vm_compute. reflexivity.
Qed.

Lemma reachable_w_pooled : Ext.reachable DemoX.w_pooled.
Proof.
  apply Ext_reachable_run; [apply reachable_w_pool_approved|].
  vm_compute. reflexivity.
Qed.

Lemma reachable_w_cancelled : Sys.reachable DemoX.w_cancelled.
Proof.
  apply reachable_run; [apply reachable_w_orders|]. vm_compute. reflexivity.
Qed.

Lemma reachable_w_proposed : Sys.reachable DemoX.w_proposed.
Proof.
  apply reachable_run; [apply Sys.reach_init, wf_cfg|]. vm_compute. reflexivity.
Qed.

Lemma reachable_w_executed : Sys.reachable DemoX.w_executed.
Proof.
  apply reachable_run; [apply reachable_w_voted|]. vm_compute. reflexivity.
Qed.

(** * Properties of the rest of the code *)

(** ** Accounts that sign nothing *)

(** A transaction of the system debits only its sender, an account that
    approved the spender, or one of the two registries. *)
Lemma exec_keeps d w tx w' :
  Inv w -> Sys.valid_tx w tx -> Sys.exec w tx = Ok w' ->
  d <> Sys.sender tx -> d <> PT.self (Sys.pt w) -> d <> DM.self (Sys.dm w) ->
  (forall sp, HRM.allowance (Sys.hrm w) d sp = 0) ->
  keeps d (Sys.hrm w) (Sys.hrm w').
Proof.
  intros Hinv ((Hs0 & Hspt & Hsdm) & Hnow & Hargs) H Hds Hdpt Hddm Hall.
  destruct tx as [sender now c]. simpl in *.
  pose proof (inv_hrm w Hinv) as Hh. pose proof (inv_pt w Hinv) as Hp.
  pose proof (inv_dm w Hinv) as Hd.
  assert (sender <> d) as Hsd by congruence.
  assert (PT.self (Sys.pt w) <> d) as Hptd by congruence.
  unfold Sys.exec in H; simpl in H.
  destruct c; simpl in Hargs;
    rewrite ?andb_true_iff, ?N.leb_le in Hargs;
    apply bind_Ok in H as (r & Hr & H); injection H as <-; simpl;
    try (by apply keeps_refl).
  - unfold HRM.transfer in Hr. by apply (_transfer_keeps _ _ _ _ _ _ Hh Hsd Hr).
  - by apply (approve_keeps _ _ _ _ _ _ Hh Hsd Hr).
  - eapply (transferFrom_keeps d); [exact Hh|exact Hargs| |exact Hr].
    intros _. apply Hall.
  - by apply (mint_keeps _ _ _ _ _ _ Hh Hr).
  - by apply (burn_keeps _ _ _ _ _ Hh Hsd Hr).
  - eapply (burnFrom_keeps d); [exact Hh|exact Hargs| |exact Hr].
    intros _. apply Hall.
  - by apply (pause_keeps _ _ _ _ Hh Hr).
  - by apply (unpause_keeps _ _ _ _ Hh Hr).
  - destruct r as [tok' s'].
    by apply (purchaseTokens_keeps d _ _ _ _ _ _ _ _ Hh Hp Hs0 Hsd Hptd Hr).
  - by apply (distributeRentalIncome_keeps _ _ _ _ _ _ _ Hh Hptd Hr).
  - destruct r as [tok' s'].
    by apply (buyFromOrder_keeps d _ _ _ _ _ _ _ _ Hh Hsd Hptd Hr).
  - destruct r as [tok' d'].
    destruct (depositInsuranceFund_inv _ _ _ _ _ _ Hh Hd Hsdm Hargs Hr)
      as (_ & _ & Hk).
    destruct (Hk d Hddm) as [Hkd | ->]; [exact Hkd | congruence].
  - destruct r as [tok' d'].
    destruct (processClaim_inv _ _ _ _ _ _ _ _ Hh Hd Hr) as (_ & _ & Hk).
    by apply Hk.
  - unfold HRM.transferOwnership in Hr.
    apply bind_Ok in Hr as ([] & _ & Hr). apply bind_Ok in Hr as ([] & _ & Hr).
    injection Hr as <-.
    repeat split; try apply Hh; [reflexivity|intros; reflexivity].
  - unfold HRM.renounceOwnership in Hr. apply bind_Ok in Hr as ([] & _ & Hr).
    injection Hr as <-.
    repeat split; try apply Hh; [reflexivity|intros; reflexivity].
Qed.

(** The addresses of the two registries never change. *)
Lemma exec_selves w tx w' :
  Inv w -> Sys.valid_tx w tx -> Sys.exec w tx = Ok w' ->
  PT.self (Sys.pt w') = PT.self (Sys.pt w)
  /\ DM.self (Sys.dm w') = DM.self (Sys.dm w).
Proof.
  intros Hinv ((Hs0 & Hspt & Hsdm) & Hnow & Hargs) H.
  destruct tx as [sender now c]. simpl in *.
  pose proof (inv_pt w Hinv) as Hp.
  unfold Sys.exec in H; simpl in H.
  destruct c; simpl in Hargs;
    apply bind_Ok in H as (r & Hr & H); injection H as <-; simpl;
    try (split; reflexivity).
  - destruct r as [s' pid].
    pose proof (listProperty_Ok _ _ _ _ _ _ _ _ _ _ Hr)
      as (_ & _ & _ & _ & _ & _ & _ & _ & _ & _ & _ & Hsf).
    by split.
  - pose proof (verifyProperty_Ok _ _ _ _ Hr) as (_ & _ & ->). by split.
  - destruct r as [tok' s']. split; [|reflexivity].
    destruct (purchaseTokens_Ok _ _ _ _ _ _ _ _ Hp Hs0 Hr)
      as (_ & _ & _ & _ & _ & _ & _ & _ & _ & (s1 & Hcr & ->)).
    destruct (credit_investment_Ok _ _ _ _ _ _ _ _
                (pt_index _ Hp _) Hs0 Hcr) as (_ & _ & _ & _ & _ & Hfr).
    simpl. apply Hfr.
  - unfold PT.setPlatformFee in Hr.
    apply bind_Ok in Hr as ([] & _ & Hr). apply bind_Ok in Hr as ([] & _ & Hr).
    injection Hr as <-. by split.
  - unfold PT.setFeeRecipient in Hr.
    apply bind_Ok in Hr as ([] & _ & Hr). apply bind_Ok in Hr as ([] & _ & Hr).
    injection Hr as <-. by split.
  - destruct r as [s' oid]. split; [|reflexivity].
    by apply createSellOrder_frame in Hr as (_ & _ & _ & _ & _ & _ & ? & _).
  - destruct r as [tok' s']. split; [|reflexivity].
    destruct (buyFromOrder_Ok _ _ _ _ _ _ _ _ Hr)
      as (_ & _ & _ & _ & _ & _ & _ & _ & _ & _ & (s1 & Hcr & -> & _)).
    unfold PT.credit_investment in Hcr.
    apply bind_Ok in Hcr as (? & _ & Hcr).
    apply bind_Ok in Hcr as (? & _ & Hcr). injection Hcr as <-.
    simpl. by case_match.
  - apply cancelSellOrder_frame in Hr as (-> & _). by split.
  - destruct r as [tok' d'].
    pose proof (depositInsuranceFund_Ok _ _ _ _ _ _ Hr) as (_ & _ & _ & ->).
    by split.
  - destruct r as [d' rid]. unfold DM.reportDisaster in Hr.
    apply bind_Ok in Hr as ([] & _ & Hr). apply bind_Ok in Hr as (? & _ & Hr).
    injection Hr as <- <-. by split.
  - unfold DM.verifyDisaster in Hr.
    apply bind_Ok in Hr as ([] & _ & Hr). apply bind_Ok in Hr as ([] & _ & Hr).
    injection Hr as <-. by split.
  - destruct r as [d' cid]. unfold DM.submitClaim in Hr.
    apply bind_Ok in Hr as ([] & _ & Hr). apply bind_Ok in Hr as ([] & _ & Hr).
    apply bind_Ok in Hr as ([] & _ & Hr). apply bind_Ok in Hr as ([] & _ & Hr).
    apply bind_Ok in Hr as (? & _ & Hr). injection Hr as <- <-. by split.
  - destruct r as [tok' d'].
    apply processClaim_Ok in Hr as (_ & _ & _ & _ & Hcase).
    destruct Hcase as [(_ & _ & _ & _ & ->)|(_ & _ & ->)]; by split.
  - unfold DM.authorizeReporter in Hr. apply bind_Ok in Hr as ([] & _ & Hr).
    injection Hr as <-. by split.
  - unfold DM.revokeReporter in Hr. apply bind_Ok in Hr as ([] & _ & Hr).
    injection Hr as <-. by split.
  - unfold PT.transferOwnership in Hr.
    apply bind_Ok in Hr as ([] & _ & Hr). apply bind_Ok in Hr as ([] & _ & Hr).
    injection Hr as <-. by split.
  - unfold PT.renounceOwnership in Hr. apply bind_Ok in Hr as ([] & _ & Hr).
    injection Hr as <-. by split.
  - unfold DM.transferOwnership in Hr.
    apply bind_Ok in Hr as ([] & _ & Hr). apply bind_Ok in Hr as ([] & _ & Hr).
    injection Hr as <-. by split.
  - unfold DM.renounceOwnership in Hr. apply bind_Ok in Hr as ([] & _ & Hr).
    injection Hr as <-. by split.
Qed.

Lemma apply_tx_cases w tx :
  (exists w', Sys.exec w tx = Ok w' /\ Sys.apply_tx w tx = w')
  \/ (exists e, Sys.exec w tx = Revert e) /\ Sys.apply_tx w tx = w.
Proof.
  unfold Sys.apply_tx. destruct (Sys.exec w tx) as [w'|e].
  - left. by exists w'.
  - right. split; [by exists e | reflexivity].
Qed.

(** ** The life of a listed property *)

(** What one transaction does to the stored property [pid]: nothing, or it
    lists it, or it verifies it, or it sells some of its shares. *)
Lemma exec_properties w tx w' pid :
  Inv w -> Sys.valid_tx w tx -> Sys.exec w tx = Ok w' ->
  PT.properties (Sys.pt w') !! pid = PT.properties (Sys.pt w) !! pid
  \/ (PT.properties (Sys.pt w) !! pid = None
      /\ exists p', PT.properties (Sys.pt w') !! pid = Some p'
           /\ PT.isActive p' = false /\ PT.isVerified p' = false
           /\ PT.availableTokens p' = PT.totalTokens p'
           /\ PT.propertyOwner p' = Sys.sender tx)
  \/ (exists p, PT.properties (Sys.pt w) !! pid = Some p
        /\ Sys.sender tx = PT.owner (Sys.pt w)
        /\ PT.properties (Sys.pt w') !! pid
           = Some (PT.set_isActive true (PT.set_isVerified true p)))
  \/ (exists p k, PT.properties (Sys.pt w) !! pid = Some p
        /\ PT.isActive p = true
        /\ 0 < k /\ k <= PT.availableTokens p
        /\ PT.properties (Sys.pt w') !! pid
           = Some (PT.set_availableTokens (PT.availableTokens p - k) p)).
Proof.
  intros Hinv ((Hs0 & Hspt & Hsdm) & Hnow & Hargs) H.
  destruct tx as [sender now c]. simpl in *.
  pose proof (inv_pt w Hinv) as Hp.
  unfold Sys.exec in H; simpl in H.
  destruct c; simpl in Hargs;
    apply bind_Ok in H as (r & Hr & H); injection H as <-; simpl;
    try (left; reflexivity).
  - (* listProperty *)
    destruct r as [s' lid].
    pose proof (listProperty_Ok _ _ _ _ _ _ _ _ _ _ Hr)
      as (_ & _ & _ & _ & Hfree & _ & Hprops & _).
    simpl. rewrite Hprops. destruct (decide (lid = pid)) as [->|Hne].
    + right; left. split.
      * destruct (PT.properties (Sys.pt w) !! pid) eqn:Hl; [|reflexivity].
        assert (is_Some (PT.nftOwners (PT.nft (Sys.pt w)) !! pid)) as [? Hx].
        { apply (pt_minted _ Hp). by eexists. }
        congruence.
      * eexists. rewrite lookup_insert_eq. split; [reflexivity|]. by simpl.
    + left. by rewrite lookup_insert_ne.
  - (* verifyProperty *)
    pose proof (verifyProperty_Ok _ _ _ _ Hr) as (Hown & Hlt & ->). simpl.
    destruct (decide (propertyId = pid)) as [->|Hne].
    + right; right; left.
      destruct (pt_listed _ Hp pid Hlt) as [p Hl].
      exists p. split; [exact Hl|]. split; [exact Hown|].
      rewrite lookup_insert_eq. unfold PT.getProperty.
      by rewrite (rd_Some _ _ _ _ Hl).
    + left. by rewrite !lookup_insert_ne.
  - (* purchaseTokens *)
    destruct r as [tok' s'].
    destruct (purchaseTokens_Ok _ _ _ _ _ _ _ _ Hp Hs0 Hr)
      as (Hl & Hact & Hpos & Hle & _ & _ & _ & _ & _ & (s1 & Hcr & ->)).
    destruct (credit_investment_Ok _ _ _ _ _ _ _ _
                (pt_index _ Hp _) Hs0 Hcr) as (_ & _ & _ & _ & _ & Hfr).
    destruct Hfr as (_ & Hprops & _). simpl. rewrite Hprops.
    destruct (decide (propertyId = pid)) as [->|Hne].
    + right; right; right. eexists _, tokens.
      split; [exact Hl|]. split; [exact Hact|]. split; [exact Hpos|].
      split; [exact Hle|]. by rewrite lookup_insert_eq.
    + left. by rewrite lookup_insert_ne.
  - (* setPlatformFee *)
    left. unfold PT.setPlatformFee in Hr.
    apply bind_Ok in Hr as ([] & _ & Hr). apply bind_Ok in Hr as ([] & _ & Hr).
    by injection Hr as <-.
  - left. unfold PT.setFeeRecipient in Hr.
    apply bind_Ok in Hr as ([] & _ & Hr). apply bind_Ok in Hr as ([] & _ & Hr).
    by injection Hr as <-.
  - left. destruct r as [s' oid]. simpl.
    apply createSellOrder_frame in Hr as (_ & -> & _). reflexivity.
  - left. destruct r as [tok' s']. simpl.
    apply buyFromOrder_effects in Hr as (_ & _ & _ & _ & _ & _ & _ & -> & _).
    reflexivity.
  - left. by apply cancelSellOrder_frame in Hr as (-> & _).
  - left. unfold PT.transferOwnership in Hr.
    apply bind_Ok in Hr as ([] & _ & Hr). apply bind_Ok in Hr as ([] & _ & Hr).
    by injection Hr as <-.
  - left. unfold PT.renounceOwnership in Hr. apply bind_Ok in Hr as ([] & _ & Hr).
    by injection Hr as <-.
Qed.

Lemma evolves_refl p : evolves p p.
Proof. unfold evolves. repeat split; auto; lia. Qed.

Lemma evolves_trans p1 p2 p3 : evolves p1 p2 -> evolves p2 p3 -> evolves p1 p3.
Proof.
  unfold evolves.
  intros (? & ? & ? & ? & ? & ? & ? & ? & ? & ? & ? & ?)
         (? & ? & ? & ? & ? & ? & ? & ? & ? & ? & ? & ?).
  repeat split; try congruence; try tauto. lia.
Qed.

Lemma exec_evolves w tx w' pid p :
  Inv w -> Sys.valid_tx w tx -> Sys.exec w tx = Ok w' ->
  PT.properties (Sys.pt w) !! pid = Some p ->
  exists p', PT.properties (Sys.pt w') !! pid = Some p' /\ evolves p p'.
Proof.
  intros Hinv Hv He Hl.
  destruct (exec_properties w tx w' pid Hinv Hv He)
    as [Heq|[(Hnone & _)|[(q & Hq & _ & Hq')|(q & k & Hq & _ & _ & Hk & Hq')]]].
  - exists p. split; [congruence | apply evolves_refl].
  - congruence.
  - assert (q = p) as -> by congruence.
    eexists. split; [exact Hq'|]. unfold evolves; simpl.
    repeat split; auto; lia.
  - assert (q = p) as -> by congruence.
    eexists. split; [exact Hq'|]. unfold evolves; simpl.
    repeat split; auto; lia.
Qed.

(** X2. Once listed, a property keeps the terms of its listing through
    every run of transactions: value, share count, share price, owner and
    type never change, a verified or active property is never set back, and
    its available shares never grow. *)
Theorem X2_listed_property_only_evolves w txs pid p :
  Sys.reachable w -> Sys.run_valid w txs = true ->
  PT.properties (Sys.pt w) !! pid = Some p ->
  exists p', PT.properties (Sys.pt (Sys.run w txs)) !! pid = Some p'
             /\ evolves p p'.
Proof.
  intros Hreach Hvalid. revert w p Hreach Hvalid.
  induction txs as [|tx txs IH]; intros w p Hreach Hvalid Hl.
  - exists p. split; [exact Hl | apply evolves_refl].
  - simpl in Hvalid. apply andb_true_iff in Hvalid as [Hv Hrest].
    apply valid_txb_true in Hv.
    change (Sys.run w (tx :: txs)) with (Sys.run (Sys.apply_tx w tx) txs).
    pose proof (reachable_apply_tx w tx Hreach Hv) as Hreach'.
    destruct (apply_tx_cases w tx) as [(w' & He & Hw')|[_ Hw']]; rewrite Hw' in *.
    + destruct (exec_evolves w tx w' pid p (reachable_Inv w Hreach) Hv He Hl)
        as (p1 & Hl1 & Hev1).
      destruct (IH w' p1 Hreach' Hrest Hl1) as (p2 & Hl2 & Hev2).
      exists p2. split; [exact Hl2 | by apply (evolves_trans p p1 p2)].
    + by apply IH.
Qed.

Lemma X2_witness :
  exists p',
    PT.properties (Sys.pt (Sys.run Demo.w_listed
                             (Demo.approvals ++ Demo.purchases))) !! 0
    = Some p'
    /\ evolves (PT.getProperty (Sys.pt Demo.w_listed) 0) p'.
Proof.
  apply X2_listed_property_only_evolves.
  - apply reachable_w_listed.
  - by_eval.
  - by_eval.
Defined.

Lemma Flags_inv_step w tx w' :
  Inv w -> Sys.valid_tx w tx -> Sys.exec w tx = Ok w' ->
  Flags_inv (Sys.pt w) -> Flags_inv (Sys.pt w').
Proof.
  intros Hinv Hv He Hf pid p' Hl'.
  destruct (exec_properties w tx w' pid Hinv Hv He)
    as [Heq|[(_ & q & Hq & Ha & Hb & _)|[(q & Hq & _ & Hq')|(q & k & Hq & _ & _ & _ & Hq')]]].
  - apply (Hf pid). congruence.
  - assert (q = p') as -> by congruence. congruence.
  - assert (p' = PT.set_isActive true (PT.set_isVerified true q)) as ->
      by congruence.
    reflexivity.
  - assert (p' = PT.set_availableTokens (PT.availableTokens q - k) q) as ->
      by congruence.
    simpl. by apply (Hf pid).
Qed.

Lemma reachable_Flags_inv w : Sys.reachable w -> Flags_inv (Sys.pt w).
Proof.
  induction 1 as [c Hc | w w' tx Hreach IH Hv He].
  - intros pid p Hl. simpl in Hl. by rewrite lookup_empty in Hl.
  - by apply (Flags_inv_step w tx w' (reachable_Inv w Hreach)).
Qed.

(** X3. Shares are only ever sold by the registry for verified
    properties: in a reachable world, a purchase that succeeds is a purchase
    of a property the administrator has verified, and a property that was
    just listed refuses every purchase. *)
Theorem X3_only_verified_properties_are_sold :
  (forall w sender now pid tokens w',
      Sys.reachable w ->
      Sys.exec w (Sys.mkTx sender now (Sys.PurchaseTokens pid tokens)) = Ok w' ->
      PT.isVerified (PT.getProperty (Sys.pt w) pid) = true)
  /\ (forall s sender now uri v n ty r s' pid tok buyer now' k,
        PT.listProperty s sender now uri v n ty r = Ok (s', pid) ->
        PT.purchaseTokens tok s' buyer now' pid k
        = Revert (Require_failed
                    (if pid <? PT.tokenIdCounter s'
                     then "Property not active"
                     else "Property does not exist"))).
Proof.
  split.
  - intros w sender now pid tokens w' Hreach He.
    rewrite exec_purchaseTokens in He.
    apply bind_Ok in He as ([tok' s'] & Hr & _).
    apply purchaseTokens_checks in Hr as (Hlt & Hact & _).
    pose proof (reachable_Inv w Hreach) as Hinv.
    destruct (pt_listed _ (inv_pt w Hinv) pid Hlt) as [p Hl].
    pose proof (reachable_Flags_inv w Hreach pid p Hl) as Hf.
    unfold PT.getProperty in *. rewrite (rd_Some _ _ _ _ Hl) in *. congruence.
  - intros s sender now uri v n ty r s' pid tok buyer now' k Hlist.
    pose proof (listProperty_Ok _ _ _ _ _ _ _ _ _ _ Hlist)
      as (_ & _ & _ & _ & _ & _ & Hprops & _).
    unfold PT.purchaseTokens, PT.propertyExists, PT.propertyActive.
    destruct (pid <? PT.tokenIdCounter s') eqn:Hlt; simpl; [|reflexivity].
    unfold PT.getProperty. rewrite Hprops.
    unfold rd. rewrite lookup_insert_eq. reflexivity.
Qed.

Lemma X3_witness :
  exists w',
    Sys.exec (Sys.run Demo.w_listed Demo.approvals)
      (Demo.tx Demo.alice (Sys.PurchaseTokens 0 200)) = Ok w'
    /\ PT.isVerified
         (PT.getProperty (Sys.pt (Sys.run Demo.w_listed Demo.approvals)) 0)
       = true.
Proof.
  assert (exists w',
    Sys.exec (Sys.run Demo.w_listed Demo.approvals)
      (Demo.tx Demo.alice (Sys.PurchaseTokens 0 200)) = Ok w')
    as [w' He] by (eexists; by_eval).
  exists w'. split; [exact He|].
  apply (proj1 X3_only_verified_properties_are_sold
           (Sys.run Demo.w_listed Demo.approvals) Demo.alice 1700000000 0 200
           w'); [|exact He].
  apply reachable_run; [apply reachable_w_listed|]. by_eval.
Defined.

(** ** The life of a sell order *)

Lemma getSellOrder_Some s oid o :
  PT.sellOrders s !! oid = Some o -> PT.getSellOrder s oid = o.
Proof. intros H. unfold PT.getSellOrder. by apply rd_Some. Qed.

Lemma getSellOrder_active s oid :
  PT.so_isActive (PT.getSellOrder s oid) = true ->
  PT.sellOrders s !! oid = Some (PT.getSellOrder s oid).
Proof.
  unfold PT.getSellOrder, rd.
  destruct (PT.sellOrders s !! oid) as [o|]; simpl; [reflexivity | discriminate].
Qed.

Lemma credit_investment_orders s now pid who tokens net s' :
  PT.credit_investment s now pid who tokens net = Ok s' ->
  PT.sellOrders s' = PT.sellOrders s
  /\ PT.sellOrderCounter s' = PT.sellOrderCounter s.
Proof.
  unfold PT.credit_investment. intros H.
  apply bind_Ok in H as (? & _ & H). apply bind_Ok in H as (? & _ & H).
  injection H as <-. simpl. by case_match.
Qed.

Lemma createSellOrder_Ok s sender now pid n price d s' oid :
  PT.createSellOrder s sender now pid n price d = Ok (s', oid) ->
  pid < PT.tokenIdCounter s /\ 0 < n /\ 0 < price /\ 0 < d /\ d <= 90
  /\ n <= PT.tokensOwned (PT.getInvestment s pid sender)
  /\ oid = PT.sellOrderCounter s
  /\ oid + 1 <= MAX_UINT256 /\ n * price <= MAX_UINT256
  /\ d * days <= MAX_UINT256 /\ now + d * days <= MAX_UINT256
  /\ PT.sellOrderCounter s' = oid + 1
  /\ PT.sellOrders s'
     = <[oid := PT.mkSellOrder oid pid sender n price (n * price) true now
                  (now + d * days)]> (PT.sellOrders s)
  /\ PT.propertySellOrders s'
     = <[pid := PT.getPropertySellOrders s pid ++ [oid]]>
         (PT.propertySellOrders s)
  /\ PT.userSellOrders s'
     = <[sender := PT.getUserSellOrders s sender ++ [oid]]>
         (PT.userSellOrders s).
Proof.
  unfold PT.createSellOrder, PT.propertyExists. intros H.
  apply bind_Ok in H as ([] & H1 & H). apply require_Ok in H1.
  apply bind_Ok in H as ([] & H2 & H). apply require_Ok in H2.
  apply bind_Ok in H as ([] & H3 & H). apply require_Ok in H3.
  apply bind_Ok in H as ([] & H4 & H). apply require_Ok in H4.
  apply bind_Ok in H as ([] & H5 & H). apply require_Ok in H5.
  apply bind_Ok in H as (next & H6 & H). apply U256_add_Ok in H6 as [-> H6].
  apply bind_Ok in H as (tp & H7 & H). apply U256_mul_Ok in H7 as [-> H7].
  apply bind_Ok in H as (du & H8 & H). apply U256_mul_Ok in H8 as [-> H8].
  apply bind_Ok in H as (ex & H9 & H). apply U256_add_Ok in H9 as [-> H9].
  injection H as <- <-.
  apply andb_true_iff in H4 as [H4a H4b].
  apply N.ltb_lt in H1, H2, H3, H4a. apply N.leb_le in H4b, H5.
  simpl. repeat split; try assumption; try reflexivity.
Qed.

(** What one transaction does to the stored order [oid]: nothing, or it
    creates it, or it fills a part of it, or it cancels it. *)
Lemma exec_orders w tx w' oid :
  Inv w -> Sys.valid_tx w tx -> Sys.exec w tx = Ok w' ->
  (PT.sellOrders (Sys.pt w') !! oid = PT.sellOrders (Sys.pt w) !! oid
   /\ (PT.sellOrderCounter (Sys.pt w') = PT.sellOrderCounter (Sys.pt w)
       \/ PT.sellOrderCounter (Sys.pt w') = PT.sellOrderCounter (Sys.pt w) + 1
          /\ oid <> PT.sellOrderCounter (Sys.pt w)))
  \/ (oid = PT.sellOrderCounter (Sys.pt w)
      /\ PT.sellOrderCounter (Sys.pt w') = oid + 1
      /\ exists o', PT.sellOrders (Sys.pt w') !! oid = Some o'
           /\ PT.so_id o' = oid /\ PT.so_isActive o' = true
           /\ 0 < PT.tokensForSale o' /\ PT.seller o' = Sys.sender tx)
  \/ (PT.sellOrderCounter (Sys.pt w') = PT.sellOrderCounter (Sys.pt w)
      /\ exists o n, PT.sellOrders (Sys.pt w) !! oid = Some o
           /\ PT.so_isActive o = true /\ 0 < n /\ n <= PT.tokensForSale o
           /\ PT.sellOrders (Sys.pt w') !! oid
              = Some (let o2 := PT.set_tokensForSale (PT.tokensForSale o - n) o in
                      if PT.tokensForSale o2 =? 0
                      then PT.set_so_isActive false o2 else o2))
  \/ (PT.sellOrderCounter (Sys.pt w') = PT.sellOrderCounter (Sys.pt w)
      /\ exists o, PT.sellOrders (Sys.pt w) !! oid = Some o
           /\ PT.so_isActive o = true
           /\ PT.sellOrders (Sys.pt w') !! oid
              = Some (PT.set_so_isActive false o)).
Proof.
  intros Hinv ((Hs0 & Hspt & Hsdm) & Hnow & Hargs) H.
  destruct tx as [sender now c]. simpl in *.
  pose proof (inv_pt w Hinv) as Hp.
  unfold Sys.exec in H; simpl in H.
  destruct c; simpl in Hargs;
    apply bind_Ok in H as (r & Hr & H); injection H as <-; simpl;
    try (left; split; [reflexivity | left; reflexivity]).
  - (* listProperty *)
    left. destruct r as [s' lid]. simpl. unfold PT.listProperty in Hr.
    apply bind_Ok in Hr as ([] & _ & Hr). apply bind_Ok in Hr as ([] & _ & Hr).
    apply bind_Ok in Hr as (? & _ & Hr). apply bind_Ok in Hr as (? & _ & Hr).
    apply bind_Ok in Hr as (? & _ & Hr). injection Hr as <- _.
    split; [reflexivity | left; reflexivity].
  - (* verifyProperty *)
    left. pose proof (verifyProperty_Ok _ _ _ _ Hr) as (_ & _ & ->).
    split; [reflexivity | left; reflexivity].
  - (* purchaseTokens *)
    left. destruct r as [tok' s']. simpl.
    destruct (purchaseTokens_Ok _ _ _ _ _ _ _ _ Hp Hs0 Hr)
      as (_ & _ & _ & _ & _ & _ & _ & _ & _ & (s1 & Hcr & ->)).
    apply credit_investment_orders in Hcr as [Ho Hc]. simpl.
    rewrite Ho, Hc. split; [reflexivity | left; reflexivity].
  - left. unfold PT.setPlatformFee in Hr.
    apply bind_Ok in Hr as ([] & _ & Hr). apply bind_Ok in Hr as ([] & _ & Hr).
    injection Hr as <-. split; [reflexivity | left; reflexivity].
  - left. unfold PT.setFeeRecipient in Hr.
    apply bind_Ok in Hr as ([] & _ & Hr). apply bind_Ok in Hr as ([] & _ & Hr).
    injection Hr as <-. split; [reflexivity | left; reflexivity].
  - (* createSellOrder *)
    destruct r as [s' cid]. simpl.
    apply createSellOrder_Ok in Hr
      as (_ & Hn & _ & _ & _ & _ & -> & _ & _ & _ & _ & Hc & Ho & _).
    rewrite Ho, Hc.
    destruct (decide (PT.sellOrderCounter (Sys.pt w) = oid)) as [<-|Hne].
    + right; left. split; [reflexivity|]. split; [reflexivity|].
      eexists. rewrite lookup_insert_eq. split; [reflexivity|]. by simpl.
    + left. rewrite lookup_insert_ne by exact Hne.
      split; [reflexivity|]. right. split; [reflexivity | congruence].
  - (* buyFromOrder *)
    destruct r as [tok' s']. simpl.
    destruct (buyFromOrder_Ok _ _ _ _ _ _ _ _ Hr)
      as (Hact & _ & Hpos & Hle & _ & _ & _ & _ & _ & _ & (s1 & Hcr & -> & Hget)).
    apply credit_investment_orders in Hcr as [Ho Hc]. simpl in Ho, Hc.
    simpl. rewrite Ho, Hc.
    destruct (decide (orderId = oid)) as [->|Hne].
    + right; right; left. split; [reflexivity|].
      exists (PT.getSellOrder (Sys.pt w) oid), tokensToBuy.
      split; [by apply getSellOrder_active|].
      split; [exact Hact|]. split; [exact Hpos|]. split; [exact Hle|].
      rewrite lookup_insert_eq. by rewrite Hget.
    + left. rewrite lookup_insert_ne by exact Hne.
      split; [reflexivity | left; reflexivity].
  - (* cancelSellOrder *)
    apply cancelSellOrder_frame in Hr as (-> & _ & Hact). simpl.
    destruct (decide (orderId = oid)) as [->|Hne].
    + right; right; right. split; [reflexivity|].
      exists (PT.getSellOrder (Sys.pt w) oid).
      split; [by apply getSellOrder_active|]. split; [exact Hact|].
      by rewrite lookup_insert_eq.
    + left. rewrite lookup_insert_ne by exact Hne.
      split; [reflexivity | left; reflexivity].
  - left. unfold PT.transferOwnership in Hr.
    apply bind_Ok in Hr as ([] & _ & Hr). apply bind_Ok in Hr as ([] & _ & Hr).
    injection Hr as <-. split; [reflexivity | left; reflexivity].
  - left. unfold PT.renounceOwnership in Hr. apply bind_Ok in Hr as ([] & _ & Hr).
    injection Hr as <-. split; [reflexivity | left; reflexivity].
Qed.

Lemma Orders_inv_step w tx w' :
  Inv w -> Sys.valid_tx w tx -> Sys.exec w tx = Ok w' ->
  Orders_inv (Sys.pt w) -> Orders_inv (Sys.pt w').
Proof.
  intros Hinv Hv He Ho oid. destruct (Ho oid) as [Hdom Hrec].
  destruct (exec_orders w tx w' oid Hinv Hv He)
    as [(Heq & Hc)|[(-> & Hc & o' & Hl' & Hid & Hact & Hpos & _)
       |[(Hc & o & n & Hl & Hact & Hn & Hle & Hl')|(Hc & o & Hl & Hact & Hl')]]].
  - rewrite Heq. split; [|exact Hrec].
    destruct Hc as [-> | [-> Hne]]; [exact Hdom|].
    rewrite <- Hdom. lia.
  - rewrite Hl', Hc. split.
    + split; [by eexists | lia].
    + intros o Heq. injection Heq as <-. by split.
  - rewrite Hl', Hc. split.
    + rewrite Hdom. rewrite Hl. split; by eexists.
    + intros o2 Heq. injection Heq as <-.
      destruct (Hrec o Hl) as [Hid _]. simpl.
      destruct (PT.tokensForSale o - n =? 0) eqn:Hz; simpl.
      * split; [exact Hid | discriminate].
      * apply N.eqb_neq in Hz. split; [exact Hid | lia].
  - rewrite Hl', Hc. split.
    + rewrite Hdom. rewrite Hl. split; by eexists.
    + intros o2 Heq. injection Heq as <-.
      destruct (Hrec o Hl) as [Hid _]. simpl. split; [exact Hid | discriminate].
Qed.

Lemma reachable_Orders_inv w : Sys.reachable w -> Orders_inv (Sys.pt w).
Proof.
  induction 1 as [c Hc | w w' tx Hreach IH Hv He].
  - intros oid. simpl. rewrite lookup_empty. split.
    + split; [lia | by intros [? ?]].
    + discriminate.
  - by apply (Orders_inv_step w tx w' (reachable_Inv w Hreach)).
Qed.

Lemma order_evolves_refl o : order_evolves o o.
Proof. unfold order_evolves. repeat split; auto; lia. Qed.

Lemma order_evolves_trans o1 o2 o3 :
  order_evolves o1 o2 -> order_evolves o2 o3 -> order_evolves o1 o3.
Proof.
  unfold order_evolves.
  intros (? & ? & ? & ? & ? & ? & ? & ? & ?) (? & ? & ? & ? & ? & ? & ? & ? & ?).
  repeat split; try congruence; try tauto. lia.
Qed.

Lemma exec_order_evolves w tx w' oid o :
  Inv w -> Orders_inv (Sys.pt w) ->
  Sys.valid_tx w tx -> Sys.exec w tx = Ok w' ->
  PT.sellOrders (Sys.pt w) !! oid = Some o ->
  exists o', PT.sellOrders (Sys.pt w') !! oid = Some o' /\ order_evolves o o'.
Proof.
  intros Hinv Ho Hv He Hl. destruct (Ho oid) as [Hdom _].
  destruct (exec_orders w tx w' oid Hinv Hv He)
    as [(Heq & _)|[(-> & _)
       |[(_ & q & n & Hq & Hact & Hn & Hle & Hl')|(_ & q & Hq & Hact & Hl')]]].
  - exists o. split; [congruence | apply order_evolves_refl].
  - assert (PT.sellOrderCounter (Sys.pt w) < PT.sellOrderCounter (Sys.pt w))
      by (apply Hdom; by eexists).
    lia.
  - assert (q = o) as -> by congruence.
    eexists. split; [exact Hl'|]. unfold order_evolves. simpl.
    destruct (PT.tokensForSale o - n =? 0); simpl;
      repeat split; auto; try lia; congruence.
  - assert (q = o) as -> by congruence.
    eexists. split; [exact Hl'|]. unfold order_evolves. simpl.
    repeat split; auto; lia.
Qed.

(** X4. A sell order cannot be altered after it was created: through every
    run of transactions its seller, property, price and expiry stay the
    same, the shares it offers never grow, and once it is closed (cancelled
    or filled) it stays closed, so that every later fill or cancellation of
    it is refused. *)
Theorem X4_sell_order_only_evolves w txs oid o :
  Sys.reachable w -> Sys.run_valid w txs = true ->
  PT.sellOrders (Sys.pt w) !! oid = Some o ->
  exists o',
    PT.sellOrders (Sys.pt (Sys.run w txs)) !! oid = Some o'
    /\ order_evolves o o'
    /\ (PT.so_isActive o = false ->
        forall tok sender now n,
          PT.buyFromOrder tok (Sys.pt (Sys.run w txs)) sender now oid n
          = Revert (Require_failed "Order not active")
          /\ exists e,
               PT.cancelSellOrder (Sys.pt (Sys.run w txs)) sender oid
               = Revert e).
Proof.
  intros Hreach Hvalid Hl.
  assert (exists o', PT.sellOrders (Sys.pt (Sys.run w txs)) !! oid = Some o'
                     /\ order_evolves o o') as (o' & Hl' & Hev).
  { revert w o Hreach Hvalid Hl.
    induction txs as [|tx txs IH]; intros w o Hreach Hvalid Hl.
    - exists o. split; [exact Hl | apply order_evolves_refl].
    - simpl in Hvalid. apply andb_true_iff in Hvalid as [Hv Hrest].
      apply valid_txb_true in Hv.
      change (Sys.run w (tx :: txs)) with (Sys.run (Sys.apply_tx w tx) txs).
      pose proof (reachable_apply_tx w tx Hreach Hv) as Hreach'.
      destruct (apply_tx_cases w tx) as [(w' & He & Hw')|[_ Hw']];
        rewrite Hw' in *.
      + destruct (exec_order_evolves w tx w' oid o (reachable_Inv w Hreach)
                    (reachable_Orders_inv w Hreach) Hv He Hl)
          as (o1 & Hl1 & Hev1).
        destruct (IH w' o1 Hreach' Hrest Hl1) as (o2 & Hl2 & Hev2).
        exists o2. split; [exact Hl2 | by apply (order_evolves_trans o o1 o2)].
      + by apply IH. }
  exists o'. split; [exact Hl'|]. split; [exact Hev|].
  intros Hclosed tok sender now n.
  assert (PT.so_isActive (PT.getSellOrder (Sys.pt (Sys.run w txs)) oid) = false)
    as Hc.
  { rewrite (getSellOrder_Some _ _ _ Hl'). by apply Hev. }
  split.
  - unfold PT.buyFromOrder. by rewrite Hc.
  - unfold PT.cancelSellOrder. rewrite Hc.
    destruct ((PT.seller (PT.getSellOrder (Sys.pt (Sys.run w txs)) oid) =? sender)
              || (sender =? PT.owner (Sys.pt (Sys.run w txs)))); simpl;
      by eexists.
Qed.

Lemma X4_witness :
  exists o',
    PT.sellOrders
      (Sys.pt (Sys.run DemoX.w_cancelled
                 [ Demo.tx Demo.bob (Sys.BuyFromOrder 0 10);
                   Demo.tx Demo.alice (Sys.CancelSellOrder 0) ])) !! 0
    = Some o'
    /\ PT.so_isActive o' = false
    /\ PT.buyFromOrder (Sys.hrm DemoX.w_cancelled)
         (Sys.pt (Sys.run DemoX.w_cancelled
                    [ Demo.tx Demo.bob (Sys.BuyFromOrder 0 10);
                      Demo.tx Demo.alice (Sys.CancelSellOrder 0) ]))
         Demo.bob 1700000000 0 10
       = Revert (Require_failed "Order not active").
Proof.
  destruct (X4_sell_order_only_evolves DemoX.w_cancelled
              [ Demo.tx Demo.bob (Sys.BuyFromOrder 0 10);
                Demo.tx Demo.alice (Sys.CancelSellOrder 0) ] 0
              (PT.getSellOrder (Sys.pt DemoX.w_cancelled) 0))
    as (o' & Ho' & Hev & Hclosed).
  - apply reachable_w_cancelled.
  - by_eval.
  - by_eval.
  - exists o'. split; [exact Ho'|]. split.
    + destruct Hev as (_ & _ & _ & _ & _ & _ & _ & _ & Hact).
      apply Hact. by_eval.
    + destruct (Hclosed ltac:(by_eval) (Sys.hrm DemoX.w_cancelled) Demo.bob
                  1700000000 10) as [Hbuy _].
      exact Hbuy.
Defined.

(** X5. [createSellOrder] succeeds exactly when the property exists, the
    share count and the price are positive, the duration is 1 to 90 days,
    the seller holds at least the shares offered, and the order number, the
    total price and the expiry time fit in a word.  The order then gets the
    next number, is open, expires [durationDays] days after [now], and
    nothing is locked: every holding and every property is as before. *)
Theorem X5_createSellOrder_conditions s sender now pid n price d :
  ((exists r, PT.createSellOrder s sender now pid n price d = Ok r)
   <-> pid < PT.tokenIdCounter s /\ 0 < n /\ 0 < price /\ 0 < d /\ d <= 90
       /\ n <= PT.tokensOwned (PT.getInvestment s pid sender)
       /\ PT.sellOrderCounter s + 1 <= MAX_UINT256
       /\ n * price <= MAX_UINT256
       /\ now + d * days <= MAX_UINT256)
  /\ forall s' oid,
       PT.createSellOrder s sender now pid n price d = Ok (s', oid) ->
       oid = PT.sellOrderCounter s
       /\ PT.getSellOrder s' oid
          = PT.mkSellOrder oid pid sender n price (n * price) true now
              (now + d * 86400)
       /\ PT.getPropertySellOrders s' pid
          = PT.getPropertySellOrders s pid ++ [oid]
       /\ PT.getUserSellOrders s' sender = PT.getUserSellOrders s sender ++ [oid]
       /\ PT.investments s' = PT.investments s
       /\ PT.properties s' = PT.properties s.
Proof.
  split; [split|].
  - intros [[s' oid] H].
    apply createSellOrder_Ok in H
      as (? & ? & ? & ? & ? & ? & -> & ? & ? & ? & ? & _).
    repeat split; assumption.
  - intros (H1 & H2 & H3 & H4 & H5 & H6 & H7 & H8 & H9).
    unfold PT.createSellOrder, PT.propertyExists.
    rewrite bind_require by (by apply N.ltb_lt).
    rewrite bind_require by (by apply N.ltb_lt).
    rewrite bind_require by (by apply N.ltb_lt).
    rewrite bind_require
      by (apply andb_true_iff; split; [by apply N.ltb_lt | by apply N.leb_le]).
    rewrite bind_require by (by apply N.leb_le).
    assert (d * days <= MAX_UINT256) as H10 by lia.
    unfold U256.add, U256.mul.
    apply N.leb_le in H7, H8, H9, H10. rewrite H7, H8, H10. simpl.
    rewrite H9. simpl. by eexists.
  - intros s' oid H.
    pose proof (createSellOrder_frame _ _ _ _ _ _ _ _ _ H) as (Hi & Hp & _).
    apply createSellOrder_Ok in H
      as (_ & _ & _ & _ & _ & _ & -> & _ & _ & _ & _ & _ & Ho & Hpo & Huo).
    split; [reflexivity|].
    unfold PT.getSellOrder, PT.getPropertySellOrders, PT.getUserSellOrders.
    rewrite Ho, Hpo, Huo. rewrite !rd_insert_eq.
    repeat split; assumption.
Qed.

Lemma X5_witness :
  exists r,
    PT.createSellOrder (Sys.pt Demo.w_sold) Demo.alice 1700000000 0 150 ether 30
    = Ok r.
Proof.
  apply (proj1 (X5_createSellOrder_conditions (Sys.pt Demo.w_sold) Demo.alice
                  1700000000 0 150 ether 30)).
  split; [by_eval|]. split; [by_eval|]. split; [by_eval|]. split; [by_eval|].
  split; [by_eval|]. split; [by_eval|]. split; [by_eval|]. split; by_eval.
Defined.

(** ** The query functions of the property registry *)

Lemma write_at_next {A} (done : list A) (k : nat) (x0 x : A) :
  write_at (done ++ x0 :: replicate k x0) (N.of_nat (length done)) x
  = Ok ((done ++ [x]) ++ replicate k x0).
Proof.
  unfold write_at. rewrite length_app. simpl. rewrite length_replicate.
  assert ((N.of_nat (length done) <? N.of_nat (length done + S k)) = true) as ->
    by (apply N.ltb_lt; lia).
  rewrite Nat2N.id. f_equal.
  rewrite insert_app_r_alt by lia.
  replace (length done - length done)%nat with 0%nat by lia.
  simpl. by rewrite <- app_assoc.
Qed.


Lemma filter_length_le {A} (f : A -> bool) (l : list A) :
  (length (List.filter f l) <= length l)%nat.
Proof.
  induction l as [|a l IH]; simpl; [lia|]. destruct (f a); simpl; lia.
Qed.




Lemma copy_loop_Ok s offset (m j : nat) done :
  length done = j ->
  PTQ.copy_loop s offset ((fun k => offset + N.of_nat k) <$> seq j m)
    (done ++ replicate m PT.Property0)
  = Ok (done ++ map (PT.getProperty s)
                  ((fun k => offset + N.of_nat k) <$> seq j m)).
Proof.
  revert j done. induction m as [|m IH]; intros j done Hj; simpl.
  - reflexivity.
  - unfold U256.sub.
    assert ((offset <=? offset + N.of_nat j) = true) as ->
      by (apply N.leb_le; lia).
    simpl. replace (offset + N.of_nat j - offset) with (N.of_nat (length done))
      by lia.
    rewrite write_at_next. simpl.
    etransitivity.
    { apply (IH (S j) (done ++ [PT.getProperty s (offset + N.of_nat j)])).
      rewrite length_app; simpl; lia. }
    by rewrite <- app_assoc.
Qed.

Lemma rangeN_app from a b : rangeN from (a + b) = rangeN from a ++ rangeN (from + a) b.
Proof.
  unfold rangeN. rewrite N2Nat.inj_add, seq_app, fmap_app. f_equal.
  replace (0 + N.to_nat a)%nat with (N.to_nat a + 0)%nat by lia.
  rewrite <- (fmap_add_seq (N.to_nat a) 0 (N.to_nat b)).
  rewrite <- list_fmap_compose. apply list_fmap_ext.
  intros i k _. simpl. lia.
Qed.

Lemma getAllProperties_page s offset limit :
  PTQ.getAllProperties s offset limit
  = if PT.tokenIdCounter s <=? offset
    then Revert (Require_failed "Offset out of bounds")
    else if MAX_UINT256 <? offset + limit then Revert Panic_arith
    else Ok (map (PT.getProperty s)
               (rangeN offset (N.min limit (PT.tokenIdCounter s - offset)))).
Proof.
  unfold PTQ.getAllProperties.
  destruct (PT.tokenIdCounter s <=? offset) eqn:Hoff.
  - apply N.leb_le in Hoff.
    assert ((offset <? PT.tokenIdCounter s) = false) as ->
      by (apply N.ltb_ge; lia).
    reflexivity.
  - apply N.leb_gt in Hoff.
    assert ((offset <? PT.tokenIdCounter s) = true) as ->
      by (apply N.ltb_lt; lia).
    simpl. unfold U256.add.
    destruct (MAX_UINT256 <? offset + limit) eqn:Hov.
    + apply N.ltb_lt in Hov.
      assert ((offset + limit <=? MAX_UINT256) = false) as ->
        by (apply N.leb_gt; lia).
      reflexivity.
    + apply N.ltb_ge in Hov.
      assert ((offset + limit <=? MAX_UINT256) = true) as ->
        by (apply N.leb_le; lia).
      simpl. unfold U256.sub.
      set (end_ := if PT.tokenIdCounter s <? offset + limit
                   then PT.tokenIdCounter s else offset + limit).
      assert (end_ - offset = N.min limit (PT.tokenIdCounter s - offset)
              /\ offset <= end_) as [Hlen Hle].
      { unfold end_. destruct (PT.tokenIdCounter s <? offset + limit) eqn:Hc.
        - apply N.ltb_lt in Hc. lia.
        - apply N.ltb_ge in Hc. lia. }
      assert ((offset <=? end_) = true) as -> by (by apply N.leb_le).
      simpl. rewrite Hlen. unfold rangeN.
      apply (copy_loop_Ok s offset _ 0%nat []). reflexivity.
Qed.

(** X7. [getAllProperties(offset, limit)] fails when [offset] is not below
    the number of properties (so always on an empty registry) and panics
    when [offset + limit] overflows; otherwise it returns the properties
    numbered [offset], [offset + 1], ..., at most [limit] of them and never
    past the last one.  Consecutive pages join up to the larger page. *)
Theorem X7_getAllProperties_pages s offset limit :
  PTQ.getAllProperties s offset limit
  = (if PT.tokenIdCounter s <=? offset
     then Revert (Require_failed "Offset out of bounds")
     else if MAX_UINT256 <? offset + limit then Revert Panic_arith
     else Ok (map (PT.getProperty s)
                (rangeN offset (N.min limit (PT.tokenIdCounter s - offset)))))
  /\ forall more,
       offset + limit < PT.tokenIdCounter s ->
       offset + limit + more <= MAX_UINT256 ->
       exists page1 page2,
         PTQ.getAllProperties s offset limit = Ok page1
         /\ PTQ.getAllProperties s (offset + limit) more = Ok page2
         /\ PTQ.getAllProperties s offset (limit + more) = Ok (page1 ++ page2)
         /\ N.of_nat (length page1) = limit.
Proof.
  split; [apply getAllProperties_page|].
  intros more Hlt Hfit. rewrite !getAllProperties_page.
  assert ((PT.tokenIdCounter s <=? offset) = false) as ->
    by (apply N.leb_gt; lia).
  assert ((PT.tokenIdCounter s <=? offset + limit) = false) as ->
    by (apply N.leb_gt; lia).
  assert ((MAX_UINT256 <? offset + limit) = false) as ->
    by (apply N.ltb_ge; lia).
  assert ((MAX_UINT256 <? offset + limit + more) = false) as ->
    by (apply N.ltb_ge; lia).
  assert ((MAX_UINT256 <? offset + (limit + more)) = false) as ->
    by (apply N.ltb_ge; lia).
  eexists _, _. split; [reflexivity|]. split; [reflexivity|]. split.
  - f_equal. rewrite <- map_app. f_equal.
    replace (N.min limit (PT.tokenIdCounter s - offset)) with limit by lia.
    rewrite <- rangeN_app. f_equal. lia.
  - rewrite length_map. unfold rangeN. rewrite length_fmap, length_seq. lia.
Qed.

Lemma X7_witness :
  exists page1 page2,
    PTQ.getAllProperties (Sys.pt Demo.w_treasury_listing) 0 1 = Ok page1
    /\ PTQ.getAllProperties (Sys.pt Demo.w_treasury_listing) (0 + 1) 1
       = Ok page2
    /\ PTQ.getAllProperties (Sys.pt Demo.w_treasury_listing) 0 (1 + 1)
       = Ok (page1 ++ page2)
    /\ N.of_nat (length page1) = 1.
Proof.
  apply (proj2 (X7_getAllProperties_pages (Sys.pt Demo.w_treasury_listing) 0 1)
           1).
  - by_eval.
  - by_eval.
Defined.

(** ** The platform fee *)

Lemma fee_tenth f cost : f <= 1000 -> platform_fee f cost <= cost / 10.
Proof.
  intros Hf. unfold platform_fee.
  transitivity (cost * 1000 / 10000).
  - apply N.Div0.div_le_mono. nia.
  - replace 10000 with (10 * 1000) by reflexivity.
    rewrite N.Div0.div_mul_cancel_r by discriminate. lia.
Qed.

(** X8. The platform fee is capped at 10%: the rate starts at 250 basis
    points, only the administrator can set it, a rate above 1000 is
    refused, and so in every reachable world the fee taken from a payment
    is at most a tenth of it. *)
Theorem X8_platform_fee_is_capped :
  (forall w, Sys.reachable w ->
     PT.platformFeePercent (Sys.pt w) <= 1000
     /\ forall cost,
          platform_fee (PT.platformFeePercent (Sys.pt w)) cost <= cost / 10)
  /\ (forall s sender n,
        PT.setPlatformFee s sender n
        = if sender =? PT.owner s
          then if n <=? 1000 then Ok (PT.set_platformFeePercent n s)
               else Revert (Require_failed "Fee too high")
          else Revert (Require_failed "Ownable: caller is not the owner"))
  /\ forall c, PT.platformFeePercent (Sys.pt (Sys.init c)) = 250.
Proof.
  split; [|split].
  - intros w Hreach.
    pose proof (pt_fee_cap _ (inv_pt w (reachable_Inv w Hreach))) as Hcap.
    split; [exact Hcap | intros cost; by apply fee_tenth].
  - intros s sender n. unfold PT.setPlatformFee, PT.onlyOwner.
    destruct (sender =? PT.owner s); simpl; [|reflexivity].
    destruct (n <=? 1000); reflexivity.
  - reflexivity.
Qed.

(** ** The disaster registry *)

(** X9. The insurance fund is always backed: in every reachable world the
    fund counter is at most the token balance of the disaster registry, and
    the registry has granted no allowance on it. *)
Theorem X9_insurance_fund_is_backed w :
  Sys.reachable w ->
  DM.insuranceFund (Sys.dm w) <= HRM.balanceOf (Sys.hrm w) (DM.self (Sys.dm w))
  /\ forall sp, HRM.allowance (Sys.hrm w) (DM.self (Sys.dm w)) sp = 0.
Proof.
  intros Hreach. pose proof (inv_dm w (reachable_Inv w Hreach)) as Hd.
  split; [apply Hd | apply Hd].
Qed.

Lemma X9_witness :
  DM.insuranceFund (Sys.dm Demo.w_claim)
  <= HRM.balanceOf (Sys.hrm Demo.w_claim) (DM.self (Sys.dm Demo.w_claim))
  /\ DM.insuranceFund (Sys.dm Demo.w_claim) = 1000.
Proof.
  split; [|by_eval].
  apply (X9_insurance_fund_is_backed Demo.w_claim reachable_w_claim).
Defined.

(** X10. [processClaim] pays only on [APPROVED] with a positive amount.
    With any other status, or with amount 0, the administrator's call on a
    pending claim succeeds, moves no token, leaves the fund as it is and
    records the status and the amount as given: [REJECTED] closes the
    claim, [PAID] marks it paid although nothing was paid, and [PENDING]
    leaves it open for another decision. *)
Theorem X10_processClaim_without_payout tok d cid st amt :
  0 < cid -> cid <= DM.insuranceClaimCount d ->
  DM.status (DM.getClaim d cid) = DM.PENDING ->
  st <> DM.APPROVED \/ amt = 0 ->
  exists d',
    DM.processClaim tok d (DM.owner d) cid st amt = Ok (tok, d')
    /\ DM.getClaim d' cid
       = DM.set_approvedAmount amt (DM.set_status st (DM.getClaim d cid))
    /\ DM.insuranceFund d' = DM.insuranceFund d
    /\ (forall cid', cid' <> cid -> DM.getClaim d' cid' = DM.getClaim d cid').
Proof.
  intros Hpos Hle Hpend Hcase.
  unfold DM.processClaim, DM.onlyOwner.
  rewrite bind_require by apply N.eqb_refl.
  rewrite bind_require
    by (apply andb_true_iff; split; [by apply N.ltb_lt | by apply N.leb_le]).
  rewrite bind_require by (by rewrite Hpend).
  assert ((DM.ClaimStatus_eqb st DM.APPROVED && (0 <? amt)) = false) as ->.
  { destruct Hcase as [Hst | ->].
    - destruct st; try reflexivity. congruence.
    - apply andb_false_r. }
  eexists. split; [reflexivity|].
  rewrite !getClaim_set_claim. destruct (decide (cid = cid)); [|congruence].
  split; [reflexivity|]. split; [reflexivity|].
  intros cid' Hne. rewrite !getClaim_set_claim.
  destruct (decide (cid = cid')); [congruence|]. reflexivity.
Qed.

Lemma X10_witness :
  exists d',
    DM.processClaim (Sys.hrm Demo.w_claim) (Sys.dm Demo.w_claim)
      (DM.owner (Sys.dm Demo.w_claim)) 1 DM.PAID 500
    = Ok (Sys.hrm Demo.w_claim, d')
    /\ DM.getClaim d' 1
       = DM.set_approvedAmount 500
           (DM.set_status DM.PAID (DM.getClaim (Sys.dm Demo.w_claim) 1))
    /\ DM.insuranceFund d' = DM.insuranceFund (Sys.dm Demo.w_claim)
    /\ (forall cid', cid' <> 1 ->
          DM.getClaim d' cid' = DM.getClaim (Sys.dm Demo.w_claim) cid').
Proof.
  apply X10_processClaim_without_payout.
  - by_eval.
  - by_eval.
  - by_eval.
  - left. discriminate.
Defined.

Lemma reportDisaster_Ok d sender now pid ty desc :
  DM.reportDisaster d sender now pid ty desc
  = if rd false (DM.authorizedReporters d) sender || (sender =? DM.owner d)
    then
      if DM.disasterReportCount d + 1 <=? MAX_UINT256 then
        let count := DM.disasterReportCount d + 1 in
        Ok (DM.push_propertyDisaster pid count
              (DM.set_report count
                 (DM.mkReport count pid ty desc now sender false)
                 (DM.set_disasterReportCount count d)), count)
      else Revert Panic_arith
    else Revert (Require_failed "Not authorized to report disasters").
Proof.
  unfold DM.reportDisaster.
  destruct (rd false (DM.authorizedReporters d) sender || (sender =? DM.owner d));
    simpl; [|reflexivity].
  unfold U256.add. destruct (DM.disasterReportCount d + 1 <=? MAX_UINT256);
    reflexivity.
Qed.


Lemma submitClaim_eq d sender now pid rid amount ev :
  DM.submitClaim d sender now pid rid amount ev
  = if negb ((0 <? rid) && (rid <=? DM.disasterReportCount d))
    then Revert (Require_failed "Invalid disaster report ID")
    else if negb (DM.verified (DM.getReport d rid))
    then Revert (Require_failed "Disaster report not verified")
    else if negb (DM.propertyId (DM.getReport d rid) =? pid)
    then Revert (Require_failed "Property ID mismatch")
    else if negb (0 <? amount)
    then Revert (Require_failed "Claim amount must be greater than 0")
    else if negb (DM.insuranceClaimCount d + 1 <=? MAX_UINT256)
    then Revert Panic_arith
    else
      let count := DM.insuranceClaimCount d + 1 in
      Ok (DM.set_claim count
            (DM.mkClaim count pid rid amount DM.PENDING ev now sender 0)
            (DM.set_insuranceClaimCount count d), count).
Proof.
  unfold DM.submitClaim.
  destruct ((0 <? rid) && (rid <=? DM.disasterReportCount d)); [|reflexivity].
  destruct (DM.verified (DM.getReport d rid)); [|reflexivity].
  destruct (DM.propertyId (DM.getReport d rid) =? pid); [|reflexivity].
  destruct (0 <? amount); [|reflexivity].
  unfold U256.add.
  destruct (DM.insuranceClaimCount d + 1 <=? MAX_UINT256); reflexivity.
Qed.

Lemma getReport_set_report d rid r rid' :
  DM.getReport (DM.set_report rid r d) rid'
  = if decide (rid = rid') then r else DM.getReport d rid'.
Proof.
  unfold DM.getReport, DM.set_report; simpl. destruct (decide (rid = rid')) as [->|Hne].
  - by rewrite rd_insert_eq.
  - by rewrite rd_insert_ne.
Qed.

(** X12. A claim needs a verified report of the same property:
    [submitClaim] succeeds exactly when the report number is in range, the
    report is verified and is about the property named, the amount is
    positive and the claim counter fits.  An accepted claim gets the
    next number and can be read back as a pending claim of the caller with
    nothing approved.  Once the administrator withdraws the verification of
    a report, no further claim on it is accepted. *)
Theorem X12_claims_need_a_verified_report :
  (forall d sender now pid rid amount ev,
      (exists r, DM.submitClaim d sender now pid rid amount ev = Ok r)
      <-> 0 < rid /\ rid <= DM.disasterReportCount d
          /\ DM.verified (DM.getReport d rid) = true
          /\ DM.propertyId (DM.getReport d rid) = pid
          /\ 0 < amount
          /\ DM.insuranceClaimCount d + 1 <= MAX_UINT256)
  /\ (forall d sender now pid rid amount ev d' cid,
        DM.submitClaim d sender now pid rid amount ev = Ok (d', cid) ->
        cid = DM.insuranceClaimCount d + 1
        /\ DMQ.getInsuranceClaim d' cid
           = Ok (DM.mkClaim cid pid rid amount DM.PENDING ev now sender 0)
        /\ DM.insuranceFund d' = DM.insuranceFund d)
  /\ (forall d admin rid d' sender now pid amount ev,
        DM.verifyDisaster d admin rid false = Ok d' ->
        DM.submitClaim d' sender now pid rid amount ev
        = Revert (Require_failed "Disaster report not verified")).
Proof.
  split; [|split].
  - intros d sender now pid rid amount ev. rewrite submitClaim_eq. split.
    + intros [r H].
      destruct ((0 <? rid) && (rid <=? DM.disasterReportCount d)) eqn:H1;
        [|discriminate].
      destruct (DM.verified (DM.getReport d rid)) eqn:H2; [|discriminate].
      destruct (DM.propertyId (DM.getReport d rid) =? pid) eqn:H3;
        [|discriminate].
      destruct (0 <? amount) eqn:H4; [|discriminate].
      destruct (DM.insuranceClaimCount d + 1 <=? MAX_UINT256) eqn:H5;
        [|discriminate].
      apply andb_true_iff in H1 as [H1a H1b].
      apply N.ltb_lt in H1a, H4. apply N.leb_le in H1b, H5.
      apply N.eqb_eq in H3. repeat split; assumption.
    + intros (H1 & H2 & H3 & H4 & H5 & H6).
      apply N.ltb_lt in H1, H5. apply N.leb_le in H2, H6. apply N.eqb_eq in H4.
      rewrite H1, H2, H3, H4, H5, H6. by eexists.
  - intros d sender now pid rid amount ev d' cid H.
    rewrite submitClaim_eq in H.
    destruct ((0 <? rid) && (rid <=? DM.disasterReportCount d)); [|discriminate].
    destruct (DM.verified (DM.getReport d rid)); [|discriminate].
    destruct (DM.propertyId (DM.getReport d rid) =? pid); [|discriminate].
    destruct (0 <? amount); [|discriminate].
    destruct (DM.insuranceClaimCount d + 1 <=? MAX_UINT256) eqn:H5;
      [|discriminate].
    injection H as <- <-. split; [reflexivity|]. split; [|reflexivity].
    unfold DMQ.getInsuranceClaim.
    rewrite bind_require.
    + by rewrite getClaim_set_claim, decide_True.
    + apply andb_true_iff. split; [apply N.ltb_lt | apply N.leb_le]; simpl; lia.
  - intros d admin rid d' sender now pid amount ev H.
    unfold DM.verifyDisaster in H.
    apply bind_Ok in H as ([] & _ & H). apply bind_Ok in H as ([] & Hid & H).
    apply require_Ok in Hid. injection H as <-.
    rewrite submitClaim_eq.
    change (DM.disasterReportCount (DM.set_report rid _ d))
      with (DM.disasterReportCount d).
    rewrite Hid. rewrite getReport_set_report, decide_True by reflexivity.
    reflexivity.
Qed.

Lemma X12_witness :
  exists r,
    DM.submitClaim (Sys.dm Demo.w_claim) Demo.landlord 1700000000 0 1 500
      "photographs" = Ok r.
Proof.
  apply (proj1 X12_claims_need_a_verified_report (Sys.dm Demo.w_claim)
           Demo.landlord 1700000000 0 1 500 "photographs").
  split; [by_eval|]. split; [by_eval|]. split; [by_eval|]. split; [by_eval|].
  split; by_eval.
Defined.

(** X13. Reports are numbered from 1: [reportDisaster] gives the report the
    next number, files it under its property, and the report can be read
    back as reported, unverified; report number 0 and numbers above the
    counter cannot be read.  No claim is accepted on the new report until it
    is verified. *)
Theorem X13_report_round_trip d sender now pid ty desc d' rid :
  DM.reportDisaster d sender now pid ty desc = Ok (d', rid) ->
  rid = DM.disasterReportCount d + 1
  /\ DM.disasterReportCount d' = rid
  /\ DMQ.getDisasterReport d' rid
     = Ok (DM.mkReport rid pid ty desc now sender false)
  /\ DM.getPropertyDisasters d' pid = DM.getPropertyDisasters d pid ++ [rid]
  /\ (forall k, k = 0 \/ rid < k ->
        DMQ.getDisasterReport d' k = Revert (Require_failed "Invalid report ID"))
  /\ (forall who now' amount ev,
        DM.submitClaim d' who now' pid rid amount ev
        = Revert (Require_failed "Disaster report not verified")).
Proof.
  intros H. rewrite reportDisaster_Ok in H.
  destruct (rd false (DM.authorizedReporters d) sender || (sender =? DM.owner d));
    [|discriminate].
  destruct (DM.disasterReportCount d + 1 <=? MAX_UINT256) eqn:Hc; [|discriminate].
  injection H as <- <-.
  assert (forall r, DM.getReport
            (DM.push_propertyDisaster pid (DM.disasterReportCount d + 1)
               (DM.set_report (DM.disasterReportCount d + 1) r
                  (DM.set_disasterReportCount (DM.disasterReportCount d + 1) d)))
            (DM.disasterReportCount d + 1) = r) as Hget.
  { intros r. unfold DM.getReport. simpl. by rewrite rd_insert_eq. }
  split; [reflexivity|]. split; [reflexivity|]. split; [|split; [|split]].
  - unfold DMQ.getDisasterReport. rewrite bind_require.
    + by rewrite Hget.
    + apply andb_true_iff. split; [apply N.ltb_lt | apply N.leb_le]; simpl; lia.
  - unfold DM.getPropertyDisasters at 1. simpl. by rewrite rd_insert_eq.
  - intros k Hk. unfold DMQ.getDisasterReport.
    assert (((0 <? k) && (k <=? DM.disasterReportCount d + 1)) = false) as Hf.
    { apply andb_false_iff. destruct Hk as [-> | Hk].
      - left. reflexivity.
      - right. apply N.leb_gt. exact Hk. }
    simpl. by rewrite Hf.
  - intros who now' amount ev. rewrite submitClaim_eq. rewrite Hget.
    assert (((0 <? DM.disasterReportCount d + 1)
             && (DM.disasterReportCount d + 1 <=? DM.disasterReportCount d + 1))
            = true) as Hin.
    { apply andb_true_iff. split; [apply N.ltb_lt | apply N.leb_le]; lia. }
    simpl. by rewrite Hin.
Qed.

Lemma X13_witness :
  exists d',
    DM.reportDisaster (Sys.dm Demo.w_sold) Demo.admin 1700000000 0 DM.FLOOD
      "river flood" = Ok (d', 1)
    /\ DMQ.getDisasterReport d' 1
       = Ok (DM.mkReport 1 0 DM.FLOOD "river flood" 1700000000 Demo.admin
               false)
    /\ DMQ.getDisasterReport d' 0 = Revert (Require_failed "Invalid report ID").
Proof.
  assert (exists d',
    DM.reportDisaster (Sys.dm Demo.w_sold) Demo.admin 1700000000 0 DM.FLOOD
      "river flood" = Ok (d', 1)) as [d' Hd] by (eexists; by_eval).
  destruct (X13_report_round_trip _ _ _ _ _ _ _ _ Hd)
    as (_ & _ & Hget & _ & Hbad & _).
  exists d'. split; [exact Hd|]. split; [exact Hget|].
  apply Hbad. by left.
Defined.

(** ** Governance *)

(** Only the three functions of the governance contract change its state. *)
Lemma exec_gov w tx w' :
  Sys.exec w tx = Ok w' ->
  Sys.gov w' = Sys.gov w
  \/ (exists t dsc, Gov.createProposal (Sys.hrm w) (Sys.gov w) (Sys.sender tx)
                      (Sys.timestamp tx) t dsc = Ok (Sys.gov w'))
  \/ (exists pid sup, Gov.vote (Sys.hrm w) (Sys.gov w) (Sys.sender tx)
                        (Sys.timestamp tx) pid sup = Ok (Sys.gov w'))
  \/ (exists pid, Gov.executeProposal (Sys.hrm w) (Sys.gov w) (Sys.sender tx)
                    (Sys.timestamp tx) pid = Ok (Sys.gov w')).
Proof.
  destruct tx as [sender now c]. unfold Sys.exec. simpl. intros H.
  destruct c; apply bind_Ok in H as (r & Hr & H); injection H as <-; simpl;
    try (left; reflexivity).
  - right; left. by eexists _, _.
  - right; right; left. by eexists _, _.
  - right; right; right. by eexists.
Qed.

Lemma createProposal_Ok tok s sender now t dsc s' :
  Gov.createProposal tok s sender now t dsc = Ok s' ->
  Gov.MIN_VOTING_POWER <= HRM.balanceOf tok sender
  /\ Gov.proposalCount s + 1 <= MAX_UINT256
  /\ now + Gov.VOTING_PERIOD <= MAX_UINT256
  /\ s' = Gov.set_proposal (Gov.proposalCount s + 1)
            (Gov.mkProposal (Gov.proposalCount s + 1) t dsc sender 0 0 now
               (now + Gov.VOTING_PERIOD) false false)
            (Gov.set_proposalCount (Gov.proposalCount s + 1) s).
Proof.
  unfold Gov.createProposal. intros H.
  apply bind_Ok in H as ([] & H1 & H). apply require_Ok, N.leb_le in H1.
  apply bind_Ok in H as (c & H2 & H). apply U256_add_Ok in H2 as [-> H2].
  apply bind_Ok in H as (e & H3 & H). apply U256_add_Ok in H3 as [-> H3].
  injection H as <-. repeat split; assumption.
Qed.

Lemma vote_Ok tok s sender now pid sup s' :
  Gov.vote tok s sender now pid sup = Ok s' ->
  let p := Gov.getProposal s pid in
  let power := HRM.balanceOf tok sender in
  0 < pid /\ pid <= Gov.proposalCount s /\ now <= Gov.endTime p
  /\ Gov.hasVoted (Gov.getVote s pid sender) = false
  /\ Gov.MIN_VOTING_POWER <= power
  /\ (if sup then Gov.votesFor p else Gov.votesAgainst p) + power <= MAX_UINT256
  /\ s' = Gov.set_proposal pid
            (if sup then Gov.set_votesFor (Gov.votesFor p + power) p
             else Gov.set_votesAgainst (Gov.votesAgainst p + power) p)
            (Gov.set_vote pid sender (Gov.mkVote true sup power) s).
Proof.
  unfold Gov.vote. intros H.
  apply bind_Ok in H as ([] & H1 & H). apply require_Ok in H1.
  apply andb_true_iff in H1 as [H1a H1b].
  apply N.ltb_lt in H1a. apply N.leb_le in H1b.
  apply bind_Ok in H as ([] & H2 & H). apply require_Ok, N.leb_le in H2.
  apply bind_Ok in H as ([] & H3 & H). apply require_Ok, negb_true_iff in H3.
  apply bind_Ok in H as ([] & H4 & H). apply require_Ok, N.leb_le in H4.
  destruct sup; apply bind_Ok in H as (v & H5 & H);
    apply U256_add_Ok in H5 as [-> H5]; injection H as <-;
    repeat split; assumption.
Qed.

Lemma vote_succeeds tok s sender now pid (sup : bool) :
  let p := Gov.getProposal s pid in
  let power := HRM.balanceOf tok sender in
  0 < pid -> pid <= Gov.proposalCount s -> now <= Gov.endTime p ->
  Gov.hasVoted (Gov.getVote s pid sender) = false ->
  Gov.MIN_VOTING_POWER <= power ->
  (if sup then Gov.votesFor p else Gov.votesAgainst p) + power <= MAX_UINT256 ->
  Gov.vote tok s sender now pid sup
  = Ok (Gov.set_proposal pid
          (if sup then Gov.set_votesFor (Gov.votesFor p + power) p
           else Gov.set_votesAgainst (Gov.votesAgainst p + power) p)
          (Gov.set_vote pid sender (Gov.mkVote true sup power) s)).
Proof.
  intros p power H1 H2 H3 H4 H5 H6. unfold Gov.vote.
  rewrite bind_require
    by (apply andb_true_iff; split; [by apply N.ltb_lt | by apply N.leb_le]).
  rewrite bind_require by (by apply N.leb_le).
  rewrite bind_require by (by rewrite H4).
  rewrite bind_require by (by apply N.leb_le).
  unfold U256.add. fold p power.
  destruct sup; apply N.leb_le in H6; rewrite H6; reflexivity.
Qed.

Lemma executeProposal_Ok tok s sender now pid s' :
  Gov.executeProposal tok s sender now pid = Ok s' ->
  let p := Gov.getProposal s pid in
  0 < pid /\ pid <= Gov.proposalCount s /\ Gov.endTime p < now
  /\ Gov.executed p = false
  /\ exists passed_, s' = Gov.set_proposal pid (Gov.set_outcome true passed_ p) s.
Proof.
  unfold Gov.executeProposal. intros H.
  apply bind_Ok in H as ([] & H1 & H). apply require_Ok in H1.
  apply andb_true_iff in H1 as [H1a H1b].
  apply N.ltb_lt in H1a. apply N.leb_le in H1b.
  apply bind_Ok in H as ([] & H2 & H). apply require_Ok, N.ltb_lt in H2.
  apply bind_Ok in H as ([] & H3 & H). apply require_Ok, negb_true_iff in H3.
  apply bind_Ok in H as (? & _ & H). apply bind_Ok in H as (? & _ & H).
  apply bind_Ok in H as (? & _ & H). injection H as <-.
  repeat split; try assumption. by eexists.
Qed.

Lemma getVote_set_vote s pid a v pid' a' :
  Gov.getVote (Gov.set_vote pid a v s) pid' a'
  = if decide ((pid, a) = (pid', a')) then v else Gov.getVote s pid' a'.
Proof.
  unfold Gov.getVote, Gov.set_vote; simpl.
  destruct (decide ((pid, a) = (pid', a'))) as [Heq|Hne].
  - injection Heq as -> ->. by rewrite rd_insert_eq.
  - by rewrite rd_insert_ne.
Qed.

Lemma getProposal_set_proposal s pid p pid' :
  Gov.getProposal (Gov.set_proposal pid p s) pid'
  = if decide (pid = pid') then p else Gov.getProposal s pid'.
Proof.
  unfold Gov.getProposal, Gov.set_proposal; simpl.
  destruct (decide (pid = pid')) as [->|Hne].
  - by rewrite rd_insert_eq.
  - by rewrite rd_insert_ne.
Qed.

Lemma getVote_set_proposal s pid p pid' a :
  Gov.getVote (Gov.set_proposal pid p s) pid' a = Gov.getVote s pid' a.
Proof. reflexivity. Qed.

Lemma exec_vote_kept w tx w' pid a :
  Sys.exec w tx = Ok w' ->
  Gov.hasVoted (Gov.getVote (Sys.gov w) pid a) = true ->
  Gov.getVote (Sys.gov w') pid a = Gov.getVote (Sys.gov w) pid a.
Proof.
  intros He Hv.
  destruct (exec_gov w tx w' He)
    as [->|[(t & dsc & H)|[(pid' & sup & H)|(pid' & H)]]].
  - reflexivity.
  - apply createProposal_Ok in H as (_ & _ & _ & ->). reflexivity.
  - apply vote_Ok in H as (_ & _ & _ & Hnot & _ & _ & ->).
    rewrite getVote_set_proposal, getVote_set_vote.
    destruct (decide ((pid', Sys.sender tx) = (pid, a))) as [Heq|Hne];
      [|reflexivity].
    injection Heq as H1 H2. rewrite H1, H2 in Hnot. congruence.
  - apply executeProposal_Ok in H as (_ & _ & _ & _ & (b & ->)). reflexivity.
Qed.

(** X14. One vote per account and proposal, for good: once an account has
    voted on a proposal, its recorded vote (side and weight) is the same
    after every run of transactions, and every further vote by it on that
    proposal is refused. *)
Theorem X14_vote_is_cast_once w txs pid a :
  Gov.hasVoted (Gov.getVote (Sys.gov w) pid a) = true ->
  Gov.getVote (Sys.gov (Sys.run w txs)) pid a = Gov.getVote (Sys.gov w) pid a
  /\ forall now sup,
       exists e,
         Sys.exec (Sys.run w txs) (Sys.mkTx a now (Sys.CastVote pid sup))
         = Revert e.
Proof.
  intros Hv.
  assert (Gov.getVote (Sys.gov (Sys.run w txs)) pid a
          = Gov.getVote (Sys.gov w) pid a) as Hsame.
  { revert w Hv. induction txs as [|tx txs IH]; intros w Hv; [reflexivity|].
    change (Sys.run w (tx :: txs)) with (Sys.run (Sys.apply_tx w tx) txs).
    destruct (apply_tx_cases w tx) as [(w' & He & Hw')|[_ Hw']]; rewrite Hw'.
    - pose proof (exec_vote_kept w tx w' pid a He Hv) as Hk.
      rewrite IH by congruence. exact Hk.
    - by apply IH. }
  split; [exact Hsame|].
  intros now sup. apply not_Ok_Revert. intros w' He.
  unfold Sys.exec in He. simpl in He.
  apply bind_Ok in He as (s' & Hvote & _).
  apply vote_Ok in Hvote as (_ & _ & _ & Hnot & _). congruence.
Qed.

Lemma X14_witness :
  Gov.getVote
    (Sys.gov (Sys.run Demo.w_voted
                [ Demo.tx Demo.dave (Sys.CastVote 1 false) ])) 1 Demo.dave
  = Gov.getVote (Sys.gov Demo.w_voted) 1 Demo.dave
  /\ exists e,
       Sys.exec
         (Sys.run Demo.w_voted [ Demo.tx Demo.dave (Sys.CastVote 1 false) ])
         (Sys.mkTx Demo.dave 1700000001 (Sys.CastVote 1 true)) = Revert e.
Proof.
  destruct (X14_vote_is_cast_once Demo.w_voted
              [ Demo.tx Demo.dave (Sys.CastVote 1 false) ] 1 Demo.dave
              ltac:(by_eval)) as [Hkept Hrefused].
  split; [exact Hkept|]. apply Hrefused.
Defined.

Lemma exec_outcome_kept w tx w' pid :
  Sys.exec w tx = Ok w' ->
  pid <= Gov.proposalCount (Sys.gov w) ->
  Gov.executed (Gov.getProposal (Sys.gov w) pid) = true ->
  pid <= Gov.proposalCount (Sys.gov w')
  /\ Gov.executed (Gov.getProposal (Sys.gov w') pid) = true
  /\ Gov.passed (Gov.getProposal (Sys.gov w') pid)
     = Gov.passed (Gov.getProposal (Sys.gov w) pid).
Proof.
  intros He Hle Hex.
  destruct (exec_gov w tx w' He)
    as [->|[(t & dsc & H)|[(pid' & sup & H)|(pid' & H)]]].
  - by repeat split.
  - apply createProposal_Ok in H as (_ & _ & _ & ->).
    rewrite getProposal_set_proposal. simpl.
    destruct (decide (Gov.proposalCount (Sys.gov w) + 1 = pid)); [lia|].
    split; [lia|]. by split.
  - apply vote_Ok in H as (_ & _ & _ & _ & _ & _ & ->).
    rewrite getProposal_set_proposal. simpl.
    destruct (decide (pid' = pid)) as [->|Hne]; [|by repeat split].
    split; [exact Hle|]. destruct sup; simpl; by split.
  - apply executeProposal_Ok in H as (_ & _ & _ & Hnot & (b & ->)).
    rewrite getProposal_set_proposal. simpl.
    destruct (decide (pid' = pid)) as [->|Hne]; [congruence|by repeat split].
Qed.

(** X15. The outcome of a proposal is final: once a proposal was executed,
    it stays executed with the same verdict through every run of
    transactions, and every further execution of it is refused. *)
Theorem X15_execution_is_final w txs pid :
  pid <= Gov.proposalCount (Sys.gov w) ->
  Gov.executed (Gov.getProposal (Sys.gov w) pid) = true ->
  Gov.executed (Gov.getProposal (Sys.gov (Sys.run w txs)) pid) = true
  /\ Gov.passed (Gov.getProposal (Sys.gov (Sys.run w txs)) pid)
     = Gov.passed (Gov.getProposal (Sys.gov w) pid)
  /\ forall sender now,
       exists e,
         Sys.exec (Sys.run w txs) (Sys.mkTx sender now (Sys.ExecuteProposal pid))
         = Revert e.
Proof.
  intros Hle Hex.
  assert (pid <= Gov.proposalCount (Sys.gov (Sys.run w txs))
          /\ Gov.executed (Gov.getProposal (Sys.gov (Sys.run w txs)) pid) = true
          /\ Gov.passed (Gov.getProposal (Sys.gov (Sys.run w txs)) pid)
             = Gov.passed (Gov.getProposal (Sys.gov w) pid)) as (_ & He' & Hp').
  { revert w Hle Hex. induction txs as [|tx txs IH]; intros w Hle Hex.
    - by repeat split.
    - change (Sys.run w (tx :: txs)) with (Sys.run (Sys.apply_tx w tx) txs).
      destruct (apply_tx_cases w tx) as [(w' & He & Hw')|[_ Hw']]; rewrite Hw'.
      + destruct (exec_outcome_kept w tx w' pid He Hle Hex) as (H1 & H2 & H3).
        destruct (IH w' H1 H2) as (H4 & H5 & H6).
        split; [exact H4|]. split; [exact H5 | congruence].
      + by apply IH. }
  split; [exact He'|]. split; [exact Hp'|].
  intros sender now. apply not_Ok_Revert. intros w' He.
  unfold Sys.exec in He. simpl in He.
  apply bind_Ok in He as (s' & Hx & _).
  apply executeProposal_Ok in Hx as (_ & _ & _ & Hnot & _). congruence.
Qed.

Lemma X15_witness :
  Gov.executed
    (Gov.getProposal
       (Sys.gov (Sys.run DemoX.w_executed
                   [ Sys.mkTx Demo.erin Demo.after_voting (Sys.CastVote 1 true);
                     Sys.mkTx Demo.admin Demo.after_voting
                       (Sys.ExecuteProposal 1) ])) 1) = true
  /\ Gov.passed
       (Gov.getProposal
          (Sys.gov (Sys.run DemoX.w_executed
                      [ Sys.mkTx Demo.erin Demo.after_voting
                          (Sys.CastVote 1 true);
                        Sys.mkTx Demo.admin Demo.after_voting
                          (Sys.ExecuteProposal 1) ])) 1)
     = Gov.passed (Gov.getProposal (Sys.gov DemoX.w_executed) 1).
Proof.
  destruct (X15_execution_is_final DemoX.w_executed
              [ Sys.mkTx Demo.erin Demo.after_voting (Sys.CastVote 1 true);
                Sys.mkTx Demo.admin Demo.after_voting (Sys.ExecuteProposal 1) ]
              1 ltac:(by_eval) ltac:(by_eval)) as (He & Hp & _).
  split; [exact He|exact Hp].
Defined.

(** X16. A vote weighs the balance the voter holds when voting; nothing
    is locked or snapshotted.  So tokens that have voted can be sent on and
    vote again: after [a] voted and sent its whole balance to [b], the vote
    of [b] adds the balance of [a] a second time to the same side. *)
Theorem X16_votes_weigh_the_live_balance
    tok s a b now now' pid (sup : bool) s1 tok' :
  HRM_inv tok -> a <> b ->
  Gov.vote tok s a now pid sup = Ok s1 ->
  HRM.transfer tok a b (HRM.balanceOf tok a) = Ok tok' ->
  Gov.hasVoted (Gov.getVote s pid b) = false ->
  now' <= Gov.endTime (Gov.getProposal s pid) ->
  (if sup then Gov.votesFor (Gov.getProposal s pid)
   else Gov.votesAgainst (Gov.getProposal s pid))
  + 2 * HRM.balanceOf tok a + HRM.balanceOf tok b <= MAX_UINT256 ->
  Gov.votingPower (Gov.getVote s1 pid a) = HRM.balanceOf tok a
  /\ HRM.totalSupply tok' = HRM.totalSupply tok
  /\ exists s2,
       Gov.vote tok' s1 b now' pid sup = Ok s2
       /\ (if sup then Gov.votesFor (Gov.getProposal s2 pid)
           else Gov.votesAgainst (Gov.getProposal s2 pid))
          = (if sup then Gov.votesFor (Gov.getProposal s pid)
             else Gov.votesAgainst (Gov.getProposal s pid))
            + HRM.balanceOf tok a + (HRM.balanceOf tok b + HRM.balanceOf tok a).
Proof.
  intros Hinv Hab Hvote Htr Hnb Hwin Hfit.
  apply vote_Ok in Hvote as (Hpos & Hle & _ & _ & Hmin & _ & ->).
  unfold HRM.transfer in Htr.
  apply (_transfer_Ok _ _ _ _ _ Hinv) in Htr
    as (_ & _ & _ & _ & Hbal & _ & Hsup & _).
  assert (HRM.balanceOf tok' b = HRM.balanceOf tok b + HRM.balanceOf tok a) as Hb.
  { specialize (Hbal b). rewrite decide_False, decide_True in Hbal by congruence.
    lia. }
  split.
  { rewrite getVote_set_proposal, getVote_set_vote.
    by rewrite decide_True. }
  split; [exact Hsup|].
  eexists. split.
  - apply vote_succeeds.
    + exact Hpos.
    + exact Hle.
    + rewrite getProposal_set_proposal, decide_True by reflexivity.
      destruct sup; exact Hwin.
    + rewrite getVote_set_proposal, getVote_set_vote.
      rewrite decide_False by congruence. exact Hnb.
    + rewrite Hb. lia.
    + rewrite getProposal_set_proposal, decide_True by reflexivity.
      rewrite Hb. destruct sup; simpl; lia.
  - rewrite !getProposal_set_proposal, !decide_True by reflexivity.
    rewrite Hb. destruct sup; simpl; lia.
Qed.

Lemma X16_witness :
  exists s1 tok' s2,
    Gov.vote (Sys.hrm DemoX.w_proposed) (Sys.gov DemoX.w_proposed) Demo.dave
      1700000000 1 true = Ok s1
    /\ HRM.transfer (Sys.hrm DemoX.w_proposed) Demo.dave Demo.erin
         (HRM.balanceOf (Sys.hrm DemoX.w_proposed) Demo.dave) = Ok tok'
    /\ Gov.vote tok' s1 Demo.erin 1700000000 1 true = Ok s2
    /\ Gov.votesFor (Gov.getProposal s2 1) = 2 * (90000 * ether).
Proof.
  assert (exists s1,
    Gov.vote (Sys.hrm DemoX.w_proposed) (Sys.gov DemoX.w_proposed) Demo.dave
      1700000000 1 true = Ok s1) as [s1 Hs1] by (eexists; by_eval).
  assert (exists tok',
    HRM.transfer (Sys.hrm DemoX.w_proposed) Demo.dave Demo.erin
      (HRM.balanceOf (Sys.hrm DemoX.w_proposed) Demo.dave) = Ok tok')
    as [tok' Htok'] by (eexists; by_eval).
  destruct (X16_votes_weigh_the_live_balance
              (Sys.hrm DemoX.w_proposed) (Sys.gov DemoX.w_proposed)
              Demo.dave Demo.erin 1700000000 1700000000 1 true s1 tok')
    as (_ & _ & s2 & Hs2 & Hsum).
  - apply (inv_hrm _ (reachable_Inv _ reachable_w_proposed)).
  - by_eval.
  - exact Hs1.
  - exact Htok'.
  - by_eval.
  - by_eval.
  - by_eval.
  - exists s1, tok', s2. split; [exact Hs1|]. split; [exact Htok'|].
    split; [exact Hs2|]. cbv iota in Hsum. rewrite Hsum. by_eval.
Defined.

(** X17. The voting window: a proposal can be created by an account with
    at least 100 HRM, gets the next number, and can be read back with empty
    tallies and a window of seven days from its creation.  Votes are
    accepted up to the end of the window and execution only after it, so
    no call can vote and execute at the same time, and after a successful
    execution no later vote is accepted. *)
Theorem X17_voting_window :
  (forall tok s sender now t dsc s',
      Gov.createProposal tok s sender now t dsc = Ok s' ->
      100 * ether <= HRM.balanceOf tok sender
      /\ Gov.proposalCount s' = Gov.proposalCount s + 1
      /\ GovQ.getProposal s' (Gov.proposalCount s')
         = Ok (Gov.mkProposal (Gov.proposalCount s') t dsc sender 0 0 now
                 (now + 7 * 86400) false false))
  /\ (forall tok tok' s a b now pid sup,
        is_ok (Gov.vote tok s a now pid sup)
        && is_ok (Gov.executeProposal tok' s b now pid) = false)
  /\ (forall tok s b now pid s',
        Gov.executeProposal tok s b now pid = Ok s' ->
        forall tok' a later sup,
          now <= later ->
          Gov.vote tok' s' a later pid sup
          = Revert (Require_failed "Voting period has ended")).
Proof.
  split; [|split].
  - intros tok s sender now t dsc s' H.
    apply createProposal_Ok in H as (Hmin & Hc & _ & ->).
    split; [exact Hmin|]. split; [reflexivity|].
    unfold GovQ.getProposal. rewrite bind_require.
    + rewrite getProposal_set_proposal. by rewrite decide_True.
    + apply andb_true_iff. split; [apply N.ltb_lt | apply N.leb_le]; simpl; lia.
  - intros tok tok' s a b now pid sup.
    destruct (Gov.vote tok s a now pid sup) as [s1|e1] eqn:Hv; [|reflexivity].
    destruct (Gov.executeProposal tok' s b now pid) as [s2|e2] eqn:Hx;
      [|reflexivity].
    apply vote_Ok in Hv as (_ & _ & Hv & _).
    apply executeProposal_Ok in Hx as (_ & _ & Hx & _). lia.
  - intros tok s b now pid s' H tok' a later sup Hlater.
    apply executeProposal_Ok in H as (Hpos & Hle & Hend & _ & (r & ->)).
    unfold Gov.vote.
    rewrite bind_require
      by (apply andb_true_iff; split; [by apply N.ltb_lt | by apply N.leb_le]).
    rewrite getProposal_set_proposal, decide_True by reflexivity.
    assert ((later <=? Gov.endTime (Gov.set_outcome true r (Gov.getProposal s pid)))
            = false) as Hf by (apply N.leb_gt; simpl; lia).
    unfold require at 1. rewrite Hf. reflexivity.
Qed.

Lemma X17_witness :
  exists s',
    Gov.executeProposal (Sys.hrm Demo.w_voted) (Sys.gov Demo.w_voted) Demo.admin
      Demo.after_voting 1 = Ok s'
    /\ Gov.vote (Sys.hrm Demo.w_voted) s' Demo.carol (Demo.after_voting + 1) 1
         true
       = Revert (Require_failed "Voting period has ended").
Proof.
  assert (exists s',
    Gov.executeProposal (Sys.hrm Demo.w_voted) (Sys.gov Demo.w_voted) Demo.admin
      Demo.after_voting 1 = Ok s') as [s' He] by (eexists; by_eval).
  exists s'. split; [exact He|].
  apply (proj2 (proj2 X17_voting_window) _ _ _ _ _ _ He). by_eval.
Defined.

(** ** The faucet of the token *)

(** the common body of the four faucet functions *)
Lemma faucet_body s value now (caller recipient : address) amount :
  (let s0 := Faucet.receive value s in
   let! sum := U256.add (HRM.totalSupply (Faucet.ledger s0)) amount in
   ensure require (sum <=? HRM.MAX_SUPPLY) "HRM: Max supply exceeded" ;;
   let! l := HRM._mint (Faucet.ledger s0) recipient amount in
   Faucet.refund value
     (Faucet.set_lastMintTime recipient now (Faucet.set_ledger l s0)))
  = (let! l := HRM.mint (Faucet.ledger s) caller recipient amount in
     Ok (Faucet.set_lastMintTime recipient now (Faucet.set_ledger l s))).
Proof.
  unfold HRM.mint, Faucet.receive. cbn [Faucet.ledger Faucet.set_native].
  destruct (U256.add (HRM.totalSupply (Faucet.ledger s)) amount) as [sum|e];
    [|reflexivity].
  cbn [bind].
  destruct (require (sum <=? HRM.MAX_SUPPLY) "HRM: Max supply exceeded")
    as [[]|e]; [|reflexivity].
  cbn [bind].
  destruct (HRM._mint (Faucet.ledger s) recipient amount) as [l|e];
    [|reflexivity].
  cbn [bind]. unfold Faucet.refund.
  destruct (0 <? value) eqn:Hv.
  2:{ apply N.ltb_ge in Hv. assert (value = 0) as -> by lia.
      destruct s. unfold Faucet.set_lastMintTime, Faucet.set_ledger,
        Faucet.set_native. cbn. by rewrite N.add_0_r. }
  unfold U256.sub. cbn.
  assert ((value <=? Faucet.native s + value) = true) as ->
    by (apply N.leb_le; lia).
  cbn. destruct s.
  unfold Faucet.set_lastMintTime, Faucet.set_ledger, Faucet.set_native. cbn.
  by rewrite N.add_sub.
Qed.

Lemma publicMint_eq s sender now value :
  Faucet.publicMint s sender now value
  = (let! l := HRM.mint (Faucet.ledger s) sender sender
                 Faucet.PUBLIC_MINT_AMOUNT in
     Ok (Faucet.set_lastMintTime sender now (Faucet.set_ledger l s))).
Proof. apply (faucet_body s value now sender sender). Qed.

(** X18. The faucet is [mint] under four names: [publicMint],
    [publicMintTo], [mintAmount] and [mintAmountTo] succeed and fail exactly
    as [mint] does for the same recipient and amount (5000 HRM for the
    first two), give the ledger [mint] gives, stamp the recipient's
    [lastMintTime] and return the value sent with the call; the whitelist,
    the cooldown stamp and the [publicMintingEnabled] flag are not
    consulted.  The only checks of their own refuse the zero address and a
    zero amount. *)
Theorem X18_faucet_mints_like_mint s sender now value :
  Faucet.publicMint s sender now value
  = (let! l := HRM.mint (Faucet.ledger s) sender sender
                 Faucet.PUBLIC_MINT_AMOUNT in
     Ok (Faucet.set_lastMintTime sender now (Faucet.set_ledger l s)))
  /\ (forall to,
        Faucet.publicMintTo s sender now value to
        = if to =? address0
          then Revert (Require_failed "HRM: Cannot mint to zero address")
          else
            let! l := HRM.mint (Faucet.ledger s) sender to
                        Faucet.PUBLIC_MINT_AMOUNT in
            Ok (Faucet.set_lastMintTime to now (Faucet.set_ledger l s)))
  /\ (forall amount,
        Faucet.mintAmount s sender now value amount
        = if amount =? 0
          then Revert (Require_failed "HRM: Amount must be greater than 0")
          else
            let! l := HRM.mint (Faucet.ledger s) sender sender amount in
            Ok (Faucet.set_lastMintTime sender now (Faucet.set_ledger l s)))
  /\ (forall to amount,
        Faucet.mintAmountTo s sender now value to amount
        = if to =? address0
          then Revert (Require_failed "HRM: Cannot mint to zero address")
          else if amount =? 0
          then Revert (Require_failed "HRM: Amount must be greater than 0")
          else
            let! l := HRM.mint (Faucet.ledger s) sender to amount in
            Ok (Faucet.set_lastMintTime to now (Faucet.set_ledger l s))).
Proof.
  split; [|split; [|split]].
  - apply publicMint_eq.
  - intros to. unfold Faucet.publicMintTo.
    destruct (to =? address0); [reflexivity|].
    apply (faucet_body s value now sender to).
  - intros amount. unfold Faucet.mintAmount.
    destruct (N.eqb_spec amount 0) as [->|Hne]; [reflexivity|].
    assert ((0 <? amount) = true) as -> by (apply N.ltb_lt; lia).
    apply (faucet_body s value now sender sender).
  - intros to amount. unfold Faucet.mintAmountTo.
    destruct (to =? address0); [reflexivity|].
    destruct (N.eqb_spec amount 0) as [->|Hne]; [reflexivity|].
    assert ((0 <? amount) = true) as -> by (apply N.ltb_lt; lia).
    apply (faucet_body s value now sender to).
Qed.

Lemma getTimeUntilNextMint_eq s now user :
  rd 0 (Faucet.lastMintTime s) user + Faucet.MINT_COOLDOWN <= MAX_UINT256 ->
  Faucet.getTimeUntilNextMint s now user
  = Ok (if rd 0 (Faucet.lastMintTime s) user =? 0 then 0
        else rd 0 (Faucet.lastMintTime s) user + Faucet.MINT_COOLDOWN - now).
Proof.
  intros Hfit. unfold Faucet.getTimeUntilNextMint.
  destruct (rd 0 (Faucet.lastMintTime s) user =? 0); [reflexivity|].
  unfold U256.add. apply N.leb_le in Hfit. rewrite Hfit. cbn [bind].
  destruct (rd 0 (Faucet.lastMintTime s) user + Faucet.MINT_COOLDOWN <=? now)
    eqn:Hc.
  - apply N.leb_le in Hc. f_equal. lia.
  - apply N.leb_gt in Hc. unfold U256.sub.
    assert ((now <=? rd 0 (Faucet.lastMintTime s) user + Faucet.MINT_COOLDOWN)
            = true) as -> by (apply N.leb_le; lia).
    reflexivity.
Qed.

(** X19. The cooldown is displayed but not enforced.
    [getTimeUntilNextMint] returns the seconds left of the hour after the
    user's last mint (0 if the user never minted or the hour is over), and
    the modifier [canPublicMint] would refuse a mint within that hour; but
    no function carries the modifier: right after a mint, while the wait
    displayed is positive, the same account mints again. *)
Theorem X19_cooldown_is_not_enforced s sender now now' value value' s1 :
  HRM_inv (Faucet.ledger s) ->
  Faucet.publicMint s sender now value = Ok s1 ->
  0 < now -> now <= now' -> now' < now + 3600 -> now + 3600 <= MAX_UINT256 ->
  HRM.totalSupply (Faucet.ledger s) + 2 * Faucet.PUBLIC_MINT_AMOUNT
  <= HRM.MAX_SUPPLY ->
  Faucet.getTimeUntilNextMint s1 now' sender = Ok (now + 3600 - now')
  /\ 0 < now + 3600 - now'
  /\ (exists e, Faucet.canPublicMint s1 sender now' = Revert e)
  /\ exists s2,
       Faucet.publicMint s1 sender now' value' = Ok s2
       /\ HRM.balanceOf (Faucet.ledger s2) sender
          = HRM.balanceOf (Faucet.ledger s) sender
            + 2 * Faucet.PUBLIC_MINT_AMOUNT.
Proof.
  intros Hinv Hmint Hpos Hle Hlt Hfit Hcap.
  rewrite publicMint_eq in Hmint. apply bind_Ok in Hmint as (l & Hl & Hs1).
  injection Hs1 as <-.
  destruct (mint_Ok _ _ _ _ _ Hinv Hl)
    as (Hne & Hpa & Hbal & _ & Hts & Hpa' & _ & Hinv').
  assert (rd 0 (Faucet.lastMintTime
                  (Faucet.set_lastMintTime sender now (Faucet.set_ledger l s)))
            sender = now) as Hlast.
  { unfold Faucet.set_lastMintTime. cbn. by rewrite rd_insert_eq. }
  split; [|split; [lia|split]].
  - rewrite getTimeUntilNextMint_eq by (rewrite Hlast; exact Hfit).
    rewrite Hlast.
    assert ((now =? 0) = false) as -> by (apply N.eqb_neq; lia).
    reflexivity.
  - unfold Faucet.canPublicMint.
    destruct (Faucet.publicMintingEnabled _); [|by eexists].
    cbn [require bind]. rewrite Hlast. unfold U256.add.
    apply N.leb_le in Hfit.
    change (now + Faucet.MINT_COOLDOWN <=? MAX_UINT256)
      with (now + 3600 <=? MAX_UINT256).
    rewrite Hfit. cbn [bind].
    assert ((now + Faucet.MINT_COOLDOWN <=? now') = false) as ->
      by (apply N.leb_gt; exact Hlt).
    by eexists.
  - rewrite publicMint_eq.
    change (Faucet.ledger
              (Faucet.set_lastMintTime sender now (Faucet.set_ledger l s)))
      with l.
    assert (exists l2, HRM.mint l sender sender Faucet.PUBLIC_MINT_AMOUNT = Ok l2)
      as [l2 Hl2].
    { unfold HRM.mint. unfold U256.add.
      assert (HRM.totalSupply l + Faucet.PUBLIC_MINT_AMOUNT <= HRM.MAX_SUPPLY)
        as Hc2 by lia.
      pose proof MAX_SUPPLY_le.
      assert ((HRM.totalSupply l + Faucet.PUBLIC_MINT_AMOUNT <=? MAX_UINT256)
              = true) as -> by (apply N.leb_le; lia).
      cbn [bind].
      rewrite bind_require by (by apply N.leb_le).
      unfold HRM._mint.
      rewrite bind_require by (apply negb_true_iff; by apply N.eqb_neq).
      unfold HRM._beforeTokenTransfer.
      rewrite bind_require by (rewrite <- Hpa' in Hpa; by rewrite Hpa).
      unfold U256.add.
      assert ((HRM.totalSupply l + Faucet.PUBLIC_MINT_AMOUNT <=? MAX_UINT256)
              = true) as -> by (apply N.leb_le; lia).
      by eexists. }
    rewrite Hl2. cbn [bind]. eexists. split; [reflexivity|].
    destruct (mint_Ok _ _ _ _ _ Hinv' Hl2) as (_ & _ & Hbal2 & _).
    change (Faucet.ledger (Faucet.set_lastMintTime sender now'
                             (Faucet.set_ledger l2 _))) with l2.
    rewrite Hbal2, Hbal. rewrite !decide_True by reflexivity. lia.
Qed.

Lemma X19_witness :
  exists s1 s2,
    Faucet.publicMint (Faucet.init Demo.admin) Demo.alice 1700000000 0 = Ok s1
    /\ Faucet.getTimeUntilNextMint s1 1700000060 Demo.alice = Ok 3540
    /\ Faucet.publicMint s1 Demo.alice 1700000060 0 = Ok s2
    /\ HRM.balanceOf (Faucet.ledger s2) Demo.alice = 10000 * ether.
Proof.
  assert (exists s1,
    Faucet.publicMint (Faucet.init Demo.admin) Demo.alice 1700000000 0 = Ok s1)
    as [s1 Hs1] by (eexists; by_eval).
  destruct (X19_cooldown_is_not_enforced (Faucet.init Demo.admin) Demo.alice
              1700000000 1700000060 0 0 s1)
    as (Hwait & _ & _ & s2 & Hs2 & Hbal).
  - apply (inv_hrm _ (Inv_init Demo.cfg wf_cfg)).
  - exact Hs1.
  - by_eval.
  - by_eval.
  - by_eval.
  - by_eval.
  - by_eval.
  - exists s1, s2. split; [exact Hs1|]. split; [rewrite Hwait; by_eval|].
    split; [exact Hs2|]. rewrite Hbal. by_eval.
Defined.

(** ** The wrapped token *)

Lemma WHRM_transfer_bridge x from to amount :
  WHRM._transfer x from to amount
  = lift_ledger x (HRM._transfer (as_ledger x) from to amount).
Proof.
  unfold WHRM._transfer, HRM._transfer, HRM._beforeTokenTransfer.
  destruct (negb (from =? address0)); [|reflexivity].
  destruct (negb (to =? address0)); [|reflexivity].
  cbn [require bind as_ledger HRM.paused negb].
  change (HRM.balanceOf (as_ledger x) from) with (WHRM.balanceOf x from).
  destruct (amount <=? WHRM.balanceOf x from); reflexivity.
Qed.

Lemma WHRM_mint_bridge x account amount :
  WHRM._mint x account amount
  = lift_ledger x (HRM._mint (as_ledger x) account amount).
Proof.
  unfold WHRM._mint, HRM._mint, HRM._beforeTokenTransfer.
  destruct (negb (account =? address0)); [|reflexivity].
  cbn [require bind as_ledger HRM.paused negb HRM.totalSupply].
  destruct (U256.add (WHRM.totalSupply x) amount); reflexivity.
Qed.

Lemma WHRM_burn_bridge x account amount :
  WHRM._burn x account amount
  = lift_ledger x (HRM._burn (as_ledger x) account amount).
Proof.
  unfold WHRM._burn, HRM._burn, HRM._beforeTokenTransfer.
  destruct (negb (account =? address0)); [|reflexivity].
  cbn [require bind as_ledger HRM.paused negb].
  change (HRM.balanceOf (as_ledger x) account) with (WHRM.balanceOf x account).
  destruct (amount <=? WHRM.balanceOf x account); reflexivity.
Qed.

Lemma WHRM_spend_bridge x o sp amount :
  WHRM._spendAllowance x o sp amount
  = lift_ledger x (HRM._spendAllowance (as_ledger x) o sp amount).
Proof.
  unfold WHRM._spendAllowance, HRM._spendAllowance, WHRM._approve, HRM._approve.
  change (HRM.allowance (as_ledger x) o sp) with (WHRM.allowance x o sp).
  destruct (WHRM.allowance x o sp =? MAX_UINT256).
  - destruct x; reflexivity.
  - destruct (amount <=? WHRM.allowance x o sp); [|reflexivity].
    destruct (negb (o =? address0)); [|reflexivity].
    destruct (negb (sp =? address0)); reflexivity.
Qed.

Lemma as_ledger_of_ledger x l :
  HRM.paused l = false -> HRM.owner l = WHRM.owner x ->
  as_ledger (of_ledger x l) = l.
Proof. destruct l; simpl. intros -> ->. reflexivity. Qed.

Lemma lift_ledger_Ok x r x' :
  lift_ledger x r = Ok x' <-> exists l, r = Ok l /\ x' = of_ledger x l.
Proof.
  destruct r as [l|e]; simpl; split.
  - intros H. injection H as <-. by exists l.
  - intros (l' & H & ->). by injection H as ->.
  - discriminate.
  - intros (l' & H & _). discriminate.
Qed.

Lemma WHRM_inv_keeps tok tok' x :
  WHRM_inv tok x -> keeps (WHRM.self x) tok tok' -> WHRM_inv tok' x.
Proof.
  intros [H0 Hs Hb Ha] (Hbal & Hal & _). constructor; try assumption.
  - lia.
  - intros sp. specialize (Hal sp). rewrite Ha in Hal. lia.
Qed.

Lemma as_ledger_inv tok x : HRM_inv tok -> WHRM_inv tok x -> HRM_inv (as_ledger x).
Proof.
  intros Hinv [H0 Hs Hb Ha]. split; simpl; [exact Hs|].
  pose proof (balanceOf_le_supply tok (WHRM.self x) Hinv).
  destruct Hinv as [_ Hcap]. lia.
Qed.

Lemma wrap_Ok tok x sender amount tok' x' :
  HRM_inv tok -> WHRM_inv tok x -> sender <> WHRM.self x ->
  amount <= MAX_UINT256 ->
  WHRM.wrap tok x sender amount = Ok (tok', x') ->
  0 < amount
  /\ HRM.transferFrom tok (WHRM.self x) sender (WHRM.self x) amount = Ok tok'
  /\ (forall a, WHRM.balanceOf x' a
                = WHRM.balanceOf x a + (if decide (a = sender) then amount else 0))
  /\ WHRM.totalSupply x' = WHRM.totalSupply x + amount
  /\ WHRM.self x' = WHRM.self x
  /\ HRM_inv tok' /\ WHRM_inv tok' x'.
Proof.
  intros Hinv Hw Hne Hamt H. unfold WHRM.wrap in H.
  apply bind_Ok in H as ([] & Hpos & H). apply require_Ok, N.ltb_lt in Hpos.
  apply bind_Ok in H as (tok1 & Htf & H).
  apply bind_Ok in H as (x1 & Hm & H). injection H as <- <-.
  rewrite WHRM_mint_bridge in Hm. apply lift_ledger_Ok in Hm as (l & Hm & ->).
  destruct (transferFrom_Ok _ _ _ _ _ _ Hinv Hamt Htf)
    as (_ & _ & _ & Hbs & _ & Hbal & Hal & Hts & _ & _ & Hinv1).
  pose proof (as_ledger_inv tok x Hinv Hw) as Hli.
  destruct Hw as [H0 Hs Hb Ha].
  assert (HRM.totalSupply (as_ledger x) + amount <= HRM.MAX_SUPPLY) as Hcap.
  { simpl. pose proof (balanceOf_le_supply2 tok sender (WHRM.self x) Hinv Hne).
    destruct Hinv as [_ Hc]. lia. }
  destruct (_mint_Ok _ _ _ _ Hli Hcap Hm)
    as (_ & _ & Hbal' & _ & Hts' & _ & _ & [Hsum' _]).
  split; [exact Hpos|]. split; [exact Htf|]. split; [exact Hbal'|].
  split; [exact Hts'|]. split; [reflexivity|]. split; [exact Hinv1|].
  constructor; simpl.
  - exact H0.
  - exact Hsum'.
  - rewrite Hts'. simpl. specialize (Hbal (WHRM.self x)).
    rewrite decide_False, decide_True in Hbal by congruence. lia.
  - intros sp. specialize (Hal (WHRM.self x) sp). rewrite Ha in Hal. lia.
Qed.

Lemma unwrap_Ok tok x sender amount tok' x' :
  HRM_inv tok -> WHRM_inv tok x -> sender <> WHRM.self x ->
  WHRM.unwrap tok x sender amount = Ok (tok', x') ->
  0 < amount /\ amount <= WHRM.balanceOf x sender
  /\ HRM.transfer tok (WHRM.self x) sender amount = Ok tok'
  /\ (forall a, WHRM.balanceOf x' a + (if decide (a = sender) then amount else 0)
                = WHRM.balanceOf x a)
  /\ WHRM.totalSupply x' + amount = WHRM.totalSupply x
  /\ WHRM.self x' = WHRM.self x
  /\ HRM_inv tok' /\ WHRM_inv tok' x'.
Proof.
  intros Hinv Hw Hne H. unfold WHRM.unwrap in H.
  apply bind_Ok in H as ([] & Hpos & H). apply require_Ok, N.ltb_lt in Hpos.
  apply bind_Ok in H as ([] & Hle & H). apply require_Ok, N.leb_le in Hle.
  apply bind_Ok in H as (x1 & Hb1 & H).
  apply bind_Ok in H as (tok1 & Htr & H). injection H as <- <-.
  rewrite WHRM_burn_bridge in Hb1. apply lift_ledger_Ok in Hb1 as (l & Hb1 & ->).
  pose proof (as_ledger_inv tok x Hinv Hw) as Hli.
  destruct (_burn_Ok _ _ _ _ Hli Hb1)
    as (_ & _ & _ & Hbal' & _ & Hts' & _ & _ & [Hsum' _]).
  pose proof Htr as Htr'. unfold HRM.transfer in Htr'.
  destruct (_transfer_Ok _ _ _ _ _ Hinv Htr')
    as (_ & _ & _ & _ & Hbal & Hal & _ & _ & _ & Hinv1).
  destruct Hw as [H0 Hs Hb Ha].
  split; [exact Hpos|]. split; [exact Hle|]. split; [exact Htr|].
  split; [exact Hbal'|]. split; [exact Hts'|]. split; [reflexivity|].
  split; [exact Hinv1|].
  constructor; simpl.
  - exact H0.
  - exact Hsum'.
  - simpl in Hts'. specialize (Hbal (WHRM.self x)).
    rewrite decide_True, decide_False in Hbal by congruence. lia.
  - intros sp. unfold HRM.allowance. rewrite Hal. apply Ha.
Qed.

(** the ERC20 functions of the wrapped token move wrapped balances only *)
Lemma WHRM_ledger_step tok x x' l :
  HRM_inv tok -> WHRM_inv tok x ->
  x' = of_ledger x l ->
  sumN id (HRM.balances l) = HRM.totalSupply l ->
  HRM.totalSupply l = WHRM.totalSupply x ->
  WHRM_inv tok x'.
Proof.
  intros Hinv [H0 Hs Hb Ha] -> Hsum Hts. constructor; simpl; try assumption.
  by rewrite Hts.
Qed.

Lemma WHRM_transfer_inv tok x from to amount x' :
  HRM_inv tok -> WHRM_inv tok x ->
  WHRM._transfer x from to amount = Ok x' ->
  WHRM_inv tok x' /\ WHRM.self x' = WHRM.self x.
Proof.
  intros Hinv Hw H. rewrite WHRM_transfer_bridge in H.
  apply lift_ledger_Ok in H as (l & H & ->).
  destruct (_transfer_Ok _ _ _ _ _ (as_ledger_inv tok x Hinv Hw) H)
    as (_ & _ & _ & _ & _ & _ & Hts & _ & _ & [Hsum _]).
  split; [by apply (WHRM_ledger_step tok x _ l) | reflexivity].
Qed.

Lemma WHRM_spend_inv tok x o sp amount x' :
  HRM_inv tok -> WHRM_inv tok x -> amount <= MAX_UINT256 ->
  WHRM._spendAllowance x o sp amount = Ok x' ->
  WHRM_inv tok x' /\ WHRM.self x' = WHRM.self x.
Proof.
  intros Hinv Hw Hamt H. rewrite WHRM_spend_bridge in H.
  apply lift_ledger_Ok in H as (l & H & ->).
  destruct (_spendAllowance_Ok _ _ _ _ _ Hamt H) as (_ & Hb & Hts & _).
  split; [|reflexivity].
  apply (WHRM_ledger_step tok x _ l Hinv Hw); [reflexivity| |exact Hts].
  rewrite Hb, Hts. apply Hw.
Qed.

(** ** The pool *)

Lemma depositHRM_Ok tok p sender amount tok' p' :
  Pool.depositHRM tok p sender amount = Ok (tok', p') ->
  let u := Pool.getUser p sender in
  0 < amount
  /\ HRM.transferFrom tok (Pool.self p) sender (Pool.self p) amount = Ok tok'
  /\ Pool.hrmDeposited u + amount <= MAX_UINT256
  /\ Pool.totalHRMDeposited (Pool.poolInfo p) + amount <= MAX_UINT256
  /\ p' = Pool.set_poolInfo
            (Pool.set_totalHRMDeposited
               (Pool.totalHRMDeposited (Pool.poolInfo p) + amount)
               (Pool.poolInfo p))
            (Pool.set_user sender
               (Pool.set_hrmDeposited (Pool.hrmDeposited u + amount) u) p).
Proof.
  unfold Pool.depositHRM. intros H.
  apply bind_Ok in H as ([] & H1 & H). apply require_Ok, N.ltb_lt in H1.
  apply bind_Ok in H as (tok1 & H2 & H).
  apply bind_Ok in H as (dep & H3 & H). apply U256_add_Ok in H3 as [-> H3].
  apply bind_Ok in H as (tot & H4 & H). apply U256_add_Ok in H4 as [-> H4].
  injection H as <- <-. by repeat split.
Qed.

Lemma withdrawHRM_Ok tok p sender amount tok' p' :
  Pool.withdrawHRM tok p sender amount = Ok (tok', p') ->
  let u := Pool.getUser p sender in
  amount <= Pool.hrmDeposited u
  /\ amount <= Pool.totalHRMDeposited (Pool.poolInfo p)
  /\ HRM.transfer tok (Pool.self p) sender amount = Ok tok'
  /\ p' = Pool.set_poolInfo
            (Pool.set_totalHRMDeposited
               (Pool.totalHRMDeposited (Pool.poolInfo p) - amount)
               (Pool.poolInfo p))
            (Pool.set_user sender
               (Pool.set_hrmDeposited (Pool.hrmDeposited u - amount) u) p).
Proof.
  unfold Pool.withdrawHRM. intros H.
  apply bind_Ok in H as ([] & H1 & H). apply require_Ok, N.leb_le in H1.
  apply bind_Ok in H as (dep & H3 & H). apply U256_sub_Ok in H3 as [-> H3].
  apply bind_Ok in H as (tot & H4 & H). apply U256_sub_Ok in H4 as [-> H4].
  apply bind_Ok in H as (tok1 & H2 & H).
  injection H as <- <-. by repeat split.
Qed.

Lemma claimRewards_Ok tok p sender now tok' p' :
  Pool.claimRewards tok p sender now = Ok (tok', p') ->
  exists rewards,
    Pool.calculateRewards p now sender = Ok rewards
    /\ 0 < rewards /\ rewards <= HRM.balanceOf tok (Pool.self p)
    /\ HRM.transfer tok (Pool.self p) sender rewards = Ok tok'
    /\ Pool.userInfo p'
       = <[sender := Pool.set_lastClaimTime now
                       (Pool.set_rewardsEarned 0 (Pool.getUser p sender))]>
           (Pool.userInfo p)
    /\ Pool.poolInfo p' = Pool.poolInfo p
    /\ Pool.self p' = Pool.self p /\ Pool.owner p' = Pool.owner p.
Proof.
  unfold Pool.claimRewards. intros H.
  apply bind_Ok in H as (rewards & H0 & H).
  apply bind_Ok in H as ([] & H1 & H). apply require_Ok, N.ltb_lt in H1.
  apply bind_Ok in H as ([] & H2 & H). apply require_Ok, N.leb_le in H2.
  apply bind_Ok in H as (tok1 & H3 & H).
  injection H as <- <-. exists rewards.
  split; [exact H0|]. split; [exact H1|]. split; [exact H2|].
  split; [exact H3|].
  assert (Pool.userInfo
            (Pool.set_user sender
               (Pool.set_lastClaimTime now
                  (Pool.getUser
                     (Pool.set_user sender
                        (Pool.set_rewardsEarned 0 (Pool.getUser p sender)) p)
                     sender))
               (Pool.set_user sender
                  (Pool.set_rewardsEarned 0 (Pool.getUser p sender)) p))
          = <[sender := Pool.set_lastClaimTime now
                          (Pool.set_rewardsEarned 0 (Pool.getUser p sender))]>
              (Pool.userInfo p)) as Hu.
  { unfold Pool.set_user at 1 2. cbn [Pool.userInfo].
    unfold Pool.getUser at 1. cbn [Pool.userInfo Pool.set_user].
    rewrite rd_insert_eq. by rewrite insert_insert_eq. }
  split; [exact Hu|by repeat split].
Qed.

Lemma Pool_inv_user p a u total :
  Pool_inv p ->
  Pool.hrmDeposited u + Pool.totalHRMDeposited (Pool.poolInfo p)
  = total + Pool.hrmDeposited (Pool.getUser p a) ->
  Pool_inv (Pool.set_poolInfo (Pool.set_totalHRMDeposited total (Pool.poolInfo p))
              (Pool.set_user a u p)).
Proof.
  unfold Pool_inv. intros Hp Heq. cbn.
  pose proof (sumN_insert_rd Pool.hrmDeposited (Pool.userInfo p) a
                Pool.UserInfo0 u eq_refl) as Hs.
  unfold Pool.getUser in Heq. lia.
Qed.

Lemma Pool_deposit_le p a :
  Pool_inv p ->
  Pool.hrmDeposited (Pool.getUser p a) <= Pool.totalHRMDeposited (Pool.poolInfo p).
Proof.
  unfold Pool_inv. intros <-. apply (sumN_rd_le Pool.hrmDeposited). reflexivity.
Qed.

(** ** The invariant of the deployment with the wrapper and the pool *)

Lemma Ext_valid w tx :
  Ext.valid_tx w tx ->
  Ext.sender tx <> address0
  /\ Ext.sender tx <> PT.self (Sys.pt (Ext.base w))
  /\ Ext.sender tx <> DM.self (Sys.dm (Ext.base w))
  /\ Ext.sender tx <> WHRM.self (Ext.whrm w)
  /\ Ext.sender tx <> Pool.self (Ext.pool w)
  /\ Ext.timestamp tx <= MAX_UINT256
  /\ Ext.args_in_range (Ext.call tx) = true.
Proof.
  unfold Ext.valid_tx, Ext.valid_txb. rewrite !andb_true_iff, !negb_true_iff.
  intros ((((((H1 & H2) & H3) & H4) & H5) & H6) & H7).
  apply N.eqb_neq in H1, H2, H3, H4, H5. apply N.leb_le in H6.
  by repeat split.
Qed.

Lemma Ext_inv_ledger w tok' :
  Ext_inv w ->
  keeps (DM.self (Sys.dm (Ext.base w))) (Ext.hrm w) tok' ->
  keeps (WHRM.self (Ext.whrm w)) (Ext.hrm w) tok' ->
  Ext_inv (Ext.with_hrm w tok').
Proof.
  intros [Hb Hw Hp Hp0 Hd] Hk1 Hk2. constructor; simpl; try assumption.
  - by apply Inv_ledger.
  - by apply (WHRM_inv_keeps (Ext.hrm w)).
Qed.

Lemma Ext_inv_step w tx w' :
  Ext_inv w -> Ext.valid_tx w tx -> Ext.exec w tx = Ok w' -> Ext_inv w'.
Proof.
  intros Hinv Hv H.
  destruct (Ext_valid w tx Hv) as (Hs0 & Hspt & Hsdm & Hsw & Hsp & Hnow & Hargs).
  destruct tx as [sender now c]. simpl in *.
  pose proof Hinv as [Hb Hw Hp Hp0 (Hd1 & Hd2 & Hd3 & Hd4 & Hd5)].
  pose proof (inv_hrm _ Hb) as Hh.
  unfold Ext.exec in H; simpl in H.
  destruct c; simpl in Hargs; try (apply N.leb_le in Hargs);
    apply bind_Ok in H as (r & Hr & H); injection H as <-.
  - (* a transaction of the base system *)
    assert (Sys.valid_tx (Ext.base w) (Sys.mkTx sender now c)) as Hvb.
    { by repeat split. }
    pose proof (Inv_step _ _ _ Hb Hvb Hr) as Hb'.
    destruct (exec_selves _ _ _ Hb Hvb Hr) as [Hs1 Hs2].
    pose proof (exec_keeps (WHRM.self (Ext.whrm w)) _ _ _ Hb Hvb Hr) as Hk.
    simpl in Hk.
    constructor; simpl; try assumption.
    + apply (WHRM_inv_keeps (Ext.hrm w)); [exact Hw|].
      apply Hk; try congruence. apply Hw.
    + rewrite Hs1, Hs2. by repeat split.
  - (* wrap *)
    destruct r as [tok' x'].
    destruct (wrap_Ok _ _ _ _ _ _ Hh Hw Hsw Hargs Hr)
      as (_ & Htf & _ & _ & Hself & Hh' & Hw').
    constructor; simpl; try assumption.
    + apply Inv_ledger; [exact Hb|].
      eapply (transferFrom_keeps (DM.self (Sys.dm (Ext.base w))));
        [exact Hh|exact Hargs| |exact Htf].
      intros ->. congruence.
    + rewrite Hself. by repeat split.
  - (* unwrap *)
    destruct r as [tok' x'].
    destruct (unwrap_Ok _ _ _ _ _ _ Hh Hw Hsw Hr)
      as (_ & _ & Htr & _ & _ & Hself & Hh' & Hw').
    constructor; simpl; try assumption.
    + apply Inv_ledger; [exact Hb|]. unfold HRM.transfer in Htr.
      by apply (_transfer_keeps _ _ _ _ _ _ Hh Hd3 Htr).
    + rewrite Hself. by repeat split.
  - (* wrapped transfer *)
    destruct (WHRM_transfer_inv _ _ _ _ _ _ Hh Hw Hr) as [Hw' Hself].
    constructor; simpl; try assumption. rewrite Hself. by repeat split.
  - (* wrapped approve *)
    unfold WHRM.approve, WHRM._approve in Hr.
    apply bind_Ok in Hr as ([] & _ & Hr). apply bind_Ok in Hr as ([] & _ & Hr).
    injection Hr as <-.
    constructor; simpl; try assumption; [|by repeat split].
    destruct Hw. by constructor.
  - (* wrapped transferFrom *)
    unfold WHRM.transferFrom in Hr. apply bind_Ok in Hr as (x1 & Hsp1 & Hr).
    destruct (WHRM_spend_inv _ _ _ _ _ _ Hh Hw Hargs Hsp1) as [Hw1 Hself1].
    destruct (WHRM_transfer_inv _ _ _ _ _ _ Hh Hw1 Hr) as [Hw' Hself].
    constructor; simpl; try assumption. rewrite Hself, Hself1. by repeat split.
  - (* depositHRM *)
    destruct r as [tok' p'].
    destruct (depositHRM_Ok _ _ _ _ _ _ Hr) as (_ & Htf & _ & _ & ->).
    apply (Ext_inv_ledger w tok') in Hinv.
    + destruct Hinv as [Hb' Hw' _ _ _]. constructor; simpl; try assumption.
      * apply Pool_inv_user; [exact Hp|]. simpl. lia.
      * by repeat split.
    + eapply (transferFrom_keeps (DM.self (Sys.dm (Ext.base w))));
        [exact Hh|exact Hargs| |exact Htf].
      intros ->. congruence.
    + eapply (transferFrom_keeps (WHRM.self (Ext.whrm w)));
        [exact Hh|exact Hargs| |exact Htf].
      intros ->. congruence.
  - (* withdrawHRM *)
    destruct r as [tok' p'].
    destruct (withdrawHRM_Ok _ _ _ _ _ _ Hr) as (Hle & Hle2 & Htr & ->).
    unfold HRM.transfer in Htr.
    apply (Ext_inv_ledger w tok') in Hinv.
    + destruct Hinv as [Hb' Hw' _ _ _]. constructor; simpl; try assumption.
      * apply Pool_inv_user; [exact Hp|]. simpl. lia.
      * by repeat split.
    + eapply _transfer_keeps; [exact Hh | | exact Htr]; congruence.
    + eapply _transfer_keeps; [exact Hh | | exact Htr]; congruence.
  - (* claimRewards *)
    destruct r as [tok' p'].
    destruct (claimRewards_Ok _ _ _ _ _ _ Hr)
      as (rw & _ & _ & _ & Htr & Hu & Hpi & Hself & _).
    unfold HRM.transfer in Htr.
    apply (Ext_inv_ledger w tok') in Hinv.
    + destruct Hinv as [Hb' Hw' _ _ _]. constructor; simpl; try assumption.
      * unfold Pool_inv. rewrite Hu, Hpi.
        pose proof (sumN_insert_rd Pool.hrmDeposited (Pool.userInfo (Ext.pool w))
                      sender Pool.UserInfo0
                      (Pool.set_lastClaimTime now
                         (Pool.set_rewardsEarned 0
                            (Pool.getUser (Ext.pool w) sender))) eq_refl) as Hs.
        unfold Pool_inv in Hp. unfold Pool.getUser in *. simpl in Hs. lia.
      * by rewrite Hself.
      * rewrite Hself. by repeat split.
    + eapply _transfer_keeps; [exact Hh | | exact Htr]; congruence.
    + eapply _transfer_keeps; [exact Hh | | exact Htr]; congruence.
  - (* updateRewardRate *)
    unfold Pool.updateRewardRate in Hr. apply bind_Ok in Hr as ([] & _ & Hr).
    injection Hr as <-. constructor; simpl; try assumption. by repeat split.
Qed.

Lemma Ext_inv_init c : Ext.wf_config c -> Ext_inv (Ext.init c).
Proof.
  intros (Hb & Hw0 & Hp0 & Hwp & Hwpt & Hwdm & Hppt & Hpdm & Hdw & Hdp).
  constructor; simpl; try assumption.
  - by apply Inv_init.
  - constructor; simpl; try assumption.
    + exact (@sumN_empty N _ _ N id).
    + lia.
    + intros sp. reflexivity.
  - exact (@sumN_empty N _ _ _ Pool.hrmDeposited).
  - by repeat split.
Qed.

Theorem reachable_Ext_inv w : Ext.reachable w -> Ext_inv w.
Proof.
  induction 1 as [c Hc | w w' tx _ IH Hv He].
  - by apply Ext_inv_init.
  - by apply (Ext_inv_step w tx w').
Qed.

(** ** An account that does nothing

    The deployment with the wrapper and the pool has four contracts that
    hold tokens for others.  For every other account, one transaction of
    somebody else takes nothing from it. *)
Lemma Ext_exec_keeps d w tx w' :
  Ext_inv w -> Ext.valid_tx w tx -> Ext.exec w tx = Ok w' ->
  d <> Ext.sender tx ->
  d <> PT.self (Sys.pt (Ext.base w)) -> d <> DM.self (Sys.dm (Ext.base w)) ->
  d <> WHRM.self (Ext.whrm w) -> d <> Pool.self (Ext.pool w) ->
  (forall sp, HRM.allowance (Ext.hrm w) d sp = 0) ->
  keeps d (Ext.hrm w) (Ext.hrm w').
Proof.
  intros Hinv Hv H Hds Hdpt Hddm Hdw Hdp Hall.
  destruct (Ext_valid w tx Hv) as (Hs0 & Hspt & Hsdm & Hsw & Hsp & Hnow & Hargs).
  destruct tx as [sender now c]. simpl in *.
  pose proof Hinv as [Hb Hw Hp Hp0 _].
  pose proof (inv_hrm _ Hb) as Hh.
  unfold Ext.exec in H; simpl in H.
  destruct c; simpl in Hargs; try (apply N.leb_le in Hargs);
    apply bind_Ok in H as (r & Hr & H); injection H as <-;
    try (by apply keeps_refl).
  - (* a transaction of the base system *)
    assert (Sys.valid_tx (Ext.base w) (Sys.mkTx sender now c)) as Hvb.
    { by repeat split. }
    by apply (exec_keeps d _ _ _ Hb Hvb Hr).
  - (* wrap *)
    destruct r as [tok' x'].
    destruct (wrap_Ok _ _ _ _ _ _ Hh Hw Hsw Hargs Hr) as (_ & Htf & _).
    eapply (transferFrom_keeps d); [exact Hh|exact Hargs| |exact Htf].
    intros ->. congruence.
  - (* unwrap *)
    destruct r as [tok' x'].
    destruct (unwrap_Ok _ _ _ _ _ _ Hh Hw Hsw Hr) as (_ & _ & Htr & _).
    unfold HRM.transfer in Htr.
    eapply _transfer_keeps; [exact Hh | | exact Htr]; congruence.
  - (* depositHRM *)
    destruct r as [tok' p'].
    destruct (depositHRM_Ok _ _ _ _ _ _ Hr) as (_ & Htf & _).
    eapply (transferFrom_keeps d); [exact Hh|exact Hargs| |exact Htf].
    intros ->. congruence.
  - (* withdrawHRM *)
    destruct r as [tok' p'].
    destruct (withdrawHRM_Ok _ _ _ _ _ _ Hr) as (_ & _ & Htr & _).
    unfold HRM.transfer in Htr.
    eapply _transfer_keeps; [exact Hh | | exact Htr]; congruence.
  - (* claimRewards *)
    destruct r as [tok' p'].
    destruct (claimRewards_Ok _ _ _ _ _ _ Hr) as (rw & _ & _ & _ & Htr & _).
    unfold HRM.transfer in Htr.
    eapply _transfer_keeps; [exact Hh | | exact Htr]; congruence.
Qed.

(** The addresses of the four contracts never change. *)
Lemma Ext_exec_selves w tx w' :
  Ext_inv w -> Ext.valid_tx w tx -> Ext.exec w tx = Ok w' ->
  PT.self (Sys.pt (Ext.base w')) = PT.self (Sys.pt (Ext.base w))
  /\ DM.self (Sys.dm (Ext.base w')) = DM.self (Sys.dm (Ext.base w))
  /\ WHRM.self (Ext.whrm w') = WHRM.self (Ext.whrm w)
  /\ Pool.self (Ext.pool w') = Pool.self (Ext.pool w).
Proof.
  intros Hinv Hv H.
  destruct (Ext_valid w tx Hv) as (Hs0 & Hspt & Hsdm & Hsw & Hsp & Hnow & Hargs).
  destruct tx as [sender now c]. simpl in *.
  pose proof Hinv as [Hb Hw Hp Hp0 _].
  pose proof (inv_hrm _ Hb) as Hh.
  unfold Ext.exec in H; simpl in H.
  destruct c; simpl in Hargs; try (apply N.leb_le in Hargs);
    apply bind_Ok in H as (r & Hr & H); injection H as <-; simpl.
  - assert (Sys.valid_tx (Ext.base w) (Sys.mkTx sender now c)) as Hvb.
    { by repeat split. }
    destruct (exec_selves _ _ _ Hb Hvb Hr) as [Hs1 Hs2]. by repeat split.
  - destruct r as [tok' x'].
    destruct (wrap_Ok _ _ _ _ _ _ Hh Hw Hsw Hargs Hr)
      as (_ & _ & _ & _ & Hself & _).
    by repeat split.
  - destruct r as [tok' x'].
    destruct (unwrap_Ok _ _ _ _ _ _ Hh Hw Hsw Hr)
      as (_ & _ & _ & _ & _ & Hself & _).
    by repeat split.
  - destruct (WHRM_transfer_inv _ _ _ _ _ _ Hh Hw Hr) as [_ Hself].
    by repeat split.
  - unfold WHRM.approve, WHRM._approve in Hr.
    apply bind_Ok in Hr as ([] & _ & Hr). apply bind_Ok in Hr as ([] & _ & Hr).
    injection Hr as <-. by repeat split.
  - unfold WHRM.transferFrom in Hr. apply bind_Ok in Hr as (x1 & Hsp1 & Hr).
    destruct (WHRM_spend_inv _ _ _ _ _ _ Hh Hw Hargs Hsp1) as [Hw1 Hself1].
    destruct (WHRM_transfer_inv _ _ _ _ _ _ Hh Hw1 Hr) as [_ Hself].
    repeat split; try reflexivity. congruence.
  - destruct r as [tok' p'].
    destruct (depositHRM_Ok _ _ _ _ _ _ Hr) as (_ & _ & _ & _ & ->).
    by repeat split.
  - destruct r as [tok' p'].
    destruct (withdrawHRM_Ok _ _ _ _ _ _ Hr) as (_ & _ & _ & ->).
    by repeat split.
  - destruct r as [tok' p'].
    destruct (claimRewards_Ok _ _ _ _ _ _ Hr)
      as (rw & _ & _ & _ & _ & _ & _ & Hself & _).
    by repeat split.
  - unfold Pool.updateRewardRate in Hr. apply bind_Ok in Hr as ([] & _ & Hr).
    injection Hr as <-. by repeat split.
Qed.

(** X1. In the deployment with the wrapper and the pool, an account other
    than the four contracts that hold tokens (the two registries, the
    wrapper and the pool) that signs none of the transactions of a run and
    has no allowance outstanding is never debited by the run, whoever else
    transacts: its token balance does not go down and its allowances stay
    zero. *)
Theorem X1_idle_account_is_never_debited w txs d :
  Ext.reachable w -> Ext.run_valid w txs = true ->
  Forall (fun tx => Ext.sender tx <> d) txs ->
  d <> PT.self (Sys.pt (Ext.base w)) -> d <> DM.self (Sys.dm (Ext.base w)) ->
  d <> WHRM.self (Ext.whrm w) -> d <> Pool.self (Ext.pool w) ->
  (forall sp, HRM.allowance (Ext.hrm w) d sp = 0) ->
  HRM.balanceOf (Ext.hrm w) d <= HRM.balanceOf (Ext.hrm (Ext.run w txs)) d
  /\ forall sp, HRM.allowance (Ext.hrm (Ext.run w txs)) d sp = 0.
Proof.
  intros Hreach Hvalid Hsenders. revert w Hreach Hvalid.
  induction Hsenders as [|tx txs Hne _ IH];
    intros w Hreach Hvalid Hpt Hdm Hwr Hpl Hall.
  - simpl. split; [lia | exact Hall].
  - simpl in Hvalid. apply andb_true_iff in Hvalid as [Hv Hrest].
    change (Ext.run w (tx :: txs)) with (Ext.run (Ext.apply_tx w tx) txs).
    unfold Ext.apply_tx in *.
    destruct (Ext.exec w tx) as [w'|e] eqn:He; [|by apply IH].
    pose proof (reachable_Ext_inv w Hreach) as Hinv.
    pose proof (Ext.reach_step w w' tx Hreach Hv He) as Hreach'.
    destruct (Ext_exec_selves w tx w' Hinv Hv He) as (Hs1 & Hs2 & Hs3 & Hs4).
    assert (d <> Ext.sender tx) as Hne' by congruence.
    destruct (Ext_exec_keeps d w tx w' Hinv Hv He Hne' Hpt Hdm Hwr Hpl Hall)
      as (Hbal & Hal & _).
    assert (forall sp, HRM.allowance (Ext.hrm w') d sp = 0) as Hall'.
    { intros sp. specialize (Hal sp). rewrite Hall in Hal. lia. }
    destruct (IH w' Hreach' Hrest) as [Hb' Ha']; try congruence; try assumption.
    split; [lia | exact Ha'].
Qed.

Lemma X1_witness :
  HRM.balanceOf (Ext.hrm DemoX.w_wrapped) Demo.bob
  <= HRM.balanceOf
       (Ext.hrm
          (Ext.run DemoX.w_wrapped
             [ DemoX.tx Demo.alice (Ext.Unwrap (40 * ether));
               DemoX.tx Demo.alice
                 (Ext.Base (Sys.TransferFrom Demo.bob Demo.alice 1));
               DemoX.tx Demo.alice
                 (Ext.Base (Sys.Approve DemoX.pool (10 * ether)));
               DemoX.tx Demo.alice (Ext.DepositHRM (10 * ether)) ]))
       Demo.bob
  /\ forall sp,
       HRM.allowance
         (Ext.hrm
            (Ext.run DemoX.w_wrapped
               [ DemoX.tx Demo.alice (Ext.Unwrap (40 * ether));
                 DemoX.tx Demo.alice
                   (Ext.Base (Sys.TransferFrom Demo.bob Demo.alice 1));
                 DemoX.tx Demo.alice
                   (Ext.Base (Sys.Approve DemoX.pool (10 * ether)));
                 DemoX.tx Demo.alice (Ext.DepositHRM (10 * ether)) ]))
         Demo.bob sp = 0.
Proof.
  apply X1_idle_account_is_never_debited.
  - apply reachable_w_wrapped.
  - by_eval.
  - constructor; [by_eval|]. constructor; [by_eval|].
    constructor; [by_eval|]. constructor; [by_eval|]. constructor.
  - by_eval.
  - by_eval.
  - by_eval.
  - by_eval.
  - intros sp. unfold HRM.allowance.
    assert (HRM.allowances (Ext.hrm DemoX.w_wrapped)
            = <[(Demo.alice, DemoX.wrapper) := 0]> ∅) as -> by by_eval.
    destruct (decide ((Demo.alice, DemoX.wrapper) = (Demo.bob, sp))) as [<-|Hk].
    + by rewrite rd_insert_eq.
    + by rewrite rd_insert_ne.
Defined.

Lemma WHRM_balance_le tok x a :
  HRM_inv tok -> WHRM_inv tok x ->
  WHRM.balanceOf x a <= HRM.balanceOf tok (WHRM.self x).
Proof.
  intros Hinv Hw.
  pose proof (balanceOf_le_supply (as_ledger x) a (as_ledger_inv tok x Hinv Hw)).
  pose proof (wh_backed _ _ Hw). unfold as_ledger in *. simpl in *.
  change (HRM.balanceOf _ a) with (WHRM.balanceOf x a) in H. lia.
Qed.

Lemma unwrap_succeeds tok x a amount :
  HRM_inv tok -> WHRM_inv tok x -> a <> address0 ->
  0 < amount -> amount <= WHRM.balanceOf x a -> HRM.paused tok = false ->
  exists r, WHRM.unwrap tok x a amount = Ok r.
Proof.
  intros Hinv Hw Ha Hpos Hle Hpa. unfold WHRM.unwrap.
  rewrite bind_require by (by apply N.ltb_lt).
  rewrite bind_require by (by apply N.leb_le).
  unfold WHRM._burn.
  rewrite bind_require by (apply negb_true_iff; by apply N.eqb_neq).
  rewrite bind_require by (by apply N.leb_le).
  cbn [bind]. unfold HRM.transfer.
  destruct (_transfer_succeeds tok (WHRM.self x) a amount) as [tok' Ht].
  - apply Hw.
  - exact Ha.
  - exact Hpa.
  - pose proof (WHRM_balance_le tok x a Hinv Hw). lia.
  - cbn [WHRM.self WHRM.set_totalSupply WHRM.set_balance].
    rewrite Ht. by eexists.
Qed.

(** X20. Every wrapped token is backed and redeemable.  In every world
    the deployment with the wrapper can reach, the wrapped balances add up
    to the wrapped supply, and the wrapper holds at least that many tokens;
    so a holder's [unwrap] succeeds exactly when the amount is positive,
    within the holder's wrapped balance, and the token is not paused. *)
Theorem X20_wrapped_tokens_are_backed w :
  Ext.reachable w ->
  sumN id (WHRM.balances (Ext.whrm w)) = WHRM.totalSupply (Ext.whrm w)
  /\ WHRM.totalSupply (Ext.whrm w)
     <= WHRM.getHRMBalance (Ext.hrm w) (Ext.whrm w)
  /\ forall a now amount,
       a <> address0 -> a <> WHRM.self (Ext.whrm w) ->
       ((exists w', Ext.exec w (Ext.mkTx a now (Ext.Unwrap amount)) = Ok w')
        <-> 0 < amount /\ amount <= WHRM.balanceOf (Ext.whrm w) a
            /\ HRM.paused (Ext.hrm w) = false).
Proof.
  intros Hreach. pose proof (reachable_Ext_inv w Hreach) as [Hb Hw Hp Hp0 Hd].
  pose proof (inv_hrm _ Hb) as Hh.
  split; [apply Hw|]. split; [apply Hw|].
  intros a now amount Ha Has. unfold Ext.exec. cbn [Ext.call Ext.sender]. split.
  - intros [w' H]. apply bind_Ok in H as ([tok' x'] & Hr & _).
    destruct (unwrap_Ok _ _ _ _ _ _ Hh Hw Has Hr) as (H1 & H2 & Htr & _).
    unfold HRM.transfer in Htr.
    destruct (_transfer_Ok _ _ _ _ _ Hh Htr) as (_ & _ & H3 & _).
    by repeat split.
  - intros (H1 & H2 & H3).
    destruct (unwrap_succeeds _ _ _ _ Hh Hw Ha H1 H2 H3) as [r Hr].
    unfold Ext.hrm in Hr |- *. rewrite Hr. by eexists.
Qed.

Lemma X20_witness :
  WHRM.totalSupply (Ext.whrm DemoX.w_wrapped)
  <= WHRM.getHRMBalance (Ext.hrm DemoX.w_wrapped) (Ext.whrm DemoX.w_wrapped)
  /\ exists w',
       Ext.exec DemoX.w_wrapped
         (Ext.mkTx Demo.alice 1700000000 (Ext.Unwrap (40 * ether))) = Ok w'.
Proof.
  destruct (X20_wrapped_tokens_are_backed DemoX.w_wrapped reachable_w_wrapped)
    as (_ & Hbacked & Hunwrap).
  split; [exact Hbacked|].
  apply (Hunwrap Demo.alice 1700000000 (40 * ether)); [by_eval|by_eval|].
  split; [by_eval|]. split; by_eval.
Defined.

(** X21. Wrapping and unwrapping are inverse: after a successful [wrap],
    an [unwrap] of the same amount by the same account succeeds and puts
    every token balance, every wrapped balance and the wrapped supply back
    where they were; only the allowance spent on the wrapper is gone. *)
Theorem X21_wrap_then_unwrap tok x sender amount tok1 x1 :
  HRM_inv tok -> WHRM_inv tok x -> sender <> WHRM.self x ->
  amount <= MAX_UINT256 ->
  WHRM.wrap tok x sender amount = Ok (tok1, x1) ->
  exists tok2 x2,
    WHRM.unwrap tok1 x1 sender amount = Ok (tok2, x2)
    /\ (forall a, HRM.balanceOf tok2 a = HRM.balanceOf tok a)
    /\ (forall a, WHRM.balanceOf x2 a = WHRM.balanceOf x a)
    /\ WHRM.totalSupply x2 = WHRM.totalSupply x
    /\ HRM.allowance tok2 sender (WHRM.self x)
       <= HRM.allowance tok sender (WHRM.self x).
Proof.
  intros Hinv Hw Hne Hamt Hwrap.
  destruct (wrap_Ok _ _ _ _ _ _ Hinv Hw Hne Hamt Hwrap)
    as (Hpos & Htf & Hwb & Hts & Hself & Hinv1 & Hw1).
  destruct (transferFrom_Ok _ _ _ _ _ _ Hinv Hamt Htf)
    as (Hs0 & _ & Hpa & _ & _ & Hbal & Hal & _ & Hpa1 & _).
  assert (exists r, WHRM.unwrap tok1 x1 sender amount = Ok r) as [[tok2 x2] Hun].
  { apply (unwrap_succeeds tok1 x1 sender amount Hinv1 Hw1 Hs0 Hpos).
    - rewrite Hwb, decide_True by reflexivity. lia.
    - congruence. }
  assert (sender <> WHRM.self x1) as Hne1 by congruence.
  destruct (unwrap_Ok _ _ _ _ _ _ Hinv1 Hw1 Hne1 Hun)
    as (_ & _ & Htr & Hwb2 & Hts2 & _ & _ & _).
  unfold HRM.transfer in Htr.
  destruct (_transfer_Ok _ _ _ _ _ Hinv1 Htr)
    as (_ & _ & _ & _ & Hbal2 & Hal2 & _).
  exists tok2, x2. split; [exact Hun|]. rewrite Hself in *.
  split; [|split; [|split]].
  - intros a. specialize (Hbal a). specialize (Hbal2 a).
    destruct (decide (a = sender)), (decide (a = WHRM.self x)); lia.
  - intros a. specialize (Hwb a). specialize (Hwb2 a).
    destruct (decide (a = sender)); lia.
  - lia.
  - unfold HRM.allowance at 1. rewrite Hal2. apply Hal.
Qed.

Lemma X21_witness :
  exists tok1 x1 tok2 x2,
    WHRM.wrap (Ext.hrm DemoX.w_approved) (Ext.whrm DemoX.w_approved)
      Demo.alice (100 * ether) = Ok (tok1, x1)
    /\ WHRM.unwrap tok1 x1 Demo.alice (100 * ether) = Ok (tok2, x2)
    /\ (forall a, HRM.balanceOf tok2 a
                  = HRM.balanceOf (Ext.hrm DemoX.w_approved) a)
    /\ (forall a, WHRM.balanceOf x2 a
                  = WHRM.balanceOf (Ext.whrm DemoX.w_approved) a)
    /\ WHRM.totalSupply x2 = WHRM.totalSupply (Ext.whrm DemoX.w_approved).
Proof.
  assert (exists r,
    WHRM.wrap (Ext.hrm DemoX.w_approved) (Ext.whrm DemoX.w_approved)
      Demo.alice (100 * ether) = Ok r) as [[tok1 x1] Hw]
    by (eexists; by_eval).
  pose proof (reachable_Ext_inv _ reachable_w_approved) as Hinv.
  destruct (X21_wrap_then_unwrap (Ext.hrm DemoX.w_approved)
              (Ext.whrm DemoX.w_approved) Demo.alice (100 * ether) tok1 x1)
    as (tok2 & x2 & Hu & Hb & Hwb & Hs & _).
  - apply (inv_hrm _ (ext_base _ Hinv)).
  - apply (ext_whrm _ Hinv).
  - by_eval.
  - by_eval.
  - exact Hw.
  - exists tok1, x1, tok2, x2. by repeat split.
Defined.

(** X22. The pool's books add up: in every world the deployment can reach,
    the deposits recorded for the users add up to the recorded total.  So a
    withdrawal never fails on the books: it succeeds exactly when the
    amount is within the caller's recorded deposit, the pool holds that
    many tokens, and the token is not paused. *)
Theorem X22_pool_deposits_add_up w :
  Ext.reachable w ->
  sumN Pool.hrmDeposited (Pool.userInfo (Ext.pool w))
  = Pool.totalHRMDeposited (Pool.poolInfo (Ext.pool w))
  /\ forall a now amount,
       a <> address0 ->
       ((exists w', Ext.exec w (Ext.mkTx a now (Ext.WithdrawHRM amount)) = Ok w')
        <-> amount <= Pool.hrmDeposited (Pool.getUser (Ext.pool w) a)
            /\ amount <= HRM.balanceOf (Ext.hrm w) (Pool.self (Ext.pool w))
            /\ HRM.paused (Ext.hrm w) = false).
Proof.
  intros Hreach. pose proof (reachable_Ext_inv w Hreach) as [Hb Hw Hp Hp0 Hd].
  pose proof (inv_hrm _ Hb) as Hh.
  split; [exact Hp|].
  intros a now amount Ha. unfold Ext.exec. cbn [Ext.call Ext.sender]. split.
  - intros [w' H]. apply bind_Ok in H as ([tok' p'] & Hr & _).
    destruct (withdrawHRM_Ok _ _ _ _ _ _ Hr) as (H1 & _ & Htr & _).
    unfold HRM.transfer in Htr.
    destruct (_transfer_Ok _ _ _ _ _ Hh Htr) as (_ & _ & H3 & H4 & _).
    by repeat split.
  - intros (H1 & H2 & H3).
    pose proof (Pool_deposit_le (Ext.pool w) a Hp) as Hle.
    unfold Pool.withdrawHRM.
    rewrite bind_require by (by apply N.leb_le).
    unfold U256.sub.
    assert ((amount <=? Pool.hrmDeposited (Pool.getUser (Ext.pool w) a)) = true)
      as -> by (by apply N.leb_le).
    cbn [bind Pool.poolInfo Pool.set_user].
    assert ((amount <=? Pool.totalHRMDeposited (Pool.poolInfo (Ext.pool w)))
            = true) as -> by (apply N.leb_le; lia).
    cbn [bind]. unfold HRM.transfer.
    destruct (_transfer_succeeds (Ext.hrm w) (Pool.self (Ext.pool w)) a amount
                Hp0 Ha H3 H2) as [tok' Ht].
    rewrite Ht. by eexists.
Qed.

Lemma X22_witness :
  sumN Pool.hrmDeposited (Pool.userInfo (Ext.pool DemoX.w_pooled))
  = Pool.totalHRMDeposited (Pool.poolInfo (Ext.pool DemoX.w_pooled))
  /\ exists w',
       Ext.exec DemoX.w_pooled
         (Ext.mkTx Demo.alice 1700000000 (Ext.WithdrawHRM (100 * ether)))
       = Ok w'.
Proof.
  destruct (X22_pool_deposits_add_up DemoX.w_pooled reachable_w_pooled)
    as (Hsum & Hwithdraw).
  split; [exact Hsum|].
  apply (Hwithdraw Demo.alice 1700000000 (100 * ether)); [by_eval|].
  split; [by_eval|]. split; by_eval.
Defined.

Lemma calculateRewards_Ok p now a r :
  Pool.calculateRewards p now a = Ok r ->
  let u := Pool.getUser p a in
  (Pool.hrmDeposited u = 0 /\ r = 0)
  \/ (Pool.hrmDeposited u <> 0
      /\ Pool.lastClaimTime u <= now
      /\ Pool.hrmDeposited u * Pool.rewardRate (Pool.poolInfo p) <= MAX_UINT256
      /\ r = Pool.hrmDeposited u * Pool.rewardRate (Pool.poolInfo p) / 100
             * (now - Pool.lastClaimTime u) / (365 * 86400)
             + Pool.rewardsEarned u).
Proof.
  unfold Pool.calculateRewards. intros H.
  destruct (N.eqb_spec (Pool.hrmDeposited (Pool.getUser p a)) 0) as [Hz|Hnz].
  - left. injection H as <-. by split.
  - right.
    apply bind_Ok in H as (te & H1 & H). apply U256_sub_Ok in H1 as [-> H1].
    apply bind_Ok in H as (sc & H2 & H). apply U256_mul_Ok in H2 as [-> H2].
    apply bind_Ok in H as (yr & H3 & H). apply U256_div_Ok in H3 as [-> _].
    apply bind_Ok in H as (ac & H4 & H). apply U256_mul_Ok in H4 as [-> H4].
    apply bind_Ok in H as (rw & H5 & H). apply U256_div_Ok in H5 as [-> _].
    apply U256_add_Ok in H as [-> _]. by repeat split.
Qed.

(** X23. Rewards are paid out of the pool's token balance, the balance that
    also backs the deposits: a successful [claimRewards] credits the
    caller with what [calculateRewards] shows, debits the pool's balance by
    as much, leaves every recorded deposit and the recorded total as they
    were, and restarts the caller's clock, so that a second claim at the
    same time finds nothing to claim. *)
Theorem X23_claimRewards_pays_from_the_pool_balance tok p sender now tok' p' :
  HRM_inv tok -> sender <> Pool.self p ->
  Pool.claimRewards tok p sender now = Ok (tok', p') ->
  exists rewards,
    Pool.calculateRewards p now sender = Ok rewards /\ 0 < rewards
    /\ HRM.balanceOf tok' sender = HRM.balanceOf tok sender + rewards
    /\ HRM.balanceOf tok' (Pool.self p) + rewards
       = HRM.balanceOf tok (Pool.self p)
    /\ Pool.totalHRMDeposited (Pool.poolInfo p')
       = Pool.totalHRMDeposited (Pool.poolInfo p)
    /\ (forall a, Pool.hrmDeposited (Pool.getUser p' a)
                  = Pool.hrmDeposited (Pool.getUser p a))
    /\ Pool.lastClaimTime (Pool.getUser p' sender) = now
    /\ forall tok2,
         Pool.claimRewards tok2 p' sender now
         = Revert (Require_failed "No rewards to claim").
Proof.
  intros Hinv Hne H.
  destruct (claimRewards_Ok _ _ _ _ _ _ H)
    as (rw & Hcalc & Hpos & Hle & Htr & Hu & Hpi & Hself & _).
  unfold HRM.transfer in Htr.
  destruct (_transfer_Ok _ _ _ _ _ Hinv Htr) as (_ & _ & _ & _ & Hbal & _).
  assert (forall a, Pool.getUser p' a
            = if decide (sender = a)
              then Pool.set_lastClaimTime now
                     (Pool.set_rewardsEarned 0 (Pool.getUser p sender))
              else Pool.getUser p a) as Hget.
  { intros a. unfold Pool.getUser. rewrite Hu.
    destruct (decide (sender = a)) as [->|Hx].
    - by rewrite rd_insert_eq.
    - by rewrite rd_insert_ne. }
  exists rw. split; [exact Hcalc|]. split; [exact Hpos|].
  split; [|split; [|split; [|split; [|split]]]].
  - specialize (Hbal sender).
    rewrite decide_False, decide_True in Hbal by congruence. lia.
  - specialize (Hbal (Pool.self p)).
    rewrite decide_True, decide_False in Hbal by congruence. lia.
  - by rewrite Hpi.
  - intros a. rewrite Hget. by destruct (decide (sender = a)) as [->|].
  - rewrite Hget, decide_True by reflexivity. reflexivity.
  - intros tok2.
    destruct (calculateRewards_Ok _ _ _ _ Hcalc)
      as [[_ ->]|(Hnz & _ & Hfit & _)]; [lia|].
    unfold Pool.claimRewards, Pool.calculateRewards.
    rewrite Hget, decide_True by reflexivity. rewrite Hpi.
    cbn [Pool.hrmDeposited Pool.set_lastClaimTime Pool.set_rewardsEarned
         Pool.lastClaimTime Pool.rewardsEarned].
    assert ((Pool.hrmDeposited (Pool.getUser p sender) =? 0) = false) as ->
      by (by apply N.eqb_neq).
    unfold U256.sub. rewrite N.leb_refl. cbn [bind].
    unfold U256.mul at 1. apply N.leb_le in Hfit. rewrite Hfit. cbn [bind].
    unfold U256.div at 1. cbn [N.eqb bind].
    rewrite N.sub_diag. unfold U256.mul. rewrite N.mul_0_r.
    reflexivity.
Qed.

Lemma X23_witness :
  exists tok' p' rewards,
    Pool.claimRewards (Ext.hrm DemoX.w_pooled) (Ext.pool DemoX.w_pooled)
      Demo.bob 1700000000 = Ok (tok', p')
    /\ Pool.calculateRewards (Ext.pool DemoX.w_pooled) 1700000000 Demo.bob
       = Ok rewards
    /\ 0 < rewards
    /\ HRM.balanceOf tok' (Pool.self (Ext.pool DemoX.w_pooled)) + rewards
       = HRM.balanceOf (Ext.hrm DemoX.w_pooled)
           (Pool.self (Ext.pool DemoX.w_pooled))
    /\ Pool.totalHRMDeposited (Pool.poolInfo p')
       = Pool.totalHRMDeposited (Pool.poolInfo (Ext.pool DemoX.w_pooled))
    /\ Pool.claimRewards tok' p' Demo.bob 1700000000
       = Revert (Require_failed "No rewards to claim").
Proof.
  assert (exists r,
    Pool.claimRewards (Ext.hrm DemoX.w_pooled) (Ext.pool DemoX.w_pooled)
      Demo.bob 1700000000 = Ok r) as [[tok' p'] Hc] by (eexists; by_eval).
  pose proof (reachable_Ext_inv _ reachable_w_pooled) as Hinv.
  destruct (X23_claimRewards_pays_from_the_pool_balance
              (Ext.hrm DemoX.w_pooled) (Ext.pool DemoX.w_pooled) Demo.bob
              1700000000 tok' p')
    as (rewards & Hcalc & Hpos & _ & Hpool & Htotal & _ & _ & Hagain).
  - apply (inv_hrm _ (ext_base _ Hinv)).
  - by_eval.
  - exact Hc.
  - exists tok', p', rewards.
    split; [exact Hc|]. split; [exact Hcalc|]. split; [exact Hpos|].
    split; [exact Hpool|]. split; [exact Htotal|]. apply Hagain.
Defined.

(** X24. A deposit does not start the reward clock.  The clock of a user
    who never claimed stands at 0, and [depositHRM] leaves it there: right
    after a first deposit made at time [now], [calculateRewards] credits
    the depositor with the yearly rate on the deposit for the whole time
    from 0 to [now]. *)
Theorem X24_rewards_accrue_from_time_zero tok p sender amount now tok' p' :
  Pool.getUser p sender = Pool.UserInfo0 ->
  Pool.depositHRM tok p sender amount = Ok (tok', p') ->
  amount * Pool.rewardRate (Pool.poolInfo p) <= MAX_UINT256 ->
  amount * Pool.rewardRate (Pool.poolInfo p) / 100 * now <= MAX_UINT256 ->
  Pool.lastClaimTime (Pool.getUser p' sender) = 0
  /\ Pool.calculateRewards p' now sender
     = Ok (amount * Pool.rewardRate (Pool.poolInfo p) / 100 * now / 31536000).
Proof.
  intros Hfirst H Hf1 Hf2.
  destruct (depositHRM_Ok _ _ _ _ _ _ H) as (Hpos & _ & _ & _ & ->).
  rewrite Hfirst.
  assert (Pool.getUser
            (Pool.set_poolInfo
               (Pool.set_totalHRMDeposited
                  (Pool.totalHRMDeposited (Pool.poolInfo p) + amount)
                  (Pool.poolInfo p))
               (Pool.set_user sender
                  (Pool.set_hrmDeposited
                     (Pool.hrmDeposited Pool.UserInfo0 + amount) Pool.UserInfo0)
                  p)) sender
          = Pool.mkUserInfo amount 0 0 0) as Hget.
  { unfold Pool.getUser. cbn [Pool.userInfo Pool.set_poolInfo Pool.set_user].
    by rewrite rd_insert_eq. }
  split; [by rewrite Hget|].
  unfold Pool.calculateRewards. rewrite Hget.
  cbn [Pool.hrmDeposited Pool.lastClaimTime Pool.rewardsEarned Pool.poolInfo
       Pool.set_poolInfo Pool.rewardRate Pool.set_totalHRMDeposited].
  assert ((amount =? 0) = false) as -> by (apply N.eqb_neq; lia).
  unfold U256.sub. rewrite N.sub_0_r.
  unfold U256.mul at 1. apply N.leb_le in Hf1. rewrite Hf1. cbn [bind].
  unfold U256.div at 1. cbn [N.eqb bind].
  rewrite (proj2 (N.leb_le 0 now)) by lia. cbn [bind].
  unfold U256.mul. apply N.leb_le in Hf2. rewrite Hf2. cbn [bind].
  unfold U256.div, U256.add.
  change (365 * days =? 0) with false. cbn [bind]. rewrite N.add_0_r.
  assert ((amount * Pool.rewardRate (Pool.poolInfo p) / 100 * now / (365 * days)
           <=? MAX_UINT256) = true) as ->.
  { apply N.leb_le. apply N.leb_le in Hf2.
    etransitivity; [apply N.Div0.div_le_upper_bound with (q := MAX_UINT256)|].
    2: reflexivity.
    change (365 * days) with 31536000. nia. }
  reflexivity.
Qed.

Lemma X24_witness :
  exists tok' p',
    Pool.depositHRM (Ext.hrm DemoX.w_pool_approved)
      (Ext.pool DemoX.w_pool_approved) Demo.alice (100 * ether) = Ok (tok', p')
    /\ Pool.lastClaimTime (Pool.getUser p' Demo.alice) = 0
    /\ Pool.calculateRewards p' 1700000000 Demo.alice
       = Ok (100 * ether * 5 / 100 * 1700000000 / 31536000).
Proof.
  assert (exists r,
    Pool.depositHRM (Ext.hrm DemoX.w_pool_approved)
      (Ext.pool DemoX.w_pool_approved) Demo.alice (100 * ether) = Ok r)
    as [[tok' p'] Hd] by (eexists; by_eval).
  destruct (X24_rewards_accrue_from_time_zero
              (Ext.hrm DemoX.w_pool_approved) (Ext.pool DemoX.w_pool_approved)
              Demo.alice (100 * ether) 1700000000 tok' p')
    as [Hclock Hcalc].
  - by_eval.
  - exact Hd.
  - by_eval.
  - by_eval.
  - exists tok', p'. split; [exact Hd|]. split; [exact Hclock|].
    rewrite Hcalc. by_eval.
Defined.

Lemma sum_list_N_ext {A} (f g : A -> N) (l : list A) :
  (forall a, a ∈ l -> f a = g a) -> sum_list_N f l = sum_list_N g l.
Proof.
  induction l as [|a l IH]; intros Hfg; simpl; [reflexivity|].
  rewrite (Hfg a) by (left). rewrite IH; [reflexivity|].
  intros b Hb. apply Hfg. by right.
Qed.

Lemma stats_loop_Ok s l acc :
  (forall i, i ∈ l ->
     PT.availableTokens (PT.getProperty s i)
     <= PT.totalTokens (PT.getProperty s i)) ->
  PTQ.activeProperties acc + N.of_nat (length (List.filter (live s) l))
  <= MAX_UINT256 ->
  PTQ.totalValueLocked acc
  + sum_list_N (fun i => PT.totalValue (PT.getProperty s i))
      (List.filter (live s) l) <= MAX_UINT256 ->
  PTQ.totalTokensSold acc
  + sum_list_N (fun i => PT.totalTokens (PT.getProperty s i)
                         - PT.availableTokens (PT.getProperty s i))
      (List.filter (live s) l) <= MAX_UINT256 ->
  PTQ.stats_loop s l acc
  = Ok (PTQ.mkStats (PTQ.totalProperties acc)
          (PTQ.activeProperties acc
           + N.of_nat (length (List.filter (live s) l)))
          (PTQ.totalValueLocked acc
           + sum_list_N (fun i => PT.totalValue (PT.getProperty s i))
               (List.filter (live s) l))
          (PTQ.totalTokensSold acc
           + sum_list_N (fun i => PT.totalTokens (PT.getProperty s i)
                                  - PT.availableTokens (PT.getProperty s i))
               (List.filter (live s) l))
          (PTQ.totalInvestors acc)).
Proof.
  revert acc. induction l as [|i l IH]; intros acc Hav H1 H2 H3.
  - simpl. rewrite !N.add_0_r. by destruct acc.
  - cbn [PTQ.stats_loop List.filter] in *.
    fold (live s i) in *. destruct (live s i) eqn:Hlive.
    + cbn [length sum_list_N foldr] in *.
      fold (sum_list_N (fun i => PT.totalValue (PT.getProperty s i))
              (List.filter (live s) l)) in *.
      fold (sum_list_N (fun i => PT.totalTokens (PT.getProperty s i)
                                 - PT.availableTokens (PT.getProperty s i))
              (List.filter (live s) l)) in *.
      pose proof (Hav i ltac:(left)) as Hi.
      unfold U256.add, U256.sub.
      rewrite (proj2 (N.leb_le _ _)) by lia. cbn [bind].
      rewrite (proj2 (N.leb_le _ _)) by lia. cbn [bind].
      rewrite (proj2 (N.leb_le _ _)) by exact Hi. cbn [bind].
      rewrite (proj2 (N.leb_le _ _)) by lia. cbn [bind].
      rewrite IH; cbn [PTQ.totalProperties PTQ.activeProperties
                       PTQ.totalValueLocked PTQ.totalTokensSold
                       PTQ.totalInvestors]; try lia.
      * f_equal. f_equal; lia.
      * intros j Hj. apply Hav. by right.
    + apply IH; auto. intros j Hj. apply Hav. by right.
Qed.

Lemma elem_of_rangeN from len i :
  i ∈ rangeN from len -> from <= i < from + len.
Proof.
  unfold rangeN. intros H. apply list_elem_of_fmap in H as (k & -> & Hk).
  apply elem_of_seq in Hk. lia.
Qed.

(** X25. The platform statistics are taken over the properties that are
    active and verified.  On a well-formed registry the count of sold
    shares never underflows and equals the shares that investors hold in
    those properties; the value locked is the sum of their listed values;
    and the figure reported as the number of investors is a tenth of the
    sold shares, whatever the number of investors is. *)
Theorem X25_getPlatformStats_totals s :
  PT_inv s ->
  PT.tokenIdCounter s <= MAX_UINT256 ->
  sum_list_N (fun i => PT.totalValue (PT.getProperty s i))
    (List.filter (live s) (rangeN 0 (PT.tokenIdCounter s))) <= MAX_UINT256 ->
  sum_list_N (fun i => sumN PT.tokensOwned (PT.holdings s i))
    (List.filter (live s) (rangeN 0 (PT.tokenIdCounter s))) <= MAX_UINT256 ->
  PTQ.getPlatformStats s
  = Ok (PTQ.mkStats
          (PT.tokenIdCounter s)
          (N.of_nat (length (List.filter (live s)
                               (rangeN 0 (PT.tokenIdCounter s)))))
          (sum_list_N (fun i => PT.totalValue (PT.getProperty s i))
             (List.filter (live s) (rangeN 0 (PT.tokenIdCounter s))))
          (sum_list_N (fun i => sumN PT.tokensOwned (PT.holdings s i))
             (List.filter (live s) (rangeN 0 (PT.tokenIdCounter s))))
          (sum_list_N (fun i => sumN PT.tokensOwned (PT.holdings s i))
             (List.filter (live s) (rangeN 0 (PT.tokenIdCounter s))) / 10)).
Proof.
  intros Hinv Hcnt Hval Hsold.
  assert (forall i, i ∈ rangeN 0 (PT.tokenIdCounter s) ->
            PT.totalTokens (PT.getProperty s i)
            - PT.availableTokens (PT.getProperty s i)
            = sumN PT.tokensOwned (PT.holdings s i)
            /\ PT.availableTokens (PT.getProperty s i)
               <= PT.totalTokens (PT.getProperty s i)) as Hcons.
  { intros i Hi. apply elem_of_rangeN in Hi.
    destruct (pt_listed s Hinv i ltac:(lia)) as [p Hp].
    pose proof (pt_conservation s Hinv i p Hp) as Hc.
    unfold PT.getProperty. rewrite (rd_Some _ _ _ _ Hp). lia. }
  assert (sum_list_N (fun i => PT.totalTokens (PT.getProperty s i)
                               - PT.availableTokens (PT.getProperty s i))
            (List.filter (live s) (rangeN 0 (PT.tokenIdCounter s)))
          = sum_list_N (fun i => sumN PT.tokensOwned (PT.holdings s i))
              (List.filter (live s) (rangeN 0 (PT.tokenIdCounter s)))) as Heq.
  { apply sum_list_N_ext. intros i Hi.
    apply list_elem_of_In, filter_In in Hi as [Hi _].
    apply list_elem_of_In in Hi. by apply Hcons. }
  pose proof (filter_length_le (live s) (rangeN 0 (PT.tokenIdCounter s)))
    as Hlen.
  assert (length (rangeN 0 (PT.tokenIdCounter s))
          = N.to_nat (PT.tokenIdCounter s)) as Hrl.
  { unfold rangeN. by rewrite length_fmap, length_seq. }
  unfold PTQ.getPlatformStats.
  rewrite stats_loop_Ok;
    cbn [PTQ.totalProperties PTQ.activeProperties PTQ.totalValueLocked
         PTQ.totalTokensSold PTQ.totalInvestors].
  - cbn [bind]. unfold U256.div. cbn [N.eqb bind].
    rewrite !N.add_0_l, Heq. reflexivity.
  - intros i Hi. by apply Hcons.
  - lia.
  - lia.
  - rewrite Heq. lia.
Qed.

Lemma X25_witness :
  PTQ.getPlatformStats (Sys.pt Demo.w_sold)
  = Ok (PTQ.mkStats 1 1 (1000 * ether) 300 30).
Proof.
  rewrite X25_getPlatformStats_totals.
  - by_eval.
  - apply (inv_pt _ (reachable_Inv _ reachable_w_sold)).
  - by_eval.
  - by_eval.
  - by_eval.
Defined.

Lemma portfolio_loop_Ok s a l ids owned amounts total :
  length ids = length owned -> length ids = length amounts ->
  N.of_nat (length ids) + N.of_nat (length l) <= MAX_UINT256 ->
  total + sum_list_N (fun pid => PT.investmentAmount (PT.getInvestment s pid a))
            l <= MAX_UINT256 ->
  PTQ.portfolio_loop s a l (N.of_nat (length ids))
    (PTQ.mkPortfolio (ids ++ replicate (length l) 0)
       (owned ++ replicate (length l) 0)
       (amounts ++ replicate (length l) 0) total)
  = Ok (PTQ.mkPortfolio (ids ++ l)
          (owned ++ map (fun pid =>
                           PT.tokensOwned (PT.getInvestment s pid a)) l)
          (amounts ++ map (fun pid =>
                             PT.investmentAmount (PT.getInvestment s pid a)) l)
          (total + sum_list_N (fun pid =>
                                 PT.investmentAmount (PT.getInvestment s pid a))
                     l)).
Proof.
  revert ids owned amounts total.
  induction l as [|pid l IH]; intros ids owned amounts total Ho Ha Hlen Hsum.
  - simpl. by rewrite !app_nil_r, N.add_0_r.
  - cbn [PTQ.portfolio_loop length replicate map sum_list_N foldr
         PTQ.propertyIds PTQ.tokensOwned PTQ.investmentAmounts
         PTQ.totalInvested] in *.
    fold (sum_list_N (fun pid => PT.investmentAmount (PT.getInvestment s pid a))
            l) in *.
    rewrite write_at_next. cbn [bind].
    rewrite Ho at 1. rewrite write_at_next. cbn [bind].
    rewrite Ha at 1. rewrite write_at_next. cbn [bind].
    unfold U256.add.
    rewrite (proj2 (N.leb_le _ _)) by lia. cbn [bind].
    rewrite (proj2 (N.leb_le _ _)) by lia. cbn [bind].
    replace (N.of_nat (length ids) + 1) with (N.of_nat (length (ids ++ [pid])))
      by (rewrite length_app; simpl; lia).
    rewrite IH.
    + rewrite <- !app_assoc. simpl. f_equal. f_equal. lia.
    + rewrite !length_app. simpl. lia.
    + rewrite !length_app. simpl. lia.
    + rewrite length_app. simpl. lia.
    + lia.
Qed.

(** ** The property list of an investor *)

Lemma portfolio_step_frame s s' tx a :
  PT.investments s' = PT.investments s ->
  PT.investorProperties s' = PT.investorProperties s ->
  portfolio_step s s' tx a.
Proof.
  intros Hi Hp. left. unfold PT.getInvestorProperties, PT.holdings.
  rewrite Hi, Hp. split; [reflexivity | intros; reflexivity].
Qed.

Lemma listProperty_portfolio s sender now uri v n ty r s' pid :
  PT.listProperty s sender now uri v n ty r = Ok (s', pid) ->
  PT.investorProperties s' = PT.investorProperties s.
Proof.
  intros H. unfold PT.listProperty in H.
  apply bind_Ok in H as ([] & _ & H). apply bind_Ok in H as ([] & _ & H).
  apply bind_Ok in H as (price & _ & H).
  apply bind_Ok in H as (e1 & _ & H).
  apply bind_Ok in H as (e2 & _ & H). injection H as <- <-. reflexivity.
Qed.

Lemma createSellOrder_portfolio s sender now pid n price d s' oid :
  PT.createSellOrder s sender now pid n price d = Ok (s', oid) ->
  PT.investorProperties s' = PT.investorProperties s.
Proof.
  intros H. unfold PT.createSellOrder in H.
  apply bind_Ok in H as ([] & _ & H). apply bind_Ok in H as ([] & _ & H).
  apply bind_Ok in H as ([] & _ & H). apply bind_Ok in H as ([] & _ & H).
  apply bind_Ok in H as ([] & _ & H).
  apply bind_Ok in H as (? & _ & H). apply bind_Ok in H as (? & _ & H).
  apply bind_Ok in H as (? & _ & H). apply bind_Ok in H as (? & _ & H).
  injection H as <- <-. reflexivity.
Qed.

(** [credit_investment] puts the property at the end of the list of [who]
    exactly when [who] had no holding record in it. *)
Lemma credit_investment_portfolio self s now pid who tokens net s' :
  index_ok self (PT.holdings s pid) (PT.getPropertyInvestors s pid) ->
  who <> address0 ->
  PT.credit_investment s now pid who tokens net = Ok s' ->
  forall a,
    PT.getInvestorProperties s' a
    = if decide (a = who /\ PT.holdings s pid !! who = None)
      then PT.getInvestorProperties s a ++ [pid]
      else PT.getInvestorProperties s a.
Proof.
  intros Hinv Hwho H a. unfold PT.credit_investment in H.
  pose proof (investor_test self s pid who Hinv Hwho) as Htest.
  destruct (PT.investor (PT.getInvestment s pid who) =? address0) eqn:Ht.
  - assert (PT.holdings s pid !! who = None) as Hnone by (by apply Htest).
    apply bind_Ok in H as (owned & _ & H).
    apply bind_Ok in H as (paid & _ & H). injection H as <-.
    unfold PT.getInvestorProperties at 1. simpl.
    destruct (decide (a = who)) as [->|Hne].
    + rewrite rd_insert_eq, decide_True by done. reflexivity.
    + rewrite rd_insert_ne by congruence.
      rewrite decide_False by (intros [? _]; done). reflexivity.
  - assert (PT.holdings s pid !! who <> None) as Hsome.
    { intros Hn. apply Htest in Hn. congruence. }
    apply bind_Ok in H as (owned & _ & H).
    apply bind_Ok in H as (paid & _ & H). injection H as <-.
    rewrite decide_False by (intros [_ ?]; done). reflexivity.
Qed.

Lemma is_Some_insert_old {A} (m : gmap address A) k v a :
  is_Some (m !! k) -> is_Some (<[k := v]> m !! a) <-> is_Some (m !! a).
Proof.
  intros Hk. rewrite lookup_insert_is_Some. split.
  - intros [<-|[_ H]]; assumption.
  - intros H. destruct (decide (k = a)); [by left | by right].
Qed.

Lemma is_Some_insert_ne {A} (m : gmap address A) k v a :
  a <> k -> is_Some (<[k := v]> m !! a) <-> is_Some (m !! a).
Proof. intros Hne. by rewrite lookup_insert_ne. Qed.

(** the two cases of [portfolio_step] after a credit to [who] *)
Lemma credit_portfolio_step self s now pid who tokens net s1 s0 s' tx a :
  index_ok self (PT.holdings s pid) (PT.getPropertyInvestors s pid) ->
  who <> address0 -> who = Sys.sender tx -> acquires s0 tx pid ->
  PT.credit_investment s now pid who tokens net = Ok s1 ->
  PT.investorProperties s = PT.investorProperties s0 ->
  (forall pid' b, is_Some (PT.holdings s pid' !! b)
                  <-> is_Some (PT.holdings s0 pid' !! b)) ->
  PT.investments s' = PT.investments s1 ->
  PT.investorProperties s' = PT.investorProperties s1 ->
  portfolio_step s0 s' tx a.
Proof.
  intros Hidx Hwho Hsender Hacq Hcr Hip0 Hrec0 Hi' Hip'.
  pose proof (credit_investment_portfolio _ _ _ _ _ _ _ _ Hidx Hwho Hcr a)
    as Hlist.
  destruct (credit_investment_Ok _ _ _ _ _ _ _ _ Hidx Hwho Hcr)
    as (_ & _ & Hh & _ & Hoth & _).
  assert (forall q, PT.holdings s' q = PT.holdings s1 q) as Hh'.
  { intros q. unfold PT.holdings. by rewrite Hi'. }
  assert (PT.getInvestorProperties s' a = PT.getInvestorProperties s1 a)
    as Hl'.
  { unfold PT.getInvestorProperties. by rewrite Hip'. }
  assert (PT.getInvestorProperties s a = PT.getInvestorProperties s0 a) as Hl0.
  { unfold PT.getInvestorProperties. by rewrite Hip0. }
  assert (forall pid', pid' <> pid ->
            (is_Some (PT.holdings s' pid' !! a)
             <-> is_Some (PT.holdings s0 pid' !! a))) as Hother.
  { intros pid' Hne. rewrite Hh'. destruct (Hoth pid' Hne) as [-> _].
    apply Hrec0. }
  destruct (decide (a = who /\ PT.holdings s pid !! who = None))
    as [[-> Hnone]|Hold].
  - right. exists pid. split; [exact Hsender|]. split; [exact Hacq|].
    split.
    { destruct (PT.holdings s0 pid !! who) eqn:Hx; [|reflexivity].
      assert (is_Some (PT.holdings s pid !! who)) as [? ?]
        by (apply Hrec0; by eexists).
      congruence. }
    split; [rewrite Hh', Hh, lookup_insert_eq; by eexists|].
    split; [by rewrite Hl', Hlist, Hl0|]. exact Hother.
  - left. split; [by rewrite Hl', Hlist, Hl0|].
    intros q. destruct (decide (q = pid)) as [->|Hne]; [|by apply Hother].
    rewrite Hh', Hh, <- Hrec0.
    destruct (decide (a = who)) as [->|Hne].
    + apply is_Some_insert_old. apply not_eq_None_Some. intros Hn.
      apply Hold. by split.
    + by apply is_Some_insert_ne.
Qed.

Lemma exec_portfolio w tx w' a :
  Inv w -> Sys.valid_tx w tx -> Sys.exec w tx = Ok w' ->
  portfolio_step (Sys.pt w) (Sys.pt w') tx a.
Proof.
  intros Hinv ((Hs0 & Hspt & Hsdm) & Hnow & Hargs) H.
  destruct tx as [sender now c]. simpl in *.
  pose proof (inv_pt w Hinv) as Hp.
  unfold Sys.exec in H; simpl in H.
  destruct c; simpl in Hargs;
    apply bind_Ok in H as (r & Hr & H); injection H as <-; simpl;
    try (by apply portfolio_step_frame).
  - (* listProperty *)
    destruct r as [s' lid]. simpl.
    apply portfolio_step_frame.
    + by apply listProperty_Ok in Hr as (_&_&_&_&_&_&_&_&Hi&_).
    + by apply listProperty_portfolio in Hr.
  - (* verifyProperty *)
    apply verifyProperty_Ok in Hr as (_ & _ & ->).
    by apply portfolio_step_frame.
  - (* purchaseTokens *)
    destruct r as [tok' s'].
    destruct (purchaseTokens_Ok _ _ _ _ _ _ _ _ Hp Hs0 Hr)
      as (_ & _ & _ & _ & _ & _ & _ & _ & _ & (s1 & Hcr & ->)).
    simpl.
    eapply (credit_portfolio_step _ (Sys.pt w) _ propertyId sender);
      [apply (pt_index _ Hp) | exact Hs0 | reflexivity | | exact Hcr
      | reflexivity | intros; reflexivity | reflexivity | reflexivity].
    left. by exists tokens.
  - (* setPlatformFee *)
    unfold PT.setPlatformFee in Hr.
    apply bind_Ok in Hr as ([] & _ & Hr). apply bind_Ok in Hr as ([] & _ & Hr).
    injection Hr as <-. by apply portfolio_step_frame.
  - unfold PT.setFeeRecipient in Hr.
    apply bind_Ok in Hr as ([] & _ & Hr). apply bind_Ok in Hr as ([] & _ & Hr).
    injection Hr as <-. by apply portfolio_step_frame.
  - (* createSellOrder *)
    destruct r as [s' oid]. simpl. apply portfolio_step_frame.
    + by apply createSellOrder_frame in Hr as (-> & _).
    + by apply createSellOrder_portfolio in Hr.
  - (* buyFromOrder *)
    destruct r as [tok' s']. simpl.
    destruct (buyFromOrder_Ok _ _ _ _ _ _ _ _ Hr)
      as (_ & _ & Hpos & _ & Hne & Hown & _ & _ & _ & _ & (s1 & Hcr & -> & _)).
    set (o := PT.getSellOrder (Sys.pt w) orderId) in *.
    set (pid := PT.so_propertyId o) in *.
    set (sl := PT.seller o) in *.
    set (inv := PT.getInvestment (Sys.pt w) pid sl) in *.
    set (sm := PT.set_investment pid sl
                 (PT.set_tokensOwned (PT.tokensOwned inv - tokensToBuy) inv)
                 (Sys.pt w)) in *.
    pose proof (seller_record (Sys.pt w) pid sl tokensToBuy Hpos Hown) as Hrec.
    fold inv in Hrec.
    destruct (pt_index _ Hp pid) as (Hnd & Hdom & Hhold).
    destruct (Hhold sl inv Hrec) as (Hi & _ & _).
    assert (Hidx_m : index_ok (PT.self (Sys.pt w)) (PT.holdings sm pid)
                       (PT.getPropertyInvestors sm pid)).
    { unfold sm. rewrite holdings_set_investment, decide_True by reflexivity.
      apply index_ok_insert_old; [apply Hp | by rewrite Hrec | exact Hi]. }
    eapply (credit_portfolio_step _ sm _ pid sender);
      [exact Hidx_m | exact Hs0 | reflexivity | | exact Hcr
      | reflexivity | | reflexivity | reflexivity].
    + right. by exists orderId, tokensToBuy.
    + intros q b. unfold sm. rewrite holdings_set_investment.
      destruct (decide (pid = q)) as [<-|]; [|reflexivity].
      apply is_Some_insert_old. by rewrite Hrec.
  - (* cancelSellOrder *)
    apply cancelSellOrder_frame in Hr as (-> & _).
    by apply portfolio_step_frame.
  - unfold PT.transferOwnership in Hr.
    apply bind_Ok in Hr as ([] & _ & Hr). apply bind_Ok in Hr as ([] & _ & Hr).
    injection Hr as <-. by apply portfolio_step_frame.
  - unfold PT.renounceOwnership in Hr. apply bind_Ok in Hr as ([] & _ & Hr).
    injection Hr as <-. by apply portfolio_step_frame.
Qed.

Lemma Portfolio_inv_step s s' tx :
  Portfolio_inv s -> (forall a, portfolio_step s s' tx a) -> Portfolio_inv s'.
Proof.
  intros Hinv Hstep a. destruct (Hinv a) as [Hnd Hmem].
  destruct (Hstep a) as [[Hl Hrec]|(pid & _ & _ & Hnone & Hsome & Hl & Hrec)].
  - rewrite Hl. split; [exact Hnd|]. intros pid. by rewrite Hmem, Hrec.
  - rewrite Hl. split.
    + apply NoDup_app. repeat split; [exact Hnd| |apply NoDup_singleton].
      intros x Hx Hx'. apply list_elem_of_singleton in Hx'. subst x.
      apply Hmem in Hx as [? ?]. congruence.
    + intros q. rewrite elem_of_app, list_elem_of_singleton, Hmem.
      destruct (decide (q = pid)) as [->|Hne].
      * split; [intros _; exact Hsome | by right].
      * rewrite (Hrec q Hne). split; [intros [?|?]; done | by left].
Qed.

Lemma reachable_Portfolio_inv w : Sys.reachable w -> Portfolio_inv (Sys.pt w).
Proof.
  induction 1 as [c Hc | w w' tx Hreach IH Hv He].
  - intros a. split; [apply NoDup_nil_2|].
    intros pid. simpl. unfold PT.getInvestorProperties, PT.holdings, rd. simpl.
    rewrite !lookup_empty. simpl. rewrite lookup_empty.
    split; [intros Hx; by apply elem_of_nil in Hx | intros [? ?]; discriminate].
  - apply (Portfolio_inv_step (Sys.pt w) _ tx IH). intros a.
    apply exec_portfolio; [by apply reachable_Inv | exact Hv | exact He].
Qed.

(** X26. The list behind [getInvestorPortfolio] is the list of the
    properties the investor bought into, in the order of the first
    acquisition.  In every reachable world it holds each property in which
    the investor has a holding record once and no other; a transaction
    changes it only by putting a property at its end, when its sender gets
    its first shares of that property by [purchaseTokens] or
    [buyFromOrder]; and after every such acquisition the property is in
    the list.  The view stays within its arrays and returns that list with
    the shares held and the amount recorded for each entry and the sum of
    the recorded amounts, as long as that sum fits 256 bits. *)
Theorem X26_getInvestorPortfolio_lines_up :
  (forall w a,
      Sys.reachable w ->
      NoDup (PT.getInvestorProperties (Sys.pt w) a)
      /\ (forall pid, pid ∈ PT.getInvestorProperties (Sys.pt w) a
                      <-> is_Some (PT.holdings (Sys.pt w) pid !! a))
      /\ (N.of_nat (length (PT.getInvestorProperties (Sys.pt w) a))
          <= MAX_UINT256 ->
          sum_list_N
            (fun pid => PT.investmentAmount (PT.getInvestment (Sys.pt w) pid a))
            (PT.getInvestorProperties (Sys.pt w) a) <= MAX_UINT256 ->
          PTQ.getInvestorPortfolio (Sys.pt w) a
          = Ok (PTQ.mkPortfolio
                  (PT.getInvestorProperties (Sys.pt w) a)
                  (map (fun pid =>
                          PT.tokensOwned (PT.getInvestment (Sys.pt w) pid a))
                     (PT.getInvestorProperties (Sys.pt w) a))
                  (map (fun pid =>
                          PT.investmentAmount
                            (PT.getInvestment (Sys.pt w) pid a))
                     (PT.getInvestorProperties (Sys.pt w) a))
                  (sum_list_N
                     (fun pid =>
                        PT.investmentAmount (PT.getInvestment (Sys.pt w) pid a))
                     (PT.getInvestorProperties (Sys.pt w) a)))))
  /\ (forall w tx w' a,
        Sys.reachable w -> Sys.valid_tx w tx -> Sys.exec w tx = Ok w' ->
        portfolio_step (Sys.pt w) (Sys.pt w') tx a)
  /\ (forall w tx w' pid,
        Sys.reachable w -> Sys.valid_tx w tx -> Sys.exec w tx = Ok w' ->
        acquires (Sys.pt w) tx pid ->
        pid ∈ PT.getInvestorProperties (Sys.pt w') (Sys.sender tx)).
Proof.
  split; [|split].
  - intros w a Hreach.
    destruct (reachable_Portfolio_inv w Hreach a) as [Hnd Hmem].
    split; [exact Hnd|]. split; [exact Hmem|].
    intros Hlen Hsum. unfold PTQ.getInvestorPortfolio.
    etransitivity.
    { apply (portfolio_loop_Ok (Sys.pt w) a
               (PT.getInvestorProperties (Sys.pt w) a) [] [] [] 0);
        simpl; auto; lia. }
    reflexivity.
  - intros w tx w' a Hreach Hv He.
    apply exec_portfolio; [by apply reachable_Inv | exact Hv | exact He].
  - intros w tx w' pid Hreach Hv He Hacq.
    pose proof (Sys.reach_step w w' tx Hreach Hv He) as Hreach'.
    destruct (reachable_Portfolio_inv w' Hreach' (Sys.sender tx)) as [_ Hmem].
    apply Hmem.
    assert (PT.tokensOwned (PT.getInvestment (Sys.pt w') pid (Sys.sender tx))
            <> 0) as Hpos.
    { destruct tx as [sender now c]. unfold acquires in Hacq. simpl in *.
      destruct Hacq as [(n & ->)|(oid & n & -> & <-)].
      - rewrite exec_purchaseTokens in He.
        apply bind_Ok in He as ([tok' s'] & Hp & He). injection He as <-.
        pose proof (purchaseTokens_checks _ _ _ _ _ _ _ _ Hp)
          as (_ & _ & _ & Hmin & _).
        pose proof MIN_INVESTMENT_pos as Hmin0.
        apply purchaseTokens_effects in Hp as (Hown & _). simpl.
        rewrite Hown. nia.
      - rewrite exec_buyFromOrder in He.
        apply bind_Ok in He as ([tok' s'] & Hb & He). injection He as <-.
        apply buyFromOrder_effects in Hb as (_ & Hn & _ & _ & _ & Hbu & _).
        simpl. rewrite Hbu. lia. }
    destruct (PT.holdings (Sys.pt w') pid !! Sys.sender tx) eqn:Hx;
      [by eexists|].
    rewrite (getInvestment_absent _ _ _ Hx) in Hpos. by exfalso.
Qed.

Lemma X26_witness :
  PTQ.getInvestorPortfolio (Sys.pt Demo.w_sold) Demo.alice
  = Ok (PTQ.mkPortfolio [0] [200] [195 * ether] (195 * ether))
  /\ exists w',
       Sys.exec Demo.w_sold (Demo.tx Demo.carol (Sys.PurchaseTokens 0 100))
       = Ok w'
       /\ 0 ∈ PT.getInvestorProperties (Sys.pt w') Demo.carol.
Proof.
  split.
  - destruct (proj1 X26_getInvestorPortfolio_lines_up Demo.w_sold Demo.alice
                reachable_w_sold) as (_ & _ & Hview).
    rewrite Hview; by_eval.
  - assert (exists w',
      Sys.exec Demo.w_sold (Demo.tx Demo.carol (Sys.PurchaseTokens 0 100))
      = Ok w') as [w' He] by (eexists; by_eval).
    exists w'. split; [exact He|].
    apply (proj2 (proj2 X26_getInvestorPortfolio_lines_up) Demo.w_sold
             (Demo.tx Demo.carol (Sys.PurchaseTokens 0 100)) w' 0
             reachable_w_sold).
    + apply valid_txb_true. by_eval.
    + exact He.
    + left. by exists 100.
Defined.
